(* ===== verification/_CoqProject ===== *)
-Q . S2P
Prelude.v
Resume.v
Linear.v
GoText.v
Codec.v
Json.v
Protocol.v
Store.v
Tables.v
World.v
MMClient.v
MMClientFacts.v
Provisioner.v
Fake.v
Sqlite.v
Integrity.v
StoreFacts.v
Contract.v
CoreText.v
Sender.v
Hub.v
HubFacts.v
Posts.v
Core.v
CoreGuards.v
CoreFacts.v
JobFacts.v
HelloFacts.v
PostFacts.v
Onboarding.v
OnboardingFacts.v
System.v
ContractFacts.v
Tokens.v
Aes.v
Lift.v
OAuth.v
OAuthFacts.v
Server.v
GoDuration.v
Startup.v
Process.v
Routes.v
Demo.v
Conformance.v
Witnesses.v
ServiceWitnesses.v
Bots.v
Rely.v
Migrate.v
Provenance.v
HarnessText.v
HarnessWorld.v
AgentCli.v
StateFiles.v
JsonText.v
JsonTextFacts.v
Frames.v
Blocked.v
FrameWitnesses.v
HarnessClient.v
Daemon.v
Socket.v
DaemonSafety.v
DaemonSystem.v
AgentFacts.v
Mcp.v
McpFacts.v
Setup.v
SetupFacts.v
EndToEnd.v
Bridge.v
DaemonFacts.v
JobRunFacts.v
Pairing.v
Paired.v
HarnessDemo.v
HarnessWitnesses.v
SetupWitnesses.v
EndToEndWitnesses.v
