(* ===== verification/Prelude.v ===== *)
(** * The mattermost-harness-bridge, verified: root of the development

    The program lets a Mattermost user run coding agents on a machine of
    their own.  A _broker_ (packages [internal/broker/...]) receives posts and
    clicks from Mattermost, keeps users' harnesses, bots, jobs and approvals in
    an SQLite database ([internal/store]), and talks over WebSockets to the
    _harnesses_ on the users' machines ([internal/harness]), in the protocol of
    [internal/protocol].  On such a machine a daemon accepts the jobs of its
    owner, runs an agent for each, and asks the owner, through the broker,
    before the agent uses a tool.  This development models the broker and the
    daemon, each as a concurrent program of its own over the same protocol.

    ** The model

    A handler is a program of atomic steps on a [World] (file [Resume]): one
    SQL statement, one locked section of a Go mutex, one call of Mattermost or
    one frame on a socket is one step, and steps of different handlers
    interleave freely.  [run] executes a program alone, [wp] is its (total)
    weakest precondition, [guards R] says that every step of it, from any
    state, stays within [R], and [reach] is the interleaving semantics of a
    pool to which the outside may add handlers at any time.  A guarantee of
    every handler holds in every reachable state ([pool_guarantee]).

    The daemon's programs run on an [HWorld] in the same way ([HarnessWorld]):
    a job is an index into a heap of jobs, an approval waits on a channel of a
    heap of channels, files are part of the state, goroutines are entries of a
    list the scheduler picks from, and nothing runs after a panic.  A loop of a
    goroutine is one turn that starts itself again.  Its safety is proved with
    rely/guarantee conditions ([rg] of [Rely]): a thread may use what it saw as
    long as no other thread can undo it; its crash behaviour with [cut] and
    [throughout], which speak of every state a run passes through.

    The installation service runs on a world of its own that contains the
    broker's ([OWorld]; [lift] of [Lift] runs a program of the broker in it).

    What is not in the repository is the class [Env] of [World] for the broker,
    [OEnv] of [OAuth] and [WebhookAPI] of [Server] for what the installation
    service and the webhooks ask Mattermost, [Client4] and [Stream] of [MMClient] for
    the vendor's client and its event stream,
    [HookClient4] of [Provisioner] likewise, [WebSocket] of [Frames] for the
    WebSocket library, of which [WebSocketLaws] assumes that it keeps its read
    limit, [FloatText] of [JsonText] for the decimal text of a float,
    [HEnv] of [HarnessWorld] for the daemon, [BridgeEnv] of [Mcp] for the socket
    between the CLI's permission tool and the daemon, and [SetupEnv] of [Setup]
    for what the commands that set up a machine ask: the clock,
    ULIDs, random bytes, Mattermost's answers, failing writes on sockets, and
    faults of the database file and of state files, what an agent does, the
    order of ready cases of a [select], each an arbitrary function of the
    moment it is asked.  No other law about it is assumed ([clock_advances], that the
    daemon's clock passes every moment, and [clock_monotone] are hypotheses of two
    theorems); [NoFaults], that the database file
    works, is a hypothesis of the theorems that say what a handler achieves and
    is absent from those that say what can never happen.  Hypotheses
    [fresh_messages] say that a new message id is not taken yet.

    Integers are Go's: [int] conversions wrap ([wrap_int], [wrap64]), durations
    are nanoseconds, times in rows and messages are milliseconds ([col_time]).
    Strings are byte strings, and where the Go code looks at runes so does the
    model ([GoText], with Go's treatment of invalid UTF-8).  The only fuel is
    the 3 of [parts_less], the bound of the Go loop, the number of polls of
    [WaitInit], of which [WaitInit_ends] gives one that is enough, and the calls of
    the JSON reader, of which [read_fuel] shows that two per byte are; and the parts
    of a duration, at most one per byte ([read_parts_fuel]).

    ** The files

    - [Prelude], [Resume]: this file's results, errors, sorting and tables;
      programs, their logic and their interleaving.  [Linear]: calls of several
      steps that take effect in one of them, in every interleaving.
    - [GoText], [Codec], [Json]: what the code uses of Go's [strings],
      [unicode/utf8], [encoding/*], [crypto/sha256], [crypto/hmac].
    - [Protocol]: [internal/protocol]: message types, payloads, envelopes.
    - [Store]: the types of [internal/store/store.go] and the database.
      [Tables]: one definition per SQL statement of
      [internal/store/sqlite], constraints of the schema included.  [Sqlite]:
      the methods of the store as sequences of statements.  [Migrate]: opening the
      file with its migrations, over failures and crashes.
    - [World]: the broker's state and the operations on it; the rules and
      automation ([secure] for guarantees, [flow] for totality).
    - [MMClient], [MMClientFacts]: [internal/broker/mattermost/client.go]: the REST
      methods, and the listener (a reader, a queue of 256 and a worker) as a step
      relation.  [Provisioner]: [provisioner.go], the management client of an
      installation.  [Fake]: [mmtest/fake.go], the Mattermost of the Go tests.
    - [Integrity]: [db_wf], the constraints of the schema; [db_evolves], what no
      statement ever undoes; every statement keeps both.  [StoreFacts]: the
      methods' behaviour.  [Contract]: the interfaces of
      [internal/store/store.go] as types of calls ([StoreCall]), what each call
      promises ([contract]) and the sqlite method that carries it out;
      [ContractFacts]: that method takes effect at one instant and keeps the
      promise there, in every interleaving of the broker.
    - [Sender], [Hub], [HubFacts]: [internal/broker/hub], the interface it
      offers the core (the class [Sender] with [SenderLaws]) and the one it
      asks of it ([Handler], [HandlerLaws]); [hub_sender] and [core_handler] are
      the instances, [hub_sender_laws] and [core_handler_laws] their laws.
    - [CoreText], [Posts], [Core], [Onboarding]: [internal/broker/core]: texts
      and tokens; posting and the debounced edits; the handlers of
      [core.go]; those of [onboarding.go].  A Go function of many cases is
      split into definitions that follow its phases and carry its name in the
      middle of theirs ([createJob] with [target_harness], [new_job],
      [dispatch_job]; [HandleCallback] with [announce_decision], ...).
    - [CoreGuards], [CoreFacts], [JobFacts], [HelloFacts], [PostFacts],
      [OnboardingFacts]: what the handlers promise.
    - [System]: all entry points in one pool.  [Tokens]: the token of a claimed
      request is that of its harness, in every interleaving.
    - [Aes]: AES-256-GCM and the base64 of Go's library, with the test vectors
      of their standards.  [Lift]: programs of a part of a world.  [OAuth],
      [OAuthFacts]: [internal/broker/oauth].  [Server]: the HTTP endpoints of
      [internal/cli/broker.go] and [webhook.go].  [GoDuration], [Startup]: the
      options of [mhb broker], with [time.ParseDuration], and what [runBroker]
      assembles from them; [Routes]: its patterns; [Process]: its goroutines, the
      way they are started and taken down, and the status it ends with.  [Bots]:
      [internal/broker/bots].  [ServiceWitnesses]: their theorems applied.
    - [Demo], [Witnesses]: a concrete broker, a race on it, and the theorems
      applied to it.  [Conformance]: [internal/store/storetest/suite.go] as programs,
      run on the model of the sqlite store.
    - [Rely]: threads that rely on what they saw; programs cut short.
      [Provenance]: what the broker's dispatches and approval answers stand
      for in its database ([authentic]), in every interleaving.
    - [HarnessText]: the daemon's texts: keys of conversations, summaries of
      tool calls, the transcript of a thread, prompts.  [HarnessWorld]: its
      state, its outside, files and frames.
    - [AgentCli]: [internal/harness/agent/claude] and [codex] (Modules [Claude]
      and [Codex]; what the two packages share is there once).  [AgentFacts]:
      how their streams are read, how a run is reported, how it is stopped, and
      with what arguments the daemon starts them.
    - [JsonText], [JsonTextFacts]: JSON as text, what [encoding/json] writes and
      reads.  [Frames], [FrameWitnesses]: [internal/wire/conn.go] on bytes;
      [Blocked]: what becomes of a dispatch above its limit.
    - [StateFiles]: [client/outbox.go] and [sessions/sessions.go].
      [HarnessClient]: [client/client.go], against the class [MessageHandler].
      [Daemon]: [harness.go] and [permission.go]; [daemon_handler] is the
      instance of [MessageHandler], and [daemon_entry] what may happen in the
      process.  [Socket]: the life of the permission socket.
    - [DaemonSafety]: the invariant [daemon_inv] and that every step of every
      goroutine keeps it ([HandlerSafe] is what the client's proofs ask of its
      handler); [DaemonSystem]: what it says of every reachable state.
      [EndToEnd]: a broker and a daemon with a network between them
      ([delivered]: a frame the daemon reads is one the broker sent).
      [DaemonFacts], [JobRunFacts]: what the operations do, alone.
    - [Mcp], [McpFacts]: [internal/mcp/stdio.go], the server as a step relation on
      its input, its goroutines and its output, and the tool which
      [permission.go] serves with it.  [Bridge]: that tool, a daemon and a broker
      together.
    - [Setup]: [config.go], [initflow.go] and [pair.go] of [internal/harness], and
      the commands of [internal/cli/harness.go] and [init.go], on the files of
      [HarnessWorld].  [SetupFacts]: the configuration file; [Pairing]: the wait
      for the owner's claim; [Paired]: the broker and the machine together.
    - [HarnessDemo], [HarnessWitnesses], [SetupWitnesses]: a concrete daemon, three
      runs of it, and the theorems applied to it.  [EndToEndWitnesses]: a click in
      Mattermost, followed through both programs to the tool.

    ** What is shown

    - In every interleaving: integrity of the database; the life cycle of
      jobs; finality of decisions, codes and claims ([System]); every dispatch
      and every approval stands for a job or a decision of its owner
      ([Provenance]).
    - Both programs together: a tool runs only on a request the broker's
      database holds as allowed by the job's owner; an agent runs only for a
      job of that database ([EndToEnd]); the CLI is told to go on only then, for
      the job it runs for ([Bridge]).
    - Store: every call takes effect at one instant, where the contract of the
      interface holds ([store_linearizable]; [PlainFaults] is its hypothesis on the
      texts of faults; [DeleteHarness] and [ClaimInit], which the broker never
      calls, keep it as well); the conformance suite passes; migrations are applied once;
      compare-and-set transitions, single-use codes, first-wins
      decisions, all-or-nothing claims, exact expiry, ordered queues.
    - Hub: durable before sent, ordered flush, one ack per message, a newer
      connection wins, authentication.
    - Core: each handler's effect on every branch, refusals included: who may
      start, decide, report and cancel; handshake; sweeper; identity of posts.
    - The event stream: posts reach the core in order, once, none lost while the
      context lives; [Listen] can always return once it has ended.
    - Onboarding: polling needs the secret; the token it hands out authenticates
      the machine that asked for it, also as written to its configuration; making a bot is compensated at
      every point of failure; a claim binds to the user who typed it.
    - The installation service: who may install what, with which state, code
      and browser, also in every interleaving with the broker; which grant a
      client carries; an installation is all or nothing.  What webhooks and
      slash commands must bring to get to the core.  The listeners follow the
      table of bots.
    - Text: bounds in runes, tokens, versions.  Payloads survive the wire, down to
      the bytes and up to the limit of a frame; a dispatch can be above it.
    - The daemon, in every interleaving: a tool call is allowed only by the
      owner's answer to this very call; agents run only for the owner's
      dispatches, in configured directories; the job table and the reconnect
      delay are bounded; the one panic there can be.
    - The daemon's operations: the outbox survives a crash at any step; a
      reliable message is on disk before it is sent and sent again after a
      reconnect; every message of the broker is acknowledged once; a dispatch
      on every branch; a job that runs ends with a result; a call nobody
      answers is denied.
    - The MCP server: every request is answered once, with its id.  The
      configuration: a round trip, also over a crash; commands keep it well formed.
      Pairing: the wait ends, with the broker's answer or for the reason given.
    - The broker's process: options come from flags, environment and defaults in
      this order; every request has at most one route; once asked to stop, or when
      the server fails, it comes to its end ([broker_stops]).
    - The agents: claude never runs without the owner's bridge; the stream
      reader equals a declarative reading; every outcome; the signals.
    - [attachments_exceed_frame] with [oversized_dispatch_blocks], [Close_waits],
      [stale_edit_after_final], [codex_noise], [signal_after_reap], [cancelJob_queued], [ping_touches_harness],
      [listen_failure_exits_zero],
      [daemon_panics] and [dispatch_runs_twice] record behaviour that its authors may not have meant.

    ** What is not modelled

    Log lines; the HTTP upgrade and read timeouts (in the two programs a connection
    yields a list of envelopes and then fails; what a frame is and when it is
    refused is in [Frames]); HTTP itself (a request is what its
    handler reads, a response what it writes) and the JSON text of a grant; the
    agents' processes (a [Process] is what one prints and how it ends; to the
    daemon an agent is a function of [HEnv] that yields snapshots and a result);
    what commands print, and the flag library (it hands over names and texts).  [context] cancellation appears only where it decides
    something: a replaced connection stops reading, a job's cancelled context
    is a flag its agent may act on.  The end of the daemon's process is a
    panic or a cut; its orderly shutdown is modelled only for the permission socket.  The frames each of
    the two programs receives are arbitrary, but in [EndToEnd], where those of
    the daemon are among those the broker sent. *)

From stdpp Require Export base tactics option list gmap sets strings sorting relations.
From Stdlib Require Export ZArith Lia.

Open Scope Z_scope.

(** ** Errors and results of fallible Go calls

    A Go call that returns [(T, error)] is a [res T]. The sentinels of
    [internal/store] that callers test with [errors.Is] are constructors;
    every other error is [ErrOther] with its message. *)
Inductive error : Type :=
| ErrNotFound
| ErrConflict
| ErrOther (msg : string).

Inductive res (A : Type) : Type :=
| Ok (a : A)
| Err (e : error).
Arguments Ok {A} a.
Arguments Err {A} e.

#[export] Instance error_eq_dec : EqDecision error.
Proof. solve_decision. Defined.

Definition error_text (e : error) : string :=
  match e with
  | ErrNotFound => "store: not found"
  | ErrConflict => "store: conflict"
  | ErrOther msg => msg
  end.

Definition is_ok {A} (r : res A) : bool :=
  match r with Ok _ => true | Err _ => false end.

(** The value of a call whose error is discarded with [_]. *)
Definition or_zero {A} (zero : A) (r : res A) : A :=
  match r with Ok a => a | Err _ => zero end.

Definition res_map {A B} (f : A -> B) (r : res A) : res B :=
  match r with Ok a => Ok (f a) | Err e => Err e end.

(** ** Time

    [time.Time] and [time.Duration] are integers of nanoseconds; the
    database and the wire keep milliseconds. *)
Abbreviation Time := Z (only parsing).
Abbreviation Duration := Z (only parsing).

Definition nanosecond : Duration := 1.
Definition millisecond : Duration := 1000000.
Definition second : Duration := 1000 * millisecond.
Definition minute : Duration := 60 * second.
Definition hour : Duration := 60 * minute.

(** [Time.UnixMilli] rounds towards minus infinity: the nanosecond part of a
    [Time] is never negative. *)
Definition unix_milli (t : Time) : Z := t / millisecond.
Definition from_unix_milli (v : Z) : Time := v * millisecond.

(** The zero [time.Time], 1 January of the year 1. *)
Definition zero_time : Time := - 62135596800 * second.

Lemma unix_milli_from v : unix_milli (from_unix_milli v) = v.
Proof. unfold unix_milli, from_unix_milli. by rewrite Z.div_mul. Qed.

Lemma unix_milli_mono t1 t2 : t1 <= t2 -> unix_milli t1 <= unix_milli t2.
Proof. intros H. apply Z.div_le_mono; [done | exact H]. Qed.

Lemma from_unix_milli_round t :
  from_unix_milli (unix_milli t) <= t < from_unix_milli (unix_milli t) + millisecond.
Proof.
  unfold from_unix_milli, unix_milli.
  pose proof (Z.div_mod t millisecond ltac:(done)).
  pose proof (Z.mod_pos_bound t millisecond ltac:(done)). lia.
Qed.

(** ** Tactics *)

(** Case analysis on every [match] and [if] of the goal or a hypothesis. *)
Ltac break_goal :=
  match goal with
  | |- context [match ?x with _ => _ end] =>
      lazymatch x with
      | context [match _ with _ => _ end] => fail
      | _ => destruct x eqn:?
      end
  end.

Ltac break_hyp H :=
  match type of H with
  | context [match ?x with _ => _ end] =>
      lazymatch x with
      | context [match _ with _ => _ end] => fail
      | _ => destruct x eqn:?
      end
  end.

(** Split boolean conjunctions and turn boolean comparisons of [Z] and
    strings into propositions. *)
Create Rewrite HintDb boolprop.
#[export] Hint Rewrite andb_true_iff andb_false_iff orb_true_iff orb_false_iff
  negb_true_iff negb_false_iff Z.eqb_eq Z.eqb_neq Z.ltb_lt Z.ltb_ge Z.leb_le Z.leb_gt
  String.eqb_eq String.eqb_neq bool_decide_eq_true bool_decide_eq_false : boolprop.
Ltac boolprop_in H := progress autorewrite with boolprop in H.
Ltac boolprop :=
  repeat match goal with
  | H : context [_ = true] |- _ => boolprop_in H
  | H : context [_ = false] |- _ => boolprop_in H
  end;
  autorewrite with boolprop.

(** ** Lists *)

(** A query's [ORDER BY key]: rows sorted by a key. SQL leaves the order of
    rows with equal keys open; so do the statements proved about it. *)
Section OrderBy.
Context {A : Type} (key : A -> Z).

Definition key_le (x y : A) : Prop := key x <= key y.
#[export] Instance key_le_dec : RelDecision key_le.
Proof. intros x y. unfold key_le. apply _. Defined.
#[export] Instance key_le_total : Total key_le.
Proof. intros x y. unfold key_le. lia. Qed.
#[export] Instance key_le_trans : Transitive key_le.
Proof. intros x y z. unfold key_le. lia. Qed.

Definition order_by (l : list A) : list A := merge_sort key_le l.

Lemma order_by_perm l : order_by l ≡ₚ l.
Proof. apply merge_sort_Permutation. Qed.

Lemma order_by_sorted l : StronglySorted key_le (order_by l).
Proof. apply (StronglySorted_merge_sort _). Qed.

Lemma elem_of_order_by x l : x ∈ order_by l <-> x ∈ l.
Proof. by rewrite order_by_perm. Qed.

Lemma order_by_nil_inv l : order_by l = [] <-> l = [].
Proof.
  split; intros H; [|by subst].
  apply Permutation_nil. by rewrite <- (order_by_perm l), H.
Qed.
End OrderBy.

Lemma sorted_take {A} (R : A -> A -> Prop) n l : StronglySorted R l -> StronglySorted R (take n l).
Proof. intros H. rewrite <- (take_drop n l) in H. by eapply StronglySorted_app_1_l. Qed.

Lemma sorted_impl {A} (R S : A -> A -> Prop) l :
  (forall x y, R x y -> S x y) -> StronglySorted R l -> StronglySorted S l.
Proof. intros H Hl. rewrite <- (list_fmap_id l). by eapply (StronglySorted_fmap id). Qed.

Lemma elem_of_take_sub {A} n (l : list A) x : x ∈ take n l -> x ∈ l.
Proof. intros H. rewrite <- (take_drop n l). apply elem_of_app. by left. Qed.

(** [ORDER BY key, id]: ties are resolved by a text column. *)
Section OrderById.
Context {A : Type} (key : A -> Z) (id : A -> string).

Definition key_id_le (x y : A) : Prop :=
  key x < key y \/ (key x = key y /\ String.le (id x) (id y)).
#[export] Instance key_id_le_dec : RelDecision key_id_le.
Proof. intros x y. unfold key_id_le. apply _. Defined.
#[export] Instance key_id_le_total : Total key_id_le.
Proof.
  intros x y. unfold key_id_le. destruct (Z.lt_trichotomy (key x) (key y)) as [?|[?|?]]; [auto| |auto].
  destruct (total String.le (id x) (id y)); auto.
Qed.
#[export] Instance key_id_le_trans : Transitive key_id_le.
Proof.
  intros x y z. unfold key_id_le. intros [?|[? Hxy]] [?|[? Hyz]]; [left; lia..|].
  right. split; [lia|]. by trans (id y).
Qed.

Definition order_by_id (l : list A) : list A := merge_sort key_id_le l.

Lemma order_by_id_perm l : order_by_id l ≡ₚ l.
Proof. apply merge_sort_Permutation. Qed.

Lemma order_by_id_sorted l : StronglySorted key_id_le (order_by_id l).
Proof. apply (StronglySorted_merge_sort _). Qed.

Lemma elem_of_order_by_id x l : x ∈ order_by_id l <-> x ∈ l.
Proof. by rewrite order_by_id_perm. Qed.
End OrderById.

(** [ORDER BY id] on a text column. *)
Definition text_le {A} (id : A -> string) (x y : A) : Prop := String.le (id x) (id y).
#[export] Instance text_le_dec {A} (id : A -> string) : RelDecision (text_le id).
Proof. intros x y. unfold text_le. apply _. Defined.
Definition order_by_text {A} (id : A -> string) (l : list A) : list A := merge_sort (text_le id) l.

(** ** Tables

    A table with a text primary key is a finite map; [select P t] are the
    rows with [P], in no particular order. *)
Section Select.
Context {A : Type}.

Definition select (P : A -> bool) (t : gmap string A) : list A :=
  List.filter P (map_to_list t).*2.

Lemma elem_of_select P t x :
  x ∈ select P t <-> P x = true /\ exists k, t !! k = Some x.
Proof.
  unfold select. rewrite list_elem_of_In, List.filter_In, <- list_elem_of_In.
  rewrite list_elem_of_fmap. split.
  - intros [[[k v] [-> Hkv]] HP]. split; [done|].
    exists k. by apply elem_of_map_to_list.
  - intros [HP [k Hk]]. split; [|done].
    exists (k, x). split; [done|]. by apply elem_of_map_to_list.
Qed.

Lemma select_nil P t :
  select P t = [] <-> forall k x, t !! k = Some x -> P x = false.
Proof.
  split.
  - intros H k x Hk. destruct (P x) eqn:HP; [|done].
    assert (x ∈ select P t) as Hin by (apply elem_of_select; eauto).
    rewrite H in Hin. by apply elem_of_nil in Hin.
  - intros H. destruct (select P t) as [|x l] eqn:E; [done|].
    assert (x ∈ select P t) as Hin by (rewrite E; left).
    apply elem_of_select in Hin as [HP [k Hk]].
    rewrite (H _ _ Hk) in HP. done.
Qed.
End Select.

(** [UPDATE t SET f WHERE P]: the rows with [P] become [f row]. *)
Definition update_where {A} (P : A -> bool) (f : A -> A) (t : gmap string A) : gmap string A :=
  (fun r => if P r then f r else r) <$> t.

Lemma lookup_update_where {A} P (f : A -> A) t k :
  update_where P f t !! k = (fun r => if P r then f r else r) <$> t !! k.
Proof. unfold update_where. apply (lookup_fmap _ t). Qed.

(** Some row of [t] satisfies [P]: the test behind a UNIQUE constraint or a
    foreign key. *)
Definition exists_row {A} (P : A -> bool) (t : gmap string A) : bool :=
  match select P t with [] => false | _ :: _ => true end.

Lemma exists_row_false {A} P (t : gmap string A) :
  exists_row P t = false <-> forall k x, t !! k = Some x -> P x = false.
Proof. rewrite <- select_nil. unfold exists_row. destruct (select P t); naive_solver. Qed.

Lemma exists_row_true {A} P (t : gmap string A) :
  exists_row P t = true <-> exists k x, t !! k = Some x /\ P x = true.
Proof.
  unfold exists_row. split.
  - destruct (select P t) as [|x l] eqn:E; [done|]. intros _.
    assert (x ∈ select P t) as Hin by (rewrite E; left).
    apply elem_of_select in Hin as [HP [k Hk]]. eauto.
  - intros (k & x & Hk & HP).
    assert (x ∈ select P t) as Hin by (apply elem_of_select; eauto).
    destruct (select P t); [by apply elem_of_nil in Hin | done].
Qed.

(** [refreshes same t t']: the same keys, and rows related by [same].
    [grows same t t']: rows are kept, up to [same], and rows may be added. *)
Definition refreshes {A} (same : A -> A -> Prop) (t t' : gmap string A) : Prop :=
  forall k, match t !! k, t' !! k with
            | Some x, Some y => same x y
            | None, None => True
            | _, _ => False
            end.
Definition grows {A} (same : A -> A -> Prop) (t t' : gmap string A) : Prop :=
  forall k x, t !! k = Some x -> exists y, t' !! k = Some y /\ same x y.

Section Growth.
Context {A : Type} (same : A -> A -> Prop).
Implicit Types t : gmap string A.

Lemma refreshes_row t t' k y :
  refreshes same t t' -> t' !! k = Some y -> exists x, t !! k = Some x /\ same x y.
Proof. intros H Hk. specialize (H k). rewrite Hk in H. destruct (t !! k); naive_solver. Qed.

Lemma refreshes_is_Some t t' k : refreshes same t t' -> is_Some (t !! k) -> is_Some (t' !! k).
Proof. intros H [x Hk]. specialize (H k). rewrite Hk in H. destruct (t' !! k); naive_solver. Qed.

Lemma refreshes_grows t t' : refreshes same t t' -> grows same t t'.
Proof. intros H k x Hk. specialize (H k). rewrite Hk in H. destruct (t' !! k); naive_solver. Qed.

Lemma refreshes_where P f t :
  (forall x, same x x) -> (forall x, P x = true -> same x (f x)) ->
  refreshes same t (update_where P f t).
Proof.
  intros Hr Hf k. rewrite lookup_update_where.
  destruct (t !! k) as [x|]; simpl; [|done]. destruct (P x) eqn:HP; auto.
Qed.

Lemma grows_refl `{!Reflexive same} t : grows same t t.
Proof. intros k x Hk. eauto. Qed.

Lemma grows_trans `{!Transitive same} t1 t2 t3 :
  grows same t1 t2 -> grows same t2 t3 -> grows same t1 t3.
Proof.
  intros H1 H2 k x Hk. destruct (H1 _ _ Hk) as (y & Hy & ?).
  destruct (H2 _ _ Hy) as (z & Hz & ?). exists z. split; [done | by trans y].
Qed.

Lemma grows_insert_fresh `{!Reflexive same} t k x : t !! k = None -> grows same t (<[k := x]> t).
Proof.
  intros Hk i y Hi. exists y. split; [|done].
  rewrite lookup_insert_ne; [done | congruence].
Qed.

Lemma grows_insert `{!Reflexive same} t k x y :
  t !! k = Some x -> same x y -> grows same t (<[k := y]> t).
Proof.
  intros Hk Hs i z Hi. destruct (decide (i = k)) as [->|Hne].
  - rewrite lookup_insert_eq. exists y. split; [done|]. by simplify_eq.
  - exists z. by rewrite lookup_insert_ne.
Qed.
End Growth.

(** Induction on the length of a list. *)
Lemma list_len_ind {A} (P : list A -> Prop) :
  (forall l, (forall k, (length k < length l)%nat -> P k) -> P l) -> forall l, P l.
Proof.
  intros H l. remember (length l) as n eqn:Hn. revert l Hn.
  induction n as [n IH] using lt_wf_ind. intros l ->. apply H.
  intros k Hk. by apply (IH (length k)).
Qed.
