(* ===== verification/Resume.v ===== *)
(** * Resumption programs: handlers as sequences of atomic steps

    Handlers of the broker run on several goroutines that share the
    database, the hub's connection table and the mutexes.  A handler is a
    [prog W A]: a tree of atomic steps on a world [W], where a step may block
    (a mutex that is held) and returns a value that picks the rest of the
    program.  One SQL statement, one locked section, one call of an external
    service is one step.

    - [run] executes a program alone, from start to end;
    - [wp] is its weakest precondition: the run ends and its result satisfies
      the postcondition;
    - [guards R] says that every single step of the program stays within the
      relation [R], whatever the state it starts from;
    - [reach] is the interleaving semantics of a pool of programs to which new
      programs may be added at any time, and [pool_guarantee] lifts a guarantee of
      each program to every interleaving. *)

From S2P Require Import Prelude.

Declare Scope prog_scope.
Delimit Scope prog_scope with prog.

Inductive prog (W A : Type) : Type :=
| Ret (a : A)
| Step (X : Type) (f : W -> option (X * W)) (k : X -> prog W A).
Arguments Ret {W A} a.
Arguments Step {W A X} f k.

Fixpoint bind {W A B} (m : prog W A) (g : A -> prog W B) : prog W B :=
  match m with
  | Ret a => g a
  | Step f k => Step f (fun x => bind (k x) g)
  end.

Notation "x <- m ;; k" := (bind m (fun x => k))
  (at level 100, m at next level, right associativity) : prog_scope.
Notation "m ;; k" := (bind m (fun _ => k))
  (at level 100, right associativity) : prog_scope.
Open Scope prog_scope.

Section Prog.
Context {W : Type}.
Implicit Types w : W.

(** A step that never blocks. *)
Definition atomic {X} (f : W -> X * W) : prog W X :=
  Step (fun w => Some (f w)) Ret.

(** A step that reads the state. *)
Definition gets {X} (f : W -> X) : prog W X := atomic (fun w => (f w, w)).

Definition modify (f : W -> W) : prog W unit := atomic (fun w => (tt, f w)).

(** A step that waits until [f] is enabled. *)
Definition await (f : W -> option W) : prog W unit :=
  Step (fun w => match f w with Some w' => Some (tt, w') | None => None end) Ret.

Definition when (b : bool) (m : prog W unit) : prog W unit :=
  if b then m else Ret tt.

Fixpoint for_each {X} (l : list X) (body : X -> prog W unit) : prog W unit :=
  match l with
  | [] => Ret tt
  | x :: l' => body x ;; for_each l' body
  end.

(** A loop that carries an accumulator. *)
Fixpoint for_fold {X S} (l : list X) (s : S) (body : S -> X -> prog W S) : prog W S :=
  match l with
  | [] => Ret s
  | x :: l' => s' <- body s x ;; for_fold l' s' body
  end.

Fixpoint run {A} (m : prog W A) w : option (A * W) :=
  match m with
  | Ret a => Some (a, w)
  | Step f k =>
      match f w with
      | Some (x, w') => run (k x) w'
      | None => None
      end
  end.

Lemma run_bind {A B} (m : prog W A) (g : A -> prog W B) w :
  run (bind m g) w =
    match run m w with Some (a, w') => run (g a) w' | None => None end.
Proof.
  revert w. induction m as [a | X f k IH]; intros w; simpl; [done|].
  destruct (f w) as [[x w']|]; [apply IH | done].
Qed.

Definition wp {A} (m : prog W A) (Q : A -> W -> Prop) w : Prop :=
  match run m w with Some (a, w') => Q a w' | None => False end.

Lemma wp_ret {A} (a : A) Q w : wp (Ret a) Q w <-> Q a w.
Proof. done. Qed.

Lemma wp_bind {A B} (m : prog W A) (g : A -> prog W B) Q w :
  wp (bind m g) Q w <-> wp m (fun a w' => wp (g a) Q w') w.
Proof. unfold wp. rewrite run_bind. destruct (run m w) as [[a w']|]; done. Qed.

Lemma wp_atomic {X} (f : W -> X * W) Q w :
  wp (atomic f) Q w <-> Q (f w).1 (f w).2.
Proof. unfold wp. simpl. by destruct (f w). Qed.

Lemma wp_gets {X} (f : W -> X) Q w : wp (gets f) Q w <-> Q (f w) w.
Proof. done. Qed.

Lemma wp_modify f Q w : wp (modify f) Q w <-> Q tt (f w).
Proof. done. Qed.

Lemma wp_mono {A} (m : prog W A) (P Q : A -> W -> Prop) w :
  (forall a w', P a w' -> Q a w') -> wp m P w -> wp m Q w.
Proof. unfold wp. intros H. destruct (run m w) as [[a w']|]; auto. Qed.

Lemma wp_and {A} (m : prog W A) (P Q : A -> W -> Prop) w :
  wp m P w -> wp m Q w -> wp m (fun a w' => P a w' /\ Q a w') w.
Proof. unfold wp. destruct (run m w) as [[a w']|]; auto. Qed.

Lemma wp_run {A} (m : prog W A) Q w a w' :
  wp m Q w -> run m w = Some (a, w') -> Q a w'.
Proof. unfold wp. intros H E. by rewrite E in H. Qed.

Lemma wp_if {A} (b : bool) (m1 m2 : prog W A) Q w :
  (b = true -> wp m1 Q w) -> (b = false -> wp m2 Q w) -> wp (if b then m1 else m2) Q w.
Proof. destruct b; auto. Qed.

(** Loops by an invariant. *)
Lemma wp_for_fold {X T} (l : list X) (s : T) body (I : T -> W -> Prop) w :
  I s w -> (forall x s w, x ∈ l -> I s w -> wp (body s x) I w) -> wp (for_fold l s body) I w.
Proof.
  revert s w. induction l as [|x l IH]; intros s w HI Hb; simpl; [done|].
  apply wp_bind. eapply wp_mono; [|apply Hb; [left|done]].
  intros s' w' HI'. apply IH; [done|]. intros y t w1 Hy. apply Hb. by right.
Qed.

Lemma wp_for_each {X} (l : list X) body (I : W -> Prop) w :
  I w -> (forall x w, x ∈ l -> I w -> wp (body x) (fun _ => I) w) -> wp (for_each l body) (fun _ => I) w.
Proof.
  revert w. induction l as [|x l IH]; intros w HI Hb; simpl; [done|].
  apply wp_bind. eapply wp_mono; [|apply Hb; [left|done]].
  intros [] w' HI'. apply IH; [done|]. intros y w1 Hy. apply Hb. by right.
Qed.

(** Every step of the program, from any state, is an [R] step. *)
Fixpoint guards (R : W -> W -> Prop) {A} (m : prog W A) : Prop :=
  match m with
  | Ret _ => True
  | Step f k =>
      (forall w x w', f w = Some (x, w') -> R w w') /\ (forall x, guards R (k x))
  end.

Lemma guards_bind R {A B} (m : prog W A) (g : A -> prog W B) :
  guards R m -> (forall a, guards R (g a)) -> guards R (bind m g).
Proof. induction m as [a|X f k IH]; simpl; intros H Hg; [auto|]. split; [apply H|]. intros x. apply IH; [apply H | done]. Qed.

Lemma guards_ret R {A} (a : A) : guards R (Ret (W:=W) a).
Proof. done. Qed.

Lemma guards_atomic (R : W -> W -> Prop) {X} (f : W -> X * W) :
  (forall w, R w (f w).2) -> guards R (atomic f).
Proof. intros H. simpl. split; [|done]. intros w x w' E. specialize (H w). injection E as E. by rewrite E in H. Qed.

Lemma guards_gets (R : W -> W -> Prop) `{!Reflexive R} {X} (f : W -> X) : guards R (gets f).
Proof. apply guards_atomic. intros w. simpl. reflexivity. Qed.

Lemma guards_modify (R : W -> W -> Prop) f : (forall w, R w (f w)) -> guards R (modify f).
Proof. intros H. by apply guards_atomic. Qed.

Lemma guards_await (R : W -> W -> Prop) f :
  (forall w w', f w = Some w' -> R w w') -> guards R (await f).
Proof. intros H. simpl. split; [|done]. intros w x w' E. destruct (f w) as [w1|] eqn:Ef; [|done]. injection E as <- <-. auto. Qed.

Lemma guards_when R b m : (b = true -> guards R m) -> guards R (when b m).
Proof. destruct b; simpl; auto. Qed.

Lemma guards_for_each R {X} (l : list X) body :
  (forall x, x ∈ l -> guards R (body x)) -> guards R (for_each l body).
Proof.
  induction l as [|x l IH]; intros H; simpl; [done|]. apply guards_bind.
  - apply H. left.
  - intros _. apply IH. intros y Hy. apply H. by right.
Qed.

Lemma guards_for_fold R {X S} (l : list X) (s : S) body :
  (forall s x, guards R (body s x)) -> guards R (for_fold l s body).
Proof.
  intros H. revert s. induction l as [|x l IH]; intros s; simpl; [done|].
  apply guards_bind; auto.
Qed.

Lemma guards_mono (R S : W -> W -> Prop) {A} (m : prog W A) :
  (forall w w', R w w' -> S w w') -> guards R m -> guards S m.
Proof. intros H. induction m as [a|X f k IH]; simpl; [done|]. intros [Hf Hk]. split; eauto. Qed.

(** A run alone ends within the reflexive transitive closure of the steps. *)
Lemma guards_run R `{!PreOrder R} {A} (m : prog W A) w a w' :
  guards R m -> run m w = Some (a, w') -> R w w'.
Proof.
  revert w. induction m as [b|X f k IH]; intros w; simpl.
  - intros _ [= -> ->]. reflexivity.
  - intros [Hf Hk]. destruct (f w) as [[x w1]|] eqn:E; [|done].
    intros Hr. etrans; [eapply Hf, E | by eapply IH].
Qed.

Lemma guards_wp R `{!PreOrder R} {A} (m : prog W A) (Q : A -> W -> Prop) w :
  guards R m -> wp m Q w -> wp m (fun a w' => R w w' /\ Q a w') w.
Proof.
  unfold wp. intros Hg. destruct (run m w) as [[a w']|] eqn:E; [|done].
  intros HQ. split; [by eapply guards_run | done].
Qed.

(** No step of the program blocks. *)
Fixpoint nonblocking {A} (m : prog W A) : Prop :=
  match m with
  | Ret _ => True
  | Step f k => (forall w, is_Some (f w)) /\ (forall x, nonblocking (k x))
  end.

Lemma nonblocking_bind {A B} (m : prog W A) (g : A -> prog W B) :
  nonblocking m -> (forall a, nonblocking (g a)) -> nonblocking (bind m g).
Proof. induction m as [a|X f k IH]; simpl; intros H Hg; [auto|]. split; [apply H|]. intros x. apply IH; [apply H | done]. Qed.

Lemma nonblocking_atomic {X} (f : W -> X * W) : nonblocking (atomic f).
Proof. simpl. eauto. Qed.

Lemma nonblocking_for_each {X} (l : list X) body :
  (forall x, nonblocking (body x)) -> nonblocking (for_each l body).
Proof. intros H. induction l; simpl; [done|]. apply nonblocking_bind; auto. Qed.

Lemma nonblocking_for_fold {X S} (l : list X) (s : S) body :
  (forall s x, nonblocking (body s x)) -> nonblocking (for_fold l s body).
Proof. intros H. revert s. induction l; intros s; simpl; [done|]. apply nonblocking_bind; auto. Qed.

Lemma nonblocking_run {A} (m : prog W A) w :
  nonblocking m -> exists a w', run m w = Some (a, w').
Proof.
  revert w. induction m as [a|X f k IH]; intros w; simpl; [eauto|].
  intros [Hf Hk]. destruct (Hf w) as [[x w'] ->]. auto.
Qed.

Lemma nonblocking_wp {A} (m : prog W A) w : nonblocking m -> wp m (fun _ _ => True) w.
Proof. intros H. unfold wp. by destruct (nonblocking_run m w H) as (a & w' & ->). Qed.

(** A program that does not block and stays within [R]: what is known of
    the state after it, when nothing about its result matters. *)
Lemma wp_frame (R : W -> W -> Prop) `{!PreOrder R} {A} (m : prog W A) w :
  nonblocking m -> guards R m -> wp m (fun _ w' => R w w') w.
Proof.
  intros Hn Hg. eapply wp_mono; [|apply (guards_wp R m (fun _ _ => True) w Hg)].
  - by intros a w' [? _].
  - by apply nonblocking_wp.
Qed.

(** ** Interleaving *)

(** A pool of threads over a shared world; [entry] are the programs the
    outside may start at any time. *)
Inductive cstep (entry : prog W unit -> Prop) :
  list (prog W unit) * W -> list (prog W unit) * W -> Prop :=
| cs_step i ps w X (f : W -> option (X * W)) k x w' :
    ps !! i = Some (Step f k) -> f w = Some (x, w') ->
    cstep entry (ps, w) (<[i := k x]> ps, w')
| cs_spawn ps w p :
    entry p -> cstep entry (ps, w) (ps ++ [p], w).

Definition reach (entry : prog W unit -> Prop) := rtc (cstep entry).

Lemma pool_guarantee entry R `{!PreOrder R} c c' :
  (forall p, entry p -> guards R p) ->
  Forall (guards R) c.1 -> reach entry c c' -> Forall (guards R) c'.1 /\ R c.2 c'.2.
Proof.
  intros He. intros Hp Hr. revert Hp.
  induction Hr as [c|c1 c2 c3 Hs _ IH]; intros Hp; [by split|].
  destruct Hs as [i ps w X f k x w' Hi Hf | ps w p Hentry]; simpl in *.
  - pose proof (proj1 (Forall_lookup _ _) Hp i _ Hi) as [Hg Hk].
    destruct IH as [Hall HR].
    { apply Forall_insert; [done | apply Hk]. }
    split; [done|]. etrans; [by eapply Hg | done].
  - apply IH. apply Forall_app. split; [done|]. constructor; [auto | constructor].
Qed.

(** A schedule names, step by step, the thread that moves; a thread that is
    finished or blocked does not move. *)
Fixpoint exec_schedule (sched : list nat) (ps : list (prog W unit)) w :
  list (prog W unit) * W :=
  match sched with
  | [] => (ps, w)
  | i :: rest =>
      match ps !! i with
      | Some (Step f k) =>
          match f w with
          | Some (x, w') => exec_schedule rest (<[i := k x]> ps) w'
          | None => exec_schedule rest ps w
          end
      | _ => exec_schedule rest ps w
      end
  end.

Lemma exec_schedule_reach entry sched ps w :
  reach entry (ps, w) (exec_schedule sched ps w).
Proof.
  revert ps w. induction sched as [|i rest IH]; intros ps w; simpl; [constructor|].
  destruct (ps !! i) as [[a|X f k]|] eqn:Hi; [apply IH | | apply IH].
  destruct (f w) as [[x w']|] eqn:Hf; [|apply IH].
  eapply rtc_l; [by eapply cs_step | apply IH].
Qed.
End Prog.

Create HintDb guards.
#[export] Hint Resolve guards_ret guards_bind guards_gets guards_when
  guards_for_each guards_for_fold : guards.
Create HintDb nonblocking.
#[export] Hint Resolve nonblocking_bind nonblocking_atomic nonblocking_for_each
  nonblocking_for_fold : nonblocking.
#[export] Hint Extern 0 (nonblocking (Ret _)) => exact I : nonblocking.

(** Programs are taken apart by the rules above, not by computation. *)
#[global] Arguments bind : simpl never.
#[global] Arguments wp : simpl never.
#[global] Arguments atomic : simpl never.
#[global] Arguments gets : simpl never.
#[global] Arguments modify : simpl never.
#[global] Arguments guards : simpl never.
#[global] Arguments nonblocking : simpl never.
