(* ===== verification/Linear.v ===== *)
(** * Calls that take effect at one instant

    A method of several statements runs while other goroutines run theirs.
    [atomic_call obs R P F m w] says of the program [m], started in [w], when
    the others move the world by [R] between its steps: what is observed
    ([obs]) changes in at most one of its own steps, and that step, with the
    result of the call, satisfies [P]; or no step of its own changes anything
    and the result is one of the failures [F].  [pool_linear] carries this to the
    interleaving semantics: in every run of a pool the call of a thread has such
    a point between its start and its end. *)

From S2P Require Import Prelude Resume.

Section Calls.
Context {W D : Type} (obs : W -> D) (R : W -> W -> Prop) `{!PreOrder R}.

(** The effect is past: the rest of the call observes and returns. *)
Fixpoint settled {A} (m : prog W A) (Q : A -> Prop) (w : W) : Prop :=
  match m with
  | Ret a => Q a
  | Step f k =>
      forall w1 x w2, R w w1 -> f w1 = Some (x, w2) -> obs w2 = obs w1 /\ settled (k x) Q w2
  end.

Fixpoint atomic_call {A} (P : D -> A -> D -> Prop) (F : A -> Prop) (m : prog W A) (w : W) : Prop :=
  match m with
  | Ret a => F a
  | Step f k =>
      forall w1 x w2, R w w1 -> f w1 = Some (x, w2) ->
        settled (k x) (fun a => P (obs w1) a (obs w2)) w2
        \/ (obs w2 = obs w1 /\ atomic_call P F (k x) w2)
  end.

Lemma settled_later {A} (m : prog W A) Q w w' : R w w' -> settled m Q w -> settled m Q w'.
Proof. intros Hr. destruct m as [a|X f k]; simpl; [done|]. intros Hm w1 x w2 Hr1. apply Hm. by trans w'. Qed.

Lemma atomic_call_later {A} P F (m : prog W A) w w' : R w w' -> atomic_call P F m w -> atomic_call P F m w'.
Proof. intros Hr. destruct m as [a|X f k]; simpl; [done|]. intros Hm w1 x w2 Hr1. apply Hm. by trans w'. Qed.

Lemma settled_mono {A} (m : prog W A) (Q Q' : A -> Prop) w :
  (forall a, Q a -> Q' a) -> settled m Q w -> settled m Q' w.
Proof.
  intros HQ. revert w. induction m as [a|X f k IH]; simpl; intros w H; [auto|].
  intros w1 x w2 Hr Hf. destruct (H w1 x w2 Hr Hf). auto.
Qed.

Lemma atomic_call_mono {A} (P P' : D -> A -> D -> Prop) (F F' : A -> Prop) (m : prog W A) w :
  (forall d a d', P d a d' -> P' d a d') -> (forall a, F a -> F' a) ->
  atomic_call P F m w -> atomic_call P' F' m w.
Proof.
  intros HP HF. revert w. induction m as [a|X f k IH]; simpl; intros w H; [by apply HF|].
  intros w1 x w2 Hr Hf. destruct (H w1 x w2 Hr Hf) as [Hq|[He Hq]]; [left|right; auto].
  eapply settled_mono; [|exact Hq]. auto.
Qed.

(** A first step that only observes. *)
Lemma atomic_call_quiet {X A} (f : W -> X * W) (k : X -> prog W A) P F w :
  (forall w1, R w w1 -> obs (f w1).2 = obs w1 /\ atomic_call P F (k (f w1).1) (f w1).2) ->
  atomic_call P F (bind (atomic f) k) w.
Proof.
  intros H. simpl. intros w1 x w2 Hr [= Hf]. right. specialize (H w1 Hr). by rewrite Hf in H.
Qed.

(** The step at which the call takes effect. *)
Lemma atomic_call_point {X A} (f : W -> X * W) (k : X -> prog W A) P F w :
  (forall w1, R w w1 ->
     settled (k (f w1).1) (fun a => P (obs w1) a (obs (f w1).2)) (f w1).2) ->
  atomic_call P F (bind (atomic f) k) w.
Proof.
  intros H. simpl. intros w1 x w2 Hr [= Hf]. left. specialize (H w1 Hr). by rewrite Hf in H.
Qed.

(** Either, by what the step finds. *)
Lemma atomic_call_step {X A} (f : W -> X * W) (k : X -> prog W A) P F w :
  (forall w1, R w w1 ->
     settled (k (f w1).1) (fun a => P (obs w1) a (obs (f w1).2)) (f w1).2
     \/ (obs (f w1).2 = obs w1 /\ atomic_call P F (k (f w1).1) (f w1).2)) ->
  atomic_call P F (bind (atomic f) k) w.
Proof. intros H. simpl. intros w1 x w2 Hr [= Hf]. specialize (H w1 Hr). by rewrite Hf in H. Qed.

Lemma settled_step {X A} (f : W -> X * W) (k : X -> prog W A) Q w :
  (forall w1, R w w1 -> obs (f w1).2 = obs w1 /\ settled (k (f w1).1) Q (f w1).2) ->
  settled (bind (atomic f) k) Q w.
Proof. intros H. simpl. intros w1 x w2 Hr [= Hf]. specialize (H w1 Hr). by rewrite Hf in H. Qed.
End Calls.

(** ** In a pool of threads *)

Section Pool.
Context {W D : Type} (obs : W -> D) (R : W -> W -> Prop) `{!PreOrder R}.
Context (entry : prog W unit -> Prop).

(** The next step of a thread. *)
Definition advance {A} (m : prog W A) (w : W) : option (prog W A * W) :=
  match m with
  | Ret _ => None
  | Step f k => match f w with Some (x, w') => Some (k x, w') | None => None end
  end.

Lemma advance_bind {A B} (m : prog W A) (g : A -> prog W B) w p w' :
  (forall a, m <> Ret a) -> advance (bind m g) w = Some (p, w') ->
  exists m', advance m w = Some (m', w') /\ p = bind m' g.
Proof.
  destruct m as [a|X f k]; intros Hm; [by destruct (Hm a)|]. simpl.
  destruct (f w) as [[x w1]|]; [|done]. intros [= <- <-]. eauto.
Qed.

Lemma guards_advance {A} (m : prog W A) w m' w' :
  guards R m -> advance m w = Some (m', w') -> R w w' /\ guards R m'.
Proof.
  unfold guards. destruct m as [a|X f k]; [done|]. intros [Hf Hk]. simpl.
  destruct (f w) as [[x w1]|] eqn:E; [|done]. intros [= <- <-]. split; [by eapply Hf | apply Hk].
Qed.

(** A run with its steps: the thread that moved and the world before and
    after. *)
Notation conf := (list (prog W unit) * W)%type.

Inductive lrun : conf -> list (nat * W * W) -> conf -> Prop :=
| lr_nil c : lrun c [] c
| lr_step i ps w p p' w' l c :
    ps !! i = Some p -> advance p w = Some (p', w') ->
    lrun (<[i := p']> ps, w') l c -> lrun (ps, w) ((i, w, w') :: l) c
| lr_spawn ps w p l c :
    entry p -> lrun (ps ++ [p], w) l c -> lrun (ps, w) l c.

Lemma lrun_reach c l c' : lrun c l c' -> reach entry c c'.
Proof.
  induction 1 as [c|i ps w p p' w' l c Hi Ha _ IH|ps w p l c Hp _ IH]; [constructor|..].
  - destruct p as [a|X f k]; [done|]. simpl in Ha. destruct (f w) as [[x w1]|] eqn:E; [|done].
    injection Ha as <- <-. eapply rtc_l; [by eapply cs_step | exact IH].
  - eapply rtc_l; [by apply cs_spawn | exact IH].
Qed.

Lemma reach_lrun c c' : reach entry c c' -> exists l, lrun c l c'.
Proof.
  induction 1 as [c|c1 c2 c3 Hs _ (l & IH)]; [exists []; constructor|].
  destruct Hs as [i ps w X f k x w' Hi Hf | ps w p Hentry].
  - exists ((i, w, w') :: l). eapply lr_step; [exact Hi | simpl; by rewrite Hf | done].
  - exists l. by eapply lr_spawn.
Qed.

(** What is observed before and after each step of thread [i]. *)
Definition own (i : nat) (l : list (nat * W * W)) : list (D * D) :=
  map (fun s => (obs s.1.2, obs s.2)) (List.filter (fun s => bool_decide (s.1.1 = i)) l).

Lemma own_mine i w w' l : own i ((i, w, w') :: l) = (obs w, obs w') :: own i l.
Proof. unfold own. simpl. by rewrite bool_decide_true. Qed.
Lemma own_other i j w w' l : j <> i -> own i ((j, w, w') :: l) = own i l.
Proof. intros H. unfold own. simpl. by rewrite bool_decide_false. Qed.

(** No step changes what is observed. *)
Definition quiet (h : list (D * D)) : Prop := Forall (fun s => s.2 = s.1) h.

(** A call with the own steps [h] that returned [a]. *)
Definition at_one_point {A} (P : D -> A -> D -> Prop) (F : A -> Prop) (h : list (D * D)) (a : A) : Prop :=
  (exists h1 d d' h2, h = h1 ++ (d, d') :: h2 /\ P d a d' /\ quiet h1 /\ quiet h2)
  \/ (F a /\ quiet h).

(** A call that has not returned: at most one own step with an effect. *)
Definition at_most_one (h : list (D * D)) : Prop :=
  quiet h \/ exists h1 s h2, h = h1 ++ s :: h2 /\ quiet h1 /\ quiet h2.

(** The run [l] from [c] to [c'] goes through the call [m] of thread [i],
    which is followed by [k]: [l1] is the part of the run up to the return of
    the call, or all of it. *)
Definition call_in_run {A} (i : nat) (m : prog W A) (k : A -> prog W unit)
    (l : list (nat * W * W)) (c c' : conf) (T : list (D * D) -> prog W A -> W -> Prop) : Prop :=
  exists l1 l2 c1 m', l = l1 ++ l2 /\ lrun c l1 c1 /\ lrun c1 l2 c'
    /\ c1.1 !! i = Some (bind m' k) /\ T (own i l1) m' c1.2
    /\ ((exists a, m' = Ret a) \/ (c1 = c' /\ l2 = [])).

Lemma call_in_run_done {A} i c l c' (a : A) k T :
  c.1 !! i = Some (bind (Ret a) k) -> lrun c l c' -> T [] (Ret a) c.2 -> call_in_run i (Ret a) k l c c' T.
Proof. intros Hi Hr Ht. exists [], l, c, (Ret a). split; [done|]. split; [constructor|]. eauto 6. Qed.

Lemma call_in_run_now {A} i c (m : prog W A) k T :
  c.1 !! i = Some (bind m k) -> T [] m c.2 -> call_in_run i m k [] c c T.
Proof. intros Hi Ht. exists [], [], c, m. split; [done|]. split; [constructor|]. split; [constructor|]. auto. Qed.

Lemma call_in_run_step {A} i j ps w p p' w' l c' (m m' : prog W A) k (T T' : list (D * D) -> prog W A -> W -> Prop) :
  ps !! j = Some p -> advance p w = Some (p', w') ->
  (forall l1 n v, T (own i l1) n v -> T' (own i ((j, w, w') :: l1)) n v) ->
  call_in_run i m' k l (<[j := p']> ps, w') c' T ->
  call_in_run i m k ((j, w, w') :: l) (ps, w) c' T'.
Proof.
  intros Hj Ha HT (l1 & l2 & c1 & n & -> & H1 & H2 & Hi & Hn & Hend).
  exists ((j, w, w') :: l1), l2, c1, n. split; [done|]. split; [by eapply lr_step|]. auto.
Qed.

Lemma call_in_run_spawn {A} i ps w p l c' (m : prog W A) k T :
  entry p -> call_in_run i m k l (ps ++ [p], w) c' T -> call_in_run i m k l (ps, w) c' T.
Proof.
  intros Hp (l1 & l2 & c1 & n & -> & H1 & Hn). exists l1, l2, c1, n. split; [done|].
  split; [by eapply lr_spawn | done].
Qed.

(** What is true of a call and its own steps so far, if every own step keeps it
    and the others cannot break it, is true along every run. *)
Lemma pool_call {A} (T : list (D * D) -> prog W A -> W -> Prop) i (m : prog W A) k h c l c' :
  (forall p, entry p -> guards R p) ->
  (forall h n w w', R w w' -> T h n w -> T h n w') ->
  (forall h n w n' w', T h n w -> advance n w = Some (n', w') -> T (h ++ [(obs w, obs w')]) n' w') ->
  Forall (guards R) c.1 -> c.1 !! i = Some (bind m k) -> T h m c.2 -> lrun c l c' ->
  call_in_run i m k l c c' (fun h' => T (h ++ h')).
Proof.
  intros Hentry Hlater Hown Hg Hi Hm Hr. revert m h Hg Hi Hm.
  induction Hr as [c|j ps w p p' w' l c Hj Ha Hr IH|ps w p l c Hp _ IH]; intros m h Hg Hi Hm; simpl in *.
  - apply call_in_run_now; [done | by rewrite app_nil_r].
  - pose proof (proj1 (Forall_lookup _ _) Hg j _ Hj) as Hgp.
    destruct (guards_advance _ _ _ _ Hgp Ha) as [HR Hgp'].
    assert (Forall (guards R) (<[j := p']> ps)) as Hg' by by apply Forall_insert.
    destruct (decide (j = i)) as [->|Hne].
    + destruct m as [a|X f g].
      { apply call_in_run_done; [done | exact (lr_step _ _ _ _ _ _ _ _ Hj Ha Hr) | by rewrite app_nil_r]. }
      simplify_eq. destruct (advance_bind (Step f g) k w p' w') as (m' & Hm' & ->); [done..|].
      eapply call_in_run_step; [exact Hj | exact Ha | | apply (IH m' (h ++ [(obs w, obs w')])); [done | | by eapply Hown]].
      * intros l1 n v. by rewrite own_mine, <- app_assoc.
      * apply list_lookup_insert_eq. by eapply lookup_lt_Some.
    + eapply call_in_run_step; [exact Hj | exact Ha | | apply (IH m h); [done | | by eapply Hlater]].
      * intros l1 n v. by rewrite own_other.
      * by rewrite list_lookup_insert_ne.
  - eapply call_in_run_spawn; [done|]. apply IH; [|by rewrite lookup_app_l by (by eapply lookup_lt_Some)|done].
    apply Forall_app. split; [done|]. constructor; [auto | constructor].
Qed.

(** A call before and after its point. *)
Definition stage {A} (P : D -> A -> D -> Prop) (F : A -> Prop) (h : list (D * D)) (m : prog W A) (w : W) : Prop :=
  (quiet h /\ atomic_call obs R P F m w)
  \/ exists h1 d d' h2, h = h1 ++ (d, d') :: h2 /\ quiet h1 /\ quiet h2
       /\ settled obs R m (fun a => P d a d') w.

Lemma stage_advance {A} (P : D -> A -> D -> Prop) F h (m : prog W A) w m' w' :
  stage P F h m w -> advance m w = Some (m', w') -> stage P F (h ++ [(obs w, obs w')]) m' w'.
Proof.
  assert (quiet []) as Hnil by constructor.
  assert (forall h, quiet h -> obs w' = obs w -> quiet (h ++ [(obs w, obs w')])) as Hsnoc.
  { intros h0 Hq He. apply Forall_app. split; [done|]. by constructor. }
  intros H. destruct m as [a|X f k]; [done|]. simpl. destruct (f w) as [[x w1]|] eqn:Hf; [|done].
  intros [= <- <-]. destruct H as [[Hq Hm]|(h1 & d & d' & h2 & -> & H1 & H2 & Hm)]; simpl in Hm;
    specialize (Hm w x w1 ltac:(reflexivity) Hf).
  - destruct Hm as [Hm|[He Hm]]; [right | left; auto]. by exists h, (obs w), (obs w1), [].
  - destruct Hm as [He Hm]. right. exists h1, d, d', (h2 ++ [(obs w, obs w1)]).
    rewrite <- app_assoc. auto.
Qed.

Theorem pool_linear {A} i (m : prog W A) k P F c l c' :
  (forall p, entry p -> guards R p) ->
  Forall (guards R) c.1 -> c.1 !! i = Some (bind m k) -> atomic_call obs R P F m c.2 -> lrun c l c' ->
  call_in_run i m k l c c' (fun h m' _ =>
    at_most_one h /\ forall a, m' = Ret a -> at_one_point P F h a).
Proof.
  intros He Hg Hi Hm Hr.
  destruct (pool_call (stage P F) i m k [] c l c') as (l1 & l2 & c1 & m' & -> & H1 & H2 & Hi1 & Hs & Hend); try done.
  - intros h n w w' HR [[Hq Hn]|(h1 & d & d' & h2 & -> & Hq1 & Hq2 & Hn)].
    + left. split; [done|]. by eapply atomic_call_later.
    + right. exists h1, d, d', h2. repeat split; try done. by eapply settled_later.
  - intros h n w n' w'. apply stage_advance.
  - left. split; [constructor | done].
  - exists l1, l2, c1, m'. do 4 (split; [done|]). split; [|done]. simpl in Hs.
    destruct Hs as [[Hq Hn]|(h1 & d & d' & h2 & E & Hq1 & Hq2 & Hn)].
    + split; [by left|]. intros a ->. by right.
    + split; [right; by exists h1, (d, d'), h2|]. intros a ->. left. by exists h1, d, d', h2.
Qed.
End Pool.
