(* ===== verification/GoText.v ===== *)
(** * Text: UTF-8 and the functions of Go's [strings] the bridge uses

    A Go string is a sequence of bytes, here a Rocq [string].  Functions that
    work on characters go through [segs], which cuts the bytes into the runes
    Go's decoder sees: a well-formed sequence is one rune with its bytes, any
    other byte is the replacement rune with width one.

    [ToLower] folds ASCII and Latin-1 letters and the two runes whose lower
    case is an ASCII letter; other runes are left alone (the program only
    compares lower-cased text with ASCII words and with ASCII bot names). *)

From S2P Require Import Prelude.
From stdpp Require Export pretty.
From Stdlib Require Import Ascii.

Open Scope Z_scope.

(** ** Bytes *)

Definition byte_of (a : ascii) : Z := Z.of_N (N_of_ascii a).
Definition ascii_of (b : Z) : ascii := ascii_of_N (Z.to_N b).

Fixpoint bytes_of (s : string) : list Z :=
  match s with
  | EmptyString => []
  | String a s' => byte_of a :: bytes_of s'
  end.

Fixpoint str_of (l : list Z) : string :=
  match l with
  | [] => EmptyString
  | b :: l' => String (ascii_of b) (str_of l')
  end.

Definition is_byte (b : Z) : Prop := 0 <= b < 256.

Lemma byte_of_range a : is_byte (byte_of a).
Proof.
  unfold is_byte, byte_of. pose proof (N_ascii_bounded a). lia.
Qed.

Lemma bytes_of_range s : Forall is_byte (bytes_of s).
Proof. induction s; simpl; constructor; [apply byte_of_range | done]. Qed.

Lemma ascii_of_byte_of a : ascii_of (byte_of a) = a.
Proof. unfold ascii_of, byte_of. by rewrite N2Z.id, ascii_N_embedding. Qed.

Lemma byte_of_ascii_of b : is_byte b -> byte_of (ascii_of b) = b.
Proof.
  unfold is_byte, ascii_of, byte_of. intros H.
  rewrite N_ascii_embedding by lia. lia.
Qed.

Lemma str_of_bytes_of s : str_of (bytes_of s) = s.
Proof. induction s; simpl; [done|]. by rewrite ascii_of_byte_of, IHs. Qed.

Lemma bytes_of_str_of l : Forall is_byte l -> bytes_of (str_of l) = l.
Proof. induction 1; simpl; [done|]. by rewrite byte_of_ascii_of, IHForall. Qed.

Lemma bytes_of_app s t : bytes_of (s +:+ t) = bytes_of s ++ bytes_of t.
Proof. induction s; simpl; [done|]. by rewrite IHs. Qed.

Lemma str_of_app l k : str_of (l ++ k) = str_of l +:+ str_of k.
Proof. induction l; simpl; [done|]. by rewrite IHl. Qed.

Lemma bytes_of_inj s t : bytes_of s = bytes_of t -> s = t.
Proof. intros H. by rewrite <- (str_of_bytes_of s), H, str_of_bytes_of. Qed.

(** ** UTF-8 *)

Definition RuneError : Z := 65533.

Definition in_range (lo b hi : Z) : bool := (lo <=? b) && (b <=? hi).
Definition is_cont (b : Z) : bool := in_range 128 b 191.

Definition two_ok (b0 b1 : Z) : bool := in_range 194 b0 223 && is_cont b1.

(** The second byte of a three or four byte sequence excludes overlong forms,
    surrogates and runes above U+10FFFF. *)
Definition three_ok (b0 b1 b2 : Z) : bool :=
  in_range 224 b0 239
  && in_range (if b0 =? 224 then 160 else 128) b1 (if b0 =? 237 then 159 else 191)
  && is_cont b2.

Definition four_ok (b0 b1 b2 b3 : Z) : bool :=
  in_range 240 b0 244
  && in_range (if b0 =? 240 then 144 else 128) b1 (if b0 =? 244 then 143 else 191)
  && is_cont b2 && is_cont b3.

Definition rune2 (b0 b1 : Z) : Z := (b0 - 192) * 64 + (b1 - 128).
Definition rune3 (b0 b1 b2 : Z) : Z :=
  (b0 - 224) * 4096 + (b1 - 128) * 64 + (b2 - 128).
Definition rune4 (b0 b1 b2 b3 : Z) : Z :=
  (b0 - 240) * 262144 + (b1 - 128) * 4096 + (b2 - 128) * 64 + (b3 - 128).

Fixpoint segs (l : list Z) : list (Z * list Z) :=
  match l with
  | [] => []
  | b0 :: l1 =>
      if b0 <? 128 then (b0, [b0]) :: segs l1
      else match l1 with
      | [] => (RuneError, [b0]) :: segs l1
      | b1 :: l2 =>
          if two_ok b0 b1 then (rune2 b0 b1, [b0; b1]) :: segs l2
          else match l2 with
          | [] => (RuneError, [b0]) :: segs l1
          | b2 :: l3 =>
              if three_ok b0 b1 b2 then (rune3 b0 b1 b2, [b0; b1; b2]) :: segs l3
              else match l3 with
              | [] => (RuneError, [b0]) :: segs l1
              | b3 :: l4 =>
                  if four_ok b0 b1 b2 b3
                  then (rune4 b0 b1 b2 b3, [b0; b1; b2; b3]) :: segs l4
                  else (RuneError, [b0]) :: segs l1
              end
          end
      end
  end.

Definition runes (s : string) : list Z := (segs (bytes_of s)).*1.

(** Runes Go encodes as themselves; others become the replacement rune. *)
Definition valid_rune (r : Z) : bool :=
  in_range 0 r 55295 || in_range 57344 r 1114111.

Definition encode_rune (r0 : Z) : list Z :=
  let r := if valid_rune r0 then r0 else RuneError in
  if r <? 128 then [r]
  else if r <? 2048 then [192 + r / 64; 128 + r mod 64]
  else if r <? 65536 then [224 + r / 4096; 128 + (r / 64) mod 64; 128 + r mod 64]
  else [240 + r / 262144; 128 + (r / 4096) mod 64; 128 + (r / 64) mod 64; 128 + r mod 64].

Definition encode (rs : list Z) : list Z := concat (map encode_rune rs).

(** [string([]rune)] *)
Definition of_runes (rs : list Z) : string := str_of (encode rs).

(** [utf8.RuneCountInString] *)
Definition rune_count (s : string) : nat := length (runes s).

Ltac unfold_utf8 :=
  unfold two_ok, three_ok, four_ok, is_cont, valid_rune,
    rune2, rune3, rune4, in_range in *.

Lemma segs_cons b0 l1 :
  segs (b0 :: l1) =
    let bad := (RuneError, [b0]) :: segs l1 in
    if b0 <? 128 then (b0, [b0]) :: segs l1
    else match l1 with
    | b1 :: l2 =>
        if two_ok b0 b1 then (rune2 b0 b1, [b0; b1]) :: segs l2
        else match l2 with
        | b2 :: l3 =>
            if three_ok b0 b1 b2 then (rune3 b0 b1 b2, [b0; b1; b2]) :: segs l3
            else match l3 with
            | b3 :: l4 =>
                if four_ok b0 b1 b2 b3
                then (rune4 b0 b1 b2 b3, [b0; b1; b2; b3]) :: segs l4
                else bad
            | [] => bad
            end
        | [] => bad
        end
    | [] => bad
    end.
Proof. done. Qed.
Arguments segs : simpl never.

(** Cases of one decoding step; the induction hypothesis is on shorter lists. *)
Ltac segs_ind l IH :=
  induction l as [l IH] using list_len_ind;
  destruct l as [|b0 l1]; [|rewrite segs_cons; cbv zeta; repeat break_goal; subst].

Lemma segs_concat l : concat (segs l).*2 = l.
Proof. segs_ind l IH; [done|..]; rewrite fmap_cons; simpl; by rewrite ?IH by (simpl; lia). Qed.

Lemma segs_bytes_nonempty l r bs : (r, bs) ∈ segs l -> bs <> [].
Proof.
  segs_ind l IH; [by intros ?%elem_of_nil|..];
    (intros [E|Hin]%elem_of_cons; simplify_eq; try done);
    (eapply IH; [|exact Hin]); simpl; lia.
Qed.

(** An ASCII byte ends whatever sequence precedes it. *)
Lemma segs_app_ascii l b k :
  0 <= b < 128 -> segs (l ++ b :: k) = segs l ++ (b, [b]) :: segs k.
Proof.
  intros Hb. assert ((b <? 128) = true) as Hb' by (apply Z.ltb_lt; lia).
  assert (is_cont b = false) as Hc.
  { unfold is_cont, in_range. apply andb_false_iff. left. apply Z.leb_gt. lia. }
  assert (forall b0, two_ok b0 b = false) as H2 by (intros; unfold two_ok; by rewrite Hc, andb_false_r).
  assert (forall b0 c, three_ok b0 b c = false) as H3.
  { intros. unfold three_ok, in_range. repeat case_match; boolprop; lia. }
  assert (forall b0 b1, three_ok b0 b1 b = false) as H3' by (intros; unfold three_ok; by rewrite Hc, andb_false_r).
  assert (forall b0 c d, four_ok b0 b c d = false) as H4.
  { intros. unfold four_ok, in_range. repeat case_match; boolprop; lia. }
  assert (forall b0 b1 d, four_ok b0 b1 b d = false) as H4' by (intros; unfold four_ok; by rewrite Hc, andb_false_r).
  assert (forall b0 b1 b2, four_ok b0 b1 b2 b = false) as H4'' by (intros; unfold four_ok; by rewrite Hc, andb_false_r).
  induction l as [l IH] using list_len_ind.
  destruct l as [|b0 l1]; cbn [app]; [by rewrite segs_cons, Hb'|].
  rewrite !segs_cons. cbv zeta.
  destruct (b0 <? 128) eqn:Eb0; [cbn [app]; by rewrite IH by (simpl; lia)|].
  destruct l1 as [|b1 l2]; cbn [app].
  { rewrite H2. destruct k as [|k1 k2]; [by rewrite segs_cons, Hb'|].
    rewrite H3. destruct k2; [by rewrite segs_cons, Hb'|].
    rewrite H4. by rewrite segs_cons, Hb'. }
  destruct (two_ok b0 b1); [cbn [app]; by rewrite IH by (simpl; lia)|].
  destruct l2 as [|b2 l3]; cbn [app].
  { rewrite H3'. destruct k as [|k1 k2]; [|rewrite H4']; by rewrite <- (IH [b1]) by (simpl; lia). }
  destruct (three_ok b0 b1 b2); [cbn [app]; by rewrite IH by (simpl; lia)|].
  destruct l3 as [|b3 l4]; cbn [app].
  { rewrite H4''. by rewrite <- (IH [b1; b2]) by (simpl; lia). }
  destruct (four_ok b0 b1 b2 b3); cbn [app]; [by rewrite IH by (simpl; lia)|].
  by rewrite <- (IH (b1 :: b2 :: b3 :: l4)) by (simpl; lia).
Qed.

#[local] Ltac Zify.zify_post_hook ::= Z.to_euclidean_division_equations.

(** Decoding inverts encoding: one rune at a time. *)
Lemma segs_encode_rune r l :
  valid_rune r = true -> segs (encode_rune r ++ l) = (r, encode_rune r) :: segs l.
Proof.
  intros Hr. unfold encode_rune. rewrite Hr.
  assert (0 <= r <= 55295 \/ 57344 <= r <= 1114111) as Hr' by (unfold_utf8; boolprop; lia).
  destruct (r <? 128) eqn:E1; [cbn [app]; by rewrite segs_cons, E1|].
  apply Z.ltb_ge in E1.
  destruct (r <? 2048) eqn:E2.
  { apply Z.ltb_lt in E2. cbn [app]. rewrite segs_cons.
    replace (192 + r / 64 <? 128) with false by (symmetry; apply Z.ltb_ge; lia).
    replace (two_ok _ _) with true by (symmetry; unfold_utf8; boolprop; lia).
    replace (rune2 _ _) with r by (unfold_utf8; lia). done. }
  apply Z.ltb_ge in E2.
  destruct (r <? 65536) eqn:E3.
  { apply Z.ltb_lt in E3. cbn [app]. rewrite segs_cons.
    replace (224 + r / 4096 <? 128) with false by (symmetry; apply Z.ltb_ge; lia).
    replace (two_ok _ _) with false by (symmetry; unfold_utf8; boolprop; lia).
    replace (three_ok _ _ _) with true
      by (symmetry; unfold_utf8; boolprop; repeat case_match; boolprop; lia).
    replace (rune3 _ _ _) with r by (unfold_utf8; lia). done. }
  apply Z.ltb_ge in E3. cbn [app]. rewrite segs_cons.
  replace (240 + r / 262144 <? 128) with false by (symmetry; apply Z.ltb_ge; lia).
  replace (two_ok _ _) with false by (symmetry; unfold_utf8; boolprop; lia).
  replace (three_ok _ _ _) with false by (symmetry; unfold_utf8; boolprop; lia).
  replace (four_ok _ _ _ _) with true
    by (symmetry; unfold_utf8; boolprop; repeat case_match; boolprop; lia).
  replace (rune4 _ _ _ _) with r by (unfold_utf8; lia). done.
Qed.

Lemma segs_encode rs :
  Forall (fun r => valid_rune r = true) rs -> segs (encode rs) = map (fun r => (r, encode_rune r)) rs.
Proof.
  unfold encode. induction 1 as [|r rs Hr _ IH]; [done|].
  cbn [map concat]. by rewrite segs_encode_rune, IH.
Qed.

Lemma encode_rune_bytes r : Forall is_byte (encode_rune r).
Proof.
  unfold encode_rune.
  assert (valid_rune (if valid_rune r then r else RuneError) = true) as Hv by (by destruct (valid_rune r) eqn:E).
  set (q := if valid_rune r then r else RuneError) in *.
  assert (0 <= q <= 55295 \/ 57344 <= q <= 1114111) as Hq by (unfold_utf8; boolprop; lia).
  unfold is_byte. repeat case_match; boolprop; repeat constructor; lia.
Qed.

Lemma encode_bytes rs : Forall is_byte (encode rs).
Proof.
  unfold encode. induction rs; simpl; [constructor|].
  apply Forall_app. split; [apply encode_rune_bytes | done].
Qed.

(** Every decoded rune can be encoded. *)
Lemma segs_valid l : Forall is_byte l -> Forall (fun s => valid_rune s.1 = true) (segs l).
Proof.
  segs_ind l IH; [intros _; exact (Forall_nil_2 _)|..]; intros Hl;
    repeat match goal with H : Forall _ (_ :: _) |- _ => apply Forall_cons in H as [? ?] end;
    (apply Forall_cons_2; [cbn [fst]; try done | apply IH; [simpl; lia | eauto using Forall_cons_2]]);
    unfold is_byte in *; unfold_utf8; boolprop; repeat case_match; boolprop; lia.
Qed.

Lemma runes_valid s : Forall (fun r => valid_rune r = true) (runes s).
Proof. unfold runes. apply Forall_fmap. apply segs_valid, bytes_of_range. Qed.

Lemma runes_of_runes rs :
  Forall (fun r => valid_rune r = true) rs -> runes (of_runes rs) = rs.
Proof.
  intros H. unfold runes, of_runes. rewrite bytes_of_str_of by apply encode_bytes.
  rewrite segs_encode by done. induction rs; [done|]. inv H.
  cbn [map]. rewrite fmap_cons. simpl. by rewrite IHrs.
Qed.

Lemma bytes_of_runes rs : bytes_of (of_runes rs) = encode rs.
Proof. unfold of_runes. apply bytes_of_str_of, encode_bytes. Qed.

Lemma rune_count_of_runes rs :
  Forall (fun r => valid_rune r = true) rs -> rune_count (of_runes rs) = length rs.
Proof. intros. unfold rune_count. by rewrite runes_of_runes. Qed.

(** Character counts add up across an ASCII character. *)
Lemma runes_app_ascii s a t :
  byte_of a < 128 -> runes (s +:+ String a t) = runes s ++ byte_of a :: runes t.
Proof.
  intros Ha. pose proof (byte_of_range a) as Hr. unfold is_byte in Hr. unfold runes.
  rewrite bytes_of_app. simpl. rewrite segs_app_ascii by lia.
  by rewrite fmap_app, fmap_cons.
Qed.

Lemma rune_count_app_ascii s a t :
  byte_of a < 128 -> rune_count (s +:+ String a t) = (rune_count s + S (rune_count t))%nat.
Proof. intros. unfold rune_count. rewrite runes_app_ascii by done. by rewrite length_app. Qed.

Lemma of_runes_app r1 r2 : of_runes (r1 ++ r2) = of_runes r1 +:+ of_runes r2.
Proof. unfold of_runes, encode. by rewrite map_app, concat_app, str_of_app. Qed.

Lemma runes_ellipsis s n :
  runes (of_runes (take n (runes s)) +:+ "…") = take n (runes s) ++ [8230].
Proof.
  change "…" with (of_runes [8230]). rewrite <- of_runes_app. apply runes_of_runes.
  apply Forall_app. split; [|by repeat constructor]. apply Forall_take, runes_valid.
Qed.

(** ** The functions of package strings *)

(** [unicode.IsSpace] *)
Definition is_space (r : Z) : bool :=
  in_range 9 r 13 || (r =? 32) || (r =? 133) || (r =? 160) || (r =? 5760)
  || in_range 8192 r 8202 || (r =? 8232) || (r =? 8233) || (r =? 8239)
  || (r =? 8287) || (r =? 12288).

Fixpoint drop_while {A} (p : A -> bool) (l : list A) : list A :=
  match l with
  | [] => []
  | x :: l' => if p x then drop_while p l' else l
  end.

Definition drop_while_end {A} (p : A -> bool) (l : list A) : list A :=
  reverse (drop_while p (reverse l)).

Definition on_segs (f : list (Z * list Z) -> list (Z * list Z)) (s : string) : string :=
  str_of (concat (f (segs (bytes_of s))).*2).

Definition in_cutset (cut : string) (seg : Z * list Z) : bool :=
  existsb (Z.eqb seg.1) (runes cut).

Definition TrimSpace (s : string) : string :=
  on_segs (fun l => drop_while_end (fun g => is_space g.1) (drop_while (fun g => is_space g.1) l)) s.
Definition Trim (s cut : string) : string :=
  on_segs (fun l => drop_while_end (in_cutset cut) (drop_while (in_cutset cut) l)) s.
Definition TrimRight (s cut : string) : string :=
  on_segs (drop_while_end (in_cutset cut)) s.

Definition HasPrefix (s prefix : string) : bool := String.prefix prefix s.

(** [s[n:]] for [n <= len(s)] *)
Definition drop_bytes (n : nat) (s : string) : string := str_of (drop n (bytes_of s)).
Definition TrimPrefix (s prefix : string) : string :=
  if HasPrefix s prefix then drop_bytes (String.length prefix) s else s.

(** [strings.Fields]: the maximal runs of characters that are not spaces. *)
Fixpoint fields_from (cur : list Z) (l : list (Z * list Z)) : list (list Z) :=
  match l with
  | [] => match cur with [] => [] | _ => [cur] end
  | (r, bs) :: l' =>
      if is_space r then
        match cur with [] => fields_from [] l' | _ => cur :: fields_from [] l' end
      else fields_from (cur ++ bs) l'
  end.
Definition Fields (s : string) : list string :=
  map str_of (fields_from [] (segs (bytes_of s))).

Fixpoint Join (l : list string) (sep : string) : string :=
  match l with
  | [] => ""
  | [x] => x
  | x :: l' => x +:+ sep +:+ Join l' sep
  end.

(** [unicode.ToLower], see the header of this file. *)
Definition lower_rune (r : Z) : Z :=
  if in_range 65 r 90 then r + 32
  else if in_range 192 r 222 && negb (r =? 215) then r + 32
  else if r =? 304 then 105
  else if r =? 8490 then 107
  else r.
Definition ToLower (s : string) : string := of_runes (map lower_rune (runes s)).

(** [unicode.ToUpper] on the same letters. *)
Definition upper_rune (r : Z) : Z :=
  if in_range 97 r 122 then r - 32
  else if in_range 224 r 254 && negb (r =? 247) then r - 32
  else if r =? 255 then 376
  else if r =? 181 then 924
  else if r =? 305 then 73
  else if r =? 383 then 83
  else r.
Definition ToUpper (s : string) : string := of_runes (map upper_rune (runes s)).

Fixpoint is_prefix (p l : list Z) : bool :=
  match p, l with
  | [], _ => true
  | x :: p', y :: l' => (x =? y) && is_prefix p' l'
  | _ :: _, [] => false
  end.

(** [strings.ReplaceAll(s, old, "")] for a non-empty [old]: [skip] counts the
    bytes of a match still to be dropped. *)
Fixpoint remove_all (old : list Z) (skip : nat) (l : list Z) : list Z :=
  match l with
  | [] => []
  | b :: l' =>
      match skip with
      | S k => remove_all old k l'
      | O => if is_prefix old l then remove_all old (length old - 1) l'
             else b :: remove_all old 0 l'
      end
  end.
Definition RemoveAll (s old : string) : string := str_of (remove_all (bytes_of old) 0 (bytes_of s)).

(** [strings.Split] at an ASCII character. *)
Fixpoint split_at (sep : ascii) (s : string) : list string :=
  match s with
  | EmptyString => [""]
  | String a s' =>
      if Ascii.eqb a sep then "" :: split_at sep s'
      else match split_at sep s' with
           | [] => [String a ""]
           | x :: l => String a x :: l
           end
  end.

(** Arithmetic on [int64] wraps around. *)
Definition maxInt64 : Z := 2 ^ 63 - 1.
Definition wrap64 (n : Z) : Z := (n + 2 ^ 63) mod 2 ^ 64 - 2 ^ 63.

(** [strconv.Itoa], the verb [%d]. *)
Definition Itoa (n : Z) : string := pretty n.

(** The digits of a fraction of [n] decimal places, without trailing zeros;
    with its point, or nothing for zero. *)
Fixpoint frac_digits (n : nat) (v : Z) : list Z :=
  match n with
  | O => []
  | S n' => frac_digits n' (v / 10) ++ [48 + v mod 10]
  end.
Definition frac_text (n : nat) (v : Z) : string :=
  match drop_while_end (Z.eqb 48) (frac_digits n v) with
  | [] => ""
  | ds => str_of (46 :: ds)
  end.

(** The double quote and newline characters. *)
Definition dquote : string := str_of [34].
Definition nl : string := str_of [10].
Definition backtick : string := str_of [96].

Example trim_space_ex : TrimSpace " 	hi there
 " = "hi there".
Proof. vm_compute. reflexivity. Qed.
Example fields_ex : Fields "  a bb  c " = ["a"; "bb"; "c"].
Proof. vm_compute. reflexivity. Qed.
Example runes_ex : rune_count "héllo…" = 6%nat.
Proof. vm_compute. reflexivity. Qed.
Example remove_all_ex : RemoveAll "@bot do @bot x" "@bot" = " do  x".
Proof. vm_compute. reflexivity. Qed.
Example split_ex : split_at "." "1.2.3" = ["1"; "2"; "3"].
Proof. vm_compute. reflexivity. Qed.

(** [strings.Contains] *)
Fixpoint contains_bytes (p l : list Z) : bool :=
  is_prefix p l || match l with [] => false | _ :: l' => contains_bytes p l' end.
Definition Contains (s sub : string) : bool := contains_bytes (bytes_of sub) (bytes_of s).
