(* ===== verification/Codec.v ===== *)
(** * Standard-library codecs and hashes: hex, base32, base64, SHA-256, HMAC

    The bridge stores hashes of its secrets, signs its buttons with
    HMAC-SHA256 and carries files as base64.  These are the functions of
    [encoding/hex], [encoding/base32], [encoding/base64], [crypto/sha256] and
    [crypto/hmac] it calls, on bytes as integers; the examples at the end are
    the published test vectors. *)

From S2P Require Import Prelude GoText.

Open Scope Z_scope.

(** ** Hexadecimal *)

Definition hex_digit (n : Z) : Z := if n <? 10 then 48 + n else 87 + n.
Definition hex_byte (b : Z) : list Z := [hex_digit (b / 16); hex_digit (b mod 16)].
Definition hex_encode (l : list Z) : string := str_of (concat (map hex_byte l)).

(** ** Base32 without padding *)

Definition b32_char (v : Z) : Z := if v <? 26 then 65 + v else 24 + v.

(** Five bytes are eight digits; a shorter last group is padded with zero
    bits up to a whole digit. *)
Fixpoint base32 (l : list Z) : list Z :=
  match l with
  | a :: b :: c :: d :: e :: l' =>
      let n := (((a * 256 + b) * 256 + c) * 256 + d) * 256 + e in
      map (fun k => b32_char (Z.shiftr n (5 * k) mod 32)) [7; 6; 5; 4; 3; 2; 1; 0] ++ base32 l'
  | [a; b; c; d] =>
      let n := (((a * 256 + b) * 256 + c) * 256 + d) * 8 in
      map (fun k => b32_char (Z.shiftr n (5 * k) mod 32)) [6; 5; 4; 3; 2; 1; 0]
  | [a; b; c] =>
      let n := ((a * 256 + b) * 256 + c) * 2 in
      map (fun k => b32_char (Z.shiftr n (5 * k) mod 32)) [4; 3; 2; 1; 0]
  | [a; b] =>
      let n := (a * 256 + b) * 16 in
      map (fun k => b32_char (Z.shiftr n (5 * k) mod 32)) [3; 2; 1; 0]
  | [a] => let n := a * 4 in map (fun k => b32_char (Z.shiftr n (5 * k) mod 32)) [1; 0]
  | [] => []
  end.

(** ** Base64, standard alphabet with padding *)

Definition b64_char (v : Z) : Z :=
  if v <? 26 then 65 + v
  else if v <? 52 then 71 + v
  else if v <? 62 then v - 4
  else if v =? 62 then 43 else 47.

Definition b64_val (c : Z) : option Z :=
  if in_range 65 c 90 then Some (c - 65)
  else if in_range 97 c 122 then Some (c - 71)
  else if in_range 48 c 57 then Some (c + 4)
  else if c =? 43 then Some 62
  else if c =? 47 then Some 63
  else None.

Fixpoint b64_enc (l : list Z) : list Z :=
  match l with
  | a :: b :: c :: l' =>
      b64_char (a / 4) :: b64_char ((a mod 4) * 16 + b / 16)
      :: b64_char ((b mod 16) * 4 + c / 64) :: b64_char (c mod 64) :: b64_enc l'
  | [a; b] =>
      [b64_char (a / 4); b64_char ((a mod 4) * 16 + b / 16); b64_char ((b mod 16) * 4); 61]
  | [a] => [b64_char (a / 4); b64_char ((a mod 4) * 16); 61; 61]
  | [] => []
  end.

Fixpoint b64_dec (l : list Z) : option (list Z) :=
  match l with
  | [] => Some []
  | c0 :: c1 :: c2 :: c3 :: l' =>
      v0 ← b64_val c0; v1 ← b64_val c1;
      if c2 =? 61 then
        if c3 =? 61 then match l' with [] => Some [v0 * 4 + v1 / 16] | _ => None end else None
      else
        v2 ← b64_val c2;
        if c3 =? 61 then
          match l' with [] => Some [v0 * 4 + v1 / 16; (v1 mod 16) * 16 + v2 / 4] | _ => None end
        else
          v3 ← b64_val c3; rest ← b64_dec l';
          Some (v0 * 4 + v1 / 16 :: (v1 mod 16) * 16 + v2 / 4 :: (v2 mod 4) * 64 + v3 :: rest)
  | _ => None
  end.

Definition base64_encode (l : list Z) : string := str_of (b64_enc l).

(** [DecodeString] skips line breaks. *)
Definition base64_decode (s : string) : option (list Z) :=
  b64_dec (List.filter (fun c => negb ((c =? 10) || (c =? 13))) (bytes_of s)).

(** ** SHA-256 *)

Module Sha256.

Definition w32 (n : Z) : Z := Z.land n 4294967295.
Definition add (a b : Z) : Z := w32 (a + b).
Definition rotr (n k : Z) : Z := Z.lor (Z.shiftr n k) (w32 (Z.shiftl n (32 - k))).
Definition not32 (n : Z) : Z := Z.lxor n 4294967295.

Definition K : list Z :=
  [1116352408; 1899447441; 3049323471; 3921009573; 961987163; 1508970993; 2453635748;
   2870763221; 3624381080; 310598401; 607225278; 1426881987; 1925078388; 2162078206;
   2614888103; 3248222580; 3835390401; 4022224774; 264347078; 604807628; 770255983;
   1249150122; 1555081692; 1996064986; 2554220882; 2821834349; 2952996808; 3210313671;
   3336571891; 3584528711; 113926993; 338241895; 666307205; 773529912; 1294757372;
   1396182291; 1695183700; 1986661051; 2177026350; 2456956037; 2730485921; 2820302411;
   3259730800; 3345764771; 3516065817; 3600352804; 4094571909; 275423344; 430227734;
   506948616; 659060556; 883997877; 958139571; 1322822218; 1537002063; 1747873779;
   1955562222; 2024104815; 2227730452; 2361852424; 2428436474; 2756734187; 3204031479;
   3329325298].

Definition H0 : list Z :=
  [1779033703; 3144134277; 1013904242; 2773480762; 1359893119; 2600822924; 528734635;
   1541459225].

Fixpoint be (n : nat) (v : Z) : list Z :=
  match n with
  | O => []
  | S k => Z.land (Z.shiftr v (8 * Z.of_nat k)) 255 :: be k v
  end.

Definition pad (l : list Z) : list Z :=
  let n := length l in
  let zeros := Z.to_nat ((55 - Z.of_nat n) mod 64) in
  l ++ 128 :: replicate zeros 0 ++ be 8 (8 * Z.of_nat n).

Fixpoint words (l : list Z) : list Z :=
  match l with
  | a :: b :: c :: d :: l' => (((a * 256 + b) * 256 + c) * 256 + d) :: words l'
  | _ => []
  end.

(** The message schedule, newest word first. *)
Fixpoint extend (n : nat) (ws : list Z) : list Z :=
  match n with
  | O => ws
  | S k =>
      let w2 := nth 1 ws 0 in let w7 := nth 6 ws 0 in
      let w15 := nth 14 ws 0 in let w16 := nth 15 ws 0 in
      let s0 := Z.lxor (Z.lxor (rotr w15 7) (rotr w15 18)) (Z.shiftr w15 3) in
      let s1 := Z.lxor (Z.lxor (rotr w2 17) (rotr w2 19)) (Z.shiftr w2 10) in
      extend k (w32 (w16 + s0 + w7 + s1) :: ws)
  end.

Definition schedule (block : list Z) : list Z := reverse (extend 48 (reverse block)).

Definition round (st : list Z) (kw : Z * Z) : list Z :=
  match st with
  | [a; b; c; d; e; f; g; h] =>
      let s1 := Z.lxor (Z.lxor (rotr e 6) (rotr e 11)) (rotr e 25) in
      let ch := Z.lxor (Z.land e f) (Z.land (not32 e) g) in
      let t1 := h + s1 + ch + kw.1 + kw.2 in
      let s0 := Z.lxor (Z.lxor (rotr a 2) (rotr a 13)) (rotr a 22) in
      let maj := Z.lxor (Z.lxor (Z.land a b) (Z.land a c)) (Z.land b c) in
      [w32 (t1 + s0 + maj); a; b; c; add d t1; e; f; g]
  | _ => st
  end.

Definition compress (st block : list Z) : list Z :=
  zip_with add st (foldl round st (zip K (schedule block))).

Fixpoint blocks (fuel : nat) (ws : list Z) (st : list Z) : list Z :=
  match fuel with
  | O => st
  | S k =>
      match ws with
      | [] => st
      | _ => blocks k (drop 16 ws) (compress st (take 16 ws))
      end
  end.

(** [length] bounds the number of 16-word blocks. *)
Definition sum (l : list Z) : list Z :=
  let ws := words (pad l) in
  concat (map (be 4) (blocks (length ws) ws H0)).

(** [hmac.New(sha256.New, key)] *)
Definition hmac (key msg : list Z) : list Z :=
  let k := if (64 <? length key)%nat then sum key else key in
  let k0 := k ++ replicate (64 - length k) 0 in
  sum (map (fun b => Z.lxor b 92) k0 ++ sum (map (fun b => Z.lxor b 54) k0 ++ msg)).

End Sha256.

Definition sha256_hex (s : string) : string := hex_encode (Sha256.sum (bytes_of s)).
Definition hmac_hex (key msg : string) : string :=
  hex_encode (Sha256.hmac (bytes_of key) (bytes_of msg)).

(** ** Round trips *)

#[local] Ltac Zify.zify_post_hook ::= Z.to_euclidean_division_equations.

Lemma b64_val_char v : 0 <= v < 64 -> b64_val (b64_char v) = Some v /\ b64_char v <> 61 /\ b64_char v <> 10 /\ b64_char v <> 13.
Proof.
  intros Hv. unfold b64_char, b64_val, in_range.
  repeat case_match; boolprop; try lia; (split; [f_equal|]); lia.
Qed.

Lemma b64_val_char_eq v : 0 <= v < 64 -> b64_val (b64_char v) = Some v.
Proof. apply b64_val_char. Qed.

Lemma b64_char_not_pad v : 0 <= v < 64 -> (b64_char v =? 61) = false.
Proof. intros H. apply Z.eqb_neq. apply (b64_val_char v H). Qed.

Lemma b64_dec_enc l : Forall is_byte l -> b64_dec (b64_enc l) = Some l.
Proof.
  unfold is_byte. induction l as [l IH] using list_len_ind. intros Hl.
  destruct l as [|a [|b [|c l']]]; repeat match goal with H : Forall _ (_ :: _) |- _ => apply Forall_cons in H as [? ?] end;
    cbn [b64_enc b64_dec]; [done| | |];
    rewrite ?b64_val_char_eq, ?b64_char_not_pad by lia; cbn [mbind option_bind].
  - do 2 f_equal; lia.
  - do 3 f_equal; lia.
  - rewrite IH; [|simpl; lia|done]. cbn [mbind option_bind]. repeat f_equal; lia.
Qed.

Lemma b64_enc_no_newline l :
  Forall is_byte l ->
  List.filter (fun c => negb ((c =? 10) || (c =? 13))) (b64_enc l) = b64_enc l.
Proof.
  unfold is_byte. induction l as [l IH] using list_len_ind. intros Hl.
  assert (forall v, 0 <= v < 64 -> negb ((b64_char v =? 10) || (b64_char v =? 13)) = true) as Hc.
  { intros v Hv. pose proof (b64_val_char v Hv) as (_ & _ & ? & ?). boolprop. done. }
  destruct l as [|a [|b [|c l']]]; repeat match goal with H : Forall _ (_ :: _) |- _ => apply Forall_cons in H as [? ?] end;
    cbn [b64_enc List.filter]; [done|..]; rewrite !Hc by lia; try done.
  rewrite IH; [done | simpl; lia | done].
Qed.

Lemma b64_enc_bytes l : Forall is_byte l -> Forall is_byte (b64_enc l).
Proof.
  unfold is_byte. induction l as [l IH] using list_len_ind. intros Hl.
  assert (forall v, 0 <= v < 64 -> 0 <= b64_char v < 256) as Hc.
  { intros v Hv. unfold b64_char. repeat case_match; boolprop; lia. }
  destruct l as [|a [|b [|c l']]]; repeat match goal with H : Forall _ (_ :: _) |- _ => apply Forall_cons in H as [? ?] end;
    cbn [b64_enc]; [constructor|..]; repeat (apply Forall_cons_2; [first [apply Hc; lia | lia]|]).
  1,2: apply Forall_nil_2.
  apply IH; [simpl; lia | done].
Qed.

Lemma base64_round_trip l :
  Forall is_byte l -> base64_decode (base64_encode l) = Some l.
Proof.
  intros H. unfold base64_decode, base64_encode.
  rewrite bytes_of_str_of by (by apply b64_enc_bytes).
  rewrite b64_enc_no_newline by done. by apply b64_dec_enc.
Qed.

(** ** Published test vectors *)

Example sha256_abc :
  sha256_hex "abc" = "ba7816bf8f01cfea414140de5dae2223b00361a396177a9cb410ff61f20015ad".
Proof. vm_compute. reflexivity. Qed.

Example sha256_two_blocks :
  sha256_hex "abcdbcdecdefdefgefghfghighijhijkijkljklmklmnlmnomnopnopq" =
  "248d6a61d20638b8e5c026930c3e6039a33ce45964ff2167f6ecedd419db06c1".
Proof. vm_compute. reflexivity. Qed.

Example hmac_rfc4231_2 :
  hmac_hex "Jefe" "what do ya want for nothing?" =
  "5bdcc146bf60754e6a042426089575c75a003f089d2739839dec58b964ec3843".
Proof. vm_compute. reflexivity. Qed.

Example base64_ex : base64_encode (bytes_of "foobar!") = "Zm9vYmFyIQ==".
Proof. vm_compute. reflexivity. Qed.

Example base32_ex : str_of (base32 (bytes_of "foobar")) = "MZXW6YTBOI".
Proof. vm_compute. reflexivity. Qed.
