(* ===== verification/Json.v ===== *)
(** * JSON documents and the behaviour of [encoding/json] on Go structs

    A [json.RawMessage] is the document it holds ([None] for an empty one), so
    that the concrete syntax does not appear.  What does appear is what the
    program can observe of Marshal and Unmarshal:
    - strings are re-encoded as valid UTF-8;
    - Unmarshal into a struct goes through the members in order, ignores
      unknown keys, matches keys exactly or else ignoring ASCII case, leaves a
      field alone on [null], and goes on after a member of the wrong type,
      which it reports at the end.
    A decoder takes the value decoded so far and returns the new one with a
    flag: [false] is an error.  A [float64] is the rational it denotes. *)

From S2P Require Import Prelude GoText.
From Stdlib Require Export QArith_base.

Open Scope Z_scope.

Inductive json : Type :=
| JNull
| JBool (b : bool)
| JInt (n : Z)
| JFloat (q : Q)
| JStr (s : string)
| JArr (l : list json)
| JObj (members : list (string * json)).

(** ** Marshal *)

(** What Marshal writes for a string: its runes, invalid bytes replaced. *)
Definition to_valid (s : string) : string := of_runes (runes s).
Definition valid_utf8 (s : string) : Prop := to_valid s = s.

Definition enc_string (s : string) : json := JStr (to_valid s).

(** A member with [omitempty]. *)
Definition member (name : string) (v : json) : list (string * json) := [(name, v)].
Definition omitempty (empty : bool) (name : string) (v : json) : list (string * json) :=
  if empty then [] else [(name, v)].
Definition enc_struct (ms : list (list (string * json))) : json := JObj (concat ms).

Definition is_empty_string (s : string) : bool := String.eqb s "".
Definition is_empty_list {A} (l : list A) : bool := match l with [] => true | _ => false end.

(** ** Unmarshal *)

Definition decoder (T : Type) : Type := T -> json -> T * bool.

Definition dec_string : decoder string := fun cur j =>
  match j with JStr s => (s, true) | JNull => (cur, true) | _ => (cur, false) end.

Definition dec_bool : decoder bool := fun cur j =>
  match j with JBool b => (b, true) | JNull => (cur, true) | _ => (cur, false) end.

(** [int] and [int64]: a 64-bit platform. *)
Definition int64 (n : Z) : Prop := - 2 ^ 63 <= n < 2 ^ 63.
Definition int64b (n : Z) : bool := (- 2 ^ 63 <=? n) && (n <? 2 ^ 63).

Definition dec_int : decoder Z := fun cur j =>
  match j with
  | JInt n => if int64b n then (n, true) else (cur, false)
  | JNull => (cur, true)
  | _ => (cur, false)
  end.

Definition dec_float : decoder Q := fun cur j =>
  match j with
  | JInt n => (inject_Z n, true)
  | JFloat q => (q, true)
  | JNull => (cur, true)
  | _ => (cur, false)
  end.

(** A RawMessage takes any document, [null] included. *)
Definition dec_raw : decoder (option json) := fun _ j => (Some j, true).

Fixpoint dec_elems {T} (zero : T) (d : decoder T) (l : list json) : list T * bool :=
  match l with
  | [] => ([], true)
  | j :: l' =>
      let '(x, ok) := d zero j in
      let '(xs, oks) := dec_elems zero d l' in
      (x :: xs, ok && oks)
  end.

Definition dec_list {T} (zero : T) (d : decoder T) : decoder (list T) := fun cur j =>
  match j with
  | JArr l => dec_elems zero d l
  | JNull => ([], true)
  | _ => (cur, false)
  end.

Definition dec_ptr {T} (zero : T) (d : decoder T) : decoder (option T) := fun cur j =>
  match j with
  | JNull => (None, true)
  | _ => let '(x, ok) := d (default zero cur) j in (Some x, ok)
  end.

(** A struct's fields: the JSON name and the decoder into the struct. *)
Definition fields (T : Type) : Type := list (string * decoder T).

Definition field {T F} (get : T -> F) (set : F -> T -> T) (d : decoder F) : decoder T :=
  fun x j => let '(v, ok) := d (get x) j in (set v x, ok).

Fixpoint lookup_field {T} (eq : string -> string -> bool) (fs : fields T) (k : string) : option (decoder T) :=
  match fs with
  | [] => None
  | (name, d) :: fs' => if eq name k then Some d else lookup_field eq fs' k
  end.

Definition fold_key (s : string) : string := ToLower s.

Definition find_field {T} (fs : fields T) (k : string) : option (decoder T) :=
  match lookup_field String.eqb fs k with
  | Some d => Some d
  | None => lookup_field (fun a b => String.eqb (fold_key a) (fold_key b)) fs k
  end.

Fixpoint dec_members {T} (fs : fields T) (cur : T) (ms : list (string * json)) : T * bool :=
  match ms with
  | [] => (cur, true)
  | (k, j) :: ms' =>
      match find_field fs k with
      | None => dec_members fs cur ms'
      | Some d =>
          let '(cur', ok) := d cur j in
          let '(x, oks) := dec_members fs cur' ms' in
          (x, ok && oks)
      end
  end.

Definition dec_struct {T} (fs : fields T) : decoder T := fun cur j =>
  match j with
  | JObj ms => dec_members fs cur ms
  | JNull => (cur, true)
  | _ => (cur, false)
  end.

(** ** Types that travel as JSON

    [wire_ok] are the values Marshal does not change: valid UTF-8 and integers
    of their width. *)
Class Wire (T : Type) := {
  wire_zero : T;
  wire_enc : T -> json;
  wire_dec : decoder T;
  wire_ok : T -> Prop
}.

Class WireRoundTrip (T : Type) `{!Wire T} := {
  wire_round : forall x, wire_ok x -> wire_dec wire_zero (wire_enc x) = (x, true);
  wire_not_null : forall x, wire_enc x <> JNull
}.

Lemma int64b_spec n : int64b n = true <-> int64 n.
Proof. unfold int64b, int64. rewrite andb_true_iff, Z.leb_le, Z.ltb_lt. done. Qed.

Lemma dec_int_round cur n : int64 n -> dec_int cur (JInt n) = (n, true).
Proof. intros H. unfold dec_int. by rewrite (proj2 (int64b_spec n) H). Qed.

Lemma dec_string_round cur s : valid_utf8 s -> dec_string cur (enc_string s) = (s, true).
Proof. unfold valid_utf8. intros H. simpl. by rewrite H. Qed.

Lemma dec_list_round {T} `{!Wire T, !WireRoundTrip T} cur (l : list T) :
  Forall wire_ok l -> dec_list wire_zero wire_dec cur (JArr (map wire_enc l)) = (l, true).
Proof.
  simpl. induction 1 as [|x l Hx _ IH]; simpl; [done|].
  by rewrite wire_round, IH.
Qed.

Lemma dec_ptr_round {T} `{!Wire T, !WireRoundTrip T} (x : T) :
  wire_ok x -> dec_ptr wire_zero wire_dec None (wire_enc x) = (Some x, true).
Proof.
  intros Hx. unfold dec_ptr. pose proof (wire_not_null x) as Hn. simpl.
  destruct (wire_enc x) eqn:E; [done|..]; rewrite <- E, wire_round; done.
Qed.

#[export] Instance wire_string : Wire string := {|
  wire_zero := ""; wire_enc := enc_string; wire_dec := dec_string; wire_ok := valid_utf8 |}.
#[export] Instance wire_string_round : WireRoundTrip string.
Proof. split; [apply dec_string_round | done]. Qed.

(** Decoding the members written for one field. *)
Lemma dec_members_app {T} (fs : fields T) cur ms1 ms2 :
  dec_members fs cur (ms1 ++ ms2) =
    let '(x, ok1) := dec_members fs cur ms1 in
    let '(y, ok2) := dec_members fs x ms2 in (y, ok1 && ok2).
Proof.
  revert cur. induction ms1 as [|[k j] ms1 IH]; intros cur; simpl.
  - by destruct (dec_members fs cur ms2).
  - destruct (find_field fs k) as [d|]; [|apply IH].
    destruct (d cur j) as [cur' ok]. rewrite IH.
    destruct (dec_members fs cur' ms1) as [x ok1].
    destruct (dec_members fs x ms2) as [y ok2]. by rewrite andb_assoc.
Qed.

Lemma dec_member_step {T} (fs : fields T) cur k j d ms x :
  find_field fs k = Some d -> d cur j = (x, true) ->
  dec_members fs cur ((k, j) :: ms) = dec_members fs x ms.
Proof. intros Hf Hd. simpl. rewrite Hf, Hd. by destruct (dec_members fs x ms). Qed.

(** ** Round trip of a struct *)

Lemma wire_struct_intro {T} (fs : fields T) (zero : T)
    (ms : T -> list (list (string * json))) (ok : T -> Prop) :
  (forall x, ok x -> dec_members fs zero (concat (ms x)) = (x, true)) ->
  @WireRoundTrip T {| wire_zero := zero; wire_enc := fun x => enc_struct (ms x);
                      wire_dec := dec_struct fs; wire_ok := ok |}.
Proof. intros H. split; [exact H | done]. Qed.

Lemma field_round {T F} (get : T -> F) set (d : decoder F) cur j v x :
  d (get cur) j = (v, true) -> set v cur = x -> field get set d cur j = (x, true).
Proof. unfold field. by intros -> ->. Qed.

Lemma dec_strings_round cur (l : list string) :
  Forall valid_utf8 l -> dec_list "" dec_string cur (JArr (map enc_string l)) = (l, true).
Proof. exact (dec_list_round (T:=string) cur l). Qed.

Lemma is_empty_string_true s : is_empty_string s = true -> s = "".
Proof. apply String.eqb_eq. Qed.
Lemma is_empty_list_true {A} (l : list A) : is_empty_list l = true -> l = [].
Proof. by destruct l. Qed.
Lemma negb_true_false b : negb b = true -> b = false.
Proof. by destruct b. Qed.
Lemma not_is_Some_none {A} (o : option A) : negb (bool_decide (is_Some o)) = true -> o = None.
Proof. rewrite negb_true_iff, bool_decide_eq_false. by rewrite eq_None_not_Some. Qed.
Lemma negb_false_true b : negb b = false -> b = true.
Proof. by destruct b. Qed.
Lemma not_is_Some_some {A} (o : option A) : negb (bool_decide (is_Some o)) = false -> exists a, o = Some a.
Proof. rewrite negb_false_iff, bool_decide_eq_true. done. Qed.

(** Floats omitted when zero; [0] has one representation. *)
Definition is_zero_float (q : Q) : bool := Qeq_bool q 0.
Definition float_ok (q : Q) : Prop := is_zero_float q = true -> q = 0%Q.

Ltac wire_intro :=
  apply wire_struct_intro;
  let x := fresh "x" in let Hok := fresh "Hok" in
  intros x Hok; destruct x; destruct_and? Hok;
  repeat match goal with H : is_Some _ |- _ => destruct H as [? ?] end.

Ltac wire_omit :=
  repeat match goal with
  | |- context [bool_decide (is_Some ?o)] =>
      is_var o; destruct o as [z|];
      [change (negb (bool_decide (is_Some (Some z)))) with false
      | match goal with |- context [is_Some (@None ?T)] =>
          change (negb (bool_decide (is_Some (@None T)))) with true end];
      cbv beta iota in *; cbn [omitempty]
  end;
  repeat match goal with
  | |- context [omitempty ?c _ _] =>
      let E := fresh "E" in destruct c eqn:E; cbn [omitempty];
      first [ lazymatch c with is_zero_float _ => idtac end
            | apply is_empty_string_true in E; subst
            | apply is_empty_list_true in E; subst
            | apply Z.eqb_eq in E; subst
            | apply negb_true_false in E; subst
            | apply not_is_Some_none in E; subst
            | apply negb_false_true in E; subst
            | apply not_is_Some_some in E as [? ?]; subst
            | idtac ]
  end.

Ltac wire_field :=
  first [ apply dec_string_round; assumption
        | apply dec_int_round; assumption
        | apply dec_strings_round; assumption
        | apply dec_list_round; assumption
        | apply dec_ptr_round; assumption
        | match goal with
          | H : @wire_ok ?T ?I ?y |- @wire_dec ?T ?I _ (wire_enc ?y) = _ =>
              exact (@wire_round T I _ y H)
          | H : @wire_ok ?T ?I ?y |- dec_ptr _ _ _ _ = _ =>
              exact (@dec_ptr_round T I _ y H)
          end
        | reflexivity ].

Ltac wire_solve :=
  subst; wire_omit; cbn [concat app member];
  repeat (erewrite dec_member_step; [|reflexivity|eapply field_round; [wire_field | simpl; reflexivity]]);
  try reflexivity;
  (match goal with H : float_ok ?q, E : is_zero_float ?q = true |- _ => rewrite (H E); reflexivity end).

(** ** What Marshal does to texts *)

Lemma encode_rune_ascii r : 0 <= r < 128 -> encode_rune r = [r].
Proof.
  intros H. unfold encode_rune, valid_rune, in_range. rewrite (proj2 (Z.leb_le 0 r)), (proj2 (Z.leb_le r 55295)) by lia. cbn.
  by rewrite (proj2 (Z.ltb_lt r 128)) by lia.
Qed.

Lemma encode_rune_high r : 128 <= r -> exists b rest, encode_rune r = b :: rest /\ 128 <= b.
Proof.
  intros H. unfold encode_rune. set (r' := if valid_rune r then r else RuneError).
  assert (H' : 128 <= r') by (unfold r', RuneError; case_match; lia). clearbody r'.
  rewrite (proj2 (Z.ltb_ge r' 128)) by lia.
  assert (0 <= r' / 64 /\ 0 <= r' / 4096 /\ 0 <= r' / 262144) by (repeat split; apply Z.div_pos; lia).
  repeat case_match; eexists _, _; split; try reflexivity; lia.
Qed.

(** A rune is an ASCII byte or comes from bytes that are not. *)
Lemma segs_low l r bs :
  (r, bs) ∈ segs l -> Forall is_byte l -> (bs = [r] /\ 0 <= r < 128) \/ 128 <= r.
Proof.
  segs_ind l IH; [by intros ?%elem_of_nil|..]; intros Hin Hb;
    repeat match goal with H : Forall is_byte (_ :: _) |- _ => apply Forall_cons in H as [? ?] end;
    (apply elem_of_cons in Hin as [E|Hin]; [|eapply IH; [|exact Hin|]; [simpl; lia|by repeat (apply Forall_cons_2; [done|])]]);
    simplify_eq; unfold_utf8; boolprop; unfold is_byte, RuneError in *;
    first [right; lia | left; split; [reflexivity|lia] | right; repeat case_match; boolprop; lia].
Qed.

(** Only bytes that are not ASCII are repaired. *)
Lemma to_valid_ascii s t : to_valid s = t -> Forall (fun b => b < 128) (bytes_of t) -> s = t.
Proof.
  intros <-. unfold to_valid. rewrite bytes_of_runes. unfold runes, encode. intros H.
  apply bytes_of_inj. rewrite bytes_of_runes, <- (segs_concat (bytes_of s)) at 1. unfold runes, encode.
  f_equal. pose proof (fun r bs Hin => segs_low _ r bs Hin (bytes_of_range s)) as Hlow.
  induction (segs (bytes_of s)) as [|[r bs] l IH]; [done|]. cbn in H |- *. apply Forall_app in H as [Hr H].
  f_equal; [|apply IH; [done|]; intros; apply Hlow; by right].
  destruct (Hlow r bs) as [[-> Hr']|Hr']; [by left|by rewrite encode_rune_ascii|].
  destruct (encode_rune_high r Hr') as (b & rest & Eb & ?). rewrite Eb in Hr. apply Forall_cons in Hr as [? _]. lia.
Qed.

(** A text that begins with an ASCII byte still does, and none becomes empty. *)
Lemma to_valid_cons a s : byte_of a < 128 -> to_valid (String a s) = String a (to_valid s).
Proof.
  intros Ha. pose proof (byte_of_range a) as [Ha0 _]. unfold to_valid, runes, of_runes, encode. cbn [bytes_of].
  rewrite segs_cons, (proj2 (Z.ltb_lt (byte_of a) 128)) by done. cbv zeta. rewrite fmap_cons. cbn [map concat fst].
  rewrite encode_rune_ascii by done. cbn [app str_of]. by rewrite ascii_of_byte_of.
Qed.

Lemma to_valid_empty s : to_valid s = "" <-> s = "".
Proof. split; [|by intros ->]. intros H. apply to_valid_ascii in H; [done|constructor]. Qed.

(** ** Slices that may be nil *)

(** Unmarshal into a slice that is there already: elements are decoded over the
    old ones.  [None] is a nil slice. *)
Fixpoint dec_over {T} (zero : T) (d : decoder T) (cur : list T) (l : list json) : list T * bool :=
  match l with
  | [] => ([], true)
  | j :: l' =>
      let '(x, ok) := d (default zero (head cur)) j in
      let '(xs, oks) := dec_over zero d (tail cur) l' in
      (x :: xs, ok && oks)
  end.
Definition dec_slice {T} (zero : T) (d : decoder T) : decoder (option (list T)) := fun cur j =>
  match j with
  | JArr l => let '(xs, ok) := dec_over zero d (default [] cur) l in (Some xs, ok)
  | JNull => (None, true)
  | _ => (cur, false)
  end.
