(* ===== verification/Protocol.v ===== *)
(** * The wire protocol ([internal/protocol])

    The envelope, the message types with their JSON form, which types need an
    acknowledgement, and identifiers.  Every payload struct has its fields
    with the names of [protocol.go], the document Marshal writes for it
    ([*_json], with the [omitempty] members) and the decoder Unmarshal runs
    ([*_fields]); the [WireRoundTrip] instances prove that decoding inverts
    encoding. *)

From S2P Require Import Prelude GoText Json.

Open Scope Z_scope.

(** ** Message types *)

Definition Path : string := "/harness/v2".

Definition TypeHello : string := "hello".
Definition TypePing : string := "ping".
Definition TypeJobProgress : string := "job.progress".
Definition TypeJobResult : string := "job.result".
Definition TypeApprovalRequest : string := "approval.request".

Definition TypeWelcome : string := "welcome".
Definition TypePong : string := "pong".
Definition TypeJobDispatch : string := "job.dispatch".
Definition TypeJobCancel : string := "job.cancel".
Definition TypeApprovalResponse : string := "approval.response".

Definition TypeAck : string := "ack".
Definition TypeError : string := "error".

(** [NeedsAck]: the at-least-once types. *)
Definition NeedsAck (typ : string) : bool :=
  String.eqb typ TypeJobDispatch || String.eqb typ TypeJobCancel
  || String.eqb typ TypeApprovalResponse
  || String.eqb typ TypeJobResult || String.eqb typ TypeApprovalRequest.

Definition CloseReplaced : Z := 4001.
Definition CloseUnauthorized : Z := 4003.
Definition CloseVersionTooOld : Z := 4004.
Definition CloseProtocolViolate : Z := 4005.

Definition NackUnknownJob : string := "unknown_job".
Definition NackWorkspaceUnknown : string := "workspace_unknown".
Definition NackBusy : string := "busy".
Definition NackBadPayload : string := "bad_payload".
Definition NackForbidden : string := "forbidden".
Definition NackAgentUnknown : string := "agent_unknown".

Definition ErrUnknownType : string := "unknown_type".
Definition ErrBadPayload : string := "bad_payload".

Definition ActionResume : string := "resume".
Definition ActionAbort : string := "abort".

Definition PhaseStarting : string := "starting".
Definition PhaseRunning : string := "running".
Definition PhaseAwaitingApproval : string := "awaiting_approval".

Definition StatusSucceeded : string := "succeeded".
Definition StatusFailed : string := "failed".
Definition StatusCancelled : string := "cancelled".

Definition DecisionAllow : string := "allow".
Definition DecisionDeny : string := "deny".

Definition MaxFileBytes : Z := Z.shiftl 8 20.

(** ** Payloads *)

(** Ack answers an at-least-once message; [OK = false] is a nack. *)
Record Ack : Type := MkAck {
  ak_OK : bool;
  ak_Code : string;
  ak_Message : string
}.

Definition Ack_fields : fields Ack :=
  [("ok", field ak_OK (fun v x => MkAck v (ak_Code x) (ak_Message x)) dec_bool);
   ("code", field ak_Code (fun v x => MkAck (ak_OK x) v (ak_Message x)) dec_string);
   ("message", field ak_Message (fun v x => MkAck (ak_OK x) (ak_Code x) v) dec_string)].

Definition Ack_json (x : Ack) : json := enc_struct
  [member "ok" (JBool (ak_OK x));
   omitempty (is_empty_string (ak_Code x)) "code" (enc_string (ak_Code x));
   omitempty (is_empty_string (ak_Message x)) "message" (enc_string (ak_Message x))].

#[export] Instance wire_Ack : Wire Ack := {|
  wire_zero := MkAck false "" "";
  wire_enc := Ack_json;
  wire_dec := dec_struct Ack_fields;
  wire_ok x := valid_utf8 (ak_Code x) /\ valid_utf8 (ak_Message x) |}.
#[export] Instance round_Ack : WireRoundTrip Ack.
Proof.
  wire_intro. cbv beta iota delta [ak_OK ak_Code ak_Message] in *. wire_solve.
Qed.

(** A protocol-level problem with a previous message. *)
Record Error : Type := MkError {
  er_Code : string;
  er_Message : string
}.

Definition Error_fields : fields Error :=
  [("code", field er_Code (fun v x => MkError v (er_Message x)) dec_string);
   ("message", field er_Message (fun v x => MkError (er_Code x) v) dec_string)].

Definition Error_json (x : Error) : json := enc_struct
  [member "code" (enc_string (er_Code x));
   member "message" (enc_string (er_Message x))].

#[export] Instance wire_Error : Wire Error := {|
  wire_zero := MkError "" "";
  wire_enc := Error_json;
  wire_dec := dec_struct Error_fields;
  wire_ok x := valid_utf8 (er_Code x) /\ valid_utf8 (er_Message x) |}.
#[export] Instance round_Error : WireRoundTrip Error.
Proof.
  wire_intro. cbv beta iota delta [er_Code er_Message] in *. wire_solve.
Qed.

(** A job the harness still runs. *)
Record HelloJob : Type := MkHelloJob {
  hj_JobID : string;
  hj_State : string;
  hj_LastSeq : Z;
  hj_PendingApprovals : list string
}.

Definition HelloJob_fields : fields HelloJob :=
  [("job_id", field hj_JobID (fun v x => MkHelloJob v (hj_State x) (hj_LastSeq x) (hj_PendingApprovals x)) dec_string);
   ("state", field hj_State (fun v x => MkHelloJob (hj_JobID x) v (hj_LastSeq x) (hj_PendingApprovals x)) dec_string);
   ("last_seq", field hj_LastSeq (fun v x => MkHelloJob (hj_JobID x) (hj_State x) v (hj_PendingApprovals x)) dec_int);
   ("pending_approvals", field hj_PendingApprovals (fun v x => MkHelloJob (hj_JobID x) (hj_State x) (hj_LastSeq x) v) (dec_list "" dec_string))].

Definition HelloJob_json (x : HelloJob) : json := enc_struct
  [member "job_id" (enc_string (hj_JobID x));
   member "state" (enc_string (hj_State x));
   member "last_seq" (JInt (hj_LastSeq x));
   omitempty (is_empty_list (hj_PendingApprovals x)) "pending_approvals" (JArr (map enc_string (hj_PendingApprovals x)))].

#[export] Instance wire_HelloJob : Wire HelloJob := {|
  wire_zero := MkHelloJob "" "" 0 [];
  wire_enc := HelloJob_json;
  wire_dec := dec_struct HelloJob_fields;
  wire_ok x := valid_utf8 (hj_JobID x) /\ valid_utf8 (hj_State x) /\ int64 (hj_LastSeq x) /\ Forall valid_utf8 (hj_PendingApprovals x) |}.
#[export] Instance round_HelloJob : WireRoundTrip HelloJob.
Proof.
  wire_intro. cbv beta iota delta [hj_JobID hj_State hj_LastSeq hj_PendingApprovals] in *. wire_solve.
Qed.

(** First message after the upgrade. *)
Record Hello : Type := MkHello {
  he_HarnessVersion : string;
  he_Hostname : string;
  he_Workspaces : list string;
  he_MaxJobs : Z;
  he_Jobs : list HelloJob
}.

Definition Hello_fields : fields Hello :=
  [("harness_version", field he_HarnessVersion (fun v x => MkHello v (he_Hostname x) (he_Workspaces x) (he_MaxJobs x) (he_Jobs x)) dec_string);
   ("hostname", field he_Hostname (fun v x => MkHello (he_HarnessVersion x) v (he_Workspaces x) (he_MaxJobs x) (he_Jobs x)) dec_string);
   ("workspaces", field he_Workspaces (fun v x => MkHello (he_HarnessVersion x) (he_Hostname x) v (he_MaxJobs x) (he_Jobs x)) (dec_list "" dec_string));
   ("max_jobs", field he_MaxJobs (fun v x => MkHello (he_HarnessVersion x) (he_Hostname x) (he_Workspaces x) v (he_Jobs x)) dec_int);
   ("jobs", field he_Jobs (fun v x => MkHello (he_HarnessVersion x) (he_Hostname x) (he_Workspaces x) (he_MaxJobs x) v) (dec_list wire_zero wire_dec))].

(** [WorkspaceNames] makes the list of names, which is never nil. *)
Definition Hello_json (x : Hello) : json := enc_struct
  [member "harness_version" (enc_string (he_HarnessVersion x));
   member "hostname" (enc_string (he_Hostname x));
   member "workspaces" (JArr (map enc_string (he_Workspaces x)));
   member "max_jobs" (JInt (he_MaxJobs x));
   omitempty (is_empty_list (he_Jobs x)) "jobs" (JArr (map wire_enc (he_Jobs x)))].

#[export] Instance wire_Hello : Wire Hello := {|
  wire_zero := MkHello "" "" [] 0 [];
  wire_enc := Hello_json;
  wire_dec := dec_struct Hello_fields;
  wire_ok x := valid_utf8 (he_HarnessVersion x) /\ valid_utf8 (he_Hostname x) /\ Forall valid_utf8 (he_Workspaces x) /\ int64 (he_MaxJobs x) /\ Forall wire_ok (he_Jobs x) |}.
#[export] Instance round_Hello : WireRoundTrip Hello.
Proof.
  wire_intro. cbv beta iota delta [he_HarnessVersion he_Hostname he_Workspaces he_MaxJobs he_Jobs] in *. wire_solve.
Qed.

(** The broker's decision on one reported job. *)
Record WelcomeJob : Type := MkWelcomeJob {
  wj_JobID : string;
  wj_Action : string;
  wj_Reason : string
}.

Definition WelcomeJob_fields : fields WelcomeJob :=
  [("job_id", field wj_JobID (fun v x => MkWelcomeJob v (wj_Action x) (wj_Reason x)) dec_string);
   ("action", field wj_Action (fun v x => MkWelcomeJob (wj_JobID x) v (wj_Reason x)) dec_string);
   ("reason", field wj_Reason (fun v x => MkWelcomeJob (wj_JobID x) (wj_Action x) v) dec_string)].

Definition WelcomeJob_json (x : WelcomeJob) : json := enc_struct
  [member "job_id" (enc_string (wj_JobID x));
   member "action" (enc_string (wj_Action x));
   omitempty (is_empty_string (wj_Reason x)) "reason" (enc_string (wj_Reason x))].

#[export] Instance wire_WelcomeJob : Wire WelcomeJob := {|
  wire_zero := MkWelcomeJob "" "" "";
  wire_enc := WelcomeJob_json;
  wire_dec := dec_struct WelcomeJob_fields;
  wire_ok x := valid_utf8 (wj_JobID x) /\ valid_utf8 (wj_Action x) /\ valid_utf8 (wj_Reason x) |}.
#[export] Instance round_WelcomeJob : WireRoundTrip WelcomeJob.
Proof.
  wire_intro. cbv beta iota delta [wj_JobID wj_Action wj_Reason] in *. wire_solve.
Qed.

(** Answer to Hello. *)
Record Welcome : Type := MkWelcome {
  we_HarnessID : string;
  we_HeartbeatIntervalMS : Z;
  we_ServerTime : Z;
  we_Jobs : list WelcomeJob
}.

Definition Welcome_fields : fields Welcome :=
  [("harness_id", field we_HarnessID (fun v x => MkWelcome v (we_HeartbeatIntervalMS x) (we_ServerTime x) (we_Jobs x)) dec_string);
   ("heartbeat_interval_ms", field we_HeartbeatIntervalMS (fun v x => MkWelcome (we_HarnessID x) v (we_ServerTime x) (we_Jobs x)) dec_int);
   ("server_time", field we_ServerTime (fun v x => MkWelcome (we_HarnessID x) (we_HeartbeatIntervalMS x) v (we_Jobs x)) dec_int);
   ("jobs", field we_Jobs (fun v x => MkWelcome (we_HarnessID x) (we_HeartbeatIntervalMS x) (we_ServerTime x) v) (dec_list wire_zero wire_dec))].

Definition Welcome_json (x : Welcome) : json := enc_struct
  [member "harness_id" (enc_string (we_HarnessID x));
   member "heartbeat_interval_ms" (JInt (we_HeartbeatIntervalMS x));
   member "server_time" (JInt (we_ServerTime x));
   omitempty (is_empty_list (we_Jobs x)) "jobs" (JArr (map wire_enc (we_Jobs x)))].

#[export] Instance wire_Welcome : Wire Welcome := {|
  wire_zero := MkWelcome "" 0 0 [];
  wire_enc := Welcome_json;
  wire_dec := dec_struct Welcome_fields;
  wire_ok x := valid_utf8 (we_HarnessID x) /\ int64 (we_HeartbeatIntervalMS x) /\ int64 (we_ServerTime x) /\ Forall wire_ok (we_Jobs x) |}.
#[export] Instance round_Welcome : WireRoundTrip Welcome.
Proof.
  wire_intro. cbv beta iota delta [we_HarnessID we_HeartbeatIntervalMS we_ServerTime we_Jobs] in *. wire_solve.
Qed.

Record Ping : Type := MkPing {
  pi_Jobs : Z
}.

Definition Ping_fields : fields Ping :=
  [("jobs", field pi_Jobs (fun v x => MkPing v) dec_int)].

Definition Ping_json (x : Ping) : json := enc_struct
  [member "jobs" (JInt (pi_Jobs x))].

#[export] Instance wire_Ping : Wire Ping := {|
  wire_zero := MkPing 0;
  wire_enc := Ping_json;
  wire_dec := dec_struct Ping_fields;
  wire_ok x := int64 (pi_Jobs x) |}.
#[export] Instance round_Ping : WireRoundTrip Ping.
Proof.
  wire_intro. cbv beta iota delta [pi_Jobs] in *. wire_solve.
Qed.

Record Pong : Type := MkPong {
  po_ServerTime : Z
}.

Definition Pong_fields : fields Pong :=
  [("server_time", field po_ServerTime (fun v x => MkPong v) dec_int)].

Definition Pong_json (x : Pong) : json := enc_struct
  [member "server_time" (JInt (po_ServerTime x))].

#[export] Instance wire_Pong : Wire Pong := {|
  wire_zero := MkPong 0;
  wire_enc := Pong_json;
  wire_dec := dec_struct Pong_fields;
  wire_ok x := int64 (po_ServerTime x) |}.
#[export] Instance round_Pong : WireRoundTrip Pong.
Proof.
  wire_intro. cbv beta iota delta [po_ServerTime] in *. wire_solve.
Qed.

(** A small attachment, inline. *)
Record File : Type := MkFile {
  fi_Name : string;
  fi_Mime : string;
  fi_DataB64 : string
}.

Definition File_fields : fields File :=
  [("name", field fi_Name (fun v x => MkFile v (fi_Mime x) (fi_DataB64 x)) dec_string);
   ("mime", field fi_Mime (fun v x => MkFile (fi_Name x) v (fi_DataB64 x)) dec_string);
   ("data_b64", field fi_DataB64 (fun v x => MkFile (fi_Name x) (fi_Mime x) v) dec_string)].

Definition File_json (x : File) : json := enc_struct
  [member "name" (enc_string (fi_Name x));
   member "mime" (enc_string (fi_Mime x));
   member "data_b64" (enc_string (fi_DataB64 x))].

#[export] Instance wire_File : Wire File := {|
  wire_zero := MkFile "" "" "";
  wire_enc := File_json;
  wire_dec := dec_struct File_fields;
  wire_ok x := valid_utf8 (fi_Name x) /\ valid_utf8 (fi_Mime x) /\ valid_utf8 (fi_DataB64 x) |}.
#[export] Instance round_File : WireRoundTrip File.
Proof.
  wire_intro. cbv beta iota delta [fi_Name fi_Mime fi_DataB64] in *. wire_solve.
Qed.

Record Thread : Type := MkThread {
  th_ChannelID : string;
  th_RootPostID : string;
  th_TriggerPostID : string
}.

Definition Thread_fields : fields Thread :=
  [("channel_id", field th_ChannelID (fun v x => MkThread v (th_RootPostID x) (th_TriggerPostID x)) dec_string);
   ("root_post_id", field th_RootPostID (fun v x => MkThread (th_ChannelID x) v (th_TriggerPostID x)) dec_string);
   ("trigger_post_id", field th_TriggerPostID (fun v x => MkThread (th_ChannelID x) (th_RootPostID x) v) dec_string)].

Definition Thread_json (x : Thread) : json := enc_struct
  [member "channel_id" (enc_string (th_ChannelID x));
   member "root_post_id" (enc_string (th_RootPostID x));
   member "trigger_post_id" (enc_string (th_TriggerPostID x))].

#[export] Instance wire_Thread : Wire Thread := {|
  wire_zero := MkThread "" "" "";
  wire_enc := Thread_json;
  wire_dec := dec_struct Thread_fields;
  wire_ok x := valid_utf8 (th_ChannelID x) /\ valid_utf8 (th_RootPostID x) /\ valid_utf8 (th_TriggerPostID x) |}.
#[export] Instance round_Thread : WireRoundTrip Thread.
Proof.
  wire_intro. cbv beta iota delta [th_ChannelID th_RootPostID th_TriggerPostID] in *. wire_solve.
Qed.

Record Requester : Type := MkRequester {
  rq_MMUserID : string;
  rq_Username : string
}.

Definition Requester_fields : fields Requester :=
  [("mm_user_id", field rq_MMUserID (fun v x => MkRequester v (rq_Username x)) dec_string);
   ("username", field rq_Username (fun v x => MkRequester (rq_MMUserID x) v) dec_string)].

Definition Requester_json (x : Requester) : json := enc_struct
  [member "mm_user_id" (enc_string (rq_MMUserID x));
   member "username" (enc_string (rq_Username x))].

#[export] Instance wire_Requester : Wire Requester := {|
  wire_zero := MkRequester "" "";
  wire_enc := Requester_json;
  wire_dec := dec_struct Requester_fields;
  wire_ok x := valid_utf8 (rq_MMUserID x) /\ valid_utf8 (rq_Username x) |}.
#[export] Instance round_Requester : WireRoundTrip Requester.
Proof.
  wire_intro. cbv beta iota delta [rq_MMUserID rq_Username] in *. wire_solve.
Qed.

Record Limits : Type := MkLimits {
  li_MaxTurns : Z;
  li_TimeoutMS : Z
}.

Definition Limits_fields : fields Limits :=
  [("max_turns", field li_MaxTurns (fun v x => MkLimits v (li_TimeoutMS x)) dec_int);
   ("timeout_ms", field li_TimeoutMS (fun v x => MkLimits (li_MaxTurns x) v) dec_int)].

Definition Limits_json (x : Limits) : json := enc_struct
  [omitempty (li_MaxTurns x =? 0) "max_turns" (JInt (li_MaxTurns x));
   omitempty (li_TimeoutMS x =? 0) "timeout_ms" (JInt (li_TimeoutMS x))].

#[export] Instance wire_Limits : Wire Limits := {|
  wire_zero := MkLimits 0 0;
  wire_enc := Limits_json;
  wire_dec := dec_struct Limits_fields;
  wire_ok x := int64 (li_MaxTurns x) /\ int64 (li_TimeoutMS x) |}.
#[export] Instance round_Limits : WireRoundTrip Limits.
Proof.
  wire_intro. cbv beta iota delta [li_MaxTurns li_TimeoutMS] in *. wire_solve.
Qed.

(** One earlier post of the thread. *)
Record HistoryPost : Type := MkHistoryPost {
  hp_Username : string;
  hp_At : Z;
  hp_Text : string
}.

Definition HistoryPost_fields : fields HistoryPost :=
  [("username", field hp_Username (fun v x => MkHistoryPost v (hp_At x) (hp_Text x)) dec_string);
   ("at", field hp_At (fun v x => MkHistoryPost (hp_Username x) v (hp_Text x)) dec_int);
   ("text", field hp_Text (fun v x => MkHistoryPost (hp_Username x) (hp_At x) v) dec_string)].

Definition HistoryPost_json (x : HistoryPost) : json := enc_struct
  [member "username" (enc_string (hp_Username x));
   member "at" (JInt (hp_At x));
   member "text" (enc_string (hp_Text x))].

#[export] Instance wire_HistoryPost : Wire HistoryPost := {|
  wire_zero := MkHistoryPost "" 0 "";
  wire_enc := HistoryPost_json;
  wire_dec := dec_struct HistoryPost_fields;
  wire_ok x := valid_utf8 (hp_Username x) /\ int64 (hp_At x) /\ valid_utf8 (hp_Text x) |}.
#[export] Instance round_HistoryPost : WireRoundTrip HistoryPost.
Proof.
  wire_intro. cbv beta iota delta [hp_Username hp_At hp_Text] in *. wire_solve.
Qed.

(** Asks the harness to run a job. *)
Record JobDispatch : Type := MkJobDispatch {
  jd_BotUserID : string;
  jd_Workspace : string;
  jd_Agent : string;
  jd_Prompt : string;
  jd_Thread : Thread;
  jd_Requester : Requester;
  jd_Attachments : list File;
  jd_History : list HistoryPost;
  jd_Limits : Limits
}.

Definition JobDispatch_fields : fields JobDispatch :=
  [("bot_user_id", field jd_BotUserID (fun v x => MkJobDispatch v (jd_Workspace x) (jd_Agent x) (jd_Prompt x) (jd_Thread x) (jd_Requester x) (jd_Attachments x) (jd_History x) (jd_Limits x)) dec_string);
   ("workspace", field jd_Workspace (fun v x => MkJobDispatch (jd_BotUserID x) v (jd_Agent x) (jd_Prompt x) (jd_Thread x) (jd_Requester x) (jd_Attachments x) (jd_History x) (jd_Limits x)) dec_string);
   ("agent", field jd_Agent (fun v x => MkJobDispatch (jd_BotUserID x) (jd_Workspace x) v (jd_Prompt x) (jd_Thread x) (jd_Requester x) (jd_Attachments x) (jd_History x) (jd_Limits x)) dec_string);
   ("prompt", field jd_Prompt (fun v x => MkJobDispatch (jd_BotUserID x) (jd_Workspace x) (jd_Agent x) v (jd_Thread x) (jd_Requester x) (jd_Attachments x) (jd_History x) (jd_Limits x)) dec_string);
   ("thread", field jd_Thread (fun v x => MkJobDispatch (jd_BotUserID x) (jd_Workspace x) (jd_Agent x) (jd_Prompt x) v (jd_Requester x) (jd_Attachments x) (jd_History x) (jd_Limits x)) wire_dec);
   ("requester", field jd_Requester (fun v x => MkJobDispatch (jd_BotUserID x) (jd_Workspace x) (jd_Agent x) (jd_Prompt x) (jd_Thread x) v (jd_Attachments x) (jd_History x) (jd_Limits x)) wire_dec);
   ("attachments", field jd_Attachments (fun v x => MkJobDispatch (jd_BotUserID x) (jd_Workspace x) (jd_Agent x) (jd_Prompt x) (jd_Thread x) (jd_Requester x) v (jd_History x) (jd_Limits x)) (dec_list wire_zero wire_dec));
   ("history", field jd_History (fun v x => MkJobDispatch (jd_BotUserID x) (jd_Workspace x) (jd_Agent x) (jd_Prompt x) (jd_Thread x) (jd_Requester x) (jd_Attachments x) v (jd_Limits x)) (dec_list wire_zero wire_dec));
   ("limits", field jd_Limits (fun v x => MkJobDispatch (jd_BotUserID x) (jd_Workspace x) (jd_Agent x) (jd_Prompt x) (jd_Thread x) (jd_Requester x) (jd_Attachments x) (jd_History x) v) wire_dec)].

Definition JobDispatch_json (x : JobDispatch) : json := enc_struct
  [member "bot_user_id" (enc_string (jd_BotUserID x));
   member "workspace" (enc_string (jd_Workspace x));
   omitempty (is_empty_string (jd_Agent x)) "agent" (enc_string (jd_Agent x));
   member "prompt" (enc_string (jd_Prompt x));
   member "thread" (wire_enc (jd_Thread x));
   member "requester" (wire_enc (jd_Requester x));
   omitempty (is_empty_list (jd_Attachments x)) "attachments" (JArr (map wire_enc (jd_Attachments x)));
   omitempty (is_empty_list (jd_History x)) "history" (JArr (map wire_enc (jd_History x)));
   member "limits" (wire_enc (jd_Limits x))].

#[export] Instance wire_JobDispatch : Wire JobDispatch := {|
  wire_zero := MkJobDispatch "" "" "" "" wire_zero wire_zero [] [] wire_zero;
  wire_enc := JobDispatch_json;
  wire_dec := dec_struct JobDispatch_fields;
  wire_ok x := valid_utf8 (jd_BotUserID x) /\ valid_utf8 (jd_Workspace x) /\ valid_utf8 (jd_Agent x) /\ valid_utf8 (jd_Prompt x) /\ wire_ok (jd_Thread x) /\ wire_ok (jd_Requester x) /\ Forall wire_ok (jd_Attachments x) /\ Forall wire_ok (jd_History x) /\ wire_ok (jd_Limits x) |}.
#[export] Instance round_JobDispatch : WireRoundTrip JobDispatch.
Proof.
  wire_intro. cbv beta iota delta [jd_BotUserID jd_Workspace jd_Agent jd_Prompt jd_Thread jd_Requester jd_Attachments jd_History jd_Limits] in *. wire_solve.
Qed.

Record JobCancel : Type := MkJobCancel {
  jc_Reason : string
}.

Definition JobCancel_fields : fields JobCancel :=
  [("reason", field jc_Reason (fun v x => MkJobCancel v) dec_string)].

Definition JobCancel_json (x : JobCancel) : json := enc_struct
  [member "reason" (enc_string (jc_Reason x))].

#[export] Instance wire_JobCancel : Wire JobCancel := {|
  wire_zero := MkJobCancel "";
  wire_enc := JobCancel_json;
  wire_dec := dec_struct JobCancel_fields;
  wire_ok x := valid_utf8 (jc_Reason x) |}.
#[export] Instance round_JobCancel : WireRoundTrip JobCancel.
Proof.
  wire_intro. cbv beta iota delta [jc_Reason] in *. wire_solve.
Qed.

(** A snapshot; higher Seq wins. *)
Record JobProgress : Type := MkJobProgress {
  jp_Seq : Z;
  jp_Phase : string;
  jp_Text : string;
  jp_CurrentTool : string;
  jp_Turns : Z
}.

Definition JobProgress_fields : fields JobProgress :=
  [("seq", field jp_Seq (fun v x => MkJobProgress v (jp_Phase x) (jp_Text x) (jp_CurrentTool x) (jp_Turns x)) dec_int);
   ("phase", field jp_Phase (fun v x => MkJobProgress (jp_Seq x) v (jp_Text x) (jp_CurrentTool x) (jp_Turns x)) dec_string);
   ("text", field jp_Text (fun v x => MkJobProgress (jp_Seq x) (jp_Phase x) v (jp_CurrentTool x) (jp_Turns x)) dec_string);
   ("current_tool", field jp_CurrentTool (fun v x => MkJobProgress (jp_Seq x) (jp_Phase x) (jp_Text x) v (jp_Turns x)) dec_string);
   ("turns", field jp_Turns (fun v x => MkJobProgress (jp_Seq x) (jp_Phase x) (jp_Text x) (jp_CurrentTool x) v) dec_int)].

Definition JobProgress_json (x : JobProgress) : json := enc_struct
  [member "seq" (JInt (jp_Seq x));
   member "phase" (enc_string (jp_Phase x));
   member "text" (enc_string (jp_Text x));
   omitempty (is_empty_string (jp_CurrentTool x)) "current_tool" (enc_string (jp_CurrentTool x));
   member "turns" (JInt (jp_Turns x))].

#[export] Instance wire_JobProgress : Wire JobProgress := {|
  wire_zero := MkJobProgress 0 "" "" "" 0;
  wire_enc := JobProgress_json;
  wire_dec := dec_struct JobProgress_fields;
  wire_ok x := int64 (jp_Seq x) /\ valid_utf8 (jp_Phase x) /\ valid_utf8 (jp_Text x) /\ valid_utf8 (jp_CurrentTool x) /\ int64 (jp_Turns x) |}.
#[export] Instance round_JobProgress : WireRoundTrip JobProgress.
Proof.
  wire_intro. cbv beta iota delta [jp_Seq jp_Phase jp_Text jp_CurrentTool jp_Turns] in *. wire_solve.
Qed.

Record JobError : Type := MkJobError {
  je_Code : string;
  je_Message : string
}.

Definition JobError_fields : fields JobError :=
  [("code", field je_Code (fun v x => MkJobError v (je_Message x)) dec_string);
   ("message", field je_Message (fun v x => MkJobError (je_Code x) v) dec_string)].

Definition JobError_json (x : JobError) : json := enc_struct
  [member "code" (enc_string (je_Code x));
   member "message" (enc_string (je_Message x))].

#[export] Instance wire_JobError : Wire JobError := {|
  wire_zero := MkJobError "" "";
  wire_enc := JobError_json;
  wire_dec := dec_struct JobError_fields;
  wire_ok x := valid_utf8 (je_Code x) /\ valid_utf8 (je_Message x) |}.
#[export] Instance round_JobError : WireRoundTrip JobError.
Proof.
  wire_intro. cbv beta iota delta [je_Code je_Message] in *. wire_solve.
Qed.

Record Usage : Type := MkUsage {
  us_Turns : Z;
  us_DurationMS : Z;
  us_CostUSD : Q
}.

Definition Usage_fields : fields Usage :=
  [("turns", field us_Turns (fun v x => MkUsage v (us_DurationMS x) (us_CostUSD x)) dec_int);
   ("duration_ms", field us_DurationMS (fun v x => MkUsage (us_Turns x) v (us_CostUSD x)) dec_int);
   ("cost_usd", field us_CostUSD (fun v x => MkUsage (us_Turns x) (us_DurationMS x) v) dec_float)].

Definition Usage_json (x : Usage) : json := enc_struct
  [member "turns" (JInt (us_Turns x));
   member "duration_ms" (JInt (us_DurationMS x));
   omitempty (is_zero_float (us_CostUSD x)) "cost_usd" (JFloat (us_CostUSD x))].

#[export] Instance wire_Usage : Wire Usage := {|
  wire_zero := MkUsage 0 0 0%Q;
  wire_enc := Usage_json;
  wire_dec := dec_struct Usage_fields;
  wire_ok x := int64 (us_Turns x) /\ int64 (us_DurationMS x) /\ float_ok (us_CostUSD x) |}.
#[export] Instance round_Usage : WireRoundTrip Usage.
Proof.
  wire_intro. cbv beta iota delta [us_Turns us_DurationMS us_CostUSD] in *. wire_solve.
Qed.

Record JobResult : Type := MkJobResult {
  jr_Status : string;
  jr_Text : string;
  jr_Error : option JobError;
  jr_Files : list File;
  jr_Usage : Usage
}.

Definition JobResult_fields : fields JobResult :=
  [("status", field jr_Status (fun v x => MkJobResult v (jr_Text x) (jr_Error x) (jr_Files x) (jr_Usage x)) dec_string);
   ("text", field jr_Text (fun v x => MkJobResult (jr_Status x) v (jr_Error x) (jr_Files x) (jr_Usage x)) dec_string);
   ("error", field jr_Error (fun v x => MkJobResult (jr_Status x) (jr_Text x) v (jr_Files x) (jr_Usage x)) (dec_ptr wire_zero wire_dec));
   ("files", field jr_Files (fun v x => MkJobResult (jr_Status x) (jr_Text x) (jr_Error x) v (jr_Usage x)) (dec_list wire_zero wire_dec));
   ("usage", field jr_Usage (fun v x => MkJobResult (jr_Status x) (jr_Text x) (jr_Error x) (jr_Files x) v) wire_dec)].

Definition JobResult_json (x : JobResult) : json := enc_struct
  [member "status" (enc_string (jr_Status x));
   member "text" (enc_string (jr_Text x));
   omitempty (negb (bool_decide (is_Some (jr_Error x)))) "error" (match jr_Error x with Some e => wire_enc e | None => JNull end);
   omitempty (is_empty_list (jr_Files x)) "files" (JArr (map wire_enc (jr_Files x)));
   member "usage" (wire_enc (jr_Usage x))].

#[export] Instance wire_JobResult : Wire JobResult := {|
  wire_zero := MkJobResult "" "" None [] wire_zero;
  wire_enc := JobResult_json;
  wire_dec := dec_struct JobResult_fields;
  wire_ok x := valid_utf8 (jr_Status x) /\ valid_utf8 (jr_Text x) /\ (match jr_Error x with Some e => wire_ok e | None => True end) /\ Forall wire_ok (jr_Files x) /\ wire_ok (jr_Usage x) |}.
#[export] Instance round_JobResult : WireRoundTrip JobResult.
Proof.
  wire_intro. cbv beta iota delta [jr_Status jr_Text jr_Error jr_Files jr_Usage] in *. wire_solve.
Qed.

(** Asks the owner to allow a tool call. *)
Record ApprovalRequest : Type := MkApprovalRequest {
  aq_ApprovalID : string;
  aq_Tool : string;
  aq_Summary : string;
  aq_Input : option json;
  aq_CWD : string;
  aq_ExpiresAt : Z
}.

Definition ApprovalRequest_fields : fields ApprovalRequest :=
  [("approval_id", field aq_ApprovalID (fun v x => MkApprovalRequest v (aq_Tool x) (aq_Summary x) (aq_Input x) (aq_CWD x) (aq_ExpiresAt x)) dec_string);
   ("tool", field aq_Tool (fun v x => MkApprovalRequest (aq_ApprovalID x) v (aq_Summary x) (aq_Input x) (aq_CWD x) (aq_ExpiresAt x)) dec_string);
   ("summary", field aq_Summary (fun v x => MkApprovalRequest (aq_ApprovalID x) (aq_Tool x) v (aq_Input x) (aq_CWD x) (aq_ExpiresAt x)) dec_string);
   ("input", field aq_Input (fun v x => MkApprovalRequest (aq_ApprovalID x) (aq_Tool x) (aq_Summary x) v (aq_CWD x) (aq_ExpiresAt x)) dec_raw);
   ("cwd", field aq_CWD (fun v x => MkApprovalRequest (aq_ApprovalID x) (aq_Tool x) (aq_Summary x) (aq_Input x) v (aq_ExpiresAt x)) dec_string);
   ("expires_at", field aq_ExpiresAt (fun v x => MkApprovalRequest (aq_ApprovalID x) (aq_Tool x) (aq_Summary x) (aq_Input x) (aq_CWD x) v) dec_int)].

Definition ApprovalRequest_json (x : ApprovalRequest) : json := enc_struct
  [member "approval_id" (enc_string (aq_ApprovalID x));
   member "tool" (enc_string (aq_Tool x));
   member "summary" (enc_string (aq_Summary x));
   member "input" (default JNull (aq_Input x));
   member "cwd" (enc_string (aq_CWD x));
   member "expires_at" (JInt (aq_ExpiresAt x))].

#[export] Instance wire_ApprovalRequest : Wire ApprovalRequest := {|
  wire_zero := MkApprovalRequest "" "" "" None "" 0;
  wire_enc := ApprovalRequest_json;
  wire_dec := dec_struct ApprovalRequest_fields;
  wire_ok x := valid_utf8 (aq_ApprovalID x) /\ valid_utf8 (aq_Tool x) /\ valid_utf8 (aq_Summary x) /\ is_Some (aq_Input x) /\ valid_utf8 (aq_CWD x) /\ int64 (aq_ExpiresAt x) |}.
#[export] Instance round_ApprovalRequest : WireRoundTrip ApprovalRequest.
Proof.
  wire_intro. cbv beta iota delta [aq_ApprovalID aq_Tool aq_Summary aq_Input aq_CWD aq_ExpiresAt] in *. wire_solve.
Qed.

Record ApprovalResponse : Type := MkApprovalResponse {
  ap_ApprovalID : string;
  ap_Decision : string;
  ap_DecidedBy : string;
  ap_DecidedAt : Z
}.

Definition ApprovalResponse_fields : fields ApprovalResponse :=
  [("approval_id", field ap_ApprovalID (fun v x => MkApprovalResponse v (ap_Decision x) (ap_DecidedBy x) (ap_DecidedAt x)) dec_string);
   ("decision", field ap_Decision (fun v x => MkApprovalResponse (ap_ApprovalID x) v (ap_DecidedBy x) (ap_DecidedAt x)) dec_string);
   ("decided_by", field ap_DecidedBy (fun v x => MkApprovalResponse (ap_ApprovalID x) (ap_Decision x) v (ap_DecidedAt x)) dec_string);
   ("decided_at", field ap_DecidedAt (fun v x => MkApprovalResponse (ap_ApprovalID x) (ap_Decision x) (ap_DecidedBy x) v) dec_int)].

Definition ApprovalResponse_json (x : ApprovalResponse) : json := enc_struct
  [member "approval_id" (enc_string (ap_ApprovalID x));
   member "decision" (enc_string (ap_Decision x));
   member "decided_by" (enc_string (ap_DecidedBy x));
   member "decided_at" (JInt (ap_DecidedAt x))].

#[export] Instance wire_ApprovalResponse : Wire ApprovalResponse := {|
  wire_zero := MkApprovalResponse "" "" "" 0;
  wire_enc := ApprovalResponse_json;
  wire_dec := dec_struct ApprovalResponse_fields;
  wire_ok x := valid_utf8 (ap_ApprovalID x) /\ valid_utf8 (ap_Decision x) /\ valid_utf8 (ap_DecidedBy x) /\ int64 (ap_DecidedAt x) |}.
#[export] Instance round_ApprovalResponse : WireRoundTrip ApprovalResponse.
Proof.
  wire_intro. cbv beta iota delta [ap_ApprovalID ap_Decision ap_DecidedBy ap_DecidedAt] in *. wire_solve.
Qed.

(** ** Envelopes *)

Record Envelope : Type := MkEnvelope {
  en_ID : string;
  en_Type : string;
  en_JobID : string;
  en_Ref : string;
  en_TS : Z;
  en_Payload : option json  (** [None]: no payload *)
}.

(** [protocol.New], given the fresh identifier and the clock. Marshal of the
    payload structs cannot fail. *)
Definition new_envelope {T} `{!Wire T} (id : string) (now : Time) (typ jobID : string) (payload : T) : Envelope :=
  MkEnvelope id typ jobID "" (unix_milli now) (Some (wire_enc payload)).

(** [protocol.Reply]: the same, referring to the message it answers. *)
Definition reply_envelope {T} `{!Wire T} (id : string) (now : Time) (typ : string) (to : Envelope) (payload : T) : Envelope :=
  MkEnvelope id typ (en_JobID to) (en_ID to) (unix_milli now) (Some (wire_enc payload)).

(** [Envelope.Decode]: the value decoded so far and whether there was no
    error. *)
Definition Decode {T} `{!Wire T} (e : Envelope) : T * bool :=
  match en_Payload e with
  | None => (wire_zero, false)
  | Some j => wire_dec wire_zero j
  end.

Lemma decode_new {T} `{!Wire T, !WireRoundTrip T} id now typ jobID (x : T) :
  wire_ok x -> Decode (new_envelope id now typ jobID x) = (x, true).
Proof. intros H. unfold Decode. simpl. by apply wire_round. Qed.

(** What one side puts into a message, new or a reply, the other side decodes. *)
Definition arrives (T : Type) `{!Wire T} : Prop :=
  forall id now typ job to (x : T), wire_ok x ->
    Decode (new_envelope id now typ job x) = (x, true)
    /\ Decode (reply_envelope id now typ to x) = (x, true).

Lemma arrives_round {T} `{!Wire T, !WireRoundTrip T} : arrives T.
Proof. intros id now typ job to x H. split; unfold Decode; simpl; by apply wire_round. Qed.

(** Every payload of the protocol survives the wire: decoding what
    [New] or [Reply] encoded gives the same value back, for all values whose
    texts are valid UTF-8 and whose numbers fit, members that [omitempty]
    leaves out included.  An envelope without a payload is refused, and a
    payload of [null] decodes to the zero value. *)
Theorem payload_round_trip :
  (arrives Hello /\ arrives Welcome /\ arrives Ping /\ arrives Pong /\ arrives Ack /\ arrives Error)
  /\ (arrives JobDispatch /\ arrives JobCancel /\ arrives JobProgress /\ arrives JobResult)
  /\ (arrives ApprovalRequest /\ arrives ApprovalResponse)
  /\ (forall id typ job ref ts,
        Decode (T := JobResult) (MkEnvelope id typ job ref ts None) = (wire_zero, false)
        /\ Decode (T := JobResult) (MkEnvelope id typ job ref ts (Some JNull)) = (wire_zero, true)).
Proof. repeat split; first [apply arrives_round; assumption | reflexivity]. Qed.

(** ** Identifiers ([id.go])

    [ulid.Make] is a third-party generator: a string handed to [NewID]. *)
Definition EncodedSize : nat := 26.

Definition NewID (prefix ulid : string) : string := prefix +:+ "_" +:+ ulid.

(** [protocol.HasPrefix] *)
Definition has_id_prefix (id prefix : string) : bool :=
  HasPrefix id (prefix +:+ "_")
  && (String.length id =? String.length prefix + 1 + EncodedSize)%nat.
