(* ===== verification/Store.v ===== *)
(** * The persistence boundary ([internal/store])

    The data the broker stores, with the source's field names behind a
    one-letter prefix, the database as the tables of
    [migrations/0001_init.sql], and the SQL statements of
    [internal/store/sqlite] as functions on it.  The methods built from the
    statements are in [Sqlite.v]. *)

From S2P Require Import Prelude GoText Json Protocol.

Open Scope Z_scope.

(** ** Job states *)

Inductive JobState : Type :=
| JobQueued            (** harness offline, waits until ExpiresAt *)
| JobDispatched        (** sent, no ack yet *)
| JobRunning
| JobAwaitingApproval
| JobSucceeded
| JobFailed
| JobCancelled
| JobLost              (** harness gone beyond the grace period *)
| JobExpired.          (** queue TTL ran out *)

#[export] Instance JobState_eq_dec : EqDecision JobState.
Proof. solve_decision. Defined.

Definition state_text (s : JobState) : string :=
  match s with
  | JobQueued => "queued"
  | JobDispatched => "dispatched"
  | JobRunning => "running"
  | JobAwaitingApproval => "awaiting_approval"
  | JobSucceeded => "succeeded"
  | JobFailed => "failed"
  | JobCancelled => "cancelled"
  | JobLost => "lost"
  | JobExpired => "expired"
  end.

Definition Terminal (s : JobState) : bool :=
  match s with
  | JobSucceeded | JobFailed | JobCancelled | JobLost | JobExpired => true
  | _ => false
  end.

Definition ActiveStates : list JobState :=
  [JobQueued; JobDispatched; JobRunning; JobAwaitingApproval].

(** ** Rows *)

Record Harness : Type := MkHarness {
  hID : string;
  hMMUserID : string;
  hName : string;
  hTokenHash : string;
  hVersion : string;
  hCreatedAt : Time;
  hLastSeenAt : option Time
}.

Record Job : Type := MkJob {
  jID : string;
  jHarnessID : string;
  jMMUserID : string;
  jChannelID : string;
  jRootPostID : string;
  jTriggerPostID : string;
  jStatusPostID : string;
  jBotUserID : string;
  jWorkspace : string;
  jPrompt : string;
  jState : JobState;
  jLastSeq : Z;
  jResultText : string;
  jError : string;
  jCreatedAt : Time;
  jUpdatedAt : Time;
  jExpiresAt : option Time;
  jFinishedAt : option Time
}.

(** [JobPatch]: [None] fields stay untouched. *)
Record JobPatch : Type := MkJobPatch {
  pStatusPostID : option string;
  pResultText : option string;
  pError : option string
}.
Definition no_patch : JobPatch := MkJobPatch None None None.

(** The type [Decision] is a string; these are its two constants. *)
Definition Allow : string := "allow".
Definition Deny : string := "deny".

Record Approval : Type := MkApproval {
  aID : string;
  aJobID : string;
  aTool : string;
  aSummary : string;
  aInput : option json;
  aNonce : string;
  aRequestedAt : Time;
  aExpiresAt : Time;
  aDecision : string;
  aDecidedBy : string;
  aDecidedAt : option Time
}.

Definition Pending (a : Approval) : bool := String.eqb (aDecision a) "".

Record OutboxMessage : Type := MkOutboxMessage {
  mID : string;
  mHarnessID : string;
  mJobID : string;
  mType : string;
  mPayload : option json;
  mCreatedAt : Time;
  mAckedAt : option Time
}.

Record Bot : Type := MkBot {
  bUserID : string;
  bMMUserID : string;
  bUsername : string;
  bToken : string;
  bCreatedAt : Time;
  bHarnessID : string;
  bTeamID : string;
  bChannelID : string;
  bIncomingHookID : string;
  bOutgoingHookID : string;
  bOutgoingToken : string
}.

Record Installation : Type := MkInstallation {
  nTeamID : string;
  nUserID : string;
  nCredentials : string;
  nCommandID : string;
  nCommandToken : string
}.

Record InitRequest : Type := MkInitRequest {
  iCodeHash : string;
  iBotName : string;
  iHarnessName : string;
  iCreatedAt : Time;
  iExpiresAt : Time;
  iClaimedAt : option Time;
  iHarnessID : string;
  iHarnessToken : string;
  iFetchedAt : option Time;
  iBotUserID : string;
  iPollTokenHash : string
}.

Definition Claimed (r : InitRequest) : bool := bool_decide (is_Some (iClaimedAt r)).

Record AuditEntry : Type := MkAuditEntry {
  eAt : Time;
  eActor : string;
  eAction : string;
  eJobID : string;
  eDetails : option json
}.

Record JobFilter : Type := MkJobFilter {
  fBotUserID : string;
  fTriggerPostID : string;
  fMMUserID : string;
  fHarnessID : string;
  fRootPostID : string;
  fStates : list JobState;
  fLimit : Z
}.

(** A row of [pairings]; the Go code never builds it as a struct. *)
Record Pairing : Type := MkPairing {
  gMMUserID : string;
  gExpiresAt : Time;
  gUsedAt : option Time
}.

(** ** Columns

    A timestamp column holds milliseconds, and scanning gives a [time.Time]
    of whole milliseconds.  Rows keep that scanned value, so storing a time
    truncates it. *)
Definition ms (t : Time) : Z := unix_milli t.
Definition fromMS (v : Z) : Time := from_unix_milli v.
Definition col_time (t : Time) : Time := fromMS (ms t).
Definition col_time_opt (t : option Time) : option Time := col_time <$> t.

(** [nullString]: an empty string is stored as NULL. *)
Definition nullString (v : string) : option string :=
  if String.eqb v "" then None else Some v.

Lemma ms_col_time t : ms (col_time t) = ms t.
Proof. apply unix_milli_from. Qed.

Lemma col_time_idem t : col_time (col_time t) = col_time t.
Proof. unfold col_time at 1. by rewrite ms_col_time. Qed.

Lemma nullString_default v : default "" (nullString v) = v.
Proof. unfold nullString. destruct (String.eqb_spec v ""); by subst. Qed.

(** The two tables whose nullable text columns the program tests with
    [IS NULL] keep those columns apart from the scanned struct. *)
Record ApprovalRow : Type := MkApprovalRow {
  ar_approval : Approval;          (** the other columns *)
  ar_decision : option string;
  ar_decided_by : option string
}.

Record BotRow : Type := MkBotRow {
  br_bot : Bot;                    (** the other columns *)
  br_harness_id : option string
}.

Definition scanApproval (r : ApprovalRow) : Approval :=
  let a := ar_approval r in
  MkApproval (aID a) (aJobID a) (aTool a) (aSummary a) (aInput a) (aNonce a)
    (aRequestedAt a) (aExpiresAt a) (default "" (ar_decision r))
    (default "" (ar_decided_by r)) (aDecidedAt a).

(** [COALESCE(harness_id, '')] of [botCols]. *)
Definition scanBot (r : BotRow) : Bot :=
  let b := br_bot r in
  MkBot (bUserID b) (bMMUserID b) (bUsername b) (bToken b) (bCreatedAt b)
    (default "" (br_harness_id r)) (bTeamID b) (bChannelID b) (bIncomingHookID b)
    (bOutgoingHookID b) (bOutgoingToken b).

(** ** The database *)

Record DB : Type := MkDB {
  t_harnesses : gmap string Harness;
  t_bots : gmap string BotRow;
  t_installations : gmap string Installation;
  t_inits : gmap string InitRequest;
  t_pairings : gmap string Pairing;
  t_jobs : gmap string Job;
  t_approvals : gmap string ApprovalRow;
  t_outbox : gmap string OutboxMessage;
  t_audit : list AuditEntry
}.

Definition empty_db : DB := MkDB ∅ ∅ ∅ ∅ ∅ ∅ ∅ ∅ [].

Definition set_harnesses t d := MkDB t (t_bots d) (t_installations d) (t_inits d) (t_pairings d) (t_jobs d) (t_approvals d) (t_outbox d) (t_audit d).
Definition set_bots t d := MkDB (t_harnesses d) t (t_installations d) (t_inits d) (t_pairings d) (t_jobs d) (t_approvals d) (t_outbox d) (t_audit d).
Definition set_installations t d := MkDB (t_harnesses d) (t_bots d) t (t_inits d) (t_pairings d) (t_jobs d) (t_approvals d) (t_outbox d) (t_audit d).
Definition set_inits t d := MkDB (t_harnesses d) (t_bots d) (t_installations d) t (t_pairings d) (t_jobs d) (t_approvals d) (t_outbox d) (t_audit d).
Definition set_pairings t d := MkDB (t_harnesses d) (t_bots d) (t_installations d) (t_inits d) t (t_jobs d) (t_approvals d) (t_outbox d) (t_audit d).
Definition set_jobs t d := MkDB (t_harnesses d) (t_bots d) (t_installations d) (t_inits d) (t_pairings d) t (t_approvals d) (t_outbox d) (t_audit d).
Definition set_approvals t d := MkDB (t_harnesses d) (t_bots d) (t_installations d) (t_inits d) (t_pairings d) (t_jobs d) t (t_outbox d) (t_audit d).
Definition set_outbox t d := MkDB (t_harnesses d) (t_bots d) (t_installations d) (t_inits d) (t_pairings d) (t_jobs d) (t_approvals d) t (t_audit d).
Definition set_audit t d := MkDB (t_harnesses d) (t_bots d) (t_installations d) (t_inits d) (t_pairings d) (t_jobs d) (t_approvals d) (t_outbox d) t.
