(* ===== verification/Tables.v ===== *)
(** * The SQL statements of [internal/store/sqlite]

    One definition per statement, on the tables of [Store.v].  A statement
    checks the UNIQUE constraints and then the foreign keys of the schema, as
    SQLite does with [foreign_keys(1)], and has no effect when it fails.
    Where the SQL leaves the order of rows open, one order is chosen; no
    statement of the development depends on which. *)

From S2P Require Import Prelude GoText Json Protocol Store.

Open Scope Z_scope.

(** ** Statement results *)

Inductive sql_error : Type :=
| SqlNoRows
| SqlUnique (constraint : string)
| SqlForeignKey
| SqlFault (msg : string).   (** disk, locking or connection trouble *)

Definition sql_text (e : sql_error) : string :=
  match e with
  | SqlNoRows => "sql: no rows in result set"
  | SqlUnique c => "constraint failed: UNIQUE constraint failed: " +:+ c
  | SqlForeignKey => "constraint failed: FOREIGN KEY constraint failed"
  | SqlFault msg => msg
  end.

Definition isUniqueViolation (e : sql_error) : bool :=
  Contains (sql_text e) "UNIQUE constraint failed".

Lemma isUniqueViolation_unique c : isUniqueViolation (SqlUnique c) = true.
Proof. reflexivity. Qed.
Lemma isUniqueViolation_fk : isUniqueViolation SqlForeignKey = false.
Proof. reflexivity. Qed.

Inductive sres (A : Type) : Type :=
| SqlOk (a : A)
| SqlErr (e : sql_error).
Arguments SqlOk {A} a.
Arguments SqlErr {A} e.

Definition sql_row {A} (o : option A) : sres A :=
  match o with Some a => SqlOk a | None => SqlErr SqlNoRows end.

(** The number of rows an UPDATE or DELETE touched. *)
Definition affected {A} (P : A -> bool) (t : gmap string A) : Z := Z.of_nat (length (select P t)).

(** At most one row has the primary key. *)
Definition affected_key {A} (P : A -> bool) (t : gmap string A) (k : string) : Z :=
  match t !! k with Some r => if P r then 1 else 0 | None => 0 end.

(** [UPDATE t SET f WHERE key = k AND P]. *)
Definition update_key {A} (P : A -> bool) (f : A -> A) (k : string) (t : gmap string A) : gmap string A :=
  match t !! k with
  | Some r => if P r then <[k := f r]> t else t
  | None => t
  end.

#[global] Arguments affected_key : simpl never.
#[global] Arguments update_key : simpl never.

Lemma lookup_update_key {A} P (f : A -> A) k t i :
  update_key P f k t !! i =
    if decide (i = k) then (fun r => if P r then f r else r) <$> t !! k else t !! i.
Proof.
  unfold update_key. destruct (decide (i = k)) as [->|Hi].
  - destruct (t !! k) as [r|] eqn:E; simpl; [|done].
    destruct (P r); [by rewrite lookup_insert_eq | done].
  - destruct (t !! k) as [r|]; [|done]. destruct (P r); [|done].
    by rewrite lookup_insert_ne.
Qed.

Lemma update_key_rows {A} P (f : A -> A) k t i r :
  update_key P f k t !! i = Some r <->
  (exists r0, t !! i = Some r0 /\ (r = r0 /\ (i <> k \/ P r0 = false) \/ r = f r0 /\ i = k /\ P r0 = true)).
Proof.
  rewrite lookup_update_key. destruct (decide (i = k)) as [->|Hi].
  - destruct (t !! k) as [r0|]; simpl; [destruct (P r0) eqn:HP|]; split.
    + intros [= <-]. exists r0. auto.
    + intros (? & [= <-] & [[-> [?|?]]|[-> _]]); congruence.
    + intros [= <-]. exists r0. auto.
    + intros (? & [= <-] & [[-> _]|(-> & _ & ?)]); congruence.
    + done.
    + intros (? & ? & _). done.
  - split; [intros H; exists r; auto|].
    intros (r0 & H & [[-> _]|(_ & ? & _)]); [done | congruence].
Qed.

Lemma refreshes_key {A} (same : A -> A -> Prop) P f k (t : gmap string A) :
  (forall x, same x x) -> (forall x, P x = true -> same x (f x)) ->
  refreshes same t (update_key P f k t).
Proof.
  intros Hr Hf i. rewrite lookup_update_key. destruct (decide (i = k)) as [->|].
  - destruct (t !! k) as [x|]; simpl; [|done]. destruct (P x) eqn:HP; auto.
  - destruct (t !! i); auto.
Qed.

(** ** Harnesses *)

Definition harness_row (h : Harness) : Harness :=
  MkHarness (hID h) (hMMUserID h) (hName h) (hTokenHash h) (hVersion h)
    (col_time (hCreatedAt h)) (col_time_opt (hLastSeenAt h)).

Definition insert_harness (h : Harness) (d : DB) : sres unit * DB :=
  if bool_decide (is_Some (t_harnesses d !! hID h)) then (SqlErr (SqlUnique "harnesses.id"), d)
  else if exists_row (fun r => String.eqb (hTokenHash r) (hTokenHash h)) (t_harnesses d)
  then (SqlErr (SqlUnique "harnesses.token_hash"), d)
  else (SqlOk tt, set_harnesses (<[hID h := harness_row h]> (t_harnesses d)) d).

Definition select_harness (id : string) (d : DB) : sres Harness := sql_row (t_harnesses d !! id).

Definition select_harness_by_hash (hash : string) (d : DB) : sres Harness :=
  sql_row (head (select (fun h => String.eqb (hTokenHash h) hash) (t_harnesses d))).

Definition select_harnesses_by_user (user : string) (d : DB) : sres (list Harness) :=
  SqlOk (order_by hCreatedAt (select (fun h => String.eqb (hMMUserID h) user) (t_harnesses d))).

Definition touch_row (seenAt : Time) (version : string) (h : Harness) : Harness :=
  MkHarness (hID h) (hMMUserID h) (hName h) (hTokenHash h) version (hCreatedAt h) (Some (col_time seenAt)).

Definition update_touch (id : string) (seenAt : Time) (version : string) (d : DB) : sres Z * DB :=
  (SqlOk (affected_key (fun _ => true) (t_harnesses d) id),
   set_harnesses (update_key (fun _ => true) (touch_row seenAt version) id (t_harnesses d)) d).

Definition delete_harness (id : string) (d : DB) : sres Z * DB :=
  match t_harnesses d !! id with
  | None => (SqlOk 0, d)
  | Some _ =>
      if exists_row (fun j => String.eqb (jHarnessID j) id) (t_jobs d)
         || exists_row (fun b => bool_decide (br_harness_id b = Some id)) (t_bots d)
      then (SqlErr SqlForeignKey, d)
      else (SqlOk 1, set_harnesses (delete id (t_harnesses d)) d)
  end.

(** ** Pairings *)

Definition insert_pairing (codeHash user : string) (expiresAt : Time) (d : DB) : sres unit * DB :=
  if bool_decide (is_Some (t_pairings d !! codeHash)) then (SqlErr (SqlUnique "pairings.code_hash"), d)
  else (SqlOk tt, set_pairings (<[codeHash := MkPairing user (col_time expiresAt) None]> (t_pairings d)) d).

Definition pairing_usable (now : Time) (p : Pairing) : bool :=
  negb (bool_decide (is_Some (gUsedAt p))) && (ms now <? ms (gExpiresAt p)).

(** [UPDATE ... RETURNING mm_user_id] *)
Definition update_consume (codeHash : string) (now : Time) (d : DB) : sres string * DB :=
  match t_pairings d !! codeHash with
  | Some p =>
      if pairing_usable now p then
        (SqlOk (gMMUserID p),
         set_pairings (<[codeHash := MkPairing (gMMUserID p) (gExpiresAt p) (Some (col_time now))]> (t_pairings d)) d)
      else (SqlErr SqlNoRows, d)
  | None => (SqlErr SqlNoRows, d)
  end.

(** ** Jobs *)

Definition job_row (j : Job) : Job :=
  MkJob (jID j) (jHarnessID j) (jMMUserID j) (jChannelID j) (jRootPostID j) (jTriggerPostID j)
    (jStatusPostID j) (jBotUserID j) (jWorkspace j) (jPrompt j) (jState j) (jLastSeq j)
    (jResultText j) (jError j) (col_time (jCreatedAt j)) (col_time (jUpdatedAt j))
    (col_time_opt (jExpiresAt j)) (col_time_opt (jFinishedAt j)).

(** The partial index [jobs_bot_trigger]. *)
Definition same_trigger (j r : Job) : bool :=
  negb (String.eqb (jBotUserID j) "") && negb (String.eqb (jTriggerPostID j) "")
  && String.eqb (jBotUserID r) (jBotUserID j) && String.eqb (jTriggerPostID r) (jTriggerPostID j).

Definition insert_job (j : Job) (d : DB) : sres unit * DB :=
  if bool_decide (is_Some (t_jobs d !! jID j)) then (SqlErr (SqlUnique "jobs.id"), d)
  else if exists_row (same_trigger j) (t_jobs d)
  then (SqlErr (SqlUnique "jobs.bot_user_id, jobs.trigger_post_id"), d)
  else if bool_decide (is_Some (t_harnesses d !! jHarnessID j))
  then (SqlOk tt, set_jobs (<[jID j := job_row j]> (t_jobs d)) d)
  else (SqlErr SqlForeignKey, d).

Definition select_job (id : string) (d : DB) : sres Job := sql_row (t_jobs d !! id).

(** The WHERE clause [ListJobs] builds. *)
Definition column_matches (want col : string) : bool := String.eqb want "" || String.eqb col want.

Definition job_matches (f : JobFilter) (j : Job) : bool :=
  column_matches (fBotUserID f) (jBotUserID j)
  && column_matches (fTriggerPostID f) (jTriggerPostID j)
  && column_matches (fMMUserID f) (jMMUserID j)
  && column_matches (fHarnessID f) (jHarnessID j)
  && column_matches (fRootPostID f) (jRootPostID j)
  && (is_empty_list (fStates f) || bool_decide (jState j ∈ fStates f)).

Definition effective_limit (limit : Z) : Z := if limit <=? 0 then 100 else limit.

Definition select_jobs (f : JobFilter) (d : DB) : sres (list Job) :=
  SqlOk (take (Z.to_nat (effective_limit (fLimit f)))
           (order_by (fun j => - jCreatedAt j) (select (job_matches f) (t_jobs d)))).

(** The columns [TransitionJob] sets. *)
Definition transition_row (to : JobState) (p : JobPatch) (now : Time) (j : Job) : Job :=
  MkJob (jID j) (jHarnessID j) (jMMUserID j) (jChannelID j) (jRootPostID j) (jTriggerPostID j)
    (default (jStatusPostID j) (pStatusPostID p)) (jBotUserID j) (jWorkspace j) (jPrompt j)
    to (jLastSeq j) (default (jResultText j) (pResultText p)) (default (jError j) (pError p))
    (jCreatedAt j) (col_time now) (jExpiresAt j)
    (if Terminal to then Some (col_time now) else jFinishedAt j).

Definition in_states (from : list JobState) (j : Job) : bool := bool_decide (jState j ∈ from).

Definition update_transition (id : string) (from : list JobState) (to : JobState) (p : JobPatch)
    (now : Time) (d : DB) : sres Z * DB :=
  (SqlOk (affected_key (in_states from) (t_jobs d) id),
   set_jobs (update_key (in_states from) (transition_row to p now) id (t_jobs d)) d).

Definition progress_row (seq : Z) (now : Time) (j : Job) : Job :=
  MkJob (jID j) (jHarnessID j) (jMMUserID j) (jChannelID j) (jRootPostID j) (jTriggerPostID j)
    (jStatusPostID j) (jBotUserID j) (jWorkspace j) (jPrompt j) (jState j) seq
    (jResultText j) (jError j) (jCreatedAt j) (col_time now) (jExpiresAt j) (jFinishedAt j).

Definition accepts_progress (seq : Z) (j : Job) : bool :=
  (jLastSeq j <? seq) && in_states [JobRunning; JobAwaitingApproval] j.

Definition update_progress (id : string) (seq : Z) (now : Time) (d : DB) : sres Z * DB :=
  (SqlOk (affected_key (accepts_progress seq) (t_jobs d) id),
   set_jobs (update_key (accepts_progress seq) (progress_row seq now) id (t_jobs d)) d).

Definition expired_by (now : Time) (j : Job) : bool :=
  bool_decide (jState j = JobQueued)
  && match jExpiresAt j with Some e => ms e <=? ms now | None => false end.

Definition expire_row (now : Time) (j : Job) : Job :=
  MkJob (jID j) (jHarnessID j) (jMMUserID j) (jChannelID j) (jRootPostID j) (jTriggerPostID j)
    (jStatusPostID j) (jBotUserID j) (jWorkspace j) (jPrompt j) JobExpired (jLastSeq j)
    (jResultText j) (jError j) (jCreatedAt j) (col_time now) (jExpiresAt j) (Some (col_time now)).

(** [UPDATE ... RETURNING jobCols] *)
Definition update_expire (now : Time) (d : DB) : sres (list Job) * DB :=
  (SqlOk (map (expire_row now) (select (expired_by now) (t_jobs d))),
   set_jobs (update_where (expired_by now) (expire_row now) (t_jobs d)) d).

(** ** Approvals *)

Definition approval_row (a : Approval) : ApprovalRow :=
  MkApprovalRow
    (MkApproval (aID a) (aJobID a) (aTool a) (aSummary a)
       (Some (default JNull (aInput a)))  (* an empty input is stored as "null" *)
       (aNonce a) (col_time (aRequestedAt a)) (col_time (aExpiresAt a)) (aDecision a)
       (aDecidedBy a) (col_time_opt (aDecidedAt a)))
    (nullString (aDecision a)) (nullString (aDecidedBy a)).

Definition insert_approval (a : Approval) (d : DB) : sres unit * DB :=
  if bool_decide (is_Some (t_approvals d !! aID a)) then (SqlErr (SqlUnique "approvals.id"), d)
  else if bool_decide (is_Some (t_jobs d !! aJobID a))
  then (SqlOk tt, set_approvals (<[aID a := approval_row a]> (t_approvals d)) d)
  else (SqlErr SqlForeignKey, d).

Definition select_approval (id : string) (d : DB) : sres Approval :=
  sql_row (scanApproval <$> t_approvals d !! id).

Definition undecided (r : ApprovalRow) : bool := negb (bool_decide (is_Some (ar_decision r))).

Definition select_pending_approvals (jobID : string) (d : DB) : sres (list Approval) :=
  SqlOk (order_by aRequestedAt
    (map scanApproval
      (select (fun r => String.eqb (aJobID (ar_approval r)) jobID && undecided r) (t_approvals d)))).

Definition decidable_at (now : Time) (r : ApprovalRow) : bool :=
  undecided r && (ms now <? ms (aExpiresAt (ar_approval r))).

Definition decide_row (d by_ : string) (at_ : Time) (r : ApprovalRow) : ApprovalRow :=
  let a := ar_approval r in
  MkApprovalRow
    (MkApproval (aID a) (aJobID a) (aTool a) (aSummary a) (aInput a) (aNonce a)
       (aRequestedAt a) (aExpiresAt a) (aDecision a) (aDecidedBy a) (Some (col_time at_)))
    (Some d) (Some by_).

Definition update_decide (id dec by_ : string) (at_ : Time) (d : DB) : sres Z * DB :=
  (SqlOk (affected_key (decidable_at at_) (t_approvals d) id),
   set_approvals (update_key (decidable_at at_) (decide_row dec by_ at_) id (t_approvals d)) d).

(** ** Outbox *)

Definition outbox_row (m : OutboxMessage) : OutboxMessage :=
  MkOutboxMessage (mID m) (mHarnessID m) (mJobID m) (mType m) (mPayload m)
    (col_time (mCreatedAt m)) (col_time_opt (mAckedAt m)).

Definition insert_outbox (m : OutboxMessage) (d : DB) : sres unit * DB :=
  if bool_decide (is_Some (t_outbox d !! mID m)) then (SqlErr (SqlUnique "outbox.id"), d)
  else (SqlOk tt, set_outbox (<[mID m := outbox_row m]> (t_outbox d)) d).

Definition unacked (m : OutboxMessage) : bool := negb (bool_decide (is_Some (mAckedAt m))).

Definition select_pending_outbox (harnessID : string) (d : DB) : sres (list OutboxMessage) :=
  SqlOk (order_by_id mCreatedAt mID
    (select (fun m => String.eqb (mHarnessID m) harnessID && unacked m) (t_outbox d))).

Definition ack_row (at_ : Time) (m : OutboxMessage) : OutboxMessage :=
  MkOutboxMessage (mID m) (mHarnessID m) (mJobID m) (mType m) (mPayload m) (mCreatedAt m)
    (Some (col_time at_)).

Definition update_ack (id : string) (at_ : Time) (d : DB) : sres Z * DB :=
  (SqlOk (affected_key unacked (t_outbox d) id),
   set_outbox (update_key unacked (ack_row at_) id (t_outbox d)) d).

Definition acked_before (t : Time) (m : OutboxMessage) : bool :=
  match mAckedAt m with Some a => ms a <? ms t | None => false end.

Definition delete_purged (ackedBefore : Time) (d : DB) : sres Z * DB :=
  (SqlOk (affected (acked_before ackedBefore) (t_outbox d)),
   set_outbox (filter (fun kv => acked_before ackedBefore kv.2 = false) (t_outbox d)) d).

(** ** Bots *)

Definition bot_row (b : Bot) : BotRow :=
  MkBotRow
    (MkBot (bUserID b) (bMMUserID b) (bUsername b) (bToken b) (col_time (bCreatedAt b))
       (bHarnessID b) (bTeamID b) (bChannelID b) (bIncomingHookID b) (bOutgoingHookID b)
       (bOutgoingToken b))
    (nullString (bHarnessID b)).

Definition harness_exists (id : option string) (d : DB) : bool :=
  match id with Some h => bool_decide (is_Some (t_harnesses d !! h)) | None => true end.

Definition insert_bot (b : Bot) (d : DB) : sres unit * DB :=
  if bool_decide (is_Some (t_bots d !! bUserID b)) then (SqlErr (SqlUnique "bots.user_id"), d)
  else if exists_row (fun r => String.eqb (bUsername (br_bot r)) (bUsername b)) (t_bots d)
  then (SqlErr (SqlUnique "bots.username"), d)
  else if harness_exists (nullString (bHarnessID b)) d
  then (SqlOk tt, set_bots (<[bUserID b := bot_row b]> (t_bots d)) d)
  else (SqlErr SqlForeignKey, d).

Definition select_bot (id : string) (d : DB) : sres Bot := sql_row (scanBot <$> t_bots d !! id).

Definition select_bot_by_username (name : string) (d : DB) : sres Bot :=
  sql_row (head (map scanBot (select (fun r => String.eqb (bUsername (br_bot r)) name) (t_bots d)))).

Definition owned_by (owner : string) (r : BotRow) : bool := String.eqb (bMMUserID (br_bot r)) owner.

Definition select_bots_by_owner (owner : string) (d : DB) : sres (list Bot) :=
  SqlOk (order_by_id bCreatedAt bUserID (map scanBot (select (owned_by owner) (t_bots d)))).

Definition select_bot_by_owner (owner : string) (d : DB) : sres Bot :=
  sql_row (head (order_by_id bCreatedAt bUserID (map scanBot (select (owned_by owner) (t_bots d))))).

Definition select_bots (d : DB) : sres (list Bot) :=
  SqlOk (order_by bCreatedAt (map scanBot (select (fun _ => true) (t_bots d)))).

(** The WHERE clause of [UpdateBot] besides the key. *)
Definition rebindable (b : Bot) (r : BotRow) : bool :=
  String.eqb (bMMUserID (br_bot r)) (bMMUserID b)
  && match br_harness_id r with None => true | Some h => String.eqb h (bHarnessID b) end.

Definition rebound_row (b : Bot) (r : BotRow) : BotRow :=
  let o := br_bot r in
  MkBotRow
    (MkBot (bUserID o) (bMMUserID o) (bUsername o) (bToken b) (bCreatedAt o) (bHarnessID o)
       (bTeamID b) (bChannelID b) (bIncomingHookID b) (bOutgoingHookID b) (bOutgoingToken b))
    (nullString (bHarnessID b)).

Definition update_bot (b : Bot) (d : DB) : sres Z * DB :=
  if (affected_key (rebindable b) (t_bots d) (bUserID b) =? 1)
     && negb (harness_exists (nullString (bHarnessID b)) d)
  then (SqlErr SqlForeignKey, d)
  else (SqlOk (affected_key (rebindable b) (t_bots d) (bUserID b)),
        set_bots (update_key (rebindable b) (rebound_row b) (bUserID b) (t_bots d)) d).

Definition delete_bot (id : string) (d : DB) : sres Z * DB :=
  (SqlOk (affected_key (fun _ => true) (t_bots d) id), set_bots (delete id (t_bots d)) d).

(** ** Init requests *)

Definition init_row (r : InitRequest) : InitRequest :=
  MkInitRequest (iCodeHash r) (iBotName r) (iHarnessName r) (col_time (iCreatedAt r))
    (col_time (iExpiresAt r)) (col_time_opt (iClaimedAt r)) (iHarnessID r) (iHarnessToken r)
    (col_time_opt (iFetchedAt r)) (iBotUserID r) (iPollTokenHash r).

Definition insert_init (r : InitRequest) (d : DB) : sres unit * DB :=
  if bool_decide (is_Some (t_inits d !! iCodeHash r)) then (SqlErr (SqlUnique "init_requests.code_hash"), d)
  else (SqlOk tt, set_inits (<[iCodeHash r := init_row r]> (t_inits d)) d).

Definition select_init (codeHash : string) (d : DB) : sres InitRequest := sql_row (t_inits d !! codeHash).

Definition select_init_by_harness (harnessID : string) (d : DB) : sres InitRequest :=
  sql_row (head (order_by (fun r => - iCreatedAt r)
    (select (fun r => String.eqb (iHarnessID r) harnessID) (t_inits d)))).

Definition claim_row (now : Time) (harnessID token botID : string) (r : InitRequest) : InitRequest :=
  MkInitRequest (iCodeHash r) (iBotName r) (iHarnessName r) (iCreatedAt r) (iExpiresAt r)
    (Some (col_time now)) harnessID token (iFetchedAt r) botID (iPollTokenHash r).

Definition claimable (now : Time) (r : InitRequest) : bool :=
  negb (Claimed r) && (ms now <? ms (iExpiresAt r)).

(** [ClaimInit]'s UPDATE leaves [bot_user_id] alone. *)
Definition update_claim (codeHash : string) (now : Time) (harnessID token : string) (d : DB) : sres Z * DB :=
  (SqlOk (affected_key (claimable now) (t_inits d) codeHash),
   set_inits (update_key (claimable now)
     (fun r => claim_row now harnessID token (iBotUserID r) r) codeHash (t_inits d)) d).

Definition unfetched (r : InitRequest) : bool := negb (bool_decide (is_Some (iFetchedAt r))).

Definition fetch_row (now : Time) (r : InitRequest) : InitRequest :=
  MkInitRequest (iCodeHash r) (iBotName r) (iHarnessName r) (iCreatedAt r) (iExpiresAt r)
    (iClaimedAt r) (iHarnessID r) "" (Some (col_time now)) (iBotUserID r) (iPollTokenHash r).

Definition update_fetch (codeHash : string) (now : Time) (d : DB) : sres Z * DB :=
  (SqlOk (affected_key unfetched (t_inits d) codeHash),
   set_inits (update_key unfetched (fetch_row now) codeHash (t_inits d)) d).

(** ** Installations and audit *)

Definition upsert_installation (i : Installation) (d : DB) : sres unit * DB :=
  (SqlOk tt, set_installations (<[nTeamID i := i]> (t_installations d)) d).

Definition select_installation (team : string) (d : DB) : sres Installation :=
  sql_row (t_installations d !! team).

Definition select_installations (d : DB) : sres (list Installation) :=
  SqlOk (order_by_text nTeamID (select (fun _ => true) (t_installations d))).

Definition insert_audit (e : AuditEntry) (d : DB) : sres unit * DB :=
  (SqlOk tt, set_audit (t_audit d ++ [MkAuditEntry (col_time (eAt e)) (eActor e) (eAction e) (eJobID e) (eDetails e)]) d).
