(* ===== verification/World.v ===== *)
(** * The broker's world: state, surroundings and atomic operations

    The handlers of the broker are programs ([Resume.v]) over [World]: the
    database, the hub's connection table, the debouncers of status posts, the
    mutexes held across several operations, and the trace of everything sent
    to Mattermost and to harnesses.

    What lies outside the repository is the record [Env]: the clock, the ULID
    and random generators, the faults of the database file, and what
    Mattermost and the sockets answer.  Each is a function of the tick at
    which it is consulted, so that every run is a computation and every
    behaviour of the outside is some [Env]. *)

From S2P Require Import Prelude Resume GoText Json Protocol Store Tables.

Open Scope Z_scope.
Open Scope prog_scope.

(** ** Mattermost's data ([model.*]), as far as the program looks at it *)

Record PostAction : Type := MkPostAction {
  paId : string;
  paName : string;
  paStyle : string;
  paURL : string;
  paContext : list (string * string)
}.

Record MessageAttachment : Type := MkMessageAttachment {
  maColor : string;
  maTitle : string;
  maText : string;
  maFallback : string;
  maActions : list PostAction
}.

Record Post : Type := MkPost {
  poId : string;
  poUserId : string;
  poChannelId : string;
  poRootId : string;
  poMessage : string;
  poType : string;
  poCreateAt : Z;
  poDeleteAt : Z;
  poFileIds : list string;
  poFromBot : bool;    (** [GetProp("from_bot") != nil] *)
  poAttachments : option (list MessageAttachment)    (** the [attachments] prop *)
}.

(** [&model.Post{ChannelId, RootId, Message, FileIds}] *)
Definition new_post (channel root msg : string) (files : list string) : Post :=
  MkPost "" "" channel root msg "" 0 0 files false None.

Record User : Type := MkUser { urId : string; urUsername : string }.
Record FileInfo : Type := MkFileInfo { fiId : string; fiSize : Z; fiName : string; fiMime : string }.
Record Channel : Type := MkChannel { chTeamId : string; chType : string }.

(** [mattermost.PostedEvent], without the sender's display name. *)
Record PostedEvent : Type := MkPostedEvent {
  evPost : option Post;
  evChannelType : string;
  evMentions : list string
}.

Record IncomingWebhook : Type := MkIncomingWebhook {
  iwId : string; iwUserId : string; iwTeamId : string; iwChannelId : string; iwUsername : string
}.
Record OutgoingWebhook : Type := MkOutgoingWebhook {
  owId : string; owToken : string; owTeamId : string; owDisplayName : string;
  owTriggerWords : list string; owCallbackURLs : list string
}.

(** A client of the Mattermost API: the shared one, one made from a bot's
    token, or [UnavailableAPI]. *)
Inductive Poster : Type :=
| Shared
| AsBot (token : string)
| UnavailableAPI.

Definition ErrBotUnavailable : error :=
  ErrOther "mattermost: credentials for this bot are unavailable".

(** ** The outside *)

Class Env : Type := {
  clock : nat -> Time;
  ulid_make : nat -> string;
  rand_read : nat -> nat -> list Z;               (** tick, number of bytes *)
  db_fault : nat -> option string;
  mm_create_post : nat -> Poster -> Post -> res Post;
  mm_update_post : nat -> Poster -> string -> string -> res unit;
  mm_get_user : nat -> Poster -> string -> res User;
  mm_get_thread : nat -> Poster -> string -> res (list Post);
  mm_direct_channel : nat -> Poster -> string -> string -> res string;
  mm_upload_file : nat -> Poster -> string -> string -> list Z -> res FileInfo;
  mm_download_file : nat -> Poster -> string -> res (list Z);
  mm_get_file_info : nat -> Poster -> string -> res FileInfo;
  ws_write : nat -> nat -> Envelope -> res unit;   (** tick, connection *)
  decode_error_text : Envelope -> string;          (** the JSON decoder's error *)
  local_rfc822 : Time -> string;                   (** [Local().Format(RFC822)] *)
  local_kitchen : Time -> string;
  MaxMessageLen : Z;                               (** [model.PostMessageMaxRunesV2] *)
  provisioner_for : nat -> string -> bool;         (** the team has an installation *)
  pv_get_channel : nat -> string -> string -> res (option Channel);
  pv_get_user : nat -> string -> string -> res (option User);
  pv_create_bot : nat -> string -> string -> string -> string -> res (option string);
  pv_create_bot_token : nat -> string -> string -> string -> res string;
  pv_add_team_member : nat -> string -> string -> string -> res unit;
  pv_add_channel_member : nat -> string -> string -> string -> res unit;
  pv_create_incoming : nat -> string -> IncomingWebhook -> option IncomingWebhook * option error;
  pv_create_outgoing : nat -> string -> OutgoingWebhook -> option OutgoingWebhook * option error;
  pv_delete_outgoing : nat -> string -> string -> res unit;
  pv_delete_incoming : nat -> string -> string -> res unit;
  pv_disable_bot : nat -> string -> string -> res unit
}.

(** ** The state *)

(** What leaves the broker.  The flag tells whether the call succeeded. *)
Inductive Event : Type :=
| EvCreatePost (p : Poster) (post : Post) (ok : bool)
| EvUpdatePost (p : Poster) (id msg : string) (ok : bool)
| EvUpload (p : Poster) (channel name : string) (data : list Z) (ok : bool)
| EvSend (conn : nat) (env : Envelope) (ok : bool)
| EvClose (conn : nat) (code : Z) (reason : string)
| EvBotCreated (team userID : string)
| EvBotDisabled (team userID : string) (ok : bool)
| EvMember (team kind target userID : string) (ok : bool)
| EvHookCreated (team kind id : string)
| EvHookDeleted (team kind id : string) (ok : bool).

Inductive Mutex : Type := routingMu | onboardingMu.
#[export] Instance Mutex_eq_dec : EqDecision Mutex.
Proof. solve_decision. Defined.

(** [core.editor], the debouncer of one status post: the text to write, the
    timer that is set, the time of the last edit. *)
Record Editor : Type := MkEditor {
  edPending : string;
  edTimer : option nat;
  edLast : Time
}.
Definition new_editor : Editor := MkEditor "" None zero_time.

(** A [time.AfterFunc] timer with the closure it runs: the editor and the job
    it was created for. *)
Record Timer : Type := MkTimer {
  tmEditor : nat;
  tmJob : Job;
  tmDue : Time;
  tmArmed : bool    (** neither fired nor stopped *)
}.

Record World : Type := MkWorld {
  w_db : DB;
  w_conns : gmap string nat;       (** [Hub.conns]: harness -> connection *)
  w_cancelled : list nat;          (** connections whose context was cancelled *)
  w_edits : gmap string nat;       (** [Core.edits]: job -> editor *)
  w_editors : list Editor;         (** every editor made so far *)
  w_timers : list Timer;           (** every timer made so far *)
  w_locks : list Mutex;
  w_trace : list Event;
  w_tick : nat
}.

Definition empty_world : World := MkWorld empty_db ∅ [] ∅ [] [] [] [] 0.

Definition set_db x w := MkWorld x (w_conns w) (w_cancelled w) (w_edits w) (w_editors w) (w_timers w) (w_locks w) (w_trace w) (w_tick w).
Definition set_conns x w := MkWorld (w_db w) x (w_cancelled w) (w_edits w) (w_editors w) (w_timers w) (w_locks w) (w_trace w) (w_tick w).
Definition set_cancelled x w := MkWorld (w_db w) (w_conns w) x (w_edits w) (w_editors w) (w_timers w) (w_locks w) (w_trace w) (w_tick w).
Definition set_edits x w := MkWorld (w_db w) (w_conns w) (w_cancelled w) x (w_editors w) (w_timers w) (w_locks w) (w_trace w) (w_tick w).
Definition set_editors x w := MkWorld (w_db w) (w_conns w) (w_cancelled w) (w_edits w) x (w_timers w) (w_locks w) (w_trace w) (w_tick w).
Definition set_timers x w := MkWorld (w_db w) (w_conns w) (w_cancelled w) (w_edits w) (w_editors w) x (w_locks w) (w_trace w) (w_tick w).
Definition set_locks x w := MkWorld (w_db w) (w_conns w) (w_cancelled w) (w_edits w) (w_editors w) (w_timers w) x (w_trace w) (w_tick w).
Definition set_trace x w := MkWorld (w_db w) (w_conns w) (w_cancelled w) (w_edits w) (w_editors w) (w_timers w) (w_locks w) x (w_tick w).
Definition set_tick x w := MkWorld (w_db w) (w_conns w) (w_cancelled w) (w_edits w) (w_editors w) (w_timers w) (w_locks w) (w_trace w) x.

Definition bump (w : World) : World := set_tick (S (w_tick w)) w.
Definition record (evs : list Event) (w : World) : World := set_trace (w_trace w ++ evs) w.

(** ** Operations *)

Section Operations.
Context {E : Env}.

(** Ask the outside; what the call did to it goes to the trace. *)
Definition ask {X} (f : nat -> X) : prog World X :=
  atomic (fun w => (f (w_tick w), bump w)).
Definition call {X} (f : nat -> X) (evs : X -> list Event) : prog World X :=
  atomic (fun w => let x := f (w_tick w) in (x, bump (record (evs x) w))).

Definition time_now : prog World Time := ask clock.
Definition random_bytes (n : nat) : prog World (list Z) := ask (fun t => rand_read t n).
Definition new_ulid : prog World string := ask ulid_make.

(** *** Mutexes *)

Definition acquire (m : Mutex) : prog World unit :=
  await (fun w => if bool_decide (m ∈ w_locks w) then None else Some (set_locks (m :: w_locks w) w)).
Definition release (m : Mutex) : prog World unit :=
  modify (fun w => set_locks (List.filter (fun x => negb (bool_decide (x = m))) (w_locks w)) w).

(** [Lock(); defer Unlock()] around a function body. *)
Definition with_lock {X} (m : Mutex) (body : prog World X) : prog World X :=
  acquire m ;; x <- body ;; release m ;; Ret x.

(** *** SQL statements

    A statement either fails with a fault, without effect, or runs. *)
Definition query {X} (q : DB -> sres X) : prog World (sres X) :=
  atomic (fun w =>
    (match db_fault (w_tick w) with
     | Some msg => SqlErr (SqlFault msg)
     | None => q (w_db w)
     end, bump w)).

Definition exec {X} (s : DB -> sres X * DB) : prog World (sres X) :=
  atomic (fun w =>
    match db_fault (w_tick w) with
    | Some msg => (SqlErr (SqlFault msg), bump w)
    | None => let '(r, d) := s (w_db w) in (r, bump (set_db d w))
    end).

(** *** The Mattermost API

    [UnavailableAPI] answers every call with an error and sends nothing. *)
Definition api_call {X} (p : Poster) (f : nat -> res X) (evs : res X -> list Event) : prog World (res X) :=
  match p with
  | UnavailableAPI => Ret (Err ErrBotUnavailable)
  | _ => call f evs
  end.

Definition CreatePost (p : Poster) (post : Post) : prog World (res Post) :=
  api_call p (fun t => mm_create_post t p post) (fun r => [EvCreatePost p post (is_ok r)]).
Definition UpdatePost (p : Poster) (id msg : string) : prog World (res unit) :=
  api_call p (fun t => mm_update_post t p id msg) (fun r => [EvUpdatePost p id msg (is_ok r)]).
Definition UploadFile (p : Poster) (channel name : string) (data : list Z) : prog World (res FileInfo) :=
  api_call p (fun t => mm_upload_file t p channel name data)
    (fun r => [EvUpload p channel name data (is_ok r)]).
Definition GetUser (p : Poster) (id : string) : prog World (res User) :=
  api_call p (fun t => mm_get_user t p id) (fun _ => []).
Definition GetThread (p : Poster) (root : string) : prog World (res (list Post)) :=
  api_call p (fun t => mm_get_thread t p root) (fun _ => []).
Definition DirectChannel (p : Poster) (bot user : string) : prog World (res string) :=
  api_call p (fun t => mm_direct_channel t p bot user) (fun _ => []).
Definition DownloadFile (p : Poster) (id : string) : prog World (res (list Z)) :=
  api_call p (fun t => mm_download_file t p id) (fun _ => []).
Definition GetFileInfo (p : Poster) (id : string) : prog World (res FileInfo) :=
  api_call p (fun t => mm_get_file_info t p id) (fun _ => []).

(** *** Connections ([wire.Conn]) *)

Definition wire_send (c : nat) (env : Envelope) : prog World (res unit) :=
  call (fun t => ws_write t c env) (fun r => [EvSend c env (is_ok r)]).
Definition wire_close (c : nat) (code : Z) (reason : string) : prog World unit :=
  modify (record [EvClose c code reason]).
End Operations.

(** The database file works: no statement is refused for a reason outside
    the statement. *)
Class NoFaults (E : Env) : Prop := no_fault : forall t, db_fault t = None.

(** ** Reasoning about the operations *)

Section Rules.
Context {E : Env}.

Lemma wp_ask {X} (f : nat -> X) Q w : wp (ask f) Q w <-> Q (f (w_tick w)) (bump w).
Proof. done. Qed.

Lemma wp_time_now Q w : wp time_now Q w <-> Q (clock (w_tick w)) (bump w).
Proof. done. Qed.
Lemma wp_random_bytes n Q w : wp (random_bytes n) Q w <-> Q (rand_read (w_tick w) n) (bump w).
Proof. done. Qed.
Lemma wp_new_ulid Q w : wp new_ulid Q w <-> Q (ulid_make (w_tick w)) (bump w).
Proof. done. Qed.

Lemma wp_call {X} (f : nat -> X) evs Q w :
  wp (call f evs) Q w <-> Q (f (w_tick w)) (bump (record (evs (f (w_tick w))) w)).
Proof. done. Qed.

Lemma wp_query_fault {X} (q : DB -> sres X) Q w :
  (forall msg, Q (SqlErr (SqlFault msg)) (bump w)) -> Q (q (w_db w)) (bump w) -> wp (query q) Q w.
Proof. intros Hf Hq. unfold wp. simpl. destruct (db_fault (w_tick w)); auto. Qed.

Lemma wp_exec_fault {X} (s : DB -> sres X * DB) Q w :
  (forall msg, Q (SqlErr (SqlFault msg)) (bump w)) ->
  Q (s (w_db w)).1 (bump (set_db (s (w_db w)).2 w)) -> wp (exec s) Q w.
Proof.
  intros Hf Hs. unfold wp. simpl. destruct (db_fault (w_tick w)); [auto|].
  by destruct (s (w_db w)).
Qed.

Lemma wp_with_lock m {X} (body : prog World X) (Q : X -> World -> Prop) w :
  m ∉ w_locks w ->
  wp body (fun x w1 => Q x (set_locks (List.filter (fun k => negb (bool_decide (k = m))) (w_locks w1)) w1))
     (set_locks (m :: w_locks w) w) ->
  wp (with_lock m body) Q w.
Proof.
  intros Hm Hb. unfold with_lock. apply wp_bind. unfold acquire, await, wp. simpl.
  rewrite bool_decide_false by done. simpl. fold (wp (x <- body ;; release m ;; Ret x) Q (set_locks (m :: w_locks w) w)).
  apply wp_bind. eapply wp_mono; [|exact Hb]. intros x w1 HQ. by apply wp_bind.
Qed.

Lemma wp_query `{!NoFaults E} {X} (q : DB -> sres X) Q w :
  wp (query q) Q w <-> Q (q (w_db w)) (bump w).
Proof. unfold wp. simpl. by rewrite no_fault. Qed.

Lemma wp_exec `{!NoFaults E} {X} (s : DB -> sres X * DB) Q w :
  wp (exec s) Q w <-> Q (s (w_db w)).1 (bump (set_db (s (w_db w)).2 w)).
Proof. unfold wp. simpl. rewrite no_fault. by destruct (s (w_db w)). Qed.
End Rules.

(** *** Relations between the states before and after

    [on_db S], [on_conns S] and [on_trace S] relate two worlds through one
    component. *)
Definition on_db (S : DB -> DB -> Prop) (w w' : World) : Prop := S (w_db w) (w_db w').
Definition on_conns (S : gmap string nat -> gmap string nat -> Prop) (w w' : World) : Prop :=
  S (w_conns w) (w_conns w').

(** Everything added to the trace satisfies [P]. *)
Definition emits (P : Event -> Prop) (w w' : World) : Prop :=
  exists evs, w_trace w' = w_trace w ++ evs /\ Forall P evs.

#[export] Instance on_db_preorder S `{!PreOrder S} : PreOrder (on_db S).
Proof. split; [intros w; unfold on_db; reflexivity | intros x y z; unfold on_db; etrans; eauto]. Qed.
#[export] Instance on_conns_preorder S `{!PreOrder S} : PreOrder (on_conns S).
Proof. split; [intros w; unfold on_conns; reflexivity | intros x y z; unfold on_conns; etrans; eauto]. Qed.
#[export] Instance emits_preorder P : PreOrder (emits P).
Proof.
  split.
  - intros w. exists []. by rewrite app_nil_r.
  - intros x y z (e1 & H1 & F1) (e2 & H2 & F2). exists (e1 ++ e2).
    rewrite H2, H1, <- app_assoc. split; [done|]. by apply Forall_app.
Qed.

(** A relation that does not look at the part of the world a quiet operation
    changes: locks, debouncers, and time, which only passes. *)
Class Quiet (R : World -> World -> Prop) : Prop := {
  quiet_preorder :: PreOrder R;
  quiet_step w w' :
    w_db w = w_db w' -> w_conns w = w_conns w' -> w_trace w = w_trace w' ->
    (w_tick w <= w_tick w')%nat -> R w w'
}.
(** The same for relations that do not look at the trace either. *)
Class Silent (R : World -> World -> Prop) : Prop := {
  silent_quiet :: Quiet R;
  silent_step w w' : w_db w = w_db w' -> w_conns w = w_conns w' -> (w_tick w <= w_tick w')%nat -> R w w'
}.

(** In between: a relation that does not look at events other than frames. *)
Definition no_frame (ev : Event) : Prop := match ev with EvSend _ _ _ => False | _ => True end.
Class Mild (R : World -> World -> Prop) : Prop := {
  mild_quiet :: Quiet R;
  mild_step w w' evs :
    w_db w = w_db w' -> w_conns w = w_conns w' -> w_trace w' = w_trace w ++ evs -> (w_tick w <= w_tick w')%nat ->
    Forall no_frame evs -> R w w'
}.
#[export] Instance silent_mild R `{!Silent R} : Mild R.
Proof. split; [apply _|]. intros w w' evs **. by apply silent_step. Qed.

#[export] Instance on_db_silent S `{!PreOrder S} : Silent (on_db S).
Proof.
  split; [split; [apply _|]|]; intros w w' H **; unfold on_db; rewrite H; reflexivity.
Qed.
#[export] Instance on_conns_silent S `{!PreOrder S} : Silent (on_conns S).
Proof.
  split; [split; [apply _|]|]; intros w w' ? H **; unfold on_conns; rewrite H; reflexivity.
Qed.
#[export] Instance emits_quiet P : Quiet (emits P).
Proof. split; [apply _|]. intros w w' _ _ H _. exists []. by rewrite H, app_nil_r. Qed.

(** Time does not go back. *)
Ltac later_tick := cbn; lia.

Section Guards.
Context {E : Env} (R : World -> World -> Prop).

Lemma guards_ask `{!Quiet R} {X} (f : nat -> X) : guards R (ask f).
Proof. apply guards_atomic. intros w. apply quiet_step; [done..|later_tick]. Qed.

Lemma guards_call `{!Silent R} {X} (f : nat -> X) evs : guards R (call f evs).
Proof. apply guards_atomic. intros w. apply silent_step; [done..|later_tick]. Qed.

Lemma guards_query `{!Quiet R} {X} (q : DB -> sres X) : guards R (query q).
Proof. apply guards_atomic. intros w. apply quiet_step; [done..|later_tick]. Qed.

Lemma guards_acquire `{!Quiet R} m : guards R (acquire m).
Proof.
  apply guards_await. intros w w' H. destruct (bool_decide (m ∈ w_locks w)); [done|].
  injection H as <-. apply quiet_step; [done..|later_tick].
Qed.

Lemma guards_release `{!Quiet R} m : guards R (release m).
Proof. apply guards_modify. intros w. apply quiet_step; [done..|later_tick]. Qed.

Lemma guards_with_lock `{!Quiet R} m {X} (body : prog World X) :
  guards R body -> guards R (with_lock m body).
Proof.
  intros H. apply guards_bind; [apply guards_acquire|intros _].
  apply guards_bind; [done|intros x]. apply guards_bind; [apply guards_release | done].
Qed.

Lemma guards_api_call `{!Silent R} {X} p (f : nat -> res X) evs : guards R (api_call p f evs).
Proof. destruct p; simpl; [apply guards_call..|done]. Qed.

Lemma guards_call_mild `{!Mild R} {X} (f : nat -> X) evs :
  (forall x, Forall no_frame (evs x)) -> guards R (call f evs).
Proof. intros H. apply guards_atomic. intros w. eapply mild_step; [done..|later_tick|done]. Qed.
Lemma guards_api_mild `{!Mild R} {X} p (f : nat -> res X) evs :
  (forall r, Forall no_frame (evs r)) -> guards R (api_call p f evs).
Proof. intros H. destruct p; simpl; [by apply guards_call_mild..|done]. Qed.

Lemma guards_time_now `{!Quiet R} : guards R time_now.
Proof. apply guards_ask. Qed.
Lemma guards_random_bytes `{!Quiet R} n : guards R (random_bytes n).
Proof. apply guards_ask. Qed.
Lemma guards_new_ulid `{!Quiet R} : guards R new_ulid.
Proof. apply guards_ask. Qed.
Lemma guards_CreatePost `{!Mild R} p post : guards R (CreatePost p post).
Proof. apply guards_api_mild. repeat constructor. Qed.
Lemma guards_UpdatePost `{!Mild R} p id msg : guards R (UpdatePost p id msg).
Proof. apply guards_api_mild. repeat constructor. Qed.
Lemma guards_UploadFile `{!Mild R} p c n b : guards R (UploadFile p c n b).
Proof. apply guards_api_mild. repeat constructor. Qed.
Lemma guards_wire_send `{!Silent R} c env : guards R (wire_send c env).
Proof. apply guards_call. Qed.

Lemma guards_wire_close `{!Mild R} c code reason : guards R (wire_close c code reason).
Proof. apply guards_modify. intros w. eapply mild_step; [done..|later_tick|]. by repeat constructor. Qed.
End Guards.

Lemma guards_exec_db {E : Env} S {X} (s : DB -> sres X * DB) :
  Reflexive S -> (forall d, S d (s d).2) -> guards (on_db S) (exec s).
Proof.
  intros HS H. apply guards_atomic. intros w. unfold on_db.
  destruct (db_fault (w_tick w)); [apply HS|]. specialize (H (w_db w)).
  by destruct (s (w_db w)).
Qed.

(** A statement leaves everything but the database alone. *)
Lemma guards_exec_conns {E : Env} S `{!Reflexive S} {X} (s : DB -> sres X * DB) :
  guards (on_conns S) (exec s).
Proof.
  apply guards_atomic. intros w. unfold on_conns.
  destruct (db_fault (w_tick w)); [reflexivity|]. destruct (s (w_db w)). reflexivity.
Qed.
Lemma guards_exec_emits {E : Env} P {X} (s : DB -> sres X * DB) : guards (emits P) (exec s).
Proof.
  apply guards_atomic. intros w. exists [].
  destruct (db_fault (w_tick w)); [|destruct (s (w_db w))]; simpl; by rewrite app_nil_r.
Qed.

Lemma guards_call_emits {E : Env} P {X} (f : nat -> X) evs :
  (forall t, Forall P (evs (f t))) -> guards (emits P) (call f evs).
Proof. intros H. apply guards_atomic. intros w. exists (evs (f (w_tick w))). auto. Qed.
Lemma guards_api_call_emits {E : Env} P {X} p (f : nat -> res X) evs :
  (forall r, p <> UnavailableAPI -> Forall P (evs r)) -> guards (emits P) (api_call p f evs).
Proof. intros H. destruct p; simpl; [apply guards_call_emits; auto.. | done]. Qed.
Lemma guards_wire_close_emits P c code reason :
  P (EvClose c code reason) -> guards (emits P) (wire_close c code reason).
Proof. intros H. apply guards_modify. intros w. eexists. split; [done|]. by constructor. Qed.

(** Calls that only ask Mattermost leave no event. *)
Section Lookups.
Context {E : Env} (R : World -> World -> Prop) `{!Quiet R}.

Lemma guards_lookup {X} p (f : nat -> res X) : guards R (api_call p f (fun _ => [])).
Proof.
  destruct p; simpl; [..|done]; split; try done; intros w x w' [= <- <-];
    apply quiet_step; first [done | simpl; by rewrite app_nil_r | later_tick].
Qed.
Lemma guards_GetUser p id : guards R (GetUser p id).
Proof. apply guards_lookup. Qed.
Lemma guards_GetThread p id : guards R (GetThread p id).
Proof. apply guards_lookup. Qed.
Lemma guards_DirectChannel p a b : guards R (DirectChannel p a b).
Proof. apply guards_lookup. Qed.
Lemma guards_DownloadFile p id : guards R (DownloadFile p id).
Proof. apply guards_lookup. Qed.
Lemma guards_GetFileInfo p id : guards R (GetFileInfo p id).
Proof. apply guards_lookup. Qed.
End Lookups.

#[export] Hint Resolve guards_time_now guards_random_bytes guards_new_ulid guards_CreatePost
  guards_UpdatePost guards_UploadFile guards_wire_send guards_GetUser guards_GetThread
  guards_DirectChannel guards_DownloadFile guards_GetFileInfo : guards.
#[export] Hint Resolve guards_ask guards_call guards_query guards_acquire guards_release
  guards_with_lock guards_api_call guards_wire_close guards_exec_conns guards_exec_emits : guards.

(** Decompose a handler into its operations. *)
Ltac guard_step :=
  lazymatch goal with
  | |- guards _ (bind _ _) => apply guards_bind; [|intros ?]
  | |- guards _ (Ret _) => exact I
  | |- guards _ (when _ _) => apply guards_when; intros ?
  | |- guards _ (for_each _ _) => apply guards_for_each; intros ? ?
  | |- guards _ (for_fold _ _ _) => apply guards_for_fold; intros ? ?
  | |- guards _ (with_lock _ _) => apply guards_with_lock; [apply _|]
  | |- guards _ (match ?x with _ => _ end) => destruct x eqn:?
  | |- guards _ (let '(_, _) := ?x in _) => destruct x eqn:?
  end.
Ltac head_of t := lazymatch t with ?f _ => head_of f | _ => t end.
Ltac secure := repeat guard_step; auto with guards typeclass_instances.

Section NonBlocking.
Context {E : Env}.

Lemma nonblocking_ask {X} (f : nat -> X) : nonblocking (ask f).
Proof. apply nonblocking_atomic. Qed.
Lemma nonblocking_call {X} (f : nat -> X) evs : nonblocking (call f evs).
Proof. apply nonblocking_atomic. Qed.
Lemma nonblocking_query {X} (q : DB -> sres X) : nonblocking (query q).
Proof. apply nonblocking_atomic. Qed.
Lemma nonblocking_exec {X} (s : DB -> sres X * DB) : nonblocking (exec s).
Proof. apply nonblocking_atomic. Qed.
Lemma nonblocking_api_call {X} p (f : nat -> res X) evs : nonblocking (api_call p f evs).
Proof. destruct p; [apply nonblocking_call..|exact I]. Qed.
Lemma nonblocking_time_now : nonblocking time_now.
Proof. apply nonblocking_atomic. Qed.
Lemma nonblocking_random_bytes n : nonblocking (random_bytes n).
Proof. apply nonblocking_atomic. Qed.
Lemma nonblocking_new_ulid : nonblocking new_ulid.
Proof. apply nonblocking_atomic. Qed.
Lemma nonblocking_CreatePost p post : nonblocking (CreatePost p post).
Proof. apply nonblocking_api_call. Qed.
Lemma nonblocking_UpdatePost p id msg : nonblocking (UpdatePost p id msg).
Proof. apply nonblocking_api_call. Qed.
Lemma nonblocking_UploadFile p c n b : nonblocking (UploadFile p c n b).
Proof. apply nonblocking_api_call. Qed.
Lemma nonblocking_GetUser p id : nonblocking (GetUser p id).
Proof. apply nonblocking_api_call. Qed.
Lemma nonblocking_GetThread p id : nonblocking (GetThread p id).
Proof. apply nonblocking_api_call. Qed.
Lemma nonblocking_DirectChannel p a b : nonblocking (DirectChannel p a b).
Proof. apply nonblocking_api_call. Qed.
Lemma nonblocking_DownloadFile p id : nonblocking (DownloadFile p id).
Proof. apply nonblocking_api_call. Qed.
Lemma nonblocking_GetFileInfo p id : nonblocking (GetFileInfo p id).
Proof. apply nonblocking_api_call. Qed.
Lemma nonblocking_wire_send c env : nonblocking (wire_send c env).
Proof. apply nonblocking_atomic. Qed.
Lemma nonblocking_modify (f : World -> World) : nonblocking (modify f).
Proof. apply nonblocking_atomic. Qed.
End NonBlocking.
#[export] Hint Resolve nonblocking_ask nonblocking_call nonblocking_query nonblocking_exec
  nonblocking_api_call nonblocking_modify nonblocking_time_now nonblocking_random_bytes
  nonblocking_new_ulid nonblocking_CreatePost nonblocking_UpdatePost nonblocking_UploadFile
  nonblocking_GetUser nonblocking_GetThread nonblocking_DirectChannel nonblocking_DownloadFile
  nonblocking_GetFileInfo nonblocking_wire_send : nonblocking.

Ltac flow_step :=
  lazymatch goal with
  | |- nonblocking (bind _ _) => apply nonblocking_bind; [|intros ?]
  | |- nonblocking (Ret _) => exact I
  | |- nonblocking (when ?b _) => destruct b; simpl
  | |- nonblocking (for_each _ _) => apply nonblocking_for_each; intros ?
  | |- nonblocking (for_fold _ _ _) => apply nonblocking_for_fold; intros ? ?
  | |- nonblocking (match ?x with _ => _ end) => destruct x eqn:?
  end.
Ltac flow := repeat flow_step; auto with nonblocking.

#[global] Arguments ask : simpl never.
#[global] Arguments call : simpl never.
#[global] Arguments query : simpl never.
#[global] Arguments exec : simpl never.
#[global] Arguments api_call : simpl never.
