(* ===== verification/MMClient.v ===== *)
(** * The Mattermost client ([internal/broker/mattermost/client.go])

    [Client], a thin layer over the vendor's REST client, and [Listen], which
    hands every new post of the event stream to a callback: a goroutine that reads
    the stream and reconnects, a bounded queue, and a goroutine that works it off.

    The vendor's client is the class [Client4] of its calls, the stream and the
    texts of its events the class [Stream]. *)

From S2P Require Import Prelude GoText Json Store World.

Open Scope Z_scope.

(** ** REST *)

(** A call that failed returns no value. *)
Class Client4 : Type := {
  c4_GetMe : nat -> res User;
  c4_GetUser : nat -> string -> res User;
  c4_GetPost : nat -> string -> res Post;
  c4_GetPostThread : nat -> string -> res (list string * gmap string Post);   (** [Order], [Posts] *)
  c4_CreatePost : nat -> Post -> res Post;
  c4_PatchPost : nat -> string -> string -> option (list MessageAttachment) -> res unit;
  c4_CreateDirectChannel : nat -> string -> string -> res string;             (** its id *)
  c4_UploadFile : nat -> list Z -> string -> string -> res (list FileInfo);
  c4_GetFile : nat -> string -> res (list Z);
  c4_GetFileInfo : nat -> string -> res FileInfo;
  c4_CreateBot : nat -> string -> string -> string -> res string;             (** its user id *)
  c4_CreateUserAccessToken : nat -> string -> string -> res string;           (** its secret *)
  c4_AddTeamMember : nat -> string -> string -> res unit;
  c4_AddChannelMember : nat -> string -> string -> res unit;
  c4_GetChannel : nat -> string -> res Channel;
  c4_GetUserByUsername : nat -> string -> res User;
  slice_order : nat -> list Post -> list Post     (** how [sort.Slice] orders what compares equal *)
}.

Definition wrap {A} (op : string) (r : res A) : res A :=
  match r with
  | Ok a => Ok a
  | Err e => Err (ErrOther ("mattermost: " +:+ op +:+ ": " +:+ error_text e))
  end.

Module Client.
Section Client.
Context {C : Client4}.

Definition Me (t : nat) : res User := wrap "get me" (c4_GetMe t).
Definition GetUser (t : nat) (id : string) : res User := wrap "get user" (c4_GetUser t id).
Definition GetPost (t : nat) (id : string) : res Post := wrap "get post" (c4_GetPost t id).

(** [sort.Slice] by [CreateAt]: it is not stable. *)
Definition by_creation (t : nat) (posts : list Post) : list Post := order_by poCreateAt (slice_order t posts).
Definition GetThread (t : nat) (rootID : string) : res (list Post) :=
  match c4_GetPostThread t rootID with
  | Err e => wrap "get thread" (Err e)
  | Ok (order, posts) => Ok (by_creation t (omap (fun id => posts !! id) order))
  end.

Definition CreatePost (t : nat) (p : Post) : res Post := wrap "create post" (c4_CreatePost t p).
(** The only property the program sets is the attachments. *)
Definition UpdatePost (t : nat) (id message : string) (attachments : option (list MessageAttachment)) : res unit :=
  wrap "patch post" (c4_PatchPost t id message attachments).
Definition DirectChannel (t : nat) (botID userID : string) : res string :=
  wrap "direct channel" (c4_CreateDirectChannel t botID userID).
Definition UploadFile (t : nat) (channelID name : string) (data : list Z) : res FileInfo :=
  match c4_UploadFile t data channelID name with
  | Err e => wrap "upload file" (Err e)
  | Ok [] => Err (ErrOther "mattermost: upload returned no file info")
  | Ok (fi :: _) => Ok fi
  end.
Definition DownloadFile (t : nat) (id : string) : res (list Z) := wrap "get file" (c4_GetFile t id).
Definition GetFileInfo (t : nat) (id : string) : res FileInfo := wrap "get file info" (c4_GetFileInfo t id).

Definition CreateBot (t : nat) (username displayName description : string) : res string :=
  wrap "create bot" (c4_CreateBot t username displayName description).
Definition CreateBotToken (t : nat) (botUserID description : string) : res string :=
  wrap "create bot token" (c4_CreateUserAccessToken t botUserID description).
Definition AddTeamMember (t : nat) (teamID userID : string) : res unit := wrap "add team member" (c4_AddTeamMember t teamID userID).
Definition AddChannelMember (t : nat) (channelID userID : string) : res unit :=
  wrap "add channel member" (c4_AddChannelMember t channelID userID).
Definition GetChannel (t : nat) (id : string) : res Channel := wrap "get channel" (c4_GetChannel t id).
Definition GetUserByUsername (t : nat) (username : string) : res User :=
  wrap "get user by username" (c4_GetUserByUsername t username).
End Client.
End Client.

(** ** The event stream *)

Inductive StreamSignal : Type :=
| PingTimeout
| Reply                                              (** on [ResponseChannel] *)
| Closed (cause : option error)                      (** [EventChannel] is closed; [ListenError] *)
| StreamEvent (type : string) (data : gmap string json).

Class Stream : Type := {
  ws_clock : nat -> Time;
  NewWebSocketClient4 : nat -> string -> string -> res unit;
  decode_post : string -> option Post;               (** [json.Unmarshal] into a post *)
  document : string -> option json;                  (** the JSON text of a document *)
  Int64N : nat -> Z -> Z
}.

Definition EventQueueSize : nat := 256.
Definition WebsocketEventPosted : string := "posted".

(** The URL of the stream, from [New]'s base URL. *)
Definition ws_url (baseURL : string) : string :=
  let u := TrimRight baseURL "/" in
  if HasPrefix u "https://" then "wss://" +:+ TrimPrefix u "https://"
  else if HasPrefix u "http://" then "ws://" +:+ TrimPrefix u "http://" else u.

(** [data[key].(string)] *)
Definition data_string (data : gmap string json) (key : string) : string :=
  match data !! key with Some (JStr s) => s | _ => "" end.

Section Listen.
Context {S : Stream}.

Definition mentions_of (text : string) : list string :=
  if String.eqb text "" then []
  else match document text with
       | Some j => default [] (dec_slice "" dec_string None j).1
       | None => []
       end.
Definition posted_event (data : gmap string json) : option PostedEvent :=
  match decode_post (data_string data "post") with
  | None => None
  | Some p => Some (MkPostedEvent (Some p) (data_string data "channel_type") (mentions_of (data_string data "mentions")))
  end.

(** One turn of [listenOnce]'s loop: it returns, delivers an event or goes on. *)
Inductive Turn : Type :=
| TurnEnds (e : error)
| TurnDelivers (ev : PostedEvent)
| TurnGoesOn.
Definition on_signal (s : StreamSignal) : Turn :=
  match s with
  | PingTimeout => TurnEnds (ErrOther "ping timeout")
  | Reply => TurnGoesOn
  | Closed (Some e) => TurnEnds e
  | Closed None => TurnEnds (ErrOther "event channel closed")
  | StreamEvent type data =>
      if negb (String.eqb type WebsocketEventPosted) then TurnGoesOn
      else match posted_event data with None => TurnGoesOn | Some ev => TurnDelivers ev end
  end.

Definition reset_backoff (backoff started now : Time) : Duration :=
  if minute <? now - started then second else backoff.
Definition double_backoff (backoff : Duration) : Duration := Z.min (backoff * 2) (60 * second).

(** Where the goroutine of [Listen] is. *)
Inductive Reader : Type :=
| Starting                                           (** at the top of the loop *)
| Dialling (started : Time)
| Reading (started : Time)
| Delivering (started : Time) (ev : PostedEvent)     (** the queue was full *)
| Disconnected (started : Time)                      (** [listenOnce] has returned *)
| Sleeping (until : Time)
| Closing                                            (** [close(events)] done, [<-worker] *)
| Returned.

Inductive Worker : Type :=
| Idle
| Handling (ev : PostedEvent)                        (** in [onPost] *)
| Finished.

Record Listener : Type := MkListener {
  lnReader : Reader;
  lnBackoff : Duration;
  lnQueue : list PostedEvent;                        (** [events] *)
  lnWorker : Worker;
  lnDone : bool;                                     (** the context has ended *)
  lnTick : nat;
  lnRead : list PostedEvent;                         (** history: delivered by the stream *)
  lnDropped : list PostedEvent;                      (** ... and given up on *)
  lnHandled : list PostedEvent                       (** ... and given to [onPost] *)
}.
Definition Listen (t : nat) : Listener := MkListener Starting second [] Idle false t [] [] [].

Definition with_reader (r : Reader) (l : Listener) : Listener :=
  MkListener r (lnBackoff l) (lnQueue l) (lnWorker l) (lnDone l) (lnTick l) (lnRead l) (lnDropped l) (lnHandled l).
Definition with_backoff (b : Duration) (l : Listener) : Listener :=
  MkListener (lnReader l) b (lnQueue l) (lnWorker l) (lnDone l) (lnTick l) (lnRead l) (lnDropped l) (lnHandled l).
Definition enqueue (ev : PostedEvent) (l : Listener) : Listener :=
  MkListener (lnReader l) (lnBackoff l) (lnQueue l ++ [ev]) (lnWorker l) (lnDone l) (lnTick l) (lnRead l) (lnDropped l) (lnHandled l).
Definition noted (ev : PostedEvent) (l : Listener) : Listener :=
  MkListener (lnReader l) (lnBackoff l) (lnQueue l) (lnWorker l) (lnDone l) (lnTick l) (lnRead l ++ [ev]) (lnDropped l) (lnHandled l).
Definition dropped (ev : PostedEvent) (l : Listener) : Listener :=
  MkListener (lnReader l) (lnBackoff l) (lnQueue l) (lnWorker l) (lnDone l) (lnTick l) (lnRead l) (lnDropped l ++ [ev]) (lnHandled l).
Definition worker_to (q : list PostedEvent) (w : Worker) (l : Listener) : Listener :=
  MkListener (lnReader l) (lnBackoff l) q w (lnDone l) (lnTick l) (lnRead l) (lnDropped l)
    (lnHandled l ++ match w with Handling ev => [ev] | _ => [] end).
Definition cancelled (l : Listener) : Listener :=
  MkListener (lnReader l) (lnBackoff l) (lnQueue l) (lnWorker l) true (lnTick l) (lnRead l) (lnDropped l) (lnHandled l).
Definition later (l : Listener) : Listener :=
  MkListener (lnReader l) (lnBackoff l) (lnQueue l) (lnWorker l) (lnDone l) (1 + lnTick l) (lnRead l) (lnDropped l) (lnHandled l).

Definition has_room (l : Listener) : bool := (length (lnQueue l) <? EventQueueSize)%nat.

(** The reader after a signal: [deliver] first tries the queue without
    waiting. *)
Definition receive_signal (started : Time) (s : StreamSignal) (l : Listener) : Listener :=
  match on_signal s with
  | TurnEnds _ => with_reader (Disconnected started) l
  | TurnGoesOn => l
  | TurnDelivers ev =>
      let l := noted ev l in
      if has_room l then enqueue ev l else with_reader (Delivering started ev) l
  end.

(** What follows [listenOnce]. *)
Definition after_listen (started : Time) (l : Listener) : Listener :=
  if lnDone l then with_reader Closing l
  else
    let now := ws_clock (lnTick l) in
    let backoff := reset_backoff (lnBackoff l) started now in
    with_reader (Sleeping (now + backoff + Int64N (lnTick l) (Z.quot backoff 4))) (with_backoff backoff l).

Context (baseURL token : string).

(** The steps of the two goroutines, of the stream, of time, and of the
    context. *)
Inductive listen_step : Listener -> Listener -> Prop :=
| step_time l : listen_step l (later l)
| step_cancel l : listen_step l (cancelled l)
| step_start l :
    lnReader l = Starting -> listen_step l (with_reader (Dialling (ws_clock (lnTick l))) l)
| step_dial l started :
    lnReader l = Dialling started ->
    listen_step l (with_reader (if is_ok (NewWebSocketClient4 (lnTick l) (ws_url baseURL) token)
                                then Reading started else Disconnected started) l)
| step_signal l started s : lnReader l = Reading started -> listen_step l (receive_signal started s l)
| step_context_read l started :
    lnReader l = Reading started -> lnDone l = true -> listen_step l (with_reader (Disconnected started) l)
| step_deliver l started ev :
    lnReader l = Delivering started ev -> has_room l = true -> listen_step l (enqueue ev (with_reader (Reading started) l))
| step_drop l started ev :
    lnReader l = Delivering started ev -> lnDone l = true -> listen_step l (dropped ev (with_reader (Reading started) l))
| step_ended l started : lnReader l = Disconnected started -> listen_step l (after_listen started l)
| step_wake l until :
    lnReader l = Sleeping until -> until <= ws_clock (lnTick l) ->
    listen_step l (with_reader Starting (with_backoff (double_backoff (lnBackoff l)) l))
| step_context_sleep l until :
    lnReader l = Sleeping until -> lnDone l = true -> listen_step l (with_reader Closing l)
| step_take l ev q : lnWorker l = Idle -> lnQueue l = ev :: q -> listen_step l (worker_to q (Handling ev) l)
| step_handled l ev : lnWorker l = Handling ev -> listen_step l (worker_to (lnQueue l) Idle l)
| step_drained l :
    lnWorker l = Idle -> lnQueue l = [] -> lnReader l = Closing -> listen_step l (worker_to [] Finished l)
| step_return l : lnReader l = Closing -> lnWorker l = Finished -> listen_step l (with_reader Returned l).
End Listen.
