(* ===== verification/MMClientFacts.v ===== *)
(** * What the listener promises

    Posts reach the callback in the order of the stream, each once and none
    lost while the context lives; the backlog and the delays are bounded; when
    the context ends, [Listen] can return, after the callback has seen the rest. *)

From S2P Require Import Prelude GoText Json Store World MMClient.

Open Scope Z_scope.

(** ** Threads *)

(** A thread is read top to bottom, every post that came with it once. *)
Lemma GetThread_ordered `{C : Client4} t root order posts :
  (forall l, slice_order t l ≡ₚ l) -> c4_GetPostThread t root = Ok (order, posts) ->
  exists l, Client.GetThread t root = Ok l /\ l ≡ₚ omap (fun id => posts !! id) order
    /\ StronglySorted (fun p q => poCreateAt p <= poCreateAt q) l.
Proof.
  intros Hp Hc. unfold Client.GetThread. rewrite Hc. eexists. split; [done|]. split.
  - unfold Client.by_creation. rewrite order_by_perm. apply Hp.
  - apply order_by_sorted.
Qed.

(** ** The listener *)

Lemma sublist_same_length {A} (l1 l2 : list A) : l1 `sublist_of` l2 -> length l1 = length l2 -> l1 = l2.
Proof.
  induction 1 as [|x l1 l2 _ IH|x l1 l2 H _]; cbn; intros E; [done|by rewrite IH by lia|].
  apply sublist_length in H. lia.
Qed.

Section Facts.
Context {S : Stream} (baseURL token : string).
Notation step := (listen_step baseURL token).

Definition pending (l : Listener) : list PostedEvent := match lnReader l with Delivering _ ev => [ev] | _ => [] end.
(** Handed over, or still to be. *)
Definition kept_events (l : Listener) : list PostedEvent := lnHandled l ++ lnQueue l ++ pending l.
Definition leaving (r : Reader) : Prop := r = Closing \/ r = Returned.

Record listener_inv (l : Listener) : Prop := {
  li_bound : (length (lnQueue l) <= EventQueueSize)%nat;
  li_order : kept_events l `sublist_of` lnRead l;
  li_once : lnRead l ≡ₚ kept_events l ++ lnDropped l;
  li_drops : lnDropped l <> [] -> lnDone l = true;
  li_backoff : second <= lnBackoff l <= minute;
  li_leaving : leaving (lnReader l) -> lnDone l = true;
  li_finished : lnWorker l = Finished -> leaving (lnReader l) /\ lnQueue l = [];
  li_returned : lnReader l = Returned -> lnWorker l = Finished
}.

Lemma inv_start t : listener_inv (Listen t).
Proof. split; cbn; try done; try lia; by intros [|]. Qed.

(** The reader moves, without an event of its own before or after. *)
Lemma inv_reader l r b :
  listener_inv l -> pending l = [] -> pending (with_reader r l) = [] -> (leaving r -> lnDone l = true) ->
  ~ leaving (lnReader l) -> r <> Returned -> second <= b <= minute -> listener_inv (with_reader r (with_backoff b l)).
Proof.
  intros [] Hp Hp' Hr Hl Hret Hb. unfold kept_events in *. unfold pending in Hp, Hp', li_order0, li_once0. cbn in Hp'.
  split; unfold kept_events, pending; cbn; rewrite ?Hp'; rewrite Hp in *; auto; try done. intros Hf. by destruct (li_finished0 Hf).
Qed.

Lemma with_same_backoff r l : with_reader r l = with_reader r (with_backoff (lnBackoff l) l).
Proof. by destruct l. Qed.

Lemma reset_bounds b s n : second <= b <= minute -> second <= reset_backoff b s n <= minute.
Proof. unfold reset_backoff. case_match; [|done]. intros _. vm_compute. split; discriminate. Qed.
Lemma double_bounds b : second <= b <= minute -> second <= double_backoff b <= minute.
Proof. unfold double_backoff. change minute with (60 * second). change second with 1000000000. lia. Qed.

Lemma inv_moves l r :
  listener_inv l -> pending l = [] -> pending (with_reader r l) = [] -> (leaving r -> lnDone l = true) ->
  ~ leaving (lnReader l) -> r <> Returned -> listener_inv (with_reader r l).
Proof. intros Hi ?????. rewrite with_same_backoff. apply inv_reader; try done. apply Hi. Qed.

(** The reader is at [Hp] and goes where nothing is pending. *)
Ltac moves Hp := apply inv_moves;
  [assumption | unfold pending; by rewrite ?Hp | reflexivity | first [assumption | by intros [|] | by intros _]
  | rewrite ?Hp; by intros [|] | discriminate].

Lemma not_finished l : listener_inv l -> ~ leaving (lnReader l) -> lnWorker l <> Finished.
Proof. intros [] H Hw. by destruct (li_finished0 Hw). Qed.

(** An event comes in: handed over at once, or pending. *)
Lemma inv_receive started sg l :
  lnReader l = Reading started -> listener_inv l -> listener_inv (receive_signal started sg l).
Proof.
  intros Hp Hi. unfold receive_signal. destruct (on_signal sg) as [e|ev|]; [moves Hp| |done].
  assert (lnWorker l <> Finished) as Hw by (apply not_finished; [done|rewrite Hp; by intros [|]]).
  destruct Hi as [Hb Ho Ho1 Hd Hk Hl Hf Hr]. unfold kept_events, pending in *. rewrite Hp, !app_nil_r in *.
  cbv zeta. change (has_room (noted ev l)) with (has_room l). destruct (has_room l) eqn:Hroom; [apply Nat.ltb_lt in Hroom|];
    split; unfold kept_events, pending; cbn; rewrite ?Hp, ?app_nil_r, ?length_app; cbn; try done; try lia.
  all: rewrite ?app_assoc; try (by apply sublist_app); try (by intros [|]).
  all: rewrite Ho1; solve_Permutation.
Qed.

Lemma inv_delivered started ev l (drop : bool) :
  lnReader l = Delivering started ev -> listener_inv l ->
  (if drop then lnDone l = true else has_room l = true) ->
  listener_inv ((if drop then dropped ev else enqueue ev) (with_reader (Reading started) l)).
Proof.
  intros Hp Hi Hc. assert (lnWorker l <> Finished) as Hw by (apply not_finished; [done|rewrite Hp; by intros [|]]).
  destruct Hi as [Hb Ho Ho1 Hd Hk Hl Hf Hr]. unfold kept_events, pending in *. rewrite Hp in *.
  destruct drop; split; unfold kept_events, pending; cbn; rewrite ?app_nil_r, ?length_app; cbn; try done; try (by intros [|]).
  - etrans; [|exact Ho]. rewrite app_assoc. by apply sublist_inserts_r.
  - rewrite Ho1. solve_Permutation.
  - unfold has_room in Hc. apply Nat.ltb_lt in Hc. lia.
Qed.

Lemma inv_after started l : lnReader l = Disconnected started -> listener_inv l -> listener_inv (after_listen started l).
Proof.
  intros Hp Hi. unfold after_listen. destruct (lnDone l) eqn:Hd; [moves Hp|].
  apply inv_reader; [done|unfold pending; by rewrite Hp|done|by intros [|]|rewrite Hp; by intros [|]|done|].
  apply reset_bounds, Hi.
Qed.

(** The worker: takes the oldest event, is done with it, ends. *)
Lemma inv_work q w l :
  listener_inv l -> lnWorker l <> Finished ->
  match w with Handling ev => lnQueue l = ev :: q | Idle => lnQueue l = q | Finished => lnQueue l = [] /\ q = [] /\ lnReader l = Closing end ->
  listener_inv (worker_to q w l).
Proof.
  intros [Hb Ho Ho1 Hd Hk Hl Hf Hr] Hnf Hw. unfold kept_events, pending in *.
  assert (lnReader l <> Returned) as Hnr by (intros H; by apply Hr in H).
  assert (lnHandled l ++ lnQueue l = (lnHandled l ++ match w with Handling ev => [ev] | _ => [] end) ++ q) as Hq.
  { destruct w; rewrite ?app_nil_r; [by rewrite Hw|by rewrite Hw, <- app_assoc|]. by destruct Hw as (-> & -> & _). }
  split; unfold kept_events, pending; cbn; try done.
  - destruct w; [by rewrite <- Hw|rewrite Hw in Hb; cbn in Hb; lia|]. destruct Hw as (_ & -> & _). cbn. lia.
  - rewrite app_assoc, <- Hq, <- app_assoc. done.
  - rewrite !app_assoc, <- Hq, <- !app_assoc. by rewrite <- !app_assoc in Ho1.
  - intros ->. destruct Hw as (_ & -> & Hc). split; [by left|done].
Qed.

Lemma step_inv l l' : step l l' -> listener_inv l -> listener_inv l'.
Proof.
  intros Hs Hi. destruct Hs as [l|l|l Hp|l s Hp|l s sg Hp|l s Hp Hc|l s ev Hp Hroom|l s ev Hp Hc|l s Hp|l u Hp Hu|l u Hp Hc|l ev q Hw Hq|l ev Hw|l Hw Hq Hp|l Hp Hw].
  - by destruct Hi.
  - destruct Hi. by split; cbn; auto.
  - moves Hp.
  - destruct (is_ok _); moves Hp.
  - by apply inv_receive.
  - moves Hp.
  - by apply (inv_delivered s ev l false).
  - by apply (inv_delivered s ev l true).
  - by apply inv_after.
  - apply inv_reader; [done|unfold pending; by rewrite Hp|done|by intros [|]|rewrite Hp; by intros [|]|done|].
    apply double_bounds, Hi.
  - moves Hp.
  - apply inv_work; [done|by rewrite Hw|done].
  - apply inv_work; [done|by rewrite Hw|done].
  - apply inv_work; [done|by rewrite Hw|done].
  - destruct Hi as [Hb Ho Ho1 Hd Hk Hl Hf Hr]. unfold kept_events, pending in *. rewrite Hp in *.
    split; unfold kept_events, pending; cbn; try done; [intros _; apply Hl; by left|].
    intros _. split; [by right|]. by apply Hf.
Qed.

Lemma reachable_listener t l : rtc step (Listen t) l -> listener_inv l.
Proof.
  intros H. remember (Listen t) as l0 eqn:E. assert (listener_inv l0) as Hi by (subst; apply inv_start). clear E.
  induction H as [|l0 l1 l2 Hs _ IH]; [done|]. by eapply IH, step_inv.
Qed.

(** C14. At every moment, whatever the stream, the clock and the callback do: what
    the callback was given, then what is queued, then what waits for room, is in
    the order of the stream, each event once; nothing the stream delivered is lost
    while the context lives, and what is given up on is given up on after it ended;
    the backlog is at most 256 events, and the backoff, from which the wait is drawn
    with a jitter of up to a quarter of it, is between a second and a minute.
    When [Listen] has returned, its context has ended, and the callback has seen
    every event that was not given up on. *)
Theorem listener_in_order t l :
  rtc step (Listen t) l ->
  lnHandled l ++ lnQueue l ++ pending l `sublist_of` lnRead l
  /\ lnRead l ≡ₚ (lnHandled l ++ lnQueue l ++ pending l) ++ lnDropped l
  /\ (lnDone l = false -> lnHandled l ++ lnQueue l ++ pending l = lnRead l)
  /\ (length (lnQueue l) <= EventQueueSize)%nat /\ second <= lnBackoff l <= minute
  /\ (lnReader l = Returned -> lnDone l = true /\ lnRead l ≡ₚ lnHandled l ++ lnDropped l).
Proof.
  intros H. destruct (reachable_listener _ _ H) as [Hb Ho Ho1 Hd Hk Hl Hf Hr]. fold (kept_events l).
  split; [done|]. split; [done|]. split; [|split; [done|split; [done|]]].
  - intros Hnd. assert (lnDropped l = []) as E.
    { destruct (lnDropped l) as [|e d]; [done|]. by rewrite Hd in Hnd. }
    rewrite E, app_nil_r in Ho1. apply sublist_same_length in Ho; [done|]. by rewrite Ho1.
  - intros Hret. split; [apply Hl; by right|]. destruct (Hf (Hr Hret)) as [_ Hq].
    unfold kept_events, pending in Ho1. by rewrite Hret, Hq, !app_nil_r in Ho1.
Qed.

(** ** It can return *)

Definition can_return (l : Listener) : Prop := exists l', rtc step l l' /\ lnReader l' = Returned /\ lnRead l' = lnRead l.

Lemma can_step l l1 : step l l1 -> lnRead l1 = lnRead l -> can_return l1 -> can_return l.
Proof. intros Hs E (l' & H & Hr & Hrd). exists l'. split; [by eapply rtc_l|]. split; [done|by rewrite Hrd]. Qed.

(** The worker drains the queue. *)
Lemma drains_idle l : lnReader l = Closing -> lnWorker l = Idle -> can_return l.
Proof.
  remember (lnQueue l) as q eqn:Hq. revert l Hq. induction q as [|ev q IH]; intros l Hq Hc Hw.
  - eapply can_step; [by apply step_drained|done|]. eapply can_step; [by apply step_return|done|]. by eexists.
  - eapply can_step; [by apply (step_take _ _ _ ev q)|done|]. eapply can_step; [by apply (step_handled _ _ _ ev)|done|].
    by apply IH.
Qed.

Lemma drains l : lnReader l = Closing -> can_return l.
Proof.
  intros Hc. destruct (lnWorker l) as [|ev|] eqn:Hw; [by apply drains_idle| |].
  - eapply can_step; [by apply (step_handled _ _ _ ev)|done|]. by apply drains_idle.
  - eapply can_step; [by apply step_return|done|]. by eexists.
Qed.

Lemma disconnected_returns s l : lnReader l = Disconnected s -> lnDone l = true -> can_return l.
Proof.
  intros Hp Hd. eapply can_step; [by apply (step_ended _ _ _ s)| |]; unfold after_listen; rewrite Hd; [done|]. by apply drains.
Qed.

Lemma reading_returns s l : lnReader l = Reading s -> lnDone l = true -> can_return l.
Proof.
  intros Hp Hd. eapply can_step; [by apply (step_context_read _ _ _ s)|done|]. by apply (disconnected_returns s).
Qed.

Lemma dialling_returns s l : lnReader l = Dialling s -> lnDone l = true -> can_return l.
Proof.
  intros Hp Hd. eapply can_step; [by apply step_dial|done|].
  destruct (is_ok _); [by apply (reading_returns s)|by apply (disconnected_returns s)].
Qed.

(** Once the context has ended, [Listen] can always return, without reading
    another event: nothing it waits for depends on the stream. *)
Theorem listener_stops t l :
  rtc step (Listen t) l -> lnDone l = true ->
  exists l', rtc step l l' /\ lnReader l' = Returned /\ lnRead l' = lnRead l /\ lnRead l' ≡ₚ lnHandled l' ++ lnDropped l'.
Proof.
  intros H Hd. assert (can_return l) as (l' & H' & Hr & Hrd).
  { destruct (lnReader l) as [|s|s|s ev|s|u| |] eqn:Hp.
    - eapply can_step; [by apply step_start|done|]. by eapply dialling_returns.
    - by eapply dialling_returns.
    - by eapply reading_returns.
    - eapply can_step; [by apply (step_drop _ _ _ s ev)|done|]. by eapply reading_returns.
    - by eapply disconnected_returns.
    - eapply can_step; [by apply (step_context_sleep _ _ _ u)|done|]. by apply drains.
    - by apply drains.
    - by exists l. }
  exists l'. repeat (split; [done|]).
  destruct (reachable_listener t l' ltac:(by trans l)) as [_ _ Ho1 _ _ _ Hf Hret].
  destruct (Hf (Hret Hr)) as [_ Hq]. unfold kept_events, pending in Ho1. by rewrite Hr, Hq, !app_nil_r in Ho1.
Qed.
End Facts.
