(* ===== verification/Provisioner.v ===== *)
(** * The management client of an installation ([mattermost/provisioner.go])

    What making a bot asks of Mattermost, as a record of operations: those of
    the OAuth client of the team, but bot tokens, which come from a second client
    with the administrator's own credential. *)

From S2P Require Import Prelude Store World MMClient.

Open Scope Z_scope.

(** The calls of the vendor's client for webhooks and bots; a webhook may come
    back together with an error. *)
Class HookClient4 : Type := {
  c4_CreateIncomingWebhook : nat -> IncomingWebhook -> option IncomingWebhook * option error;
  c4_CreateOutgoingWebhook : nat -> OutgoingWebhook -> option OutgoingWebhook * option error;
  c4_DeleteIncomingWebhook : nat -> string -> res unit;
  c4_DeleteOutgoingWebhook : nat -> string -> res unit;
  c4_DisableBot : nat -> string -> res unit
}.

Definition wrap_error (op : string) (e : option error) : option error :=
  (fun e => ErrOther ("mattermost: " +:+ op +:+ ": " +:+ error_text e)) <$> e.

Record Provisioner : Type := MkProvisioner {
  pvCreateBot : nat -> string -> string -> string -> res string;
  pvCreateBotToken : nat -> string -> string -> res string;
  pvAddTeamMember : nat -> string -> string -> res unit;
  pvAddChannelMember : nat -> string -> string -> res unit;
  pvGetChannel : nat -> string -> res Channel;
  pvGetUserByUsername : nat -> string -> res User;
  pvGetUser : nat -> string -> res User;
  pvCreateIncomingWebhook : nat -> IncomingWebhook -> option IncomingWebhook * option error;
  pvCreateOutgoingWebhook : nat -> OutgoingWebhook -> option OutgoingWebhook * option error;
  pvDeleteIncomingWebhook : nat -> string -> res unit;
  pvDeleteOutgoingWebhook : nat -> string -> res unit;
  pvDisableBot : nat -> string -> res unit
}.

Section Hooks.
Context {C : Client4} {H : HookClient4}.

Definition CreateIncomingWebhook (t : nat) (hook : IncomingWebhook) : option IncomingWebhook * option error :=
  let '(r, e) := c4_CreateIncomingWebhook t hook in (r, wrap_error "create incoming webhook" e).
Definition CreateOutgoingWebhook (t : nat) (hook : OutgoingWebhook) : option OutgoingWebhook * option error :=
  let '(r, e) := c4_CreateOutgoingWebhook t hook in (r, wrap_error "create outgoing webhook" e).
Definition DeleteIncomingWebhook (t : nat) (id : string) : res unit := wrap "delete incoming webhook" (c4_DeleteIncomingWebhook t id).
Definition DeleteOutgoingWebhook (t : nat) (id : string) : res unit := wrap "delete outgoing webhook" (c4_DeleteOutgoingWebhook t id).
Definition DisableBot (t : nat) (id : string) : res unit := wrap "disable bot" (c4_DisableBot t id).

(** [var _ Provisioner = ( *Client)(nil)] *)
Definition client_provisioner : Provisioner := {|
  pvCreateBot := Client.CreateBot;
  pvCreateBotToken := Client.CreateBotToken;
  pvAddTeamMember := Client.AddTeamMember;
  pvAddChannelMember := Client.AddChannelMember;
  pvGetChannel := Client.GetChannel;
  pvGetUserByUsername := Client.GetUserByUsername;
  pvGetUser := Client.GetUser;
  pvCreateIncomingWebhook := CreateIncomingWebhook;
  pvCreateOutgoingWebhook := CreateOutgoingWebhook;
  pvDeleteIncomingWebhook := DeleteIncomingWebhook;
  pvDeleteOutgoingWebhook := DeleteOutgoingWebhook;
  pvDisableBot := DisableBot
|}.
End Hooks.

Definition BotTokenIssuer : Type := nat -> string -> string -> res string.

Definition WithBotTokenIssuer (p : Provisioner) (issuer : BotTokenIssuer) : Provisioner := {|
  pvCreateBot := pvCreateBot p;
  pvCreateBotToken := issuer;
  pvAddTeamMember := pvAddTeamMember p;
  pvAddChannelMember := pvAddChannelMember p;
  pvGetChannel := pvGetChannel p;
  pvGetUserByUsername := pvGetUserByUsername p;
  pvGetUser := pvGetUser p;
  pvCreateIncomingWebhook := pvCreateIncomingWebhook p;
  pvCreateOutgoingWebhook := pvCreateOutgoingWebhook p;
  pvDeleteIncomingWebhook := pvDeleteIncomingWebhook p;
  pvDeleteOutgoingWebhook := pvDeleteOutgoingWebhook p;
  pvDisableBot := pvDisableBot p
|}.

(** [WithProvisioner]'s argument in [runBroker]: the client of the team, with the
    tokens of the issuer. *)
Definition provisioner_of (admin : res Provisioner) (issuer : BotTokenIssuer) : res Provisioner :=
  res_map (fun p => WithBotTokenIssuer p issuer) admin.
