(* ===== verification/Fake.v ===== *)
(** * The test double of Mattermost ([internal/broker/mattermost/mmtest/fake.go])

    The in-memory server the Go tests run the broker against.  Every method
    holds the mutex throughout, so each is a function on the state; a view with a
    token ([WithToken]) shares the state of its parent. *)

From S2P Require Import Prelude GoText Json Store World.

Open Scope Z_scope.

(** A post, and the token it was made with ([mmtest_token] of its props). *)
Record FakePost : Type := MkFakePost { fpPost : Post; fpToken : string }.
Record FakeUser : Type := MkFakeUser { fuUsername : string; fuIsBot : bool }.
Record FakeBot : Type := MkFakeBot { fbUsername : string; fbDisplayName : string; fbDescription : string }.

Record Fake : Type := MkFake {
  fkSeq : Z;
  fkPosts : gmap string FakePost;
  fkOrder : list string;
  fkUsers : gmap string FakeUser;
  fkFiles : gmap string (list Z);
  fkBots : gmap string FakeBot;
  fkBotTokens : gmap string string;
  fkMemberships : gset string;
  fkChannels : gmap string Channel
}.

Module Mmtest.
Definition New : Fake := MkFake 0 ∅ [] ∅ ∅ ∅ ∅ ∅ ∅.

Definition with_seq (n : Z) (f : Fake) : Fake :=
  MkFake n (fkPosts f) (fkOrder f) (fkUsers f) (fkFiles f) (fkBots f) (fkBotTokens f) (fkMemberships f) (fkChannels f).
Definition with_posts (p : gmap string FakePost) (o : list string) (f : Fake) : Fake :=
  MkFake (fkSeq f) p o (fkUsers f) (fkFiles f) (fkBots f) (fkBotTokens f) (fkMemberships f) (fkChannels f).
Definition with_users (u : gmap string FakeUser) (f : Fake) : Fake :=
  MkFake (fkSeq f) (fkPosts f) (fkOrder f) u (fkFiles f) (fkBots f) (fkBotTokens f) (fkMemberships f) (fkChannels f).
Definition with_files (x : gmap string (list Z)) (f : Fake) : Fake :=
  MkFake (fkSeq f) (fkPosts f) (fkOrder f) (fkUsers f) x (fkBots f) (fkBotTokens f) (fkMemberships f) (fkChannels f).
Definition with_bots (b : gmap string FakeBot) (f : Fake) : Fake :=
  MkFake (fkSeq f) (fkPosts f) (fkOrder f) (fkUsers f) (fkFiles f) b (fkBotTokens f) (fkMemberships f) (fkChannels f).
Definition with_tokens (t : gmap string string) (f : Fake) : Fake :=
  MkFake (fkSeq f) (fkPosts f) (fkOrder f) (fkUsers f) (fkFiles f) (fkBots f) t (fkMemberships f) (fkChannels f).
Definition with_memberships (m : gset string) (f : Fake) : Fake :=
  MkFake (fkSeq f) (fkPosts f) (fkOrder f) (fkUsers f) (fkFiles f) (fkBots f) (fkBotTokens f) m (fkChannels f).

Definition next (prefix : string) (f : Fake) : string * Fake :=
  (prefix +:+ Itoa (fkSeq f + 1), with_seq (fkSeq f + 1) f).

Definition AddUser (id username : string) (f : Fake) : Fake := with_users (<[id := MkFakeUser username false]> (fkUsers f)) f.

Definition set_id (id : string) (p : Post) : Post :=
  MkPost id (poUserId p) (poChannelId p) (poRootId p) (poMessage p) (poType p) (poCreateAt p) (poDeleteAt p)
    (poFileIds p) (poFromBot p) (poAttachments p).
Definition CreatePost (token : string) (p : Post) (f : Fake) : res Post * Fake :=
  let '(id, f) := next "post" f in
  let cp := set_id id p in
  (Ok cp, with_posts (<[id := MkFakePost cp token]> (fkPosts f)) (fkOrder f ++ [id]) f).

(** [SetProps] replaces all of them, the token's too. *)
Definition set_message (message : string) (props : option (option (list MessageAttachment))) (x : FakePost) : FakePost :=
  let p := fpPost x in
  match props with
  | None => MkFakePost (MkPost (poId p) (poUserId p) (poChannelId p) (poRootId p) message (poType p) (poCreateAt p)
                          (poDeleteAt p) (poFileIds p) (poFromBot p) (poAttachments p)) (fpToken x)
  | Some attachments => MkFakePost (MkPost (poId p) (poUserId p) (poChannelId p) (poRootId p) message (poType p)
                          (poCreateAt p) (poDeleteAt p) (poFileIds p) false attachments) ""
  end.
Definition UpdatePost (id message : string) (props : option (option (list MessageAttachment))) (f : Fake) : res unit * Fake :=
  match fkPosts f !! id with
  | None => (Err (ErrOther ("mmtest: no post " +:+ id)), f)
  | Some x => (Ok tt, with_posts (<[id := set_message message props x]> (fkPosts f)) (fkOrder f) f)
  end.

Definition GetPost (id : string) (f : Fake) : res Post :=
  match fkPosts f !! id with None => Err (ErrOther ("mmtest: no post " +:+ id)) | Some x => Ok (fpPost x) end.
Definition in_thread (rootID : string) (x : FakePost) : bool :=
  String.eqb (poId (fpPost x)) rootID || String.eqb (poRootId (fpPost x)) rootID.
Definition GetThread (rootID : string) (f : Fake) : list Post :=
  map fpPost (List.filter (in_thread rootID) (omap (fun id => fkPosts f !! id) (fkOrder f))).
Definition GetUser (id : string) (f : Fake) : res User :=
  match fkUsers f !! id with None => Err (ErrOther ("mmtest: no user " +:+ id)) | Some u => Ok (MkUser id (fuUsername u)) end.
Definition DirectChannel (botID userID : string) : res string := Ok ("dm_" +:+ userID).

Definition UploadFile (name : string) (data : list Z) (f : Fake) : res FileInfo * Fake :=
  let '(id, f) := next "file" f in
  (Ok (MkFileInfo id (Z.of_nat (length data)) name ""), with_files (<[id := data]> (fkFiles f)) f).
Definition DownloadFile (id : string) (f : Fake) : res (list Z) :=
  match fkFiles f !! id with None => Err (ErrOther ("mmtest: no file " +:+ id)) | Some b => Ok b end.
Definition GetFileInfo (id : string) (f : Fake) : res FileInfo :=
  match fkFiles f !! id with
  | None => Err (ErrOther ("mmtest: no file " +:+ id))
  | Some b => Ok (MkFileInfo id (Z.of_nat (length b)) (id +:+ ".txt") "text/plain")
  end.

Definition Message (id : string) (f : Fake) : string := match fkPosts f !! id with Some x => poMessage (fpPost x) | None => "" end.
Definition Last (f : Fake) : option Post := id ← last (fkOrder f); fpPost <$> fkPosts f !! id.
Definition Attachments (id : string) (f : Fake) : option (list MessageAttachment) := x ← fkPosts f !! id; poAttachments (fpPost x).
Definition PostToken (id : string) (f : Fake) : string := match fkPosts f !! id with Some x => fpToken x | None => "" end.

Definition username_taken (username : string) (f : Fake) : bool :=
  existsb (fun kv => String.eqb (fuUsername kv.2) username) (map_to_list (fkUsers f)).
Definition CreateBot (username displayName description : string) (f : Fake) : res string * Fake :=
  if username_taken username f then (Err (ErrOther ("mmtest: username " +:+ username +:+ " taken")), f)
  else
    let '(id, f) := next "botuser" f in
    (Ok id, with_bots (<[id := MkFakeBot username displayName description]> (fkBots f))
              (with_users (<[id := MkFakeUser username true]> (fkUsers f)) f)).
Definition CreateBotToken (botUserID : string) (f : Fake) : res string * Fake :=
  match fkBots f !! botUserID with
  | None => (Err (ErrOther ("mmtest: no bot " +:+ botUserID)), f)
  | Some _ => (Ok ("tok_" +:+ botUserID), with_tokens (<[botUserID := "tok_" +:+ botUserID]> (fkBotTokens f)) f)
  end.
Definition AddMember (id userID : string) (f : Fake) : Fake := with_memberships ({[id +:+ ":" +:+ userID]} ∪ fkMemberships f) f.
Definition AddTeamMember (teamID userID : string) (f : Fake) : res unit * Fake := (Ok tt, AddMember teamID userID f).
Definition AddChannelMember (channelID userID : string) (f : Fake) : res unit * Fake := (Ok tt, AddMember channelID userID f).
Definition GetChannel (id : string) (f : Fake) : res Channel := Ok (default (MkChannel "team_1" "O") (fkChannels f !! id)).
(** The first in the order of a map: none in particular. *)
Definition GetUserByUsername (username : string) (f : Fake) : res User :=
  match List.find (fun kv => String.eqb (fuUsername kv.2) username) (map_to_list (fkUsers f)) with
  | Some (id, u) => Ok (MkUser id (fuUsername u))
  | None => Err (ErrOther ("mmtest: no user " +:+ username))
  end.
End Mmtest.

(** ** What the tests rely on *)

Record fake_ok (f : Fake) : Prop := {
  ok_seq : 0 <= fkSeq f;
  ok_order : NoDup (fkOrder f);
  ok_listed : forall id, id ∈ fkOrder f <-> is_Some (fkPosts f !! id);
  ok_posts : forall id x, fkPosts f !! id = Some x -> poId (fpPost x) = id /\ exists n, n <= fkSeq f /\ id = "post" +:+ Itoa n;
  ok_files : forall id b, fkFiles f !! id = Some b -> exists n, n <= fkSeq f /\ id = "file" +:+ Itoa n
}.

Lemma new_ok : fake_ok Mmtest.New.
Proof. split; cbn; try done; [constructor|]. intros id. split; [by intros H%elem_of_nil|by intros [x H]]. Qed.

Lemma post_id_inj n m : "post" +:+ Itoa n = "post" +:+ Itoa m -> n = m.
Proof. intros H. apply (inj (String.append "post")) in H. unfold Itoa in H. by apply (inj pretty) in H. Qed.

Lemma post_fresh f : fake_ok f -> fkPosts f !! ("post" +:+ Itoa (fkSeq f + 1)) = None.
Proof.
  intros []. destruct (fkPosts f !! _) as [x|] eqn:Hx; [|done]. destruct (ok_posts0 _ _ Hx) as (_ & n & Hn & E).
  apply post_id_inj in E. lia.
Qed.

Lemma create_ok token p f : fake_ok f -> fake_ok (Mmtest.CreatePost token p f).2.
Proof.
  intros Hf. pose proof (post_fresh f Hf) as Hnew. destruct Hf. unfold Mmtest.CreatePost, Mmtest.next. cbn. set (id := "post" +:+ _) in *.
  split; cbn; try done; [lia| | | |].
  - apply NoDup_app. split; [done|]. split; [|apply NoDup_singleton]. intros y Hy Hy'. apply list_elem_of_singleton in Hy' as ->.
    apply ok_listed0 in Hy as [x Hx]. by rewrite Hnew in Hx.
  - intros k. rewrite elem_of_app, list_elem_of_singleton, lookup_insert_is_Some, ok_listed0. destruct (decide (id = k)); naive_solver.
  - intros k x. rewrite lookup_insert_Some. intros [[<- <-]|[_ Hx]].
    + split; [done|]. exists (fkSeq f + 1). split; [lia|done].
    + destruct (ok_posts0 _ _ Hx) as (? & n & ? & ?). split; [done|]. exists n. split; [lia|done].
  - intros k b Hb. destruct (ok_files0 _ _ Hb) as (n & ? & ?). exists n. split; [lia|done].
Qed.

Lemma omap_posts_insert (l : list string) (m : gmap string FakePost) id x :
  id ∉ l -> omap (fun k => <[id := x]> m !! k) l = omap (fun k => m !! k) l.
Proof.
  induction l as [|k l IH]; [done|]. rewrite not_elem_of_cons. intros [Hk Hl]. cbn. by rewrite lookup_insert_ne, IH.
Qed.

(** A thread shows its posts in the order of their creation: a new post is
    the last of its thread and of no other, and it is what was given, under a
    fresh id. *)
Theorem fake_thread_grows token p root f :
  fake_ok f ->
  exists cp, (Mmtest.CreatePost token p f).1 = Ok cp /\ cp = Mmtest.set_id (poId cp) p /\ fkPosts f !! poId cp = None
    /\ let f' := (Mmtest.CreatePost token p f).2 in
       Mmtest.GetPost (poId cp) f' = Ok cp
       /\ Mmtest.PostToken (poId cp) f' = token
       /\ Mmtest.GetThread root f' = Mmtest.GetThread root f ++ (if Mmtest.in_thread root (MkFakePost cp token) then [cp] else []).
Proof.
  intros Hf. pose proof (post_fresh f Hf) as Hnew. unfold Mmtest.CreatePost, Mmtest.next. cbn. set (id := "post" +:+ _) in *.
  eexists. split; [done|]. cbn. split; [done|]. split; [done|]. unfold Mmtest.GetPost, Mmtest.PostToken, Mmtest.GetThread. cbn.
  rewrite lookup_insert_eq. split; [done|]. split; [done|].
  rewrite omap_app. cbn. rewrite lookup_insert_eq. rewrite omap_posts_insert.
  - rewrite List.filter_app, map_app. f_equal. cbn. by destruct (Mmtest.in_thread _ _).
  - intros Hin. apply (ok_listed f Hf) in Hin as [x Hx]. by rewrite Hnew in Hx.
Qed.

(** Updating a post keeps its place, its author and every other post. *)
Lemma update_ok id message props f : fake_ok f -> fake_ok (Mmtest.UpdatePost id message props f).2.
Proof.
  intros Hf. unfold Mmtest.UpdatePost. destruct (fkPosts f !! id) as [x|] eqn:Hx; [|done]. destruct Hf. split; cbn; try done.
  - intros k. rewrite lookup_insert_is_Some, ok_listed0. destruct (decide (id = k)) as [->|]; [|naive_solver].
    split; [by left|intros _; by eexists].
  - intros k y. rewrite lookup_insert_Some. intros [[<- <-]|[_ Hy]]; [|by apply ok_posts0].
    destruct (ok_posts0 _ _ Hx) as [<- Hn]. split; [by destruct props|done].
Qed.
