(* ===== verification/Sqlite.v ===== *)
(** * The store's methods ([internal/store/sqlite])

    Each method is the sequence of statements of the Go method, in its
    order, with its error mapping. *)

From S2P Require Import Prelude Resume GoText Json Protocol Store Tables World.

Open Scope Z_scope.
Open Scope prog_scope.

(** ** Errors *)

(** A scanned row: [sql.ErrNoRows] becomes [store.ErrNotFound]. *)
Definition scan {A} (r : sres A) : res A :=
  match r with
  | SqlOk a => Ok a
  | SqlErr SqlNoRows => Err ErrNotFound
  | SqlErr e => Err (ErrOther (sql_text e))
  end.

(** An INSERT: a unique violation becomes [store.ErrConflict]. *)
Definition inserted (r : sres unit) : res unit :=
  match r with
  | SqlOk _ => Ok tt
  | SqlErr e => if isUniqueViolation e then Err ErrConflict else Err (ErrOther (sql_text e))
  end.

Lemma inserted_unique c : inserted (SqlErr (SqlUnique c)) = Err ErrConflict.
Proof. reflexivity. Qed.
Lemma inserted_fk : inserted (SqlErr SqlForeignKey) = Err (ErrOther (sql_text SqlForeignKey)).
Proof. reflexivity. Qed.
Lemma inserted_ok : inserted (SqlOk tt) = Ok tt.
Proof. reflexivity. Qed.
#[global] Arguments inserted : simpl never.

(** An error passed on as it is. *)
Definition passed {A} (r : sres A) : res A :=
  match r with SqlOk a => Ok a | SqlErr e => Err (ErrOther (sql_text e)) end.

(** [RowsAffected() == 0] is an error. *)
Definition must_affect (none : error) (r : sres Z) : res unit :=
  match r with
  | SqlOk n => if n =? 0 then Err none else Ok tt
  | SqlErr e => Err (ErrOther (sql_text e))
  end.

Section Methods.
Context {E : Env}.

(** ** Harnesses *)

Definition CreateHarness (h : Harness) : prog World (res unit) :=
  r <- exec (insert_harness h) ;; Ret (inserted r).
Definition HarnessByID (id : string) : prog World (res Harness) :=
  r <- query (select_harness id) ;; Ret (scan r).
Definition HarnessByTokenHash (hash : string) : prog World (res Harness) :=
  r <- query (select_harness_by_hash hash) ;; Ret (scan r).
Definition HarnessesByUser (user : string) : prog World (res (list Harness)) :=
  r <- query (select_harnesses_by_user user) ;; Ret (scan r).
Definition TouchHarness (id : string) (seenAt : Time) (version : string) : prog World (res unit) :=
  r <- exec (update_touch id seenAt version) ;; Ret (must_affect ErrNotFound r).
Definition DeleteHarness (id : string) : prog World (res unit) :=
  r <- exec (delete_harness id) ;; Ret (must_affect ErrNotFound r).

(** ** Pairings *)

Definition CreatePairing (codeHash user : string) (expiresAt : Time) : prog World (res unit) :=
  r <- exec (insert_pairing codeHash user expiresAt) ;; Ret (inserted r).
Definition ConsumePairing (codeHash : string) (now : Time) : prog World (res string) :=
  r <- exec (update_consume codeHash now) ;; Ret (scan r).

(** ** Jobs *)

Definition CreateJob (j : Job) : prog World (res unit) :=
  r <- exec (insert_job j) ;; Ret (inserted r).
Definition JobByID (id : string) : prog World (res Job) :=
  r <- query (select_job id) ;; Ret (scan r).
Definition ListJobs (f : JobFilter) : prog World (res (list Job)) :=
  r <- query (select_jobs f) ;; Ret (scan r).
Definition ActiveJobsByHarness (harnessID : string) : prog World (res (list Job)) :=
  ListJobs (MkJobFilter "" "" "" harnessID "" ActiveStates 1000).

Definition TransitionJob (id : string) (from : list JobState) (to : JobState) (p : JobPatch)
    : prog World (res Job) :=
  if is_empty_list from
  then Ret (Err (ErrOther "sqlite: TransitionJob needs at least one from state"))
  else
    now <- time_now ;;
    r <- exec (update_transition id from to p now) ;;
    match r with
    | SqlErr e => Ret (Err (ErrOther (sql_text e)))
    | SqlOk n =>
        if n =? 0 then
          j <- JobByID id ;;
          match j with Err e => Ret (Err e) | Ok _ => Ret (Err ErrConflict) end
        else JobByID id
    end.

Definition RecordProgress (id : string) (seq : Z) : prog World (res bool) :=
  now <- time_now ;;
  r <- exec (update_progress id seq now) ;;
  Ret (res_map (fun n => n =? 1) (passed r)).

Definition ExpireQueuedJobs (now : Time) : prog World (res (list Job)) :=
  r <- exec (update_expire now) ;; Ret (scan r).

(** ** Approvals *)

Definition CreateApproval (a : Approval) : prog World (res unit) :=
  r <- exec (insert_approval a) ;; Ret (inserted r).
Definition ApprovalByID (id : string) : prog World (res Approval) :=
  r <- query (select_approval id) ;; Ret (scan r).
Definition PendingApprovalsByJob (jobID : string) : prog World (res (list Approval)) :=
  r <- query (select_pending_approvals jobID) ;; Ret (scan r).

Definition DecideApproval (id dec by_ : string) (at_ : Time) : prog World (res Approval) :=
  r <- exec (update_decide id dec by_ at_) ;;
  match r with
  | SqlErr e => Ret (Err (ErrOther (sql_text e)))
  | SqlOk n =>
      if n =? 0 then
        a <- ApprovalByID id ;;
        match a with Err e => Ret (Err e) | Ok _ => Ret (Err ErrConflict) end
      else ApprovalByID id
  end.

(** ** Outbox *)

Definition Enqueue (m : OutboxMessage) : prog World (res unit) :=
  r <- exec (insert_outbox m) ;; Ret (inserted r).
Definition PendingOutbox (harnessID : string) : prog World (res (list OutboxMessage)) :=
  r <- query (select_pending_outbox harnessID) ;; Ret (scan r).
Definition AckOutbox (msgID : string) (at_ : Time) : prog World (res unit) :=
  r <- exec (update_ack msgID at_) ;; Ret (res_map (fun _ => tt) (passed r)).
Definition PurgeOutbox (ackedBefore : Time) : prog World (res Z) :=
  r <- exec (delete_purged ackedBefore) ;; Ret (passed r).

(** ** Bots *)

Definition checkBotHarness (b : Bot) : prog World (res unit) :=
  if String.eqb (bHarnessID b) "" then Ret (Ok tt)
  else
    h <- HarnessByID (bHarnessID b) ;;
    match h with
    | Err e => Ret (Err e)
    | Ok h =>
        if String.eqb (hMMUserID h) (bMMUserID b) then Ret (Ok tt) else Ret (Err ErrConflict)
    end.

Definition CreateBot (b : Bot) : prog World (res unit) :=
  c <- checkBotHarness b ;;
  match c with
  | Err e => Ret (Err e)
  | Ok _ => r <- exec (insert_bot b) ;; Ret (inserted r)
  end.
Definition BotByOwner (owner : string) : prog World (res Bot) :=
  r <- query (select_bot_by_owner owner) ;; Ret (scan r).
Definition BotByUserID (id : string) : prog World (res Bot) :=
  r <- query (select_bot id) ;; Ret (scan r).
Definition ListBots : prog World (res (list Bot)) :=
  r <- query select_bots ;; Ret (scan r).
Definition BotsByOwner (owner : string) : prog World (res (list Bot)) :=
  r <- query (select_bots_by_owner owner) ;; Ret (scan r).
Definition BotByUsername (name : string) : prog World (res Bot) :=
  r <- query (select_bot_by_username name) ;; Ret (scan r).
Definition UpdateBot (b : Bot) : prog World (res unit) :=
  c <- checkBotHarness b ;;
  match c with
  | Err e => Ret (Err e)
  | Ok _ =>
      r <- exec (update_bot b) ;;
      Ret (match r with
           | SqlErr e => Err (ErrOther (sql_text e))
           | SqlOk n => if n =? 1 then Ok tt else Err ErrConflict
           end)
  end.
Definition DeleteBot (id : string) : prog World (res unit) :=
  r <- exec (delete_bot id) ;;
  Ret (match r with
       | SqlErr e => Err (ErrOther (sql_text e))
       | SqlOk n => if n =? 1 then Ok tt else Err ErrNotFound
       end).

(** ** Init requests *)

Definition CreateInit (r : InitRequest) : prog World (res unit) :=
  x <- exec (insert_init r) ;; Ret (inserted x).
Definition InitByCode (codeHash : string) : prog World (res InitRequest) :=
  r <- query (select_init codeHash) ;; Ret (scan r).

Definition ClaimInit (codeHash : string) (now : Time) (harnessID token : string) : prog World (res unit) :=
  r <- exec (update_claim codeHash now harnessID token) ;;
  match r with
  | SqlErr e => Ret (Err (ErrOther (sql_text e)))
  | SqlOk n =>
      if n =? 1 then Ret (Ok tt)
      else
        i <- InitByCode codeHash ;;
        match i with
        | Err _ => Ret (Err ErrNotFound)
        | Ok i => if iExpiresAt i <=? now then Ret (Err ErrNotFound) else Ret (Err ErrConflict)
        end
  end.

(** [FetchInit] after it has read the row: a claimed request is handed out
    as it was read, with the token still in it. *)
Definition fetch_read (codeHash : string) (now : Time) (i : InitRequest) : prog World (res InitRequest) :=
  if negb (now <? iExpiresAt i) then Ret (Err ErrNotFound)
  else if negb (Claimed i) then Ret (Ok i)
  else
    r <- exec (update_fetch codeHash now) ;;
    match r with
    | SqlErr e => Ret (Err (ErrOther (sql_text e)))
    | SqlOk n =>
        if n =? 0 then Ret (Err ErrConflict)
        else Ret (Ok (MkInitRequest (iCodeHash i) (iBotName i) (iHarnessName i) (iCreatedAt i)
                        (iExpiresAt i) (iClaimedAt i) (iHarnessID i) (iHarnessToken i) (Some now)
                        (iBotUserID i) (iPollTokenHash i)))
    end.

Definition FetchInit (codeHash : string) (now : Time) : prog World (res InitRequest) :=
  i <- InitByCode codeHash ;;
  match i with
  | Err e => Ret (Err e)
  | Ok i => fetch_read codeHash now i
  end.

Definition InitByHarness (harnessID : string) : prog World (res InitRequest) :=
  r <- query (select_init_by_harness harnessID) ;; Ret (scan r).
End Methods.

(** ** CompleteInit

    One transaction on the store's only connection: no other statement runs
    between its own, and a failure rolls everything back. *)
Definition set_bot_harness (id : string) (r : BotRow) : BotRow := MkBotRow (br_bot r) (Some id).

Definition complete_init_tx (codeHash : string) (now : Time) (h : Harness) (botID token : string)
    (d : DB) : res unit * DB :=
  match t_inits d !! codeHash with
  | None => (Err ErrNotFound, d)
  | Some r =>
      if negb (now <? iExpiresAt r) then (Err ErrNotFound, d)
      else if Claimed r then (Err ErrConflict, d)
      else match t_bots d !! botID with
      | None => (Err ErrNotFound, d)
      | Some b =>
          if negb (String.eqb (bMMUserID (br_bot b)) (hMMUserID h))
             || bool_decide (is_Some (br_harness_id b))
          then (Err ErrConflict, d)
          else match insert_harness h d with
          | (SqlErr e, _) =>
              (if isUniqueViolation e then Err ErrConflict else Err (ErrOther (sql_text e)), d)
          | (SqlOk _, d1) =>
              (Ok tt,
               set_inits (<[codeHash := claim_row now (hID h) token botID r]> (t_inits d1))
                 (set_bots (<[botID := set_bot_harness (hID h) b]> (t_bots d1)) d1))
          end
      end
  end.

Section Transactions.
Context {E : Env}.

Definition CompleteInit (codeHash : string) (now : Time) (h : Harness) (botID token : string)
    : prog World (res unit) :=
  r <- exec (fun d => let '(r, d') := complete_init_tx codeHash now h botID token d in (SqlOk r, d')) ;;
  Ret (match r with SqlOk x => x | SqlErr e => Err (ErrOther (sql_text e)) end).

(** ** Installations and audit *)

Definition SaveInstallation (i : Installation) : prog World (res unit) :=
  r <- exec (upsert_installation i) ;; Ret (passed r).
Definition InstallationByTeam (team : string) : prog World (res Installation) :=
  r <- query (select_installation team) ;; Ret (scan r).
Definition ListInstallations : prog World (res (list Installation)) :=
  r <- query select_installations ;; Ret (scan r).

Definition Append (e : AuditEntry) : prog World (res unit) :=
  at_ <- (if eAt e =? zero_time then time_now else Ret (eAt e)) ;;
  r <- exec (insert_audit (MkAuditEntry at_ (eActor e) (eAction e) (eJobID e) (eDetails e))) ;;
  Ret (passed r).
End Transactions.

#[global] Arguments CreateHarness : simpl never.
#[global] Arguments HarnessByID : simpl never.
#[global] Arguments HarnessByTokenHash : simpl never.
#[global] Arguments HarnessesByUser : simpl never.
#[global] Arguments TouchHarness : simpl never.
#[global] Arguments DeleteHarness : simpl never.
#[global] Arguments CreatePairing : simpl never.
#[global] Arguments ConsumePairing : simpl never.
#[global] Arguments CreateJob : simpl never.
#[global] Arguments JobByID : simpl never.
#[global] Arguments ListJobs : simpl never.
#[global] Arguments ActiveJobsByHarness : simpl never.
#[global] Arguments TransitionJob : simpl never.
#[global] Arguments RecordProgress : simpl never.
#[global] Arguments ExpireQueuedJobs : simpl never.
#[global] Arguments CreateApproval : simpl never.
#[global] Arguments ApprovalByID : simpl never.
#[global] Arguments PendingApprovalsByJob : simpl never.
#[global] Arguments DecideApproval : simpl never.
#[global] Arguments Enqueue : simpl never.
#[global] Arguments PendingOutbox : simpl never.
#[global] Arguments AckOutbox : simpl never.
#[global] Arguments PurgeOutbox : simpl never.
#[global] Arguments checkBotHarness : simpl never.
#[global] Arguments CreateBot : simpl never.
#[global] Arguments BotByOwner : simpl never.
#[global] Arguments BotByUserID : simpl never.
#[global] Arguments ListBots : simpl never.
#[global] Arguments BotsByOwner : simpl never.
#[global] Arguments BotByUsername : simpl never.
#[global] Arguments UpdateBot : simpl never.
#[global] Arguments DeleteBot : simpl never.
#[global] Arguments CreateInit : simpl never.
#[global] Arguments InitByCode : simpl never.
#[global] Arguments ClaimInit : simpl never.
#[global] Arguments fetch_read : simpl never.
#[global] Arguments FetchInit : simpl never.
#[global] Arguments InitByHarness : simpl never.
#[global] Arguments CompleteInit : simpl never.
#[global] Arguments SaveInstallation : simpl never.
#[global] Arguments InstallationByTeam : simpl never.
#[global] Arguments ListInstallations : simpl never.
#[global] Arguments Append : simpl never.
