(* ===== verification/Integrity.v ===== *)
(** * Integrity of the database

    [db_wf] are the schema's keys, UNIQUE constraints and foreign keys;
    every statement keeps them ([wf_stmt]).  [db_evolves] is what no statement
    of the broker ever undoes: rows stay, identities stay, jobs move along
    [job_edge], decisions, claims and uses are final, a claimed request's token is
    that of its harness. *)

From S2P Require Import Prelude Resume GoText Codec Json Protocol Store Tables World Sqlite.

Open Scope Z_scope.

(** ** Well-formed databases *)

Definition keyed {A} (id : A -> string) (t : gmap string A) : Prop :=
  forall k x, t !! k = Some x -> id x = k.
Definition unique {A} (same : A -> A -> bool) (t : gmap string A) : Prop :=
  forall k1 k2 x1 x2, t !! k1 = Some x1 -> t !! k2 = Some x2 -> same x1 x2 = true -> k1 = k2.
Definition references {A B} (ref : A -> option string) (t : gmap string A) (u : gmap string B) : Prop :=
  forall k x r, t !! k = Some x -> ref x = Some r -> is_Some (u !! r).

Definition same_token (h r : Harness) : bool := String.eqb (hTokenHash r) (hTokenHash h).
Definition same_username (b r : BotRow) : bool := String.eqb (bUsername (br_bot r)) (bUsername (br_bot b)).

Record db_wf (d : DB) : Prop := {
  wf_harness_id : keyed hID (t_harnesses d);
  wf_job_id : keyed jID (t_jobs d);
  wf_approval_id : keyed (fun r => aID (ar_approval r)) (t_approvals d);
  wf_bot_id : keyed (fun r => bUserID (br_bot r)) (t_bots d);
  wf_outbox_id : keyed mID (t_outbox d);
  wf_init_id : keyed iCodeHash (t_inits d);
  wf_token : unique same_token (t_harnesses d);
  wf_username : unique same_username (t_bots d);
  wf_trigger : unique same_trigger (t_jobs d);
  wf_job_harness : references (fun j => Some (jHarnessID j)) (t_jobs d) (t_harnesses d);
  wf_approval_job : references (fun r => Some (aJobID (ar_approval r))) (t_approvals d) (t_jobs d);
  wf_bot_harness : references br_harness_id (t_bots d) (t_harnesses d)
}.

Lemma empty_db_wf : db_wf empty_db.
Proof. by split. Qed.

(** *** Keys and uniqueness under refresh and insert *)

Section Constraints.
Context {A : Type}.
Implicit Types t : gmap string A.

Lemma keyed_refresh (id : A -> string) same t t' :
  keyed id t -> refreshes same t t' -> (forall x y, same x y -> id y = id x) -> keyed id t'.
Proof.
  intros Hk Hr Hs k y Hy. destruct (refreshes_row _ _ _ _ _ Hr Hy) as (x & Hx & Hxy).
  rewrite (Hs _ _ Hxy). by apply Hk.
Qed.

Lemma keyed_insert (id : A -> string) t k x : keyed id t -> id x = k -> keyed id (<[k := x]> t).
Proof.
  intros Ht Hx i y. rewrite lookup_insert_Some. intros [[<- <-]|[_ Hi]]; [done | by apply Ht].
Qed.

Lemma keyed_delete (id : A -> string) t k : keyed id t -> keyed id (delete k t).
Proof. intros Ht i x Hi. apply lookup_delete_Some in Hi as [_ Hi]. by apply Ht. Qed.

Lemma keyed_filter (id : A -> string) t (P : string * A -> Prop) `{!forall x, Decision (P x)} :
  keyed id t -> keyed id (filter P t).
Proof. intros Ht i x Hi. apply map_lookup_filter_Some in Hi as [Hi _]. by apply Ht. Qed.

Lemma unique_refresh eq same t t' :
  unique eq t -> refreshes same t t' ->
  (forall x1 x2 y1 y2, same x1 y1 -> same x2 y2 -> eq y1 y2 = eq x1 x2) -> unique eq t'.
Proof.
  intros Hu Hr Hs k1 k2 y1 y2 H1 H2 Heq.
  destruct (refreshes_row _ _ _ _ _ Hr H1) as (x1 & Hx1 & S1).
  destruct (refreshes_row _ _ _ _ _ Hr H2) as (x2 & Hx2 & S2).
  apply (Hu k1 k2 x1 x2); [done..|]. by rewrite <- (Hs _ _ _ _ S1 S2).
Qed.

Lemma unique_insert eq t k x :
  unique eq t -> (forall y, eq x y = eq y x) ->
  (forall i y, t !! i = Some y -> i <> k -> eq x y = false) -> unique eq (<[k := x]> t).
Proof.
  intros Hu Hsym Hx k1 k2 x1 x2. rewrite !lookup_insert_Some.
  intros [[<- <-]|[Hn1 H1]] [[<- <-]|[Hn2 H2]] He; [done| | |by eapply Hu].
  - rewrite (Hx _ _ H2) in He; [done | congruence].
  - rewrite <- Hsym, (Hx _ _ H1) in He; [done | congruence].
Qed.

Lemma unique_delete eq t k : unique eq t -> unique eq (delete k t).
Proof.
  intros Hu k1 k2 x1 x2 H1 H2. apply lookup_delete_Some in H1 as [_ H1].
  apply lookup_delete_Some in H2 as [_ H2]. by eapply Hu.
Qed.

Context {B : Type}.
Implicit Types u : gmap string B.

Lemma references_refresh ref same t t' u :
  references ref t u -> refreshes same t t' ->
  (forall x y, same x y -> ref y = ref x) -> references ref t' u.
Proof.
  intros Hf Hr Hs k y r Hy Href. destruct (refreshes_row _ _ _ _ _ Hr Hy) as (x & Hx & Hxy).
  rewrite (Hs _ _ Hxy) in Href. by eapply Hf.
Qed.

Lemma references_grow ref t u u' :
  references ref t u -> (forall k, is_Some (u !! k) -> is_Some (u' !! k)) -> references ref t u'.
Proof. intros Hf Hu k x r Hk Hr. apply Hu. by eapply Hf. Qed.

Lemma references_insert ref t u k x :
  references ref t u -> (forall r, ref x = Some r -> is_Some (u !! r)) -> references ref (<[k := x]> t) u.
Proof.
  intros Hf Hx i y r. rewrite lookup_insert_Some. intros [[<- <-]|[_ Hi]] Hr; [by apply Hx | by eapply Hf].
Qed.

Lemma references_delete ref t u k : references ref t u -> references ref (delete k t) u.
Proof. intros Hf i x r Hi. apply lookup_delete_Some in Hi as [_ Hi]. by eapply Hf. Qed.
End Constraints.

Lemma is_Some_insert {A} (t : gmap string A) k x i : is_Some (t !! i) -> is_Some (<[k := x]> t !! i).
Proof.
  intros H. destruct (decide (i = k)) as [->|Hne].
  - rewrite lookup_insert_eq. eauto.
  - by rewrite lookup_insert_ne.
Qed.

Lemma same_token_sym h r : same_token h r = same_token r h.
Proof. apply String.eqb_sym. Qed.
Lemma same_username_sym b r : same_username b r = same_username r b.
Proof. apply String.eqb_sym. Qed.
Lemma same_trigger_sym j r : same_trigger j r = same_trigger r j.
Proof.
  unfold same_trigger.
  destruct (String.eqb_spec (jBotUserID r) (jBotUserID j)) as [->|H1];
    destruct (String.eqb_spec (jTriggerPostID r) (jTriggerPostID j)) as [->|H2];
    rewrite ?String.eqb_refl, ?andb_true_r, ?andb_false_r; [done|..];
    try (apply not_eq_sym, String.eqb_neq in H1; rewrite H1, ?andb_false_r; done);
    apply not_eq_sym, String.eqb_neq in H2; by rewrite H2, ?andb_false_r.
Qed.

(** ** Rows that keep their identity *)

(** What an UPDATE of the store leaves alone. *)
Definition same_harness (h h' : Harness) : Prop :=
  hID h' = hID h /\ hMMUserID h' = hMMUserID h /\ hTokenHash h' = hTokenHash h
  /\ hName h' = hName h /\ hCreatedAt h' = hCreatedAt h.
Definition same_job (j j' : Job) : Prop :=
  jID j' = jID j /\ jHarnessID j' = jHarnessID j /\ jMMUserID j' = jMMUserID j
  /\ jChannelID j' = jChannelID j /\ jRootPostID j' = jRootPostID j
  /\ jTriggerPostID j' = jTriggerPostID j /\ jBotUserID j' = jBotUserID j
  /\ jWorkspace j' = jWorkspace j /\ jPrompt j' = jPrompt j /\ jCreatedAt j' = jCreatedAt j
  /\ jExpiresAt j' = jExpiresAt j.
Definition same_approval (a a' : ApprovalRow) : Prop :=
  aID (ar_approval a') = aID (ar_approval a) /\ aJobID (ar_approval a') = aJobID (ar_approval a)
  /\ aTool (ar_approval a') = aTool (ar_approval a) /\ aSummary (ar_approval a') = aSummary (ar_approval a)
  /\ aInput (ar_approval a') = aInput (ar_approval a) /\ aNonce (ar_approval a') = aNonce (ar_approval a)
  /\ aExpiresAt (ar_approval a') = aExpiresAt (ar_approval a).
Definition same_outbox (m m' : OutboxMessage) : Prop :=
  mID m' = mID m /\ mHarnessID m' = mHarnessID m /\ mJobID m' = mJobID m
  /\ mType m' = mType m /\ mPayload m' = mPayload m /\ mCreatedAt m' = mCreatedAt m.

Ltac idrefl := split; repeat intros ?; unfold same_harness, same_job, same_approval, same_outbox in *;
  intuition congruence.
#[export] Instance same_harness_preorder : PreOrder same_harness. Proof. idrefl. Qed.
#[export] Instance same_job_preorder : PreOrder same_job. Proof. idrefl. Qed.
#[export] Instance same_approval_preorder : PreOrder same_approval. Proof. idrefl. Qed.
#[export] Instance same_outbox_preorder : PreOrder same_outbox. Proof. idrefl. Qed.

(** *** Refreshing a table keeps the database well-formed *)

Lemma wf_set_harnesses d t :
  db_wf d -> refreshes same_harness (t_harnesses d) t -> db_wf (set_harnesses t d).
Proof.
  intros [] Hr. split; try done; cbn.
  - eapply keyed_refresh; [done..|]. unfold same_harness. naive_solver.
  - eapply unique_refresh; [done..|]. unfold same_harness, same_token. intros ???? H1 H2.
    by destruct H1 as (_ & _ & -> & _), H2 as (_ & _ & -> & _).
  - eapply references_grow; [done|]. intros k. by eapply refreshes_is_Some.
  - eapply references_grow; [done|]. intros k. by eapply refreshes_is_Some.
Qed.

Lemma wf_set_jobs d t :
  db_wf d -> refreshes same_job (t_jobs d) t -> db_wf (set_jobs t d).
Proof.
  intros [] Hr. split; try done; cbn.
  - eapply keyed_refresh; [done..|]. unfold same_job. naive_solver.
  - eapply unique_refresh; [done..|]. unfold same_trigger. intros ???? H1 H2.
    destruct H1 as (_ & _ & _ & _ & _ & -> & -> & _), H2 as (_ & _ & _ & _ & _ & -> & -> & _). done.
  - eapply references_refresh; [done..|]. unfold same_job. intros x y (_ & -> & _). done.
  - eapply references_grow; [done|]. intros k. by eapply refreshes_is_Some.
Qed.

Lemma wf_set_approvals d t :
  db_wf d -> refreshes same_approval (t_approvals d) t -> db_wf (set_approvals t d).
Proof.
  intros [] Hr. split; try done; cbn.
  - eapply keyed_refresh; [done..|]. unfold same_approval. naive_solver.
  - eapply references_refresh; [done..|]. unfold same_approval. intros x y (_ & -> & _). done.
Qed.

Lemma wf_set_outbox d t : db_wf d -> keyed mID t -> db_wf (set_outbox t d).
Proof. intros [] Hr. by split. Qed.
Lemma wf_set_inits d t : db_wf d -> keyed iCodeHash t -> db_wf (set_inits t d).
Proof. intros [] Hr. by split. Qed.
Lemma wf_set_installations d t : db_wf d -> db_wf (set_installations t d).
Proof. intros []. by split. Qed.
Lemma wf_set_pairings d t : db_wf d -> db_wf (set_pairings t d).
Proof. intros []. by split. Qed.
Lemma wf_set_audit d t : db_wf d -> db_wf (set_audit t d).
Proof. intros []. by split. Qed.
Create HintDb wf.
#[export] Hint Resolve wf_set_harnesses wf_set_jobs wf_set_approvals wf_set_outbox wf_set_inits
  wf_set_installations wf_set_pairings wf_set_audit : wf.

(** The rows a query selects from a keyed table have different keys. *)
Lemma select_keys_nodup {A} (id : A -> string) P (t : gmap string A) :
  keyed id t -> NoDup (map id (select P t)).
Proof.
  intros Hk. unfold select.
  assert (forall L : list (string * A), NoDup L.*1 -> (forall k x, (k, x) ∈ L -> id x = k) ->
            NoDup (map id (List.filter P L.*2)) /\ forall k, k ∈ map id (List.filter P L.*2) -> k ∈ L.*1) as H.
  { induction L as [|[k x] L IH]; cbn; intros Hn Hid; [split; [constructor|done]|].
    apply NoDup_cons in Hn as [Hkn Hn]. destruct (IH Hn) as [IH1 IH2].
    { intros i y Hi. apply Hid. by right. }
    assert (id x = k) as Hx by (apply Hid; left).
    destruct (P x); cbn; split; try done.
    - apply NoDup_cons. split; [|done]. intros Hin. rewrite Hx in Hin. auto.
    - intros i Hi. apply elem_of_cons in Hi as [->|Hi]; [rewrite Hx; left | right; auto].
    - intros i Hi. right. auto. }
  apply H; [apply NoDup_fst_map_to_list|]. intros k x Hkx. apply Hk. by apply elem_of_map_to_list.
Qed.

(** *** Inserting rows *)

Lemma exists_row_fresh {A} (eq P : A -> A -> bool) t x :
  exists_row (P x) t = false -> (forall y, eq x y = P x y) ->
  forall i y k, t !! i = Some y -> i <> k -> eq x y = false.
Proof. intros Hx He i y k Hi _. rewrite He. by eapply exists_row_false. Qed.

Lemma is_Some_bool {A} (o : option A) b : bool_decide (is_Some o) = b -> if b then is_Some o else o = None.
Proof.
  destruct b; intros H; [by apply bool_decide_eq_true in H|].
  apply bool_decide_eq_false in H. by apply eq_None_not_Some.
Qed.

Lemma insert_harness_wf h d : db_wf d -> db_wf (insert_harness h d).2.
Proof.
  intros Hwf. unfold insert_harness.
  destruct (bool_decide _) eqn:Hk; [done|]. destruct (exists_row _ _) eqn:Hu; [done|].
  destruct Hwf. split; try done; cbn.
  - by apply keyed_insert.
  - apply unique_insert; [done | apply same_token_sym |].
    intros i y Hi _. by eapply exists_row_false in Hu.
  - eapply references_grow; [done|]. intros k. apply is_Some_insert.
  - eapply references_grow; [done|]. intros k. apply is_Some_insert.
Qed.

Lemma insert_job_wf j d : db_wf d -> db_wf (insert_job j d).2.
Proof.
  intros Hwf. unfold insert_job.
  destruct (bool_decide (is_Some (t_jobs d !! jID j))) eqn:Hk; [done|].
  destruct (exists_row _ _) eqn:Hu; [done|].
  destruct (bool_decide (is_Some (t_harnesses d !! _))) eqn:Hf; [|done].
  destruct Hwf. split; try done; cbn.
  - by apply keyed_insert.
  - apply unique_insert; [done | intros; apply same_trigger_sym |].
    intros i y Hi _. by eapply exists_row_false in Hu.
  - apply references_insert; [done|]. intros r [= <-]. by apply is_Some_bool in Hf.
  - eapply references_grow; [done|]. intros k. apply is_Some_insert.
Qed.

Lemma insert_approval_wf a d : db_wf d -> db_wf (insert_approval a d).2.
Proof.
  intros Hwf. unfold insert_approval.
  destruct (bool_decide (is_Some (t_approvals d !! _))) eqn:Hk; [done|].
  destruct (bool_decide (is_Some (t_jobs d !! _))) eqn:Hf; [|done].
  destruct Hwf. split; try done; cbn.
  - by apply keyed_insert.
  - apply references_insert; [done|]. intros r [= <-]. by apply is_Some_bool in Hf.
Qed.

Lemma harness_exists_some id d : harness_exists id d = true -> forall h, id = Some h -> is_Some (t_harnesses d !! h).
Proof. intros H h ->. simpl in H. by apply bool_decide_eq_true in H. Qed.

Lemma insert_bot_wf b d : db_wf d -> db_wf (insert_bot b d).2.
Proof.
  intros Hwf. unfold insert_bot.
  destruct (bool_decide (is_Some (t_bots d !! _))) eqn:Hk; [done|].
  destruct (exists_row _ _) eqn:Hu; [done|].
  destruct (harness_exists _ d) eqn:Hf; [|done].
  destruct Hwf. split; try done; cbn.
  - by apply keyed_insert.
  - apply unique_insert; [done | intros; apply same_username_sym |].
    intros i y Hi _. eapply exists_row_false in Hu; [|done]. done.
  - apply references_insert; [done|]. by apply harness_exists_some.
Qed.

(** Replacing the row of a bot by one of the same account and name. *)
Lemma wf_set_bot d k b b' :
  db_wf d -> t_bots d !! k = Some b -> bUserID (br_bot b') = bUserID (br_bot b) ->
  bUsername (br_bot b') = bUsername (br_bot b) ->
  (forall h, br_harness_id b' = Some h -> is_Some (t_harnesses d !! h)) ->
  db_wf (set_bots (<[k := b']> (t_bots d)) d).
Proof.
  intros [] Hk Hid Hname Hh. split; try done; cbn.
  - apply keyed_insert; [done|]. rewrite Hid. by apply wf_bot_id0.
  - apply unique_insert; [done | intros; apply same_username_sym |].
    intros i y Hi Hne. unfold same_username. rewrite Hname.
    destruct (String.eqb (bUsername (br_bot y)) (bUsername (br_bot b))) eqn:He; [|done].
    destruct Hne. by eapply (wf_username0 i k y b); [..|unfold same_username; rewrite String.eqb_sym].
  - by apply references_insert.
Qed.

(** ** What statements never undo *)

(** The transitions of the job state machine that the broker asks for. *)
Inductive job_edge : JobState -> JobState -> Prop :=
| edge_back_online : job_edge JobQueued JobDispatched
| edge_running s : s = JobQueued \/ s = JobDispatched \/ s = JobAwaitingApproval -> job_edge s JobRunning
| edge_approval s : s = JobDispatched \/ s = JobRunning -> job_edge s JobAwaitingApproval
| edge_finished s t :
    s ∈ JobLost :: ActiveStates -> t = JobSucceeded \/ t = JobFailed \/ t = JobCancelled -> job_edge s t
| edge_lost s : s ∈ ActiveStates -> job_edge s JobLost
| edge_expired : job_edge JobQueued JobExpired.

(** A job advances: same identity, a later or equal progress number, a path
    of edges. *)
Definition job_le (j j' : Job) : Prop :=
  same_job j j' /\ jLastSeq j <= jLastSeq j' /\ rtc job_edge (jState j) (jState j').

(** A decision, once there, is final. *)
Definition approval_le (a a' : ApprovalRow) : Prop :=
  same_approval a a' /\
  (is_Some (ar_decision a) ->
     ar_decision a' = ar_decision a /\ ar_decided_by a' = ar_decided_by a
     /\ aDecidedAt (ar_approval a') = aDecidedAt (ar_approval a)).

(** A claim binds for good; a fetched request never holds a token again. *)
Definition init_le (r r' : InitRequest) : Prop :=
  iCodeHash r' = iCodeHash r /\ iExpiresAt r' = iExpiresAt r /\ iPollTokenHash r' = iPollTokenHash r
  /\ (is_Some (iClaimedAt r) ->
        iClaimedAt r' = iClaimedAt r /\ iHarnessID r' = iHarnessID r /\ iBotUserID r' = iBotUserID r
        /\ (iHarnessToken r' = iHarnessToken r \/ is_Some (iFetchedAt r'))
        /\ (is_Some (iFetchedAt r) -> iHarnessToken r' = iHarnessToken r))
  /\ (is_Some (iFetchedAt r) -> iFetchedAt r' = iFetchedAt r).

Definition pairing_le (p p' : Pairing) : Prop :=
  gMMUserID p' = gMMUserID p /\ gExpiresAt p' = gExpiresAt p
  /\ (is_Some (gUsedAt p) -> gUsedAt p' = gUsedAt p).

#[export] Instance job_le_preorder : PreOrder job_le.
Proof.
  split.
  - intros j. repeat split; [reflexivity | constructor].
  - intros j1 j2 j3 (H1 & L1 & E1) (H2 & L2 & E2).
    split; [by trans j2 | split; [lia | by trans (jState j2)]].
Qed.
#[export] Instance approval_le_preorder : PreOrder approval_le.
Proof.
  split.
  - intros a. by repeat split.
  - intros a1 a2 a3 (H1 & D1) (H2 & D2). split; [by trans a2|].
    intros Hd. destruct (D1 Hd) as (E1 & E2 & E3). rewrite <- E1 in Hd.
    destruct (D2 Hd) as (F1 & F2 & F3). by rewrite F1, F2, F3.
Qed.
#[export] Instance init_le_preorder : PreOrder init_le.
Proof.
  split.
  - intros r. repeat split; auto.
  - intros r1 r2 r3 (A1 & A2 & A3 & C1 & F1) (B1 & B2 & B3 & C2 & F2).
    split; [congruence|]. split; [congruence|]. split; [congruence|].
    assert (is_Some (iFetchedAt r1) -> iFetchedAt r3 = iFetchedAt r1) as F.
    { intros H. rewrite F2, F1; [done.. |]. by rewrite F1. }
    split; [|exact F]. intros Hc. destruct (C1 Hc) as (D1 & D2 & D3 & D4 & D5).
    rewrite <- D1 in Hc. destruct (C2 Hc) as (G1 & G2 & G3 & G4 & G5).
    split; [congruence|]. split; [congruence|]. split; [congruence|]. split.
    + destruct G4 as [G4|G4]; [|auto]. destruct D4 as [D4|D4]; [left; congruence|].
      right. by rewrite F2.
    + intros Hf. rewrite G5; [auto|]. by rewrite F1.
Qed.
#[export] Instance pairing_le_preorder : PreOrder pairing_le.
Proof.
  split.
  - intros p. by repeat split.
  - intros p1 p2 p3 (A1 & A2 & A3) (B1 & B2 & B3). split; [congruence|]. split; [congruence|].
    intros H. rewrite B3; [auto|]. by rewrite A3.
Qed.

(** A request a laptop can still fetch a token from, and the harness the token
    is for. *)
Definition holds_token (r : InitRequest) : Prop := Claimed r = true /\ unfetched r = true.
Definition token_backed (d : DB) (r : InitRequest) : Prop :=
  exists h, t_harnesses d !! iHarnessID r = Some h /\ hTokenHash h = sha256_hex (iHarnessToken r).
(** Tokens come with their harness. *)
Definition tokens_come_backed (d d' : DB) : Prop :=
  forall code r, t_inits d' !! code = Some r -> holds_token r -> t_inits d !! code = Some r \/ token_backed d' r.

Lemma token_backed_grows d d' r :
  grows same_harness (t_harnesses d) (t_harnesses d') -> token_backed d r -> token_backed d' r.
Proof. intros Hg (h & Hh & E). destruct (Hg _ _ Hh) as (h' & Hh' & _ & _ & E' & _). exists h'. by rewrite E'. Qed.

Record db_evolves (d d' : DB) : Prop := {
  ev_harnesses : grows same_harness (t_harnesses d) (t_harnesses d');
  ev_jobs : grows job_le (t_jobs d) (t_jobs d');
  ev_approvals : grows approval_le (t_approvals d) (t_approvals d');
  ev_inits : grows init_le (t_inits d) (t_inits d');
  ev_pairings : grows pairing_le (t_pairings d) (t_pairings d');
  ev_tokens : tokens_come_backed d d';
  ev_audit : exists l, t_audit d' = t_audit d ++ l
}.

#[export] Instance db_evolves_preorder : PreOrder db_evolves.
Proof.
  split.
  - intros d. split; try apply grows_refl; try apply _; [by intros code r; left|]. exists []. by rewrite app_nil_r.
  - intros d1 d2 d3 [] []. split; try (eapply grows_trans; [apply _|..]; eassumption).
    { intros code r H3 Hr. destruct (ev_tokens1 _ _ H3 Hr) as [H2|]; [|by right].
      destruct (ev_tokens0 _ _ H2 Hr) as [|Hb]; [by left|right]. by eapply token_backed_grows. }
    destruct ev_audit0 as [l1 H1], ev_audit1 as [l2 H2]. exists (l1 ++ l2).
    by rewrite H2, H1, app_assoc.
Qed.

(** One statement: integrity is kept and the database evolves. *)
Definition db_step (d d' : DB) : Prop := (db_wf d -> db_wf d') /\ db_evolves d d'.
#[export] Instance db_step_preorder : PreOrder db_step.
Proof.
  split.
  - intros d. by split.
  - intros d1 d2 d3 [W1 E1] [W2 E2]. split; [auto | by trans d2].
Qed.

(** ** Every statement is a step *)

Section Setters.
Implicit Types d : DB.

Ltac setter := intros; split; cbn; try assumption; try (apply grows_refl; apply _); try (by intros code r; left);
  try (exists []; by rewrite app_nil_r).

Lemma ev_set_harnesses d t : grows same_harness (t_harnesses d) t -> db_evolves d (set_harnesses t d).
Proof. setter. Qed.
Lemma ev_set_jobs d t : grows job_le (t_jobs d) t -> db_evolves d (set_jobs t d).
Proof. setter. Qed.
Lemma ev_set_approvals d t : grows approval_le (t_approvals d) t -> db_evolves d (set_approvals t d).
Proof. setter. Qed.
Lemma ev_set_inits d t :
  grows init_le (t_inits d) t -> tokens_come_backed d (set_inits t d) -> db_evolves d (set_inits t d).
Proof. setter. Qed.
Lemma ev_set_pairings d t : grows pairing_le (t_pairings d) t -> db_evolves d (set_pairings t d).
Proof. setter. Qed.
Lemma ev_set_bots d t : db_evolves d (set_bots t d).
Proof. setter. Qed.
Lemma ev_set_outbox d t : db_evolves d (set_outbox t d).
Proof. setter. Qed.
Lemma ev_set_installations d t : db_evolves d (set_installations t d).
Proof. setter. Qed.
End Setters.

Ltac stay := apply (reflexivity (R := db_step)).

Lemma step_insert_harness h d : db_step d (insert_harness h d).2.
Proof.
  split; [apply insert_harness_wf|]. unfold insert_harness.
  destruct (bool_decide _) eqn:Hk; [reflexivity|]. destruct (exists_row _ _); [reflexivity|].
  apply ev_set_harnesses, (grows_insert_fresh _). by apply is_Some_bool in Hk.
Qed.

Lemma step_update_touch id seenAt version d : db_step d (update_touch id seenAt version d).2.
Proof.
  assert (refreshes same_harness (t_harnesses d)
    (update_key (fun _ => true) (touch_row seenAt version) id (t_harnesses d))) as H.
  { by apply refreshes_key. }
  split; [intros; by apply wf_set_harnesses | by apply ev_set_harnesses, refreshes_grows].
Qed.

Lemma step_insert_pairing code user e d : db_step d (insert_pairing code user e d).2.
Proof.
  unfold insert_pairing. destruct (bool_decide _) eqn:Hk; [stay|].
  split; [apply wf_set_pairings|]. apply ev_set_pairings, (grows_insert_fresh _). by apply is_Some_bool in Hk.
Qed.

Lemma step_update_consume code now d : db_step d (update_consume code now d).2.
Proof.
  unfold update_consume. destruct (t_pairings d !! code) as [p|] eqn:Hp; [|stay].
  destruct (pairing_usable now p) eqn:Hu; [|stay].
  split; [apply wf_set_pairings|]. apply ev_set_pairings. eapply (grows_insert _); [exact Hp|].
  repeat split; simpl. intros Hs. unfold pairing_usable in Hu. rewrite bool_decide_true in Hu by done. done.
Qed.

Lemma step_insert_job j d : db_step d (insert_job j d).2.
Proof.
  split; [apply insert_job_wf|]. unfold insert_job.
  destruct (bool_decide (is_Some (t_jobs d !! jID j))) eqn:Hk; [reflexivity|].
  destruct (exists_row _ _); [reflexivity|].
  destruct (bool_decide (is_Some (t_harnesses d !! _))); [|reflexivity].
  apply ev_set_jobs, (grows_insert_fresh _). by apply is_Some_bool in Hk.
Qed.

(** Jobs updated one by one along [job_le]. *)
Lemma step_set_jobs d t : refreshes job_le (t_jobs d) t -> db_step d (set_jobs t d).
Proof.
  intros H. split; [|by apply ev_set_jobs, refreshes_grows].
  intros Hwf. apply wf_set_jobs; [done|]. intros k. specialize (H k).
  destruct (t_jobs d !! k), (t !! k); [|done..]. apply H.
Qed.

Lemma step_update_transition id from to p now d :
  Forall (fun s => job_edge s to) from -> db_step d (update_transition id from to p now d).2.
Proof.
  intros He. apply step_set_jobs, refreshes_key; [intros; reflexivity|].
  intros j Hj. apply bool_decide_eq_true in Hj.
  split; [by repeat split|]. split; [simpl; lia|]. apply rtc_once. simpl.
  by eapply Forall_forall in He.
Qed.

Lemma step_update_progress id seq now d : db_step d (update_progress id seq now d).2.
Proof.
  apply step_set_jobs, refreshes_key; [intros; reflexivity|].
  intros j Hj. unfold accepts_progress in Hj. boolprop.
  split; [by repeat split|]. split; [simpl; lia|]. constructor.
Qed.

Lemma step_update_expire now d : db_step d (update_expire now d).2.
Proof.
  apply step_set_jobs, refreshes_where; [intros; reflexivity|].
  intros j Hj. unfold expired_by in Hj. apply andb_true_iff in Hj as [Hj _].
  apply bool_decide_eq_true in Hj.
  split; [by repeat split|]. split; [simpl; lia|]. simpl. rewrite Hj. apply rtc_once, edge_expired.
Qed.

Lemma step_insert_approval a d : db_step d (insert_approval a d).2.
Proof.
  split; [apply insert_approval_wf|]. unfold insert_approval.
  destruct (bool_decide (is_Some (t_approvals d !! _))) eqn:Hk; [reflexivity|].
  destruct (bool_decide (is_Some (t_jobs d !! _))); [|reflexivity].
  apply ev_set_approvals, (grows_insert_fresh _). by apply is_Some_bool in Hk.
Qed.

Lemma step_update_decide id dec by_ at_ d : db_step d (update_decide id dec by_ at_ d).2.
Proof.
  assert (refreshes approval_le (t_approvals d)
    (update_key (decidable_at at_) (decide_row dec by_ at_) id (t_approvals d))) as H.
  { apply refreshes_key; [intros; reflexivity|]. intros a Ha. split; [by repeat split|].
    intros Hs. unfold decidable_at, undecided in Ha. by rewrite bool_decide_true in Ha. }
  split; [|by apply ev_set_approvals, refreshes_grows].
  intros Hwf. apply wf_set_approvals; [done|]. intros k. specialize (H k). cbn in H.
  destruct (t_approvals d !! k), (_ !! k); [|done..]. apply H.
Qed.

Lemma step_set_outbox t d : (keyed mID (t_outbox d) -> keyed mID t) -> db_step d (set_outbox t d).
Proof. intros H. split; [|apply ev_set_outbox]. intros Hwf. apply wf_set_outbox; [done|]. by apply H, Hwf. Qed.

Lemma step_insert_outbox m d : db_step d (insert_outbox m d).2.
Proof.
  unfold insert_outbox. destruct (bool_decide _); [stay|].
  apply step_set_outbox. intros H. by apply keyed_insert.
Qed.
Lemma step_update_ack id at_ d : db_step d (update_ack id at_ d).2.
Proof.
  apply step_set_outbox. intros H. eapply (keyed_refresh _ same_outbox); [done| |unfold same_outbox; naive_solver].
  apply refreshes_key; [intros; reflexivity|]. by repeat split.
Qed.
Lemma step_delete_purged t d : db_step d (delete_purged t d).2.
Proof. apply step_set_outbox. apply keyed_filter. Qed.

Lemma step_insert_bot b d : db_step d (insert_bot b d).2.
Proof.
  split; [apply insert_bot_wf|]. unfold insert_bot.
  destruct (bool_decide _); [reflexivity|]. destruct (exists_row _ _); [reflexivity|].
  destruct (harness_exists _ _); [apply ev_set_bots | reflexivity].
Qed.

Lemma step_update_bot b d : db_step d (update_bot b d).2.
Proof.
  unfold update_bot. destruct (_ && _) eqn:Hc; [stay|]. split; [|apply ev_set_bots].
  intros Hwf. cbn. unfold update_key, affected_key in *.
  destruct (t_bots d !! bUserID b) as [r|] eqn:Hr; [|by destruct Hwf].
  destruct (rebindable b r) eqn:HP; [|by destruct Hwf].
  apply negb_false_iff in Hc. eapply wf_set_bot; [done..|]. by apply harness_exists_some.
Qed.

Lemma step_delete_bot id d : db_step d (delete_bot id d).2.
Proof.
  split; [|apply ev_set_bots]. intros []. split; try done; cbn.
  - by apply keyed_delete.
  - by apply unique_delete.
  - by apply references_delete.
Qed.

Lemma step_set_inits t d :
  (keyed iCodeHash (t_inits d) -> keyed iCodeHash t) -> grows init_le (t_inits d) t ->
  tokens_come_backed d (set_inits t d) -> db_step d (set_inits t d).
Proof. intros Hk Hg Ht. split; [|by apply ev_set_inits]. intros Hwf. apply wf_set_inits; [done|]. by apply Hk, Hwf. Qed.

Lemma step_insert_init r d : iClaimedAt r = None -> db_step d (insert_init r d).2.
Proof.
  intros Hc. unfold insert_init. destruct (bool_decide _) eqn:Hk; [stay|].
  apply step_set_inits; [by intros; apply keyed_insert|apply (grows_insert_fresh _); by apply is_Some_bool in Hk|].
  intros code r' Hr' [Hc' _]. cbn in Hr'. apply lookup_insert_Some in Hr' as [[_ <-]|[_ Hr']]; [|by left].
  unfold Claimed in Hc'. cbn in Hc'. by rewrite Hc in Hc'.
Qed.

Lemma unclaimed_le r r' :
  Claimed r = false -> iCodeHash r' = iCodeHash r -> iExpiresAt r' = iExpiresAt r ->
  iPollTokenHash r' = iPollTokenHash r -> iFetchedAt r' = iFetchedAt r -> init_le r r'.
Proof.
  intros Hc ? ? ? ?. apply bool_decide_eq_false in Hc. split; [done|]. split; [done|].
  split; [done|]. split; [tauto | auto].
Qed.

Lemma step_inits_key P f k d :
  (forall r, P r = true -> init_le r (f r)) ->
  (forall r, P r = true -> holds_token (f r) -> token_backed d (f r)) ->
  db_step d (set_inits (update_key P f k (t_inits d)) d).
Proof.
  intros H Hb. assert (refreshes init_le (t_inits d) (update_key P f k (t_inits d))) as Hr.
  { apply refreshes_key; [intros; reflexivity | done]. }
  apply step_set_inits; [|by apply refreshes_grows|].
  - intros Hk. eapply keyed_refresh; [done..|]. by intros x y (-> & _).
  - intros code r Hl Ht. cbn in Hl. unfold update_key in Hl. destruct (t_inits d !! k) as [x|]; [|by left].
    destruct (P x) eqn:Hp; [|by left]. apply lookup_insert_Some in Hl as [[_ <-]|[_ Hl]]; [right; by apply Hb|by left].
Qed.

Lemma step_update_claim code now harness token d :
  (exists h, t_harnesses d !! harness = Some h /\ hTokenHash h = sha256_hex token) ->
  db_step d (update_claim code now harness token d).2.
Proof.
  intros Hh. apply step_inits_key; [|by intros]. intros r Hr. unfold claimable in Hr. apply andb_true_iff in Hr as [Hr _].
  apply negb_true_iff in Hr. by apply unclaimed_le.
Qed.

Lemma step_update_fetch code now d : db_step d (update_fetch code now d).2.
Proof.
  apply step_inits_key; [|by intros r _ [_ Hf]]. intros r Hr. unfold unfetched in Hr.
  assert (~ is_Some (iFetchedAt r)) as Hf by (by apply negb_true_iff, bool_decide_eq_false in Hr).
  split; [done|]. split; [done|]. split; [done|]. split; [|done].
  intros _. split; [done|]. split; [done|]. split; [done|]. split; [|done].
  right. simpl. eauto.
Qed.

Lemma step_upsert_installation i d : db_step d (upsert_installation i d).2.
Proof. split; [apply wf_set_installations | apply ev_set_installations]. Qed.

Lemma step_insert_audit e d : db_step d (insert_audit e d).2.
Proof.
  split; [apply wf_set_audit|]. split; cbn; try (apply grows_refl; apply _); [by intros code r; left|]. eauto.
Qed.

Lemma step_complete_init code now h bot token d :
  hTokenHash h = sha256_hex token -> db_step d (complete_init_tx code now h bot token d).2.
Proof.
  intros Htok. unfold complete_init_tx. destruct (t_inits d !! code) as [r|] eqn:Hr; [|stay].
  destruct (negb _); [stay|]. destruct (Claimed r) eqn:Hc; [stay|].
  destruct (t_bots d !! bot) as [b|] eqn:Hb; [|stay]. destruct (_ || _); [stay|].
  destruct (insert_harness h d) as [[u|e] d1] eqn:Hi; [|stay].
  pose proof (step_insert_harness h d) as Hs. rewrite Hi in Hs. simpl in Hs.
  trans d1; [done|].
  assert (t_inits d1 = t_inits d /\ t_bots d1 = t_bots d /\ t_harnesses d1 !! hID h = Some (harness_row h)) as (E1 & E2 & Hh).
  { unfold insert_harness in Hi. destruct (bool_decide _); [done|]. destruct (exists_row _ _); [done|].
    injection Hi as _ <-. cbn. by rewrite lookup_insert_eq. }
  trans (set_bots (<[bot := set_bot_harness (hID h) b]> (t_bots d1)) d1); simpl.
  - split; [|apply ev_set_bots]. intros Hwf. eapply wf_set_bot; [done|by rewrite E2|done..|].
    intros k [= <-]. by rewrite Hh.
  - apply (step_set_inits _ (set_bots _ d1)).
    + intros Hk. apply keyed_insert; [done|]. simpl. cbn in Hk. rewrite E1 in Hk. by apply Hk.
    + eapply (grows_insert _); [cbn; by rewrite E1|]. by apply unclaimed_le.
    + intros c r' Hl _. cbn in Hl. apply lookup_insert_Some in Hl as [[_ <-]|[_ Hl]]; [right|by left].
      exists (harness_row h). split; [exact Hh|done].
Qed.

Create HintDb db_steps.
#[export] Hint Resolve step_insert_harness step_update_touch step_insert_pairing step_update_consume
  step_insert_job step_update_progress step_update_expire step_insert_approval
  step_update_decide step_insert_outbox step_update_ack step_delete_purged step_insert_bot
  step_update_bot step_delete_bot step_update_fetch
  step_upsert_installation step_insert_audit : db_steps.
