(* ===== verification/StoreFacts.v ===== *)
(** * What the store's methods promise ([store.Store])

    Each method's guarantee under interleaving ([guards ... db_step]), and
    its functional behaviour when the database file works: compare-and-set
    transitions, single-use codes, first-wins decisions, monotone progress,
    exact expiry, ordered queries. *)

From S2P Require Import Prelude Resume GoText Codec Json Protocol Store Tables World Sqlite Integrity.

Open Scope Z_scope.
Open Scope prog_scope.

(** ** Under interleaving *)

Abbreviation w_step := (on_db db_step).

(** A database whose foreign keys and unique columns hold keeps them. *)
Section MethodGuards.
Context {E : Env}.

Ltac open_method := lazymatch goal with |- guards _ ?m => let h := head_of m in unfold h end.
Ltac reads := open_method; secure; try (open_method; secure).
Ltac method := open_method; secure;
  first [ apply guards_exec_db; [apply db_step_preorder | intros ?; auto with db_steps] | solve [reads] ].

Lemma g_CreateHarness h : guards w_step (CreateHarness h).  Proof. method. Qed.
Lemma g_HarnessByID id : guards w_step (HarnessByID id).  Proof. reads. Qed.
Lemma g_HarnessByTokenHash x : guards w_step (HarnessByTokenHash x).  Proof. reads. Qed.
Lemma g_HarnessesByUser u : guards w_step (HarnessesByUser u).  Proof. reads. Qed.
Lemma g_TouchHarness id t v : guards w_step (TouchHarness id t v).  Proof. method. Qed.
Lemma g_CreatePairing c u t : guards w_step (CreatePairing c u t).  Proof. method. Qed.
Lemma g_ConsumePairing c t : guards w_step (ConsumePairing c t).  Proof. method. Qed.
Lemma g_CreateJob j : guards w_step (CreateJob j).  Proof. method. Qed.
Lemma g_JobByID id : guards w_step (JobByID id).  Proof. reads. Qed.
Lemma g_ListJobs f : guards w_step (ListJobs f).  Proof. reads. Qed.
Lemma g_ActiveJobsByHarness h : guards w_step (ActiveJobsByHarness h).  Proof. reads. Qed.
Lemma g_RecordProgress id n : guards w_step (RecordProgress id n).  Proof. method. Qed.
Lemma g_ExpireQueuedJobs t : guards w_step (ExpireQueuedJobs t).  Proof. method. Qed.
Lemma g_CreateApproval a : guards w_step (CreateApproval a).  Proof. method. Qed.
Lemma g_ApprovalByID id : guards w_step (ApprovalByID id).  Proof. reads. Qed.
Lemma g_PendingApprovalsByJob j : guards w_step (PendingApprovalsByJob j).  Proof. reads. Qed.
Lemma g_DecideApproval i d b t : guards w_step (DecideApproval i d b t).  Proof. method. Qed.
Lemma g_Enqueue m : guards w_step (Enqueue m).  Proof. method. Qed.
Lemma g_PendingOutbox h : guards w_step (PendingOutbox h).  Proof. reads. Qed.
Lemma g_AckOutbox m t : guards w_step (AckOutbox m t).  Proof. method. Qed.
Lemma g_PurgeOutbox t : guards w_step (PurgeOutbox t).  Proof. method. Qed.
Lemma g_checkBotHarness b : guards w_step (checkBotHarness b).  Proof. reads. Qed.
#[local] Hint Resolve g_checkBotHarness : guards.
Lemma g_CreateBot b : guards w_step (CreateBot b).  Proof. method. Qed.
Lemma g_BotByOwner o : guards w_step (BotByOwner o).  Proof. reads. Qed.
Lemma g_BotByUserID i : guards w_step (BotByUserID i).  Proof. reads. Qed.
Lemma g_ListBots : guards w_step ListBots.  Proof. reads. Qed.
Lemma g_BotsByOwner o : guards w_step (BotsByOwner o).  Proof. reads. Qed.
Lemma g_BotByUsername n : guards w_step (BotByUsername n).  Proof. reads. Qed.
Lemma g_UpdateBot b : guards w_step (UpdateBot b).  Proof. method. Qed.
Lemma g_DeleteBot i : guards w_step (DeleteBot i).  Proof. method. Qed.
Lemma g_CreateInit r : iClaimedAt r = None -> guards w_step (CreateInit r).
Proof.
  intros Hc. unfold CreateInit. apply guards_bind; [|intros; apply guards_ret].
  apply guards_exec_db; [apply db_step_preorder|]. intros d. by apply step_insert_init.
Qed.
Lemma g_InitByCode c : guards w_step (InitByCode c).  Proof. reads. Qed.
Lemma g_fetch_read c t i : guards w_step (fetch_read c t i).  Proof. method. Qed.
#[local] Hint Resolve g_fetch_read : guards.
Lemma g_FetchInit c t : guards w_step (FetchInit c t).  Proof. method. Qed.
Lemma g_InitByHarness h : guards w_step (InitByHarness h).  Proof. reads. Qed.
Lemma g_SaveInstallation i : guards w_step (SaveInstallation i).  Proof. method. Qed.
Lemma g_Append e : guards w_step (Append e).  Proof. method. Qed.

Lemma g_CompleteInit c t h b k : hTokenHash h = sha256_hex k -> guards w_step (CompleteInit c t h b k).
Proof.
  intros Ht. secure. apply guards_exec_db; [apply db_step_preorder|]. intros d.
  pose proof (step_complete_init c t h b k d Ht) as H. by destruct (complete_init_tx c t h b k d).
Qed.

Lemma g_TransitionJob id from to p :
  Forall (fun s => job_edge s to) from -> guards w_step (TransitionJob id from to p).
Proof.
  intros H. unfold TransitionJob. secure; try apply g_JobByID.
  apply guards_exec_db; [apply db_step_preorder|]. intros d. by apply step_update_transition.
Qed.
End MethodGuards.

#[export] Hint Resolve g_CreateHarness g_HarnessByID g_HarnessByTokenHash g_HarnessesByUser
  g_TouchHarness g_CreatePairing g_ConsumePairing g_CreateJob g_JobByID g_ListJobs
  g_ActiveJobsByHarness g_RecordProgress g_ExpireQueuedJobs g_CreateApproval g_ApprovalByID
  g_PendingApprovalsByJob g_DecideApproval g_Enqueue g_PendingOutbox g_AckOutbox g_PurgeOutbox
  g_CreateBot g_BotByOwner g_BotByUserID g_ListBots g_BotsByOwner g_BotByUsername g_UpdateBot
  g_DeleteBot g_CreateInit g_InitByCode g_FetchInit g_InitByHarness
  g_SaveInstallation g_Append g_CompleteInit : guards.

(** The state sets the broker passes to [TransitionJob]. *)
Lemma edges_dispatched : Forall (fun s => job_edge s JobDispatched) [JobQueued].
Proof. repeat constructor. Qed.
Lemma edges_running_hello : Forall (fun s => job_edge s JobRunning) [JobQueued; JobDispatched].
Proof. apply Forall_forall. intros s Hs. apply edge_running. set_solver. Qed.
Lemma edges_running_ack : Forall (fun s => job_edge s JobRunning) [JobDispatched].
Proof. apply Forall_forall. intros s Hs. apply edge_running. set_solver. Qed.
Lemma edges_running_decided : Forall (fun s => job_edge s JobRunning) [JobAwaitingApproval].
Proof. apply Forall_forall. intros s Hs. apply edge_running. set_solver. Qed.
Lemma edges_approval : Forall (fun s => job_edge s JobAwaitingApproval) [JobDispatched; JobRunning].
Proof. apply Forall_forall. intros s Hs. apply edge_approval. set_solver. Qed.
Lemma edges_cancel_queued : Forall (fun s => job_edge s JobCancelled) [JobQueued].
Proof. apply Forall_forall. intros s Hs. apply edge_finished; [right; set_solver | auto]. Qed.
Lemma edges_failed : Forall (fun s => job_edge s JobFailed) ActiveStates.
Proof. apply Forall_forall. intros s Hs. apply edge_finished; [by right | auto]. Qed.
Lemma edges_lost : Forall (fun s => job_edge s JobLost) ActiveStates.
Proof. apply Forall_forall. intros s Hs. by apply edge_lost. Qed.
Lemma edges_result to :
  to = JobSucceeded \/ to = JobFailed \/ to = JobCancelled ->
  Forall (fun s => job_edge s to) (JobLost :: ActiveStates).
Proof. intros H. apply Forall_forall. intros s Hs. by apply edge_finished. Qed.
#[export] Hint Resolve edges_dispatched edges_running_hello edges_running_ack edges_running_decided
  edges_approval edges_cancel_queued edges_failed edges_lost g_TransitionJob : guards.

(** ** Functional behaviour *)

(** The result of reading one row. *)
Definition found {A} (o : option A) : res A :=
  match o with Some a => Ok a | None => Err ErrNotFound end.

Lemma scan_sql_row {A} (o : option A) : scan (sql_row o) = found o.
Proof. by destruct o. Qed.

(** Nothing but the database (and the tick) differs. *)
Definition outside (w : World) :=
  (w_conns w, w_cancelled w, w_edits w, w_editors w, w_timers w, w_locks w, w_trace w).
Definition only_db (w w' : World) : Prop := outside w' = outside w.
#[export] Instance only_db_preorder : PreOrder only_db.
Proof. split; [done | unfold only_db; intros x y z; congruence]. Qed.

#[export] Hint Extern 0 (only_db _ _) => reflexivity : core.

Lemma set_jobs_id d : set_jobs (t_jobs d) d = d.
Proof. by destruct d. Qed.

Lemma update_key_some {A} P (f : A -> A) k t r :
  t !! k = Some r -> P r = true -> update_key P f k t = <[k := f r]> t.
Proof. intros Hk HP. unfold update_key. by rewrite Hk, HP. Qed.
Lemma update_key_none {A} P (f : A -> A) k t : t !! k = None -> update_key P f k t = t.
Proof. intros Hk. unfold update_key. by rewrite Hk. Qed.
Lemma update_key_no {A} P (f : A -> A) k t r :
  t !! k = Some r -> P r = false -> update_key P f k t = t.
Proof. intros Hk HP. unfold update_key. by rewrite Hk, HP. Qed.

(** What a compare-and-set UPDATE does to its table, by cases. *)
Lemma update_key_cases {A} (P : A -> bool) (f : A -> A) k (t : gmap string A) :
  (t !! k = None /\ affected_key P t k = 0 /\ update_key P f k t = t)
  \/ (exists r, t !! k = Some r /\ P r = false /\ affected_key P t k = 0 /\ update_key P f k t = t)
  \/ (exists r, t !! k = Some r /\ P r = true /\ affected_key P t k = 1
        /\ update_key P f k t = <[k := f r]> t).
Proof.
  unfold affected_key, update_key. destruct (t !! k) as [r|] eqn:Hk; [|auto].
  right. destruct (P r) eqn:HP; [right|left]; eauto.
Qed.

Ltac wp_step :=
  first [ rewrite wp_bind | rewrite wp_ret | rewrite wp_ask | rewrite wp_time_now
        | rewrite wp_random_bytes | rewrite wp_new_ulid | rewrite wp_query | rewrite wp_exec
        | rewrite wp_gets | rewrite wp_modify ]; cbn beta iota.
Ltac wp_steps := repeat wp_step.

(** *** The guards of single-use rows, spelled out *)

Lemma pairing_usable_spec now p :
  pairing_usable now p = true <-> gUsedAt p = None /\ ms now < ms (gExpiresAt p).
Proof.
  unfold pairing_usable. rewrite andb_true_iff, negb_true_iff, bool_decide_eq_false, Z.ltb_lt.
  by rewrite <- eq_None_not_Some.
Qed.
Lemma decidable_at_spec now a :
  decidable_at now a = true <-> ar_decision a = None /\ ms now < ms (aExpiresAt (ar_approval a)).
Proof.
  unfold decidable_at, undecided. rewrite andb_true_iff, negb_true_iff, bool_decide_eq_false, Z.ltb_lt.
  by rewrite <- eq_None_not_Some.
Qed.
Lemma expired_by_spec now j :
  expired_by now j = true <-> jState j = JobQueued /\ exists e, jExpiresAt j = Some e /\ ms e <= ms now.
Proof.
  unfold expired_by. rewrite andb_true_iff, bool_decide_eq_true.
  destruct (jExpiresAt j) as [e|]; [rewrite Z.leb_le|]; naive_solver.
Qed.

Section Functional.
Context {E : Env} `{!NoFaults E}.
Implicit Types (w : World).

Lemma wp_read {X Y} (q : DB -> sres X) (f : sres X -> Y) (Q : Y -> World -> Prop) w :
  wp (bind (query q) (fun r => Ret (f r))) Q w <-> Q (f (q (w_db w))) (bump w).
Proof. by wp_steps. Qed.

Lemma wp_write {X Y} (s : DB -> sres X * DB) (f : sres X -> Y) (Q : Y -> World -> Prop) w :
  wp (bind (exec s) (fun r => Ret (f r))) Q w
  <-> Q (f (s (w_db w)).1) (bump (set_db (s (w_db w)).2 w)).
Proof. by wp_steps. Qed.

Lemma wp_HarnessByID id Q w :
  wp (HarnessByID id) Q w <-> Q (found (t_harnesses (w_db w) !! id)) (bump w).
Proof. unfold HarnessByID. rewrite wp_read. unfold select_harness. by rewrite scan_sql_row. Qed.
Lemma wp_JobByID id Q w : wp (JobByID id) Q w <-> Q (found (t_jobs (w_db w) !! id)) (bump w).
Proof. unfold JobByID. rewrite wp_read. unfold select_job. by rewrite scan_sql_row. Qed.
Lemma wp_ApprovalByID id Q w :
  wp (ApprovalByID id) Q w <-> Q (found (scanApproval <$> t_approvals (w_db w) !! id)) (bump w).
Proof. unfold ApprovalByID. rewrite wp_read. unfold select_approval. by rewrite scan_sql_row. Qed.
Lemma wp_BotByUserID id Q w :
  wp (BotByUserID id) Q w <-> Q (found (scanBot <$> t_bots (w_db w) !! id)) (bump w).
Proof. unfold BotByUserID. rewrite wp_read. unfold select_bot. by rewrite scan_sql_row. Qed.
Lemma wp_InitByCode code Q w :
  wp (InitByCode code) Q w <-> Q (found (t_inits (w_db w) !! code)) (bump w).
Proof. unfold InitByCode. rewrite wp_read. unfold select_init. by rewrite scan_sql_row. Qed.

(** The outcome of a compare-and-set transition. *)
Definition transition_outcome id from to p (now : Time) (d : DB) (r : res Job) (d' : DB) : Prop :=
  match t_jobs d !! id with
  | None => r = Err ErrNotFound /\ d' = d
  | Some j =>
      if in_states from j then
        r = Ok (transition_row to p now j)
        /\ d' = set_jobs (<[id := transition_row to p now j]> (t_jobs d)) d
      else r = Err ErrConflict /\ d' = d
  end.

Lemma wp_TransitionJob id from to p w :
  is_empty_list from = false ->
  wp (TransitionJob id from to p)
     (fun r w' => transition_outcome id from to p (clock (w_tick w)) (w_db w) r (w_db w') /\ only_db w w') w.
Proof.
  intros Hf. unfold TransitionJob, transition_outcome. rewrite Hf. cbn iota. wp_steps.
  unfold update_transition. cbn [fst snd].
  destruct (update_key_cases (in_states from) (transition_row to p (clock (w_tick w))) id (t_jobs (w_db w)))
    as [(Hk & Ha & Hu)|[(j & Hk & HP & Ha & Hu)|(j & Hk & HP & Ha & Hu)]];
    cbn; rewrite Ha, Hu; cbn; wp_steps; rewrite wp_JobByID; cbn; rewrite ?set_jobs_id, ?Hk; cbn; wp_steps.
  - done.
  - by rewrite HP.
  - by rewrite HP, lookup_insert_eq.
Qed.

Lemma wp_rule {A} (m : prog World A) (P Q : A -> World -> Prop) w :
  wp m P w -> (forall a w', P a w' -> Q a w') -> wp m Q w.
Proof. intros H HPQ. by eapply wp_mono. Qed.
End Functional.

(** ** Promises of the interface *)

(** A transition result when any statement may fail: an error that is
    neither of the two sentinels says nothing about the update. *)
Definition transition_result (id : string) (from : list JobState) (to : JobState) (p : JobPatch)
    (now : Time) (d : DB) (r : res Job) (d' : DB) : Prop :=
  match r with
  | Ok j' =>
      exists j, t_jobs d !! id = Some j /\ jState j ∈ from /\ j' = transition_row to p now j
        /\ d' = set_jobs (<[id := j']> (t_jobs d)) d
  | Err ErrConflict => d' = d /\ exists j, t_jobs d !! id = Some j /\ jState j ∉ from
  | Err ErrNotFound => d' = d /\ t_jobs d !! id = None
  | Err (ErrOther _) =>
      d' = d \/ exists j, t_jobs d !! id = Some j /\ jState j ∈ from
        /\ d' = set_jobs (<[id := transition_row to p now j]> (t_jobs d)) d
  end.

Section Promises.
Context {E : Env}.
Implicit Types w : World.

Lemma wp_JobByID_any id Q w :
  (forall msg, Q (Err (ErrOther msg)) (bump w)) -> Q (found (t_jobs (w_db w) !! id)) (bump w) ->
  wp (JobByID id) Q w.
Proof.
  intros Hf Hq. unfold JobByID. rewrite wp_bind. apply wp_query_fault.
  - intros msg. rewrite wp_ret. apply Hf.
  - rewrite wp_ret. unfold select_job. by rewrite scan_sql_row.
Qed.

(** TransitionJob is a compare-and-set: the job moves exactly when its
    state is one of the expected ones, with the patch applied and the finish
    time set for a terminal state; ErrConflict and ErrNotFound mean that
    nothing changed, and no other row or table is ever touched. *)
Theorem TransitionJob_cas id from to p w :
  wp (TransitionJob id from to p)
     (fun r w' => transition_result id from to p (clock (w_tick w)) (w_db w) r (w_db w') /\ only_db w w') w.
Proof.
  unfold TransitionJob. destruct (is_empty_list from); [rewrite wp_ret; cbn; split; [by left|done]|].
  cbn iota. rewrite wp_bind, wp_time_now, wp_bind.
  apply wp_exec_fault; [intros msg; rewrite wp_ret; cbn; split; [by left|done]|].
  unfold update_transition. cbn.
  destruct (update_key_cases (in_states from) (transition_row to p (clock (w_tick w))) id (t_jobs (w_db w)))
    as [(Hk & Ha & Hu)|[(j & Hk & HP & Ha & Hu)|(j & Hk & HP & Ha & Hu)]];
    rewrite Ha, Hu, ?set_jobs_id; cbn.
  - rewrite wp_bind. apply wp_JobByID_any; [intros msg|]; cbn; rewrite ?Hk; cbn; rewrite wp_ret; cbn; auto.
  - apply bool_decide_eq_false in HP.
    rewrite wp_bind. apply wp_JobByID_any; [intros msg|]; cbn; rewrite ?Hk; cbn; rewrite wp_ret; cbn; eauto 10.
  - apply bool_decide_eq_true in HP.
    apply wp_JobByID_any; [intros msg|]; cbn; rewrite ?lookup_insert_eq; cbn; eauto 10.
Qed.

(** RecordProgress stores a sequence number only if it is greater than
    the last one and the job is running or waits for an approval; it says
    whether it did, and progress never changes a job's state. *)
Theorem RecordProgress_monotone `{!NoFaults E} id seq w :
  wp (RecordProgress id seq) (fun r w' =>
    exists b, r = Ok b /\ only_db w w' /\
    match t_jobs (w_db w) !! id with
    | Some j =>
        b = (jLastSeq j <? seq) && in_states [JobRunning; JobAwaitingApproval] j
        /\ t_jobs (w_db w') = (if b then <[id := progress_row seq (clock (w_tick w)) j]> (t_jobs (w_db w))
                               else t_jobs (w_db w))
    | None => b = false /\ w_db w' = w_db w
    end) w.
Proof.
  unfold RecordProgress. wp_steps. unfold update_progress. cbn.
  destruct (update_key_cases (accepts_progress seq) (progress_row seq (clock (w_tick w))) id (t_jobs (w_db w)))
    as [(Hk & Ha & Hu)|[(j & Hk & HP & Ha & Hu)|(j & Hk & HP & Ha & Hu)]]; rewrite Ha, Hu, Hk;
    unfold accepts_progress in *; cbn in *; rewrite ?set_jobs_id.
  - by exists false.
  - exists false. by rewrite HP.
  - exists true. by rewrite HP.
Qed.

(** ExpireQueuedJobs moves exactly the queued jobs whose expiry has
    passed, returns exactly those, and leaves every other job alone. *)
Theorem ExpireQueuedJobs_exact `{!NoFaults E} now w :
  wp (ExpireQueuedJobs now) (fun r w' =>
    exists l, r = Ok l /\ only_db w w'
    /\ (forall j', j' ∈ l <-> exists id j e, t_jobs (w_db w) !! id = Some j /\ jState j = JobQueued
                                /\ jExpiresAt j = Some e /\ ms e <= ms now /\ j' = expire_row now j)
    /\ (forall id j, t_jobs (w_db w) !! id = Some j ->
          t_jobs (w_db w') !! id = Some (expire_row now j)
            /\ jState j = JobQueued /\ (exists e, jExpiresAt j = Some e /\ ms e <= ms now)
          \/ t_jobs (w_db w') !! id = Some j
            /\ (jState j = JobQueued -> forall e, jExpiresAt j = Some e -> ms now < ms e))
    /\ (forall id, t_jobs (w_db w) !! id = None -> t_jobs (w_db w') !! id = None)) w.
Proof.
  unfold ExpireQueuedJobs. wp_steps. eexists. split; [done|]. split; [done|].
  cbn. split; [|split].
  - intros j'. rewrite list_elem_of_In, in_map_iff. setoid_rewrite <- list_elem_of_In.
    setoid_rewrite elem_of_select. setoid_rewrite expired_by_spec. naive_solver.
  - intros id j Hj. rewrite lookup_update_where, Hj. cbn. destruct (expired_by now j) eqn:He.
    + left. split; [done|]. by apply expired_by_spec.
    + right. split; [done|]. intros Hq e Hexp. apply Z.nle_gt. intros Hle.
      rewrite (proj2 (expired_by_spec now j)) in He; [done | eauto].
  - intros id Hj. by rewrite lookup_update_where, Hj.
Qed.

(** ListJobs returns jobs of the table that match every given filter,
    newest first and at most the limit (100 by default); it leaves a
    matching job out only when the limit is reached. *)
Theorem ListJobs_spec `{!NoFaults E} f w :
  wp (ListJobs f) (fun r w' =>
    exists l, r = Ok l /\ w_db w' = w_db w
    /\ (forall j, j ∈ l -> job_matches f j = true /\ exists id, t_jobs (w_db w) !! id = Some j)
    /\ StronglySorted (fun a b => jCreatedAt b <= jCreatedAt a) l
    /\ (Z.of_nat (length l) <= effective_limit (fLimit f))
    /\ (Z.of_nat (length l) < effective_limit (fLimit f) ->
        forall id j, t_jobs (w_db w) !! id = Some j -> job_matches f j = true -> j ∈ l)) w.
Proof.
  unfold ListJobs. rewrite wp_read. eexists. split; [done|]. split; [done|].
  set (rows := order_by (fun j => - jCreatedAt j) (select (job_matches f) (t_jobs (w_db w)))).
  assert (forall j, j ∈ rows <-> job_matches f j = true /\ exists id, t_jobs (w_db w) !! id = Some j) as Hr.
  { intros j. unfold rows. rewrite elem_of_order_by. apply elem_of_select. }
  assert (0 < effective_limit (fLimit f)) as Hpos.
  { unfold effective_limit. destruct (Z.leb_spec (fLimit f) 0); lia. }
  split; [|split; [|split]].
  - intros j Hj. apply Hr. by eapply elem_of_take_sub.
  - apply sorted_take. eapply sorted_impl; [|apply order_by_sorted].
    unfold key_le. intros; lia.
  - rewrite length_take. lia.
  - rewrite length_take. intros Hl id j Hj Hm. rewrite take_ge by lia. apply Hr. eauto.
Qed.

Lemma wp_ConsumePairing `{!NoFaults E} code now Q w :
  wp (ConsumePairing code now) Q w <->
  Q (scan (update_consume code now (w_db w)).1)
    (bump (set_db (update_consume code now (w_db w)).2 w)).
Proof. unfold ConsumePairing. apply wp_write. Qed.

(** A pairing code is consumed at most once: it yields its owner only
    while unused and unexpired, and after that every attempt, in every later
    state of the database, reports ErrNotFound. *)
Theorem ConsumePairing_once `{!NoFaults E} code now w :
  wp (ConsumePairing code now) (fun r w' =>
    match r with
    | Ok user =>
        (exists p, t_pairings (w_db w) !! code = Some p /\ gMMUserID p = user
           /\ gUsedAt p = None /\ ms now < ms (gExpiresAt p))
        /\ forall w2 now2, db_evolves (w_db w') (w_db w2) ->
             wp (ConsumePairing code now2) (fun r2 w3 => r2 = Err ErrNotFound /\ w_db w3 = w_db w2) w2
    | Err e =>
        e = ErrNotFound /\ w_db w' = w_db w
        /\ (forall p, t_pairings (w_db w) !! code = Some p -> gUsedAt p = None -> ms (gExpiresAt p) <= ms now)
    end) w.
Proof.
  rewrite wp_ConsumePairing. destruct (update_consume code now (w_db w)) as [r d] eqn:Hc.
  unfold update_consume in Hc.
  destruct (t_pairings (w_db w) !! code) as [p|] eqn:Hp.
  2: { injection Hc as <- <-. by repeat split. }
  destruct (pairing_usable now p) eqn:Hu; injection Hc as <- <-; cbn.
  2: { split; [done|]. split; [done|]. intros p' [= <-] Hn. apply Z.nlt_ge. intros Hlt.
       by rewrite (proj2 (pairing_usable_spec now p)) in Hu. }
  apply pairing_usable_spec in Hu. split; [by exists p|]. intros w2 now2 Hev. rewrite wp_ConsumePairing. unfold update_consume.
  destruct (ev_pairings _ _ Hev code (MkPairing (gMMUserID p) (gExpiresAt p) (Some (col_time now))))
    as (p2 & Hp2 & _ & _ & Hused); [apply lookup_insert_eq|].
  rewrite Hp2. unfold pairing_usable. rewrite Hused by done. done.
Qed.

(** An approval is decided by the first answer that arrives before it
    expires; every other answer gets ErrConflict, in every later state, and
    the recorded decision, decider and time never change again. *)
Theorem DecideApproval_first_wins `{!NoFaults E} id dec by_ at_ w :
  wp (DecideApproval id dec by_ at_) (fun r w' =>
    match r with
    | Ok a' =>
        (exists a, t_approvals (w_db w) !! id = Some a /\ ar_decision a = None
           /\ ms at_ < ms (aExpiresAt (ar_approval a)) /\ a' = scanApproval (decide_row dec by_ at_ a))
        /\ forall w2 dec2 by2 at2, db_evolves (w_db w') (w_db w2) ->
             wp (DecideApproval id dec2 by2 at2) (fun r2 w3 =>
               r2 = Err ErrConflict /\ w_db w3 = w_db w2
               /\ exists a2, t_approvals (w_db w3) !! id = Some a2
                    /\ ar_decision a2 = Some dec /\ ar_decided_by a2 = Some by_
                    /\ aDecidedAt (ar_approval a2) = Some (col_time at_)) w2
    | Err e =>
        w_db w' = w_db w /\
        match t_approvals (w_db w) !! id with
        | None => e = ErrNotFound
        | Some a => e = ErrConflict /\ (ar_decision a = None -> ms (aExpiresAt (ar_approval a)) <= ms at_)
        end
    end) w.
Proof.
  assert (forall id dec by_ at_ w (Q : res Approval -> World -> Prop),
    match t_approvals (w_db w) !! id with
    | None => forall w', w_db w' = w_db w -> Q (Err ErrNotFound) w'
    | Some a =>
        if decidable_at at_ a
        then forall w', w_db w' = set_approvals (<[id := decide_row dec by_ at_ a]> (t_approvals (w_db w))) (w_db w) ->
               Q (Ok (scanApproval (decide_row dec by_ at_ a))) w'
        else forall w', w_db w' = w_db w -> Q (Err ErrConflict) w'
    end -> wp (DecideApproval id dec by_ at_) Q w) as rule.
  { clear id dec by_ at_ w. intros id dec by_ at_ w Q. unfold DecideApproval. wp_steps. unfold update_decide.
    destruct (update_key_cases (decidable_at at_) (decide_row dec by_ at_) id (t_approvals (w_db w)))
      as [(Hk & Ha & Hu)|[(a & Hk & HP & Ha & Hu)|(a & Hk & HP & Ha & Hu)]]; cbn; rewrite Ha, Hu, Hk, ?HP;
      cbn; intros HQ; wp_steps; rewrite wp_ApprovalByID; cbn; rewrite ?lookup_insert_eq, ?Hk; cbn; wp_steps;
      apply HQ; cbn; by destruct (w_db w). }
  apply rule. destruct (t_approvals (w_db w) !! id) as [a|] eqn:Hk; [|by intros w' ->].
  destruct (decidable_at at_ a) eqn:HP.
  2: { intros w' ->. split; [done|]. split; [done|]. intros Hn. apply Z.nlt_ge. intros Hlt.
       by rewrite (proj2 (decidable_at_spec at_ a)) in HP. }
  apply decidable_at_spec in HP as [HP1 HP2].
  intros w' Hd. split; [by exists a|]. intros w2 dec2 by2 at2 Hev.
  destruct (ev_approvals _ _ Hev id (decide_row dec by_ at_ a)) as (a2 & Ha2 & _ & Hfinal).
  { rewrite Hd. apply lookup_insert_eq. }
  destruct Hfinal as (E1 & E2 & E3); [done|].
  apply rule. rewrite Ha2. unfold decidable_at, undecided. rewrite E1. cbn.
  intros w3 ->. rewrite Ha2. eauto 10.
Qed.

(** The pending outbox of a harness is exactly its unacknowledged
    messages, in the order they were created (by id within a millisecond). *)
Theorem PendingOutbox_spec `{!NoFaults E} harness w :
  wp (PendingOutbox harness) (fun r w' =>
    exists l, r = Ok l /\ w_db w' = w_db w
    /\ (forall m, m ∈ l <-> (exists id, t_outbox (w_db w) !! id = Some m)
                            /\ mHarnessID m = harness /\ mAckedAt m = None)
    /\ StronglySorted (fun a b => mCreatedAt a < mCreatedAt b
                         \/ (mCreatedAt a = mCreatedAt b /\ String.le (mID a) (mID b))) l) w.
Proof.
  unfold PendingOutbox. rewrite wp_read. eexists. split; [done|]. split; [done|]. split.
  - intros m. rewrite elem_of_order_by_id, elem_of_select, andb_true_iff, String.eqb_eq.
    unfold unacked. rewrite negb_true_iff, bool_decide_eq_false, <- eq_None_not_Some. naive_solver.
  - apply order_by_id_sorted.
Qed.

Lemma wp_fetch_read `{!NoFaults E} code now i w (Q : res InitRequest -> World -> Prop) :
  (now < iExpiresAt i -> Claimed i = true ->
     match t_inits (w_db w) !! code with
     | Some r =>
         if unfetched r then
           forall w' i', w_db w' = set_inits (<[code := fetch_row now r]> (t_inits (w_db w))) (w_db w) ->
             iHarnessToken i' = iHarnessToken i -> iHarnessID i' = iHarnessID i -> Claimed i' = true ->
             Q (Ok i') w'
         else forall w', w_db w' = w_db w -> Q (Err ErrConflict) w'
     | None => forall w', w_db w' = w_db w -> Q (Err ErrConflict) w'
     end) ->
  (now < iExpiresAt i -> Claimed i = false -> Q (Ok i) w) ->
  (iExpiresAt i <= now -> Q (Err ErrNotFound) w) ->
  wp (fetch_read code now i) Q w.
Proof.
  intros H1 H2 H3. unfold fetch_read. destruct (Z.ltb_spec now (iExpiresAt i)); cbn; [|by rewrite wp_ret; apply H3].
  destruct (Claimed i) eqn:Hc; cbn; [|rewrite wp_ret; auto]. specialize (H1 ltac:(done) eq_refl).
  wp_steps. unfold update_fetch.
  destruct (update_key_cases unfetched (fetch_row now) code (t_inits (w_db w)))
    as [(Hk & Ha & Hu)|[(r & Hk & HP & Ha & Hu)|(r & Hk & HP & Ha & Hu)]]; cbn; rewrite Ha, Hu; cbn;
    rewrite Hk, ?HP in H1; wp_steps; apply H1; cbn; try done; by destruct (w_db w).
Qed.

(** The harness token of an init request is handed out exactly once:
    after a claimed request was fetched, every other fetch of the code, also
    one that read the row before, ends without a token, in every later state
    of the database; and the token is erased from the table. *)
Theorem FetchInit_once `{!NoFaults E} code now w :
  wp (FetchInit code now) (fun r w' =>
    match r with
    | Ok i' =>
        (exists i, t_inits (w_db w) !! code = Some i /\ now < iExpiresAt i
           /\ iHarnessToken i' = iHarnessToken i /\ Claimed i' = Claimed i)
        /\ (Claimed i' = true -> forall w2 now2 seen, db_evolves (w_db w') (w_db w2) ->
             (exists i2, t_inits (w_db w2) !! code = Some i2 /\ iHarnessToken i2 = "")
             /\ wp (FetchInit code now2) (fun r2 _ => is_ok r2 = false) w2
             /\ (Claimed seen = true -> wp (fetch_read code now2 seen) (fun r2 _ => is_ok r2 = false) w2))
    | Err e => w_db w' = w_db w
    end) w.
Proof.
  unfold FetchInit at 1. rewrite wp_bind, wp_InitByCode.
  destruct (t_inits (w_db w) !! code) as [i|] eqn:Hi; cbn; [|by rewrite wp_ret].
  apply wp_fetch_read; cbn; rewrite ?Hi.
  3: done.
  2: { intros Ht Hc. split; [by exists i | by rewrite Hc]. }
  intros Ht Hc. destruct (unfetched i) eqn:Hf; [|by intros].
  intros w' i' Hd Htok _ Hc'. split; [exists i; by rewrite Hc', Hc|]. intros _ w2 now2 seen Hev.
  assert (exists i2, t_inits (w_db w2) !! code = Some i2 /\ unfetched i2 = false
            /\ iHarnessToken i2 = "" /\ Claimed i2 = true) as (i2 & Hi2 & Hf2 & Htok2 & Hc2).
  { destruct (ev_inits _ _ Hev code (fetch_row now i)) as (i2 & Hi2 & _ & _ & _ & Hcl & Hfe).
    { rewrite Hd. apply lookup_insert_eq. }
    apply bool_decide_eq_true in Hc. destruct (Hcl Hc) as (E1 & _ & _ & _ & E3).
    exists i2. split; [done|]. unfold unfetched, Claimed. rewrite Hfe, E1, E3 by done.
    rewrite bool_decide_true by done. repeat split. by apply bool_decide_eq_true. }
  split; [by exists i2|].
  assert (forall s (w3 : World), w_db w3 = w_db w2 -> Claimed s = true ->
            wp (fetch_read code now2 s) (fun r2 _ => is_ok r2 = false) w3) as H.
  { intros s w3 Hw3 Hs. apply wp_fetch_read; [|congruence|done]. intros _ _. by rewrite Hw3, Hi2, Hf2. }
  split; [|auto]. unfold FetchInit. rewrite wp_bind, wp_InitByCode, Hi2. by apply H.
Qed.

(** CompleteInit is all or nothing: on success the harness exists, the
    bot is bound to it and belongs to its owner, and the code is claimed with
    the token; on any error, faults included, the database is untouched; and
    the code can never be completed a second time. *)
Theorem CompleteInit_atomic code now h bot token w :
  wp (CompleteInit code now h bot token) (fun r w' =>
    match r with
    | Ok _ =>
        (exists i b, t_inits (w_db w) !! code = Some i /\ now < iExpiresAt i /\ Claimed i = false
           /\ t_bots (w_db w) !! bot = Some b /\ br_harness_id b = None
           /\ bMMUserID (br_bot b) = hMMUserID h
           /\ t_harnesses (w_db w) !! hID h = None
           /\ t_harnesses (w_db w') = <[hID h := harness_row h]> (t_harnesses (w_db w))
           /\ t_bots (w_db w') = <[bot := set_bot_harness (hID h) b]> (t_bots (w_db w))
           /\ t_inits (w_db w') = <[code := claim_row now (hID h) token bot i]> (t_inits (w_db w)))
        /\ forall w2 now2 h2 bot2 token2, db_evolves (w_db w') (w_db w2) ->
             wp (CompleteInit code now2 h2 bot2 token2) (fun r2 w3 => is_ok r2 = false /\ w_db w3 = w_db w2) w2
    | Err _ => w_db w' = w_db w
    end) w.
Proof.
  unfold CompleteInit at 1. rewrite wp_bind. apply wp_exec_fault; [intros msg; by rewrite wp_ret|].
  rewrite wp_ret. destruct (complete_init_tx code now h bot token (w_db w)) as [r d'] eqn:Hc. cbn.
  unfold complete_init_tx in Hc. destruct (t_inits (w_db w) !! code) as [i|] eqn:Hi; [|by simplify_eq].
  destruct (Z.ltb_spec now (iExpiresAt i)); cbn in Hc; [|by simplify_eq].
  destruct (Claimed i) eqn:Hcl; [by simplify_eq|].
  destruct (t_bots (w_db w) !! bot) as [b|] eqn:Hb; [|by simplify_eq].
  destruct (String.eqb_spec (bMMUserID (br_bot b)) (hMMUserID h)) as [Ho|]; cbn in Hc; [|by simplify_eq].
  destruct (bool_decide (is_Some (br_harness_id b))) eqn:Hh; [by simplify_eq|].
  apply is_Some_bool in Hh. unfold insert_harness in Hc.
  destruct (bool_decide (is_Some (t_harnesses (w_db w) !! hID h))) eqn:Hk; [by simplify_eq|].
  apply is_Some_bool in Hk. destruct (exists_row _ _); [by simplify_eq|]. injection Hc as <- <-. cbn.
  split; [exists i, b; auto 20|]. intros w2 now2 h2 bot2 token2 Hev.
  destruct (ev_inits _ _ Hev code (claim_row now (hID h) token bot i)) as (i2 & Hi2 & _ & _ & _ & Hcl2 & _).
  { cbn. apply lookup_insert_eq. }
  unfold CompleteInit. rewrite wp_bind. apply wp_exec_fault; [intros msg; by rewrite wp_ret|].
  rewrite wp_ret. unfold complete_init_tx. rewrite Hi2. unfold Claimed.
  rewrite (proj1 (Hcl2 ltac:(done))). cbn. by destruct (now2 <? iExpiresAt i2).
Qed.
End Promises.
