(* ===== verification/Contract.v ===== *)
(** * The contract of the store ([internal/store/store.go])

    The interfaces of the source as types of calls, one constructor per
    method, and for every call what it promises: a relation between the
    database before, the result and the database after.  The promises are
    stated on the tables and do not mention the statements; [store_call] says
    which program of [Sqlite.v] carries a call out, and [ContractFacts.v]
    proves that it does so at one instant.  [Close] ends the store and is
    outside. *)

From S2P Require Import Prelude Resume GoText Json Protocol Store Tables World Sqlite Integrity.

Open Scope Z_scope.
Open Scope prog_scope.

(** ** The calls *)

Inductive HarnessStore : Type -> Type :=
| call_CreateHarness (h : Harness) : HarnessStore unit
| call_HarnessByID (id : string) : HarnessStore Harness
| call_HarnessByTokenHash (hash : string) : HarnessStore Harness
| call_HarnessesByUser (mmUserID : string) : HarnessStore (list Harness)
| call_TouchHarness (id : string) (seenAt : Time) (version : string) : HarnessStore unit
| call_DeleteHarness (id : string) : HarnessStore unit.

Inductive PairingStore : Type -> Type :=
| call_CreatePairing (codeHash mmUserID : string) (expiresAt : Time) : PairingStore unit
| call_ConsumePairing (codeHash : string) (now : Time) : PairingStore string.

Inductive JobStore : Type -> Type :=
| call_CreateJob (j : Job) : JobStore unit
| call_JobByID (id : string) : JobStore Job
| call_ListJobs (f : JobFilter) : JobStore (list Job)
| call_ActiveJobsByHarness (harnessID : string) : JobStore (list Job)
| call_TransitionJob (id : string) (from : list JobState) (to : JobState) (patch : JobPatch) : JobStore Job
| call_RecordProgress (id : string) (seq : Z) : JobStore bool
| call_ExpireQueuedJobs (now : Time) : JobStore (list Job).

Inductive ApprovalStore : Type -> Type :=
| call_CreateApproval (a : Approval) : ApprovalStore unit
| call_ApprovalByID (id : string) : ApprovalStore Approval
| call_PendingApprovalsByJob (jobID : string) : ApprovalStore (list Approval)
| call_DecideApproval (id d by_ : string) (at_ : Time) : ApprovalStore Approval.

Inductive OutboxStore : Type -> Type :=
| call_Enqueue (m : OutboxMessage) : OutboxStore unit
| call_PendingOutbox (harnessID : string) : OutboxStore (list OutboxMessage)
| call_AckOutbox (msgID : string) (at_ : Time) : OutboxStore unit
| call_PurgeOutbox (ackedBefore : Time) : OutboxStore Z.

Inductive BotStore : Type -> Type :=
| call_CreateBot (b : Bot) : BotStore unit
| call_BotByOwner (mmUserID : string) : BotStore Bot
| call_BotByUserID (botUserID : string) : BotStore Bot
| call_ListBots : BotStore (list Bot)
| call_BotsByOwner (mmUserID : string) : BotStore (list Bot)
| call_BotByUsername (username : string) : BotStore Bot
| call_UpdateBot (b : Bot) : BotStore unit
| call_DeleteBot (botUserID : string) : BotStore unit.

Inductive InstallationStore : Type -> Type :=
| call_SaveInstallation (i : Installation) : InstallationStore unit
| call_InstallationByTeam (teamID : string) : InstallationStore Installation
| call_ListInstallations : InstallationStore (list Installation).

Inductive InitStore : Type -> Type :=
| call_CreateInit (r : InitRequest) : InitStore unit
| call_InitByCode (codeHash : string) : InitStore InitRequest
| call_ClaimInit (codeHash : string) (now : Time) (harnessID harnessToken : string) : InitStore unit
| call_FetchInit (codeHash : string) (now : Time) : InitStore InitRequest
| call_InitByHarness (harnessID : string) : InitStore InitRequest
| call_CompleteInit (codeHash : string) (now : Time) (h : Harness) (botUserID token : string) : InitStore unit.

Inductive AuditStore : Type -> Type :=
| call_Append (e : AuditEntry) : AuditStore unit.

(** [store.Store] embeds the interfaces above. *)
Inductive StoreCall (A : Type) : Type :=
| on_harnesses (c : HarnessStore A)
| on_pairings (c : PairingStore A)
| on_jobs (c : JobStore A)
| on_approvals (c : ApprovalStore A)
| on_outbox (c : OutboxStore A)
| on_bots (c : BotStore A)
| on_inits (c : InitStore A)
| on_audit (c : AuditStore A)
| on_installations (c : InstallationStore A).
Arguments on_harnesses {A} c.
Arguments on_pairings {A} c.
Arguments on_jobs {A} c.
Arguments on_approvals {A} c.
Arguments on_outbox {A} c.
Arguments on_bots {A} c.
Arguments on_inits {A} c.
Arguments on_audit {A} c.
Arguments on_installations {A} c.

(** ** The implementation of each call: the sqlite store *)

Section Implementation.
Context {E : Env}.

Definition harness_call {A} (c : HarnessStore A) : prog World (res A) :=
  match c in HarnessStore A return prog World (res A) with
  | call_CreateHarness h => CreateHarness h
  | call_HarnessByID id => HarnessByID id
  | call_HarnessByTokenHash hash => HarnessByTokenHash hash
  | call_HarnessesByUser user => HarnessesByUser user
  | call_TouchHarness id seenAt version => TouchHarness id seenAt version
  | call_DeleteHarness id => DeleteHarness id
  end.

Definition pairing_call {A} (c : PairingStore A) : prog World (res A) :=
  match c in PairingStore A return prog World (res A) with
  | call_CreatePairing code user expiresAt => CreatePairing code user expiresAt
  | call_ConsumePairing code now => ConsumePairing code now
  end.

Definition job_call {A} (c : JobStore A) : prog World (res A) :=
  match c in JobStore A return prog World (res A) with
  | call_CreateJob j => CreateJob j
  | call_JobByID id => JobByID id
  | call_ListJobs f => ListJobs f
  | call_ActiveJobsByHarness id => ActiveJobsByHarness id
  | call_TransitionJob id from to p => TransitionJob id from to p
  | call_RecordProgress id seq => RecordProgress id seq
  | call_ExpireQueuedJobs now => ExpireQueuedJobs now
  end.

Definition approval_call {A} (c : ApprovalStore A) : prog World (res A) :=
  match c in ApprovalStore A return prog World (res A) with
  | call_CreateApproval a => CreateApproval a
  | call_ApprovalByID id => ApprovalByID id
  | call_PendingApprovalsByJob id => PendingApprovalsByJob id
  | call_DecideApproval id d by_ at_ => DecideApproval id d by_ at_
  end.

Definition outbox_call {A} (c : OutboxStore A) : prog World (res A) :=
  match c in OutboxStore A return prog World (res A) with
  | call_Enqueue m => Enqueue m
  | call_PendingOutbox id => PendingOutbox id
  | call_AckOutbox id at_ => AckOutbox id at_
  | call_PurgeOutbox t => PurgeOutbox t
  end.

Definition bot_call {A} (c : BotStore A) : prog World (res A) :=
  match c in BotStore A return prog World (res A) with
  | call_CreateBot b => CreateBot b
  | call_BotByOwner owner => BotByOwner owner
  | call_BotByUserID id => BotByUserID id
  | call_ListBots => ListBots
  | call_BotsByOwner owner => BotsByOwner owner
  | call_BotByUsername name => BotByUsername name
  | call_UpdateBot b => UpdateBot b
  | call_DeleteBot id => DeleteBot id
  end.

Definition installation_call {A} (c : InstallationStore A) : prog World (res A) :=
  match c in InstallationStore A return prog World (res A) with
  | call_SaveInstallation i => SaveInstallation i
  | call_InstallationByTeam team => InstallationByTeam team
  | call_ListInstallations => ListInstallations
  end.

Definition init_call {A} (c : InitStore A) : prog World (res A) :=
  match c in InitStore A return prog World (res A) with
  | call_CreateInit r => CreateInit r
  | call_InitByCode code => InitByCode code
  | call_ClaimInit code now harness token => ClaimInit code now harness token
  | call_FetchInit code now => FetchInit code now
  | call_InitByHarness harness => InitByHarness harness
  | call_CompleteInit code now h bot token => CompleteInit code now h bot token
  end.

Definition audit_call {A} (c : AuditStore A) : prog World (res A) :=
  match c in AuditStore A return prog World (res A) with
  | call_Append e => Append e
  end.

Definition store_call {A} (c : StoreCall A) : prog World (res A) :=
  match c with
  | on_harnesses c => harness_call c
  | on_pairings c => pairing_call c
  | on_jobs c => job_call c
  | on_approvals c => approval_call c
  | on_outbox c => outbox_call c
  | on_bots c => bot_call c
  | on_inits c => init_call c
  | on_audit c => audit_call c
  | on_installations c => installation_call c
  end.
End Implementation.

(** ** Shapes of promises *)

(** A row of a table, as the caller sees it. *)
Definition in_table {R A} (view : R -> A) (P : R -> Prop) (t : gmap string R) (a : A) : Prop :=
  exists k r, t !! k = Some r /\ P r /\ a = view r.

(** A read changes nothing: the row with a key, *)
Definition reads_row {A} (o : option A) (d : DB) (r : res A) (d' : DB) : Prop :=
  d' = d /\ r = match o with Some a => Ok a | None => Err ErrNotFound end.

(** the least of the things with [P], *)
Definition reads_least {A} (P : A -> Prop) (before : A -> A -> Prop) (d : DB) (r : res A) (d' : DB) : Prop :=
  d' = d /\ match r with
            | Ok a => P a /\ forall b, P b -> before a b
            | Err e => e = ErrNotFound /\ forall a, ~ P a
            end.

(** or all of them, in order. *)
Definition reads_all {A} (P : A -> Prop) (before : A -> A -> Prop) (d : DB) (r : res (list A)) (d' : DB) : Prop :=
  d' = d /\ exists l, r = Ok l /\ (forall a, a ∈ l <-> P a) /\ StronglySorted before l.

(** A foreign key is violated. *)
Definition ErrReference : error := ErrOther (sql_text SqlForeignKey).

(** An insertion: [taken] when the row would break uniqueness, [refs] says
    that what it refers to exists. *)
Definition adds (taken refs : Prop) (after d : DB) (r : res unit) (d' : DB) : Prop :=
  match r with
  | Ok _ => ~ taken /\ refs /\ d' = after
  | Err ErrConflict => taken /\ d' = d
  | Err e => e = ErrReference /\ ~ refs /\ d' = d
  end.

(** ** What the calls promise

    The errors of a database file in trouble are left to [outcome] below. *)

Definition harness_contract {A} (c : HarnessStore A) : DB -> res A -> DB -> Prop :=
  match c in HarnessStore A return DB -> res A -> DB -> Prop with
  | call_CreateHarness h => fun d =>
      adds (is_Some (t_harnesses d !! hID h)
            \/ exists k r, t_harnesses d !! k = Some r /\ hTokenHash r = hTokenHash h) True
           (set_harnesses (<[hID h := harness_row h]> (t_harnesses d)) d) d
  | call_HarnessByID id => fun d => reads_row (t_harnesses d !! id) d
  | call_HarnessByTokenHash hash => fun d =>
      reads_least (in_table id (fun h => hTokenHash h = hash) (t_harnesses d)) (fun _ _ => True) d
  | call_HarnessesByUser user => fun d =>
      reads_all (in_table id (fun h => hMMUserID h = user) (t_harnesses d))
        (fun a b => hCreatedAt a <= hCreatedAt b) d
  | call_TouchHarness id seenAt version => fun d r d' =>
      match r with
      | Ok _ => exists h, t_harnesses d !! id = Some h
                  /\ d' = set_harnesses (<[id := touch_row seenAt version h]> (t_harnesses d)) d
      | Err e => e = ErrNotFound /\ t_harnesses d !! id = None /\ d' = d
      end
  | call_DeleteHarness id => fun d r d' =>
      match r with
      | Ok _ => is_Some (t_harnesses d !! id)
                /\ (forall k j, t_jobs d !! k = Some j -> jHarnessID j <> id)
                /\ (forall k b, t_bots d !! k = Some b -> br_harness_id b <> Some id)
                /\ d' = set_harnesses (delete id (t_harnesses d)) d
      | Err ErrNotFound => t_harnesses d !! id = None /\ d' = d
      | Err e => e = ErrReference /\ d' = d
                 /\ ((exists k j, t_jobs d !! k = Some j /\ jHarnessID j = id)
                     \/ exists k b, t_bots d !! k = Some b /\ br_harness_id b = Some id)
      end
  end.

(** A code is consumed by the first who asks in time. *)
Definition pairing_contract {A} (c : PairingStore A) : DB -> res A -> DB -> Prop :=
  match c in PairingStore A return DB -> res A -> DB -> Prop with
  | call_CreatePairing code user expiresAt => fun d =>
      adds (is_Some (t_pairings d !! code)) True
        (set_pairings (<[code := MkPairing user (col_time expiresAt) None]> (t_pairings d)) d) d
  | call_ConsumePairing code now => fun d r d' =>
      match r with
      | Ok user => exists p, t_pairings d !! code = Some p /\ gUsedAt p = None
                     /\ ms now < ms (gExpiresAt p) /\ user = gMMUserID p
                     /\ d' = set_pairings (<[code := MkPairing user (gExpiresAt p) (Some (col_time now))]>
                               (t_pairings d)) d
      | Err e => e = ErrNotFound /\ d' = d
                 /\ forall p, t_pairings d !! code = Some p ->
                      is_Some (gUsedAt p) \/ ms (gExpiresAt p) <= ms now
      end
  end.

(** At most [n] rows, newest first; all of them when there are fewer. *)
Definition lists_newest (P : Job -> Prop) (n : Z) (d : DB) (r : res (list Job)) (d' : DB) : Prop :=
  d' = d /\ exists l, r = Ok l
  /\ (forall j, j ∈ l -> in_table id P (t_jobs d) j)
  /\ StronglySorted (fun x y => jCreatedAt y <= jCreatedAt x) l
  /\ Z.of_nat (length l) <= n
  /\ (Z.of_nat (length l) < n -> forall j, in_table id P (t_jobs d) j -> j ∈ l).

(** [TransitionJob] is a compare-and-set.  It reads the row again after its
    update, so the caller may get a later version of it ([Integrity.job_le]):
    [later] is what other goroutines may have made of the row meanwhile. *)
Definition job_contract (later : Job -> Job -> Prop) {A} (c : JobStore A) : DB -> res A -> DB -> Prop :=
  match c in JobStore A return DB -> res A -> DB -> Prop with
  | call_CreateJob j => fun d =>
      adds (is_Some (t_jobs d !! jID j)
            \/ exists k r, t_jobs d !! k = Some r /\ same_trigger j r = true)
           (is_Some (t_harnesses d !! jHarnessID j))
           (set_jobs (<[jID j := job_row j]> (t_jobs d)) d) d
  | call_JobByID id => fun d => reads_row (t_jobs d !! id) d
  | call_ListJobs f => fun d =>
      lists_newest (fun j => job_matches f j = true) (effective_limit (fLimit f)) d
  | call_ActiveJobsByHarness harness => fun d r d' =>
      harness <> "" ->
      lists_newest (fun j => jHarnessID j = harness /\ Terminal (jState j) = false) 1000 d r d'
  | call_TransitionJob id from to p => fun d r d' =>
      match r with
      | Ok j' => exists j now, t_jobs d !! id = Some j /\ jState j ∈ from
                   /\ d' = set_jobs (<[id := transition_row to p now j]> (t_jobs d)) d
                   /\ later (transition_row to p now j) j'
      | Err ErrConflict => d' = d /\ forall j, t_jobs d !! id = Some j -> jState j ∉ from
      | Err e => e = ErrNotFound /\ d' = d /\ t_jobs d !! id = None
      end
  | call_RecordProgress id seq => fun d r d' =>
      match r with
      | Ok true => exists j now, t_jobs d !! id = Some j /\ jLastSeq j < seq
                     /\ jState j ∈ [JobRunning; JobAwaitingApproval]
                     /\ d' = set_jobs (<[id := progress_row seq now j]> (t_jobs d)) d
      | Ok false => d' = d /\ forall j, t_jobs d !! id = Some j ->
                      seq <= jLastSeq j \/ jState j ∉ [JobRunning; JobAwaitingApproval]
      | Err _ => False
      end
  | call_ExpireQueuedJobs now => fun d r d' =>
      exists l, r = Ok l
      /\ (forall j', j' ∈ l <-> in_table (expire_row now) (fun j => expired_by now j = true) (t_jobs d) j')
      /\ (forall k, t_jobs d' !! k =
            (fun j => if expired_by now j then expire_row now j else j) <$> t_jobs d !! k)
      /\ d' = set_jobs (t_jobs d') d
  end.

(** The first decision in time wins. *)
Definition approval_contract (later : ApprovalRow -> ApprovalRow -> Prop) {A} (c : ApprovalStore A)
    : DB -> res A -> DB -> Prop :=
  match c in ApprovalStore A return DB -> res A -> DB -> Prop with
  | call_CreateApproval a => fun d =>
      adds (is_Some (t_approvals d !! aID a)) (is_Some (t_jobs d !! aJobID a))
        (set_approvals (<[aID a := approval_row a]> (t_approvals d)) d) d
  | call_ApprovalByID id => fun d => reads_row (scanApproval <$> t_approvals d !! id) d
  | call_PendingApprovalsByJob job => fun d =>
      reads_all (in_table scanApproval
                   (fun r => aJobID (ar_approval r) = job /\ ar_decision r = None) (t_approvals d))
        (fun a b => aRequestedAt a <= aRequestedAt b) d
  | call_DecideApproval id dec by_ at_ => fun d r d' =>
      match r with
      | Ok a' => exists a row, t_approvals d !! id = Some a /\ ar_decision a = None
                   /\ ms at_ < ms (aExpiresAt (ar_approval a))
                   /\ d' = set_approvals (<[id := decide_row dec by_ at_ a]> (t_approvals d)) d
                   /\ later (decide_row dec by_ at_ a) row /\ a' = scanApproval row
      | Err ErrConflict => d' = d /\ forall a, t_approvals d !! id = Some a ->
                             is_Some (ar_decision a) \/ ms (aExpiresAt (ar_approval a)) <= ms at_
      | Err e => e = ErrNotFound /\ d' = d /\ t_approvals d !! id = None
      end
  end.

Definition outbox_contract {A} (c : OutboxStore A) : DB -> res A -> DB -> Prop :=
  match c in OutboxStore A return DB -> res A -> DB -> Prop with
  | call_Enqueue m => fun d =>
      adds (is_Some (t_outbox d !! mID m)) True
        (set_outbox (<[mID m := outbox_row m]> (t_outbox d)) d) d
  | call_PendingOutbox harness => fun d =>
      reads_all (in_table id (fun m => mHarnessID m = harness /\ mAckedAt m = None) (t_outbox d))
        (fun a b => mCreatedAt a < mCreatedAt b
                    \/ (mCreatedAt a = mCreatedAt b /\ String.le (mID a) (mID b))) d
  | call_AckOutbox id at_ => fun d r d' =>
      r = Ok tt
      /\ d' = set_outbox (alter (fun m => if mAckedAt m then m else ack_row at_ m) id (t_outbox d)) d
  | call_PurgeOutbox t => fun d r d' =>
      exists n, r = Ok n
      /\ (forall k m, t_outbox d' !! k = Some m <->
            t_outbox d !! k = Some m /\ forall a, mAckedAt m = Some a -> ms t <= ms a)
      /\ n + Z.of_nat (size (t_outbox d')) = Z.of_nat (size (t_outbox d))
      /\ d' = set_outbox (t_outbox d') d
  end.

(** The harness a bot is to be bound to, if any, exists and has its owner. *)
Definition own_harness (b : Bot) (d : DB) : Prop :=
  bHarnessID b = "" \/ exists h, t_harnesses d !! bHarnessID b = Some h /\ hMMUserID h = bMMUserID b.
Definition foreign_harness (b : Bot) (d : DB) : Prop :=
  bHarnessID b <> "" /\ exists h, t_harnesses d !! bHarnessID b = Some h /\ hMMUserID h <> bMMUserID b.
Definition no_harness (b : Bot) (d : DB) : Prop :=
  bHarnessID b <> "" /\ t_harnesses d !! bHarnessID b = None.

Definition bot_contract {A} (c : BotStore A) : DB -> res A -> DB -> Prop :=
  match c in BotStore A return DB -> res A -> DB -> Prop with
  | call_CreateBot b => fun d r d' =>
      let taken := is_Some (t_bots d !! bUserID b)
                   \/ exists k o, t_bots d !! k = Some o /\ bUsername (br_bot o) = bUsername b in
      match r with
      | Ok _ => ~ taken /\ own_harness b d /\ d' = set_bots (<[bUserID b := bot_row b]> (t_bots d)) d
      | Err ErrConflict => (taken \/ foreign_harness b d) /\ d' = d
      | Err e => e = ErrNotFound /\ no_harness b d /\ d' = d
      end
  | call_BotByOwner owner => fun d =>
      reads_least (in_table scanBot (fun r => bMMUserID (br_bot r) = owner) (t_bots d))
        (key_id_le bCreatedAt bUserID) d
  | call_BotByUserID id => fun d => reads_row (scanBot <$> t_bots d !! id) d
  | call_ListBots => fun d =>
      reads_all (in_table scanBot (fun _ => True) (t_bots d)) (fun a b => bCreatedAt a <= bCreatedAt b) d
  | call_BotsByOwner owner => fun d =>
      reads_all (in_table scanBot (fun r => bMMUserID (br_bot r) = owner) (t_bots d))
        (key_id_le bCreatedAt bUserID) d
  | call_BotByUsername name => fun d =>
      reads_least (in_table scanBot (fun r => bUsername (br_bot r) = name) (t_bots d)) (fun _ _ => True) d
  | call_UpdateBot b => fun d r d' =>
      match r with
      | Ok _ => own_harness b d
                /\ exists o, t_bots d !! bUserID b = Some o /\ bMMUserID (br_bot o) = bMMUserID b
                     /\ (br_harness_id o = None \/ br_harness_id o = Some (bHarnessID b))
                     /\ d' = set_bots (<[bUserID b := rebound_row b o]> (t_bots d)) d
      | Err ErrConflict =>
          (foreign_harness b d
           \/ forall o, t_bots d !! bUserID b = Some o -> bMMUserID (br_bot o) = bMMUserID b ->
                exists h, br_harness_id o = Some h /\ h <> bHarnessID b) /\ d' = d
      | Err e => e = ErrNotFound /\ no_harness b d /\ d' = d
      end
  | call_DeleteBot id => fun d r d' =>
      match r with
      | Ok _ => is_Some (t_bots d !! id) /\ d' = set_bots (delete id (t_bots d)) d
      | Err e => e = ErrNotFound /\ t_bots d !! id = None /\ d' = d
      end
  end.

Definition installation_contract {A} (c : InstallationStore A) : DB -> res A -> DB -> Prop :=
  match c in InstallationStore A return DB -> res A -> DB -> Prop with
  | call_SaveInstallation i => fun d r d' =>
      r = Ok tt /\ d' = set_installations (<[nTeamID i := i]> (t_installations d)) d
  | call_InstallationByTeam team => fun d => reads_row (t_installations d !! team) d
  | call_ListInstallations => fun d =>
      reads_all (in_table id (fun _ => True) (t_installations d)) (text_le nTeamID) d
  end.

(** A code is claimed once, and the token of a claimed code is handed out once. *)
Definition init_contract {A} (c : InitStore A) : DB -> res A -> DB -> Prop :=
  match c in InitStore A return DB -> res A -> DB -> Prop with
  | call_CreateInit r => fun d =>
      adds (is_Some (t_inits d !! iCodeHash r)) True
        (set_inits (<[iCodeHash r := init_row r]> (t_inits d)) d) d
  | call_InitByCode code => fun d => reads_row (t_inits d !! code) d
  | call_ClaimInit code now harness token => fun d r d' =>
      match r with
      | Ok _ => exists i, t_inits d !! code = Some i /\ Claimed i = false /\ ms now < ms (iExpiresAt i)
                  /\ d' = set_inits (<[code := claim_row now harness token (iBotUserID i) i]> (t_inits d)) d
      | Err e => (e = ErrNotFound \/ e = ErrConflict) /\ d' = d
                 /\ forall i, t_inits d !! code = Some i -> Claimed i = true \/ ms (iExpiresAt i) <= ms now
      end
  | call_FetchInit code now => fun d r d' =>
      match r with
      | Ok i' => exists i, t_inits d !! code = Some i /\ now < iExpiresAt i /\ Claimed i' = Claimed i
                   /\ iHarnessToken i' = iHarnessToken i /\ iHarnessID i' = iHarnessID i
                   /\ iBotUserID i' = iBotUserID i /\ iPollTokenHash i' = iPollTokenHash i
                   /\ if Claimed i then unfetched i = true
                                        /\ d' = set_inits (<[code := fetch_row now i]> (t_inits d)) d
                      else i' = i /\ d' = d
      | Err ErrConflict => d' = d /\ exists i, t_inits d !! code = Some i /\ Claimed i = true
                                         /\ unfetched i = false
      | Err e => e = ErrNotFound /\ d' = d
                 /\ forall i, t_inits d !! code = Some i -> iExpiresAt i <= now
      end
  | call_InitByHarness harness => fun d =>
      reads_least (in_table id (fun i => iHarnessID i = harness) (t_inits d))
        (fun a b => iCreatedAt b <= iCreatedAt a) d
  | call_CompleteInit code now h bot token => fun d r d' =>
      match r with
      | Ok _ => exists i b, t_inits d !! code = Some i /\ now < iExpiresAt i /\ Claimed i = false
                  /\ t_bots d !! bot = Some b /\ br_harness_id b = None
                  /\ bMMUserID (br_bot b) = hMMUserID h /\ t_harnesses d !! hID h = None
                  /\ d' = set_inits (<[code := claim_row now (hID h) token bot i]> (t_inits d))
                            (set_bots (<[bot := set_bot_harness (hID h) b]> (t_bots d))
                              (set_harnesses (<[hID h := harness_row h]> (t_harnesses d)) d))
      | Err ErrConflict => d' = d
          /\ ((exists i, t_inits d !! code = Some i /\ Claimed i = true)
              \/ (exists b, t_bots d !! bot = Some b
                    /\ (is_Some (br_harness_id b) \/ bMMUserID (br_bot b) <> hMMUserID h))
              \/ is_Some (t_harnesses d !! hID h)
              \/ exists k r, t_harnesses d !! k = Some r /\ hTokenHash r = hTokenHash h)
      | Err e => e = ErrNotFound /\ d' = d
          /\ (t_bots d !! bot = None \/ forall i, t_inits d !! code = Some i -> iExpiresAt i <= now)
      end
  end.

(** The audit log only grows. *)
Definition audit_contract {A} (c : AuditStore A) : DB -> res A -> DB -> Prop :=
  match c in AuditStore A return DB -> res A -> DB -> Prop with
  | call_Append e => fun d r d' =>
      r = Ok tt /\ exists at_, (eAt e <> zero_time -> at_ = eAt e)
      /\ d' = set_audit (t_audit d ++ [MkAuditEntry (col_time at_) (eActor e) (eAction e) (eJobID e) (eDetails e)]) d
  end.

Definition contract {A} (c : StoreCall A) : DB -> res A -> DB -> Prop :=
  match c with
  | on_harnesses c => harness_contract c
  | on_pairings c => pairing_contract c
  | on_jobs c => job_contract job_le c
  | on_approvals c => approval_contract approval_le c
  | on_outbox c => outbox_contract c
  | on_bots c => bot_contract c
  | on_inits c => init_contract c
  | on_audit c => audit_contract c
  | on_installations c => installation_contract c
  end.

(** The calls that read the row again after they have changed it: when that
    read fails the caller gets an error although the change is made. *)
Definition rereads {A} (c : StoreCall A) : bool :=
  match c with
  | on_jobs (call_TransitionJob _ _ _ _) | on_approvals (call_DecideApproval _ _ _ _) => true
  | _ => false
  end.

(** The promise, or trouble with the database file and nothing changed. *)
Definition outcome {E : Env} {A} (c : StoreCall A) (d : DB) (r : res A) (d' : DB) : Prop :=
  contract c d r d'
  \/ exists t msg, db_fault t = Some msg /\ r = Err (ErrOther msg)
     /\ (d' = d \/ (rereads c = true /\ exists a, contract c d (Ok a) d')).

(** How a call can end without such a point: in trouble with the database file
    before it, or refused for its arguments. *)
Definition refused {E : Env} {A} (c : StoreCall A) (r : res A) : Prop :=
  (exists t msg, db_fault t = Some msg /\ r = Err (ErrOther msg))
  \/ match c with
     | on_jobs (call_TransitionJob _ [] _ _) => is_ok r = false
     | _ => False
     end.
