(* ===== verification/CoreText.v ===== *)
(** * The texts of the broker core ([core.go], [onboarding.go])

    Parsing of what users write (mentions, [ws:] and [agent:] tokens, bot
    names), the messages the broker posts, and the digests of codes and
    tokens.  All of it is pure. *)

From S2P Require Import Prelude GoText Codec Json Protocol Store World.

Open Scope Z_scope.

(** ** Durations as text ([time.Duration.String], [Round]) *)

Definition duration_text (d : Duration) : string :=
  let u := Z.abs d in
  let body :=
    if u =? 0 then "0s"
    else if u <? 1000 then Itoa u +:+ "ns"
    else if u <? 1000000 then Itoa (u / 1000) +:+ frac_text 3 (u mod 1000) +:+ "µs"
    else if u <? 1000000000 then Itoa (u / 1000000) +:+ frac_text 6 (u mod 1000000) +:+ "ms"
    else
      let secs := u / 1000000000 in
      let tail := Itoa (secs mod 60) +:+ frac_text 9 (u mod 1000000000) +:+ "s" in
      let mins := secs / 60 in
      if mins =? 0 then tail
      else
        let tail := Itoa (mins mod 60) +:+ "m" +:+ tail in
        if mins / 60 =? 0 then tail else Itoa (mins / 60) +:+ "h" +:+ tail
  in if d <? 0 then "-" +:+ body else body.

(** [d.Round(m)], half away from zero, saturating at the ends of int64. *)
Definition duration_round (d m : Duration) : Duration :=
  let r := Z.rem d m in
  if d <? 0 then
    if - r + - r <? m then d - r
    else if - 2 ^ 63 <=? d - m - r then d - m - r else - 2 ^ 63
  else
    if r + r <? m then d - r
    else if d + m - r <=? maxInt64 then d + m - r else maxInt64.

Example duration_minutes : duration_text (5 * minute) = "5m0s".
Proof. vm_compute. reflexivity. Qed.
Example duration_mixed : duration_text (1200 * millisecond) = "1.2s".
Proof. vm_compute. reflexivity. Qed.
Example duration_hours : duration_text (25 * hour + 90 * second + 5) = "25h1m30.000000005s".
Proof. vm_compute. reflexivity. Qed.

(** The verb [%.2f] on a value: two decimals, ties to even. *)
Definition cents (q : Q) : Z :=
  let n := Qnum q * 100 in
  let d := Zpos (Qden q) in
  let k := n / d in
  let r := n mod d in
  if 2 * r <? d then k else if d <? 2 * r then k + 1 else if Z.even k then k else k + 1.
Definition two_decimals (q : Q) : string :=
  let c := cents q in
  Itoa (c / 100) +:+ "." +:+ Itoa (c mod 100 / 10) +:+ Itoa (c mod 10).

Example two_decimals_ex : two_decimals (1234 # 1000) = "1.23".
Proof. vm_compute. reflexivity. Qed.

(** ** Mentions *)

Definition is_lower (b : Z) : bool := in_range 97 b 122.
Definition is_digit (b : Z) : bool := in_range 48 b 57.
Definition is_alnum (b : Z) : bool := in_range 65 b 90 || is_lower b || is_digit b.
Definition is_word (b : Z) : bool := is_alnum b || (b =? 95).
(** [[A-Za-z0-9._-]] *)
Definition is_name_byte (b : Z) : bool := is_alnum b || (b =? 46) || (b =? 95) || (b =? 45).

(** The matches of [mentionRegex], left to right.  A match may begin at the
    start of the text or at a character that is no word character and no part
    of the match before: [free] says that there is one.  [at_sign] says that
    the last byte was an [@] that may begin a name, [name] is the name read so
    far. *)
Fixpoint scan_mentions (free at_sign : bool) (name : list Z) (l : list Z) : list (list Z) :=
  match l with
  | [] => match name with [] => [] | _ => [name] end
  | b :: l' =>
      match name with
      | _ :: _ =>
          if is_name_byte b then scan_mentions false false (name ++ [b]) l'
          else name :: scan_mentions (negb (is_word b)) false [] l'
      | [] =>
          if at_sign && is_alnum b then scan_mentions false false [b] l'
          else scan_mentions (negb (is_word b)) ((b =? 64) && free) [] l'
      end
  end.

Definition mention_matches (text : string) : list string :=
  map str_of (scan_mentions true false [] (bytes_of text)).

(** [mentionedNames]: the set as a list. *)
Definition mentionedNames (text : string) : list string :=
  List.filter (fun n => negb (String.eqb n ""))
    (map (fun m => ToLower (TrimRight m ".,;:!?-_")) (mention_matches text)).

(** [names[n]] *)
Definition is_mentioned (names : list string) (n : string) : bool := existsb (String.eqb n) names.

Example mention_ex : mentionedNames "hi @Bot-1, @bob. mail a@b.c (@Zoe) @@x @a.@c" = ["bot-1"; "bob"; "zoe"; "x"; "a"].
Proof. vm_compute. reflexivity. Qed.

Definition stripMention (msg bot : string) : string := TrimSpace (RemoveAll msg ("@" +:+ bot)).

Definition rootOf (p : Post) : string :=
  if negb (String.eqb (poRootId p) "") then poRootId p else poId p.

(** ** Tokens in the prompt *)

Definition token_cutset : string := backtick +:+ dquote +:+ "'.,;:".

(** The value of the field [f] when it is [prefix] followed by something. *)
Definition token_value (prefix f : string) : option string :=
  let f := Trim f token_cutset in
  if negb (HasPrefix f prefix) || (String.length f =? String.length prefix)%nat then None
  else Some (drop_bytes (String.length prefix) f).

(** The loop over the fields: the first token's value and the other fields,
    [before] being those already passed. *)
Fixpoint split_token (prefix : string) (before fields : list string) : option (string * list string) :=
  match fields with
  | [] => None
  | f :: rest =>
      match token_value prefix f with
      | Some v => Some (v, before ++ rest)
      | None => split_token prefix (before ++ [f]) rest
      end
  end.

Definition splitWorkspace (text : string) : string * string :=
  match split_token "ws:" [] (Fields text) with
  | Some (name, rest) => (name, Join rest " ")
  | None => ("", TrimSpace text)
  end.

Definition splitAgent (text : string) : string * string :=
  match split_token "agent:" [] (Fields text) with
  | Some (name, rest) => (ToLower name, Join rest " ")
  | None => ("", TrimSpace text)
  end.

Example split_ws_ex : splitWorkspace "fix  `ws:infra`, please" = ("infra", "fix please").
Proof. vm_compute. reflexivity. Qed.
Example split_ws_none : splitWorkspace " no ws: here " = ("", "no ws: here").
Proof. vm_compute. reflexivity. Qed.
Example split_agent_ex : splitAgent "agent:Codex go" = ("codex", "go").
Proof. vm_compute. reflexivity. Qed.

(** ** Messages *)

Definition runeLen (s : string) : Z := Z.of_nat (rune_count s).

Definition truncate (s : string) (n : Z) : string :=
  let n := if n <? 0 then 0 else n in
  if runeLen s <=? n then s
  else of_runes (take (Z.to_nat n) (runes s)) +:+ "…".

Section Messages.
Context {E : Env}.

Definition progress_head (harnessName : string) (p : JobProgress) : string :=
  let head :=
    if String.eqb (jp_Phase p) PhaseAwaitingApproval
    then "⏸ Waiting for approval on `" +:+ harnessName +:+ "` · " +:+ Itoa (jp_Turns p) +:+ " turns"
    else "▶️ Running on `" +:+ harnessName +:+ "` · " +:+ Itoa (jp_Turns p) +:+ " turns" in
  if negb (String.eqb (jp_CurrentTool p) "") then head +:+ " · " +:+ jp_CurrentTool p else head.

Definition renderProgress (harnessName : string) (p : JobProgress) : string :=
  let head := progress_head harnessName p in
  let text := TrimSpace (jp_Text p) in
  if String.eqb text "" then head
  else head +:+ nl +:+ nl +:+ truncate text (MaxMessageLen - runeLen head - 100).

(** The first line of a result post, of [postResult]. *)
Definition result_meta (harnessName : string) (r : JobResult) : string :=
  let head :=
    if String.eqb (jr_Status r) StatusSucceeded then "✅ Done"
    else if String.eqb (jr_Status r) StatusCancelled then "🚫 Cancelled"
    else match jr_Error r with
         | Some e => "❌ Failed (" +:+ je_Code e +:+ ")"
         | None => "❌ Failed"
         end in
  let duration := duration_round (wrap64 (us_DurationMS (jr_Usage r) * millisecond)) second in
  let meta := head +:+ " on `" +:+ harnessName +:+ "` · " +:+ Itoa (us_Turns (jr_Usage r))
                +:+ " turns · " +:+ duration_text duration in
  if negb (Qle_bool (us_CostUSD (jr_Usage r)) 0)
  then meta +:+ " · $" +:+ two_decimals (us_CostUSD (jr_Usage r)) else meta.

Definition result_body (r : JobResult) : string :=
  match jr_Error r with
  | Some e => if String.eqb (TrimSpace (jr_Text r)) "" then je_Message e else jr_Text r
  | None => jr_Text r
  end.

(** The post is too long and the body goes into a file. *)
Definition result_too_long (meta body : string) : bool :=
  MaxMessageLen - 200 <? runeLen (meta +:+ nl +:+ nl +:+ body).

Definition result_message (meta body : string) : string :=
  if result_too_long meta body
  then meta +:+ nl +:+ nl +:+ truncate body (MaxMessageLen - runeLen meta - 300)
         +:+ nl +:+ nl +:+ "_(full output attached)_"
  else meta +:+ nl +:+ nl +:+ body.
End Messages.

Definition nackText (a : Ack) : string :=
  if negb (String.eqb (ak_Message a) "") then ak_Code a +:+ ": " +:+ ak_Message a else ak_Code a.

Definition helpText (bot : string) : string :=
  "Mention me with a task in any channel or thread, e.g. `@" +:+ bot +:+ " ws:infra bump the mattermost provider`." +:+ nl +:+
  "- `ws:<name>` picks a workspace configured on your harness; without it the thread's previous workspace or the harness's default folder is used." +:+ nl +:+
  "- `agent:claude` or `agent:codex` picks the coding agent; without it the thread's previous agent or the harness's default is used." +:+ nl +:+
  "- Reply in the same thread to continue the conversation." +:+ nl +:+
  "- `@" +:+ bot +:+ " cancel` stops the running job in a thread." +:+ nl +:+
  "- Onboarding: `mhb harness init` on your machine, then `/harness init <code>` here; `/harness join " +:+ bot +:+ "` brings this bot into a channel, `/harness status` lists your bots and harnesses.".

(** ** Digests and random texts *)

Definition hashCode (code : string) : string := sha256_hex (ToUpper (TrimSpace code)).
Definition tokenHash (token : string) : string := sha256_hex token.

(** [randomToken] and [randomCode], given the random bytes. *)
Definition token_of_bytes (b : list Z) : string := hex_encode b.
Definition code_of_bytes (b : list Z) (n : nat) : string := str_of (take n (base32 b)).

(** ** Bot names ([onboarding.go]) *)

Definition botNamePrefix : string := "harness-".
Definition maxBotNameLength : nat := 22.

(** [botUsernameRegex] *)
Definition bot_username_ok (s : string) : bool :=
  match bytes_of s with
  | b :: rest =>
      is_lower b
      && forallb (fun c => is_lower c || is_digit c || (c =? 46) || (c =? 95) || (c =? 45)) rest
      && (2 <=? length rest)%nat && (length rest <=? 21)%nat
  | [] => false
  end.

(** [s[:n]] when [s] is longer. *)
Definition clip_bytes (n : nat) (s : string) : string :=
  if (n <? String.length s)%nat then str_of (take n (bytes_of s)) else s.

Definition defaultBotName (username : string) : string :=
  TrimRight (clip_bytes maxBotNameLength (botNamePrefix +:+ ToLower username)) "._-".

(** The generated name of [provisionBot]. *)
Definition generated_bot_name (owner suffix : string) : string :=
  TrimRight (clip_bytes (maxBotNameLength - 7) (defaultBotName owner)) "._-" +:+ "-" +:+ suffix.

Example default_bot_name_ex : defaultBotName "Alice.B" = "harness-alice.b".
Proof. vm_compute. reflexivity. Qed.
Example generated_ok : bot_username_ok (generated_bot_name "some.very.long.user.name" "a1b2c3") = true.
Proof. vm_compute. reflexivity. Qed.

(** ** Bounds *)

Lemma runeLen_ellipsis s n :
  runeLen (of_runes (take n (runes s)) +:+ "…") = Z.of_nat (length (take n (runes s))) + 1.
Proof. unfold runeLen, rune_count. rewrite runes_ellipsis, length_app. simpl. lia. Qed.

Lemma runeLen_nonneg s : 0 <= runeLen s.
Proof. unfold runeLen. lia. Qed.

Lemma runeLen_newlines s t : runeLen (s +:+ nl +:+ nl +:+ t) = runeLen s + 2 + runeLen t.
Proof.
  unfold runeLen, nl. change (str_of [10]) with (String (ascii_of 10) "").
  change (String (ascii_of 10) "" +:+ String (ascii_of 10) "" +:+ t)
    with (String (ascii_of 10) (String (ascii_of 10) t)).
  rewrite rune_count_app_ascii by done.
  pose proof (rune_count_app_ascii "" (ascii_of 10) t ltac:(done)) as H.
  change ("" +:+ String (ascii_of 10) t) with (String (ascii_of 10) t) in H. rewrite H.
  change (rune_count "") with 0%nat. lia.
Qed.

Lemma truncate_len s n : runeLen (truncate s n) <= Z.max 0 n + 1.
Proof.
  unfold truncate. set (m := if n <? 0 then 0 else n).
  assert (m = Z.max 0 n) as -> by (unfold m; destruct (Z.ltb_spec n 0); lia).
  destruct (Z.leb_spec (runeLen s) (Z.max 0 n)); [lia|].
  rewrite runeLen_ellipsis, length_take. lia.
Qed.

(** truncate never cuts inside a character: it returns the text itself
    when it has at most [n] characters, and otherwise exactly its first [n]
    characters and an ellipsis. *)
Theorem truncate_spec s n :
  (runeLen s <= Z.max 0 n -> truncate s n = s)
  /\ (Z.max 0 n < runeLen s ->
        runes (truncate s n) = take (Z.to_nat n) (runes s) ++ [8230]
        /\ runeLen (truncate s n) = Z.max 0 n + 1).
Proof.
  unfold truncate. set (m := if n <? 0 then 0 else n).
  assert (m = Z.max 0 n) as -> by (unfold m; destruct (Z.ltb_spec n 0); lia).
  assert (Z.to_nat (Z.max 0 n) = Z.to_nat n) as -> by lia.
  split; intros H.
  - by rewrite (proj2 (Z.leb_le _ _)).
  - rewrite (proj2 (Z.leb_gt _ _)) by done. split.
    + apply runes_ellipsis.
    + rewrite runeLen_ellipsis, length_take. unfold runeLen, rune_count in *. lia.
Qed.

Section Bounds.
Context {E : Env}.

(** The messages the broker edits into the status post stay within
    Mattermost's limit, whatever the agent wrote: a result as long as its
    first line leaves room for the notice about the attachment, a progress
    report as long as its first line fits. *)
Theorem status_messages_fit harness r p :
  (runeLen (result_meta harness r) + 29 <= MaxMessageLen ->
   runeLen (result_message (result_meta harness r) (result_body r)) <= MaxMessageLen)
  /\ (runeLen (progress_head harness p) + 3 <= MaxMessageLen ->
      runeLen (renderProgress harness p) <= MaxMessageLen).
Proof.
  split.
  - intros Hm. unfold result_message, result_too_long. set (meta := result_meta harness r) in *.
    set (body := result_body r). destruct (Z.ltb_spec (MaxMessageLen - 200) (runeLen (meta +:+ nl +:+ nl +:+ body))).
    + rewrite !runeLen_newlines. pose proof (truncate_len body (MaxMessageLen - runeLen meta - 300)).
      change (runeLen "_(full output attached)_") with 24. lia.
    + lia.
  - unfold renderProgress. set (head := progress_head harness p). intros Hh.
    destruct (String.eqb _ _); [lia|]. rewrite runeLen_newlines.
    pose proof (truncate_len (TrimSpace (jp_Text p)) (MaxMessageLen - runeLen head - 100)). lia.
Qed.
End Bounds.

(** ** Tokens *)

Lemma split_token_spec prefix before fields :
  match split_token prefix before fields with
  | Some (v, rest) =>
      exists pre f post, fields = pre ++ f :: post /\ token_value prefix f = Some v
        /\ Forall (fun g => token_value prefix g = None) pre /\ rest = before ++ pre ++ post
  | None => Forall (fun g => token_value prefix g = None) fields
  end.
Proof.
  revert before. induction fields as [|f fields IH]; intros before; simpl; [constructor|].
  destruct (token_value prefix f) as [v|] eqn:Hf.
  - exists [], f, fields. auto.
  - specialize (IH (before ++ [f])). destruct (split_token prefix (before ++ [f]) fields) as [[v rest]|].
    + destruct IH as (pre & g & post & -> & Hg & Hpre & ->).
      exists (f :: pre), g, post. split; [done|]. split; [done|]. split; [by constructor|].
      by rewrite <- app_assoc.
    + by constructor.
Qed.

(** splitWorkspace takes the first [ws:<name>] token out of the prompt,
    wherever it stands, and keeps all other words in order; without a token
    the prompt is only trimmed. *)
Theorem splitWorkspace_spec text :
  (exists pre f post name,
      Fields text = pre ++ f :: post /\ token_value "ws:" f = Some name
      /\ Forall (fun g => token_value "ws:" g = None) pre
      /\ splitWorkspace text = (name, Join (pre ++ post) " "))
  \/ (Forall (fun g => token_value "ws:" g = None) (Fields text)
      /\ splitWorkspace text = ("", TrimSpace text)).
Proof.
  unfold splitWorkspace. pose proof (split_token_spec "ws:" [] (Fields text)) as H.
  destruct (split_token "ws:" [] (Fields text)) as [[v rest]|]; [|by right].
  destruct H as (pre & f & post & Hf & Hv & Hpre & ->). left. exists pre, f, post, v. auto.
Qed.
