(* ===== verification/Sender.v ===== *)
(** * The interface between the core and the hub ([core.Sender], [hub.Handler])

    [Sender] is the hub as the core sees it, [Handler] the core as the hub
    sees it.  Each comes with the laws its users prove their theorems from;
    [Hub.v] and [Core.v] discharge them. *)

From S2P Require Import Prelude Resume GoText Json Protocol Store Tables World Sqlite Integrity StoreFacts.

Open Scope Z_scope.
Open Scope prog_scope.

Class Sender : Type := {
  Online : string -> prog World bool;
  Send : string -> Envelope -> prog World (res unit);
  SendReliable : string -> Envelope -> prog World (res unit);
  is_online : string -> World -> bool    (** what [Online] reports *)
}.

(** The message a reliable send stores. *)
Definition outbox_message (harnessID : string) (env : Envelope) (now : Time) : OutboxMessage :=
  MkOutboxMessage (en_ID env) harnessID (en_JobID env) (en_Type env) (en_Payload env) now None.

Definition stored (harnessID : string) (env : Envelope) (now : Time) (d : DB) : DB :=
  set_outbox (<[en_ID env := outbox_row (outbox_message harnessID env now)]> (t_outbox d)) d.

Class SenderLaws {E : Env} (S : Sender) : Prop := {
  guards_Online R h : Quiet R -> guards R (Online h);
  guards_Send R h env : Silent R -> guards R (Send h env);
  guards_SendReliable h env : guards w_step (SendReliable h env);
  guards_SendReliable_conns h env : guards (on_conns eq) (SendReliable h env);
  nonblocking_Online h : nonblocking (Online h);
  nonblocking_SendReliable h env : nonblocking (SendReliable h env);
  wp_Online h Q w : wp (Online h) Q w <-> Q (is_online h w) w;
  is_online_conns h w w' : w_conns w = w_conns w' -> is_online h w = is_online h w';
  (** A reliable send of a fresh message stores it, online or not, whatever
      the connection does, and nothing else happens to the database. *)
  SendReliable_stores h env w :
    NoFaults E -> NeedsAck (en_Type env) = true -> t_outbox (w_db w) !! en_ID env = None ->
    wp (SendReliable h env) (fun r w' =>
      (exists now, w_db w' = stored h env now (w_db w))
      /\ w_conns w' = w_conns w /\ w_edits w' = w_edits w /\ w_editors w' = w_editors w
      /\ w_timers w' = w_timers w
      /\ (is_online h w = false -> r = Ok tt)) w
}.

Class Handler : Type := {
  OnHello : Harness -> Hello -> prog World (list WelcomeJob);
  OnProgress : Harness -> string -> JobProgress -> prog World unit;
  OnResult : Harness -> string -> JobResult -> prog World Ack;
  OnApprovalRequest : Harness -> string -> ApprovalRequest -> prog World Ack;
  OnAck : Harness -> string -> string -> Ack -> prog World unit;
  OnDisconnect : Harness -> prog World unit
}.

(** Handlers run inside the connection's goroutine: every step they take
    keeps the database's integrity and leaves the hub's table alone. *)
Class HandlerLaws {E : Env} (H : Handler) : Prop := {
  guards_OnHello h x : guards w_step (OnHello h x) /\ guards (on_conns eq) (OnHello h x);
  guards_OnProgress h j p : guards w_step (OnProgress h j p) /\ guards (on_conns eq) (OnProgress h j p);
  guards_OnResult h j r : guards w_step (OnResult h j r) /\ guards (on_conns eq) (OnResult h j r);
  guards_OnApprovalRequest h j r :
    guards w_step (OnApprovalRequest h j r) /\ guards (on_conns eq) (OnApprovalRequest h j r);
  guards_OnAck h ref j a : guards w_step (OnAck h ref j a) /\ guards (on_conns eq) (OnAck h ref j a);
  guards_OnDisconnect h : guards w_step (OnDisconnect h) /\ guards (on_conns eq) (OnDisconnect h)
}.

(** The environment of the laws is found as an instance. *)
#[export] Hint Extern 1 (guards _ (Online _)) => apply guards_Online; [apply _] : guards.
#[export] Hint Extern 1 (guards _ (Send _ _)) => apply guards_Send; [apply _] : guards.
#[export] Hint Extern 1 (guards _ (SendReliable _ _)) =>
  apply guards_SendReliable || apply guards_SendReliable_conns : guards.
#[export] Hint Extern 1 (nonblocking (Online _)) => apply nonblocking_Online : nonblocking.
#[export] Hint Extern 1 (nonblocking (SendReliable _ _)) => apply nonblocking_SendReliable : nonblocking.
