(* ===== verification/Hub.v ===== *)
(** * The hub ([internal/broker/hub])

    Connections of harnesses: the handshake, the dispatch of messages to the
    [Handler], the outbox, and the [Sender] operations the core uses.  A
    connection is a number; [serve] gets the envelopes [wire.Conn.Recv] will
    yield, after which reading fails. *)

From S2P Require Import Prelude Resume GoText Codec Json Protocol Store Tables World Sqlite Integrity StoreFacts Sender.

Open Scope Z_scope.
Open Scope prog_scope.

(** ** Versions *)

Definition wrap_int (n : Z) : Z := (n + 2 ^ 63) mod 2 ^ 64 - 2 ^ 63.

Fixpoint atoi_from (n : Z) (l : list Z) : Z :=
  match l with
  | [] => n
  | r :: l' => if (r <? 48) || (57 <? r) then n else atoi_from (wrap_int (n * 10 + (r - 48))) l'
  end.
Definition atoi (s : string) : Z := atoi_from 0 (runes s).

(** The component [i] of a version, 0 when there is none. *)
Definition version_part (parts : list string) (i : nat) : Z :=
  match parts !! i with Some p => atoi p | None => 0 end.

Fixpoint parts_less (pa pb : list string) (i fuel : nat) : bool :=
  match fuel with
  | O => false
  | S fuel' =>
      let x := version_part pa i in
      let y := version_part pb i in
      if negb (x =? y) then x <? y else parts_less pa pb (S i) fuel'
  end.
(** [strings.Split(_, ".")] *)
Definition versionLess (a b : string) : bool := parts_less (split_at (ascii_of 46) a) (split_at (ascii_of 46) b) 0 3.

Example version_ex : versionLess "0.9.10" "0.10.0" = true.
Proof. vm_compute. reflexivity. Qed.

(** ** Sending *)

Record HubConfig : Type := MkHubConfig {
  HeartbeatInterval : Duration;
  MinHarnessVersion : string
}.

Definition TokenHash (token : string) : string := sha256_hex token.

Section Sending.
Context {E : Env}.

Definition hub_Online (harnessID : string) : prog World bool :=
  gets (fun w => bool_decide (is_Some (w_conns w !! harnessID))).

Definition ErrOffline : error := ErrOther "hub: harness offline".

Definition hub_Send (harnessID : string) (env : Envelope) : prog World (res unit) :=
  cn <- gets (fun w => w_conns w !! harnessID) ;;
  match cn with
  | None => Ret (Err ErrOffline)
  | Some c => wire_send c env
  end.

Definition hub_SendReliable (harnessID : string) (env : Envelope) : prog World (res unit) :=
  if negb (NeedsAck (en_Type env))
  then Ret (Err (ErrOther ("hub: SendReliable on fire-and-forget type " +:+ en_Type env)))
  else
    now <- time_now ;;
    e <- Enqueue (outbox_message harnessID env now) ;;
    match e with
    | Err (ErrNotFound as x) | Err (ErrOther _ as x) => Ret (Err x)
    | _ =>
        (* [Send], with [ErrOffline] told apart from a failed write *)
        cn <- gets (fun w => w_conns w !! harnessID) ;;
        match cn with
        | None => Ret (Ok tt)
        | Some c => wire_send c env
        end
    end.

#[export] Instance hub_sender : Sender := {|
  Online := hub_Online;
  Send := hub_Send;
  SendReliable := hub_SendReliable;
  is_online := fun h w => bool_decide (is_Some (w_conns w !! h))
|}.
End Sending.

(** ** Serving a connection *)

Section Serving.
Context {E : Env} {H : Handler} (cfg : HubConfig).

Definition envelope_of (m : OutboxMessage) (now : Time) : Envelope :=
  MkEnvelope (mID m) (mType m) (mJobID m) "" (unix_milli now) (mPayload m).

(** Sends the messages in order and stops at the first failed write. *)
Fixpoint flush_messages (c : nat) (pending : list OutboxMessage) : prog World (res unit) :=
  match pending with
  | [] => Ret (Ok tt)
  | m :: rest =>
      now <- time_now ;;
      r <- wire_send c (envelope_of m now) ;;
      match r with
      | Err e => Ret (Err e)
      | Ok _ => flush_messages c rest
      end
  end.

Definition flushOutbox (harnessID : string) (c : nat) : prog World (res unit) :=
  pending <- PendingOutbox harnessID ;;
  match pending with
  | Err e => Ret (Err e)
  | Ok l => flush_messages c l
  end.

Definition send_reply {T} `{!Wire T} (c : nat) (typ : string) (to : Envelope) (payload : T) : prog World unit :=
  id <- new_ulid ;; now <- time_now ;;
  _ <- wire_send c (reply_envelope (NewID "msg" id) now typ to payload) ;; Ret tt.

Definition bad_payload (env : Envelope) : Ack := MkAck false NackBadPayload (decode_error_text env).

Definition handle (harness : Harness) (c : nat) (env : Envelope) : prog World unit :=
  let typ := en_Type env in
  if String.eqb typ TypePing then
    now <- time_now ;;
    _ <- TouchHarness (hID harness) now "" ;;
    now <- time_now ;;
    send_reply c TypePong env (MkPong (unix_milli now))
  else if String.eqb typ TypeAck then
    let a := (Decode (T := Ack) env).1 in
    now <- time_now ;;
    _ <- AckOutbox (en_Ref env) now ;;
    OnAck harness (en_Ref env) (en_JobID env) a
  else if String.eqb typ TypeError then Ret tt
  else if String.eqb typ TypeJobProgress then
    match Decode (T := JobProgress) env with
    | (p, true) => OnProgress harness (en_JobID env) p
    | (_, false) => Ret tt
    end
  else if String.eqb typ TypeJobResult then
    ack <- match Decode (T := JobResult) env with
           | (r, true) => OnResult harness (en_JobID env) r
           | (_, false) => Ret (bad_payload env)
           end ;;
    send_reply c TypeAck env ack
  else if String.eqb typ TypeApprovalRequest then
    ack <- match Decode (T := ApprovalRequest) env with
           | (r, true) => OnApprovalRequest harness (en_JobID env) r
           | (_, false) => Ret (bad_payload env)
           end ;;
    send_reply c TypeAck env ack
  else send_reply c TypeError env (MkError ErrUnknownType typ).

(** A newer connection wins: the old one is cancelled and closed, in one
    section of the hub's mutex. *)
Definition register_conn (harnessID : string) (c : nat) (w : World) : World :=
  let w := match w_conns w !! harnessID with
           | Some old => set_cancelled (old :: w_cancelled w)
                           (record [EvClose old CloseReplaced "replaced by a newer connection"] w)
           | None => w
           end in
  set_conns (<[harnessID := c]> (w_conns w)) w.

(** The deferred section: whether the connection was still the current one. *)
Definition unregister_conn (harnessID : string) (c : nat) (w : World) : bool * World :=
  if bool_decide (w_conns w !! harnessID = Some c)
  then (true, set_conns (delete harnessID (w_conns w)) w) else (false, w).

Definition disconnect (harness : Harness) (c : nat) : prog World unit :=
  mine <- atomic (unregister_conn (hID harness) c) ;;
  when mine (OnDisconnect harness).

(** The read loop: a read on a cancelled connection fails. *)
Fixpoint read_loop (harness : Harness) (c : nat) (incoming : list Envelope) : prog World unit :=
  match incoming with
  | [] => Ret tt
  | env :: rest =>
      cancelled <- gets (fun w => bool_decide (c ∈ w_cancelled w)) ;;
      if cancelled : bool then Ret tt else handle harness c env ;; read_loop harness c rest
  end.

Definition serve_connected (harness : Harness) (c : nat) (hello : Hello) (incoming : list Envelope)
    : prog World unit :=
  now <- time_now ;;
  _ <- TouchHarness (hID harness) now (he_HarnessVersion hello) ;;
  jobs <- OnHello harness hello ;;
  now <- time_now ;; id <- new_ulid ;; ts <- time_now ;;
  r <- wire_send c (new_envelope (NewID "msg" id) ts TypeWelcome ""
         (MkWelcome (hID harness) (Z.quot (HeartbeatInterval cfg) millisecond) (unix_milli now) jobs)) ;;
  match r with
  | Err _ => Ret tt
  | Ok _ =>
      r <- flushOutbox (hID harness) c ;;
      match r with
      | Err _ => Ret tt
      | Ok _ => read_loop harness c incoming
      end
  end.

Definition serve (harness : Harness) (c : nat) (incoming : list Envelope) : prog World unit :=
  match incoming with
  | [] => wire_close c CloseProtocolViolate "expected hello"
  | env :: rest =>
      if negb (String.eqb (en_Type env) TypeHello)
      then wire_close c CloseProtocolViolate "expected hello"
      else match Decode (T := Hello) env with
      | (_, false) => wire_close c CloseProtocolViolate "bad hello"
      | (hello, true) =>
          if negb (String.eqb (MinHarnessVersion cfg) "")
             && versionLess (he_HarnessVersion hello) (MinHarnessVersion cfg)
          then wire_close c CloseVersionTooOld
                 ("harness version " +:+ he_HarnessVersion hello +:+ " < " +:+ MinHarnessVersion cfg)
          else
            modify (register_conn (hID harness) c) ;;
            serve_connected harness c hello rest ;;
            disconnect harness c
      end
  end.

(** [ServeHTTP] up to the upgrade: [auth] is the Authorization header.  A
    rejected request is answered with 401 and never reaches [serve]. *)
Definition authenticate (auth : string) : prog World (res Harness) :=
  if negb (HasPrefix auth "Bearer ") then Ret (Err (ErrOther "missing bearer token"))
  else
    h <- HarnessByTokenHash (TokenHash (TrimPrefix auth "Bearer ")) ;;
    match h with
    | Err _ => Ret (Err (ErrOther "unknown token"))
    | Ok h => Ret (Ok h)
    end.

Definition ServeHTTP (auth : string) (c : nat) (incoming : list Envelope) : prog World unit :=
  h <- authenticate auth ;;
  match h with
  | Err _ => Ret tt
  | Ok harness => serve harness c incoming
  end.

(** [Close]: every harness is disconnected; used on shutdown. *)
Definition close_all (w : World) : World :=
  set_conns ∅ (set_cancelled ((map_to_list (w_conns w)).*2 ++ w_cancelled w)
    (record (map (fun kc => EvClose kc.2 1001 "broker shutting down") (map_to_list (w_conns w))) w)).
Definition Close : prog World unit := modify close_all.
End Serving.
