(* ===== verification/HubFacts.v ===== *)
(** * What the hub promises

    The laws of [Sender], delivery and order of the outbox, replies, the
    replacement of connections, and the order on versions. *)

From S2P Require Import Prelude Resume GoText Codec Json Protocol Store Tables World Sqlite Integrity StoreFacts Sender Hub.

Open Scope Z_scope.
Open Scope prog_scope.

(** ** The [Sender] laws *)

Section SenderProofs.
Context {E : Env}.

Lemma guards_hub_Online R h : Quiet R -> guards R (hub_Online h).
Proof. intros HR. apply guards_gets. apply quiet_preorder. Qed.

Lemma guards_hub_Send R h env : Silent R -> guards R (hub_Send h env).
Proof.
  intros HR. unfold hub_Send. secure.
Qed.

Lemma guards_hub_SendReliable R h env :
  Silent R -> (forall m, guards R (Enqueue m)) -> guards R (hub_SendReliable h env).
Proof.
  intros HR HE. unfold hub_SendReliable. secure.
Qed.

Lemma flow_Enqueue m : nonblocking (Enqueue m).
Proof. unfold Enqueue. flow. Qed.

Lemma flow_hub_SendReliable h env : nonblocking (hub_SendReliable h env).
Proof. unfold hub_SendReliable. flow; apply nonblocking_atomic || apply flow_Enqueue. Qed.

(** What a reliable send does, fresh or repeated, online or offline. *)
Lemma wp_hub_SendReliable `{!NoFaults E} h env w (Q : res unit -> World -> Prop) :
  NeedsAck (en_Type env) = true ->
  (forall r w' d,
     d = (match t_outbox (w_db w) !! en_ID env with
          | None => stored h env (clock (w_tick w)) (w_db w)
          | Some _ => w_db w
          end) ->
     w_db w' = d -> w_conns w' = w_conns w -> w_edits w' = w_edits w ->
     w_editors w' = w_editors w -> w_timers w' = w_timers w ->
     match w_conns w !! h with
     | None => r = Ok tt /\ w_trace w' = w_trace w
     | Some c => w_trace w' = w_trace w ++ [EvSend c env (is_ok r)]
     end -> Q r w') ->
  wp (hub_SendReliable h env) Q w.
Proof.
  intros Hack HQ. unfold hub_SendReliable. rewrite Hack. cbn [negb]. unfold Enqueue. wp_steps.
  unfold insert_outbox. cbn.
  destruct (bool_decide (is_Some (t_outbox (w_db w) !! en_ID env))) eqn:Hk;
    apply is_Some_bool in Hk; cbn; rewrite ?inserted_unique, ?inserted_ok; wp_steps; cbn;
    (destruct (w_conns w !! h) as [c|] eqn:Hc;
      [unfold wire_send; rewrite wp_call | rewrite wp_ret]);
    (eapply HQ; [reflexivity|..]; cbn; try rewrite Hc; try done).
  - by destruct Hk as [m ->]; destruct (w_db w).
  - by destruct Hk as [m ->]; destruct (w_db w).
  - by rewrite Hk.
  - by rewrite Hk.
Qed.
End SenderProofs.

#[export] Instance hub_sender_laws {E : Env} : SenderLaws hub_sender.
Proof.
  split; cbn.
  - intros. by apply guards_hub_Online.
  - intros. by apply guards_hub_Send.
  - intros. apply guards_hub_SendReliable; [apply _ | auto with guards].
  - intros. apply guards_hub_SendReliable; [apply _ | intros; unfold Enqueue; secure].
  - intros. apply nonblocking_atomic.
  - apply flow_hub_SendReliable.
  - done.
  - by intros h w w' ->.
  - intros h env w HF Hack Hk. apply wp_hub_SendReliable; [done|]. rewrite Hk.
    intros r w' d -> Hd ? ? ? ? Hr. split; [by eexists|]. split_and!; try done.
    intros Hoff. apply is_Some_bool in Hoff. rewrite Hoff in Hr. by destruct Hr.
Qed.

(** ** Delivery *)

Section Delivery.
Context {E : Env}.

(** A reliable send is durable before it is sent: a fresh message is in
    the outbox of the harness, unacknowledged, however the write on the
    socket ends; a repeated one leaves the stored row alone; and at most one
    frame goes out, on the harness's current connection. *)
Theorem SendReliable_durable `{!NoFaults E} h env w :
  NeedsAck (en_Type env) = true ->
  wp (hub_SendReliable h env) (fun r w' =>
    (exists m, t_outbox (w_db w') !! en_ID env = Some m
       /\ (t_outbox (w_db w) !! en_ID env = None ->
             mHarnessID m = h /\ mType m = en_Type env /\ mJobID m = en_JobID env
             /\ mPayload m = en_Payload env /\ mAckedAt m = None)
       /\ (forall m0, t_outbox (w_db w) !! en_ID env = Some m0 -> m = m0))
    /\ (forall id, id <> en_ID env -> t_outbox (w_db w') !! id = t_outbox (w_db w) !! id)
    /\ match w_conns w !! h with
       | None => r = Ok tt /\ w_trace w' = w_trace w
       | Some c => w_trace w' = w_trace w ++ [EvSend c env (is_ok r)]
       end) w.
Proof.
  intros Hack. apply wp_hub_SendReliable; [done|]. intros r w' d -> Hd _ _ _ _ Hr.
  split; [|split; [|done]]; rewrite Hd.
  - destruct (t_outbox (w_db w) !! en_ID env) as [m|] eqn:Hm.
    + exists m. split; [done|]. split; [done|]. by intros m0 [= <-].
    + eexists. split; [apply lookup_insert_eq|]. by split.
  - intros id Hid. destruct (t_outbox (w_db w) !! en_ID env); [done|].
    cbn. by rewrite lookup_insert_ne.
Qed.

Lemma wp_flush_messages c l w (Q : res unit -> World -> Prop) :
  (forall r w' k evs,
     w_db w' = w_db w -> w_conns w' = w_conns w -> w_trace w' = w_trace w ++ evs ->
     Forall2 (fun m ev => exists now ok, ev = EvSend c (envelope_of m now) ok) (take k l) evs ->
     (is_ok r = true -> (length l <= k)%nat /\ Forall (fun ev => exists env, ev = EvSend c env true) evs) ->
     Q r w') ->
  wp (flush_messages c l) Q w.
Proof.
  revert w Q. induction l as [|m l IH]; intros w Q HQ; cbn.
  - rewrite wp_ret. apply (HQ _ _ 0%nat []); [done..|by rewrite app_nil_r|constructor|]. by split.
  - wp_steps. unfold wire_send. rewrite wp_call. set (env := envelope_of m (clock (w_tick w))).
    destruct (ws_write _ c env) as [[]|e] eqn:Hw; cbn.
    + apply IH. cbn. intros r w' k evs Hd Hc Ht Hf Hok.
      apply (HQ r w' (S k) (EvSend c env true :: evs)); try done.
      * by rewrite Ht, <- app_assoc.
      * constructor; [by eexists _, _ | done].
      * intros Hr. destruct (Hok Hr) as [Hlen ?]. split; [cbn; by apply le_n_S|]. constructor; [by eexists|done].
    + rewrite wp_ret. apply (HQ (Err e) _ 1%nat [EvSend c env false]); try done.
      cbn. rewrite take_0. repeat constructor. by eexists _, _.
Qed.

(** Flushing sends exactly the pending messages of the harness, each
    with its stored id, type, job and payload, in the order of the outbox; it
    stops at the first failed write, and reports success only when every
    message was written.  It acknowledges nothing. *)
Theorem flushOutbox_spec `{!NoFaults E} harness c w :
  wp (flushOutbox harness c) (fun r w' =>
    exists l evs k, select_pending_outbox harness (w_db w) = SqlOk l
    /\ w_db w' = w_db w /\ w_trace w' = w_trace w ++ evs
    /\ Forall2 (fun m ev => exists now ok, ev = EvSend c (envelope_of m now) ok) (take k l) evs
    /\ (is_ok r = true ->
          (length l <= k)%nat /\ Forall (fun ev => exists env, ev = EvSend c env true) evs)) w.
Proof.
  unfold flushOutbox, PendingOutbox. wp_steps. cbn. apply wp_flush_messages.
  intros r w' k evs Hd Hc Ht Hf Hok. eexists _, evs, k. split; [done|]. auto.
Qed.
End Delivery.

(** ** Replies *)

Section Replies.
Context {E : Env} {H : Handler}.

Lemma wp_send_reply {T} `{!Wire T} c typ to (x : T) w (Q : unit -> World -> Prop) :
  (forall w' rep ok, w_db w' = w_db w -> w_conns w' = w_conns w -> w_trace w' = w_trace w ++ [EvSend c rep ok] ->
     en_Type rep = typ -> en_Ref rep = en_ID to -> en_JobID rep = en_JobID to ->
     en_Payload rep = Some (wire_enc x) -> Q tt w') ->
  wp (send_reply c typ to x) Q w.
Proof. intros HQ. unfold send_reply. wp_steps. unfold wire_send. rewrite wp_call, wp_ret. by eapply HQ. Qed.

(** Every result and approval request of a harness is answered by
    exactly one frame after its handler ran: an ack that names the message
    and the job and carries the handler's answer; a payload that cannot be
    decoded is answered [bad_payload] and reaches no handler. *)
Theorem handle_replies harness c env w :
  (en_Type env = TypeJobResult -> forall P : Ack -> World -> Prop,
     (forall r, Decode (T := JobResult) env = (r, true) -> wp (OnResult harness (en_JobID env) r) P w) ->
     ((Decode (T := JobResult) env).2 = false -> P (bad_payload env) w) ->
     wp (handle harness c env) (fun _ w' => exists ack w1 rep ok,
       P ack w1 /\ w_db w' = w_db w1 /\ w_trace w' = w_trace w1 ++ [EvSend c rep ok]
       /\ en_Type rep = TypeAck /\ en_Ref rep = en_ID env /\ en_JobID rep = en_JobID env
       /\ en_Payload rep = Some (wire_enc ack)) w)
  /\ (en_Type env = TypeApprovalRequest -> forall P : Ack -> World -> Prop,
     (forall r, Decode (T := ApprovalRequest) env = (r, true) ->
        wp (OnApprovalRequest harness (en_JobID env) r) P w) ->
     ((Decode (T := ApprovalRequest) env).2 = false -> P (bad_payload env) w) ->
     wp (handle harness c env) (fun _ w' => exists ack w1 rep ok,
       P ack w1 /\ w_db w' = w_db w1 /\ w_trace w' = w_trace w1 ++ [EvSend c rep ok]
       /\ en_Type rep = TypeAck /\ en_Ref rep = en_ID env /\ en_JobID rep = en_JobID env
       /\ en_Payload rep = Some (wire_enc ack)) w).
Proof.
  split; intros Ht P Hok Hbad; unfold handle; rewrite Ht; cbn [String.eqb]; cbn;
    rewrite wp_bind.
  - apply (wp_mono _ P).
    + intros ack w1 HP. apply wp_send_reply. intros. by eexists ack, w1, _, _.
    + destruct (Decode (T := JobResult) env) as [r [|]]; [by apply Hok | rewrite wp_ret; by apply Hbad].
  - apply (wp_mono _ P).
    + intros ack w1 HP. apply wp_send_reply. intros. by eexists ack, w1, _, _.
    + destruct (Decode (T := ApprovalRequest) env) as [r [|]]; [by apply Hok | rewrite wp_ret; by apply Hbad].
Qed.

(** A ping marks the harness as seen now, and erases its recorded
    version; nothing else in the database changes and one pong goes out. *)
Theorem ping_touches_harness `{!NoFaults E} harness c env w h :
  en_Type env = TypePing -> t_harnesses (w_db w) !! hID harness = Some h ->
  wp (handle harness c env) (fun _ w' => exists rep ok,
    w_db w' = set_harnesses (<[hID harness := touch_row (clock (w_tick w)) "" h]> (t_harnesses (w_db w))) (w_db w)
    /\ w_trace w' = w_trace w ++ [EvSend c rep ok]
    /\ en_Type rep = TypePong /\ en_Ref rep = en_ID env) w.
Proof.
  intros Ht Hh. unfold handle. rewrite Ht. cbn. unfold TouchHarness. wp_steps. cbn.
  apply wp_send_reply. cbn. intros w' rep ok Hd _ Htr Hty Hr _ _. exists rep, ok.
  split; [|done]. rewrite Hd. by erewrite update_key_some.
Qed.
End Replies.

(** ** Connections *)

(** Only the entry of one harness may differ. *)
Definition agree_except (id : string) (c c' : gmap string nat) : Prop := forall k, k <> id -> c' !! k = c !! k.
#[export] Instance agree_except_preorder id : PreOrder (agree_except id).
Proof. split; [done|]. intros x y z H1 H2 k Hk. by rewrite H2, H1. Qed.

Lemma conns_eq_agree id w w' : on_conns eq w w' -> on_conns (agree_except id) w w'.
Proof. intros H k _. by rewrite H. Qed.

Section Connections.
Context {E : Env} {H : Handler} `{!HandlerLaws H} (cfg : HubConfig).

Lemma guards_TouchHarness_conns id t v : guards (on_conns eq) (TouchHarness id t v).
Proof. unfold TouchHarness. secure. Qed.
Lemma guards_AckOutbox_conns m t : guards (on_conns eq) (AckOutbox m t).
Proof. unfold AckOutbox. secure. Qed.
Lemma guards_PendingOutbox_R R h : Quiet R -> guards R (PendingOutbox h).
Proof. intros. unfold PendingOutbox. secure. Qed.

Lemma guards_send_reply R {T} `{!Wire T} c typ to (x : T) : Silent R -> guards R (send_reply c typ to x).
Proof. intros. unfold send_reply. secure. Qed.
Lemma guards_flush_messages R c l : Silent R -> guards R (flush_messages c l).
Proof. intros. induction l; cbn; secure. Qed.
Lemma guards_flushOutbox R h c : Silent R -> guards R (flushOutbox h c).
Proof. intros. unfold flushOutbox. secure; [by apply guards_PendingOutbox_R, silent_quiet | by apply guards_flush_messages]. Qed.

(** Both guarantees of the messages of a connection. *)
Lemma guards_handle harness c env :
  guards w_step (handle harness c env) /\ guards (on_conns eq) (handle harness c env).
Proof.
  split; unfold handle; secure;
    try (apply guards_send_reply; apply _);
    try apply guards_OnAck; try apply guards_OnProgress; try apply guards_OnResult;
    try apply guards_OnApprovalRequest; auto using guards_TouchHarness_conns, guards_AckOutbox_conns with guards.
Qed.

Lemma guards_read_loop harness c incoming :
  guards w_step (read_loop harness c incoming) /\ guards (on_conns eq) (read_loop harness c incoming).
Proof.
  induction incoming as [|env rest [IH1 IH2]]; [by split|].
  split; cbn [read_loop]; secure; apply guards_handle.
Qed.

Lemma guards_serve_connected harness c hello incoming :
  guards w_step (serve_connected cfg harness c hello incoming)
  /\ guards (on_conns eq) (serve_connected cfg harness c hello incoming).
Proof.
  split; unfold serve_connected; secure; try apply guards_OnHello;
    try (apply guards_flushOutbox; apply _); try apply guards_read_loop;
    auto using guards_TouchHarness_conns with guards.
Qed.

Lemma register_conn_db id c w : w_db (register_conn id c w) = w_db w.
Proof. unfold register_conn. by destruct (w_conns w !! id). Qed.
Lemma register_conn_conns id c w : w_conns (register_conn id c w) = <[id := c]> (w_conns w).
Proof. unfold register_conn. by destruct (w_conns w !! id). Qed.
Lemma unregister_conn_db id c w : w_db (unregister_conn id c w).2 = w_db w.
Proof. unfold unregister_conn. by destruct (bool_decide _). Qed.

Lemma guards_serve harness c incoming :
  guards w_step (serve cfg harness c incoming)
  /\ guards (on_conns (agree_except (hID harness))) (serve cfg harness c incoming).
Proof.
  unfold serve, disconnect. split; secure; try apply guards_OnDisconnect;
    try apply guards_serve_connected;
    try (eapply guards_mono; [apply conns_eq_agree|];
         apply guards_serve_connected || apply guards_OnDisconnect).
  - apply guards_modify. intros w. unfold on_db. by rewrite register_conn_db.
  - apply guards_atomic. intros w. unfold on_db. by rewrite unregister_conn_db.
  - apply guards_modify. intros w k Hk. rewrite register_conn_conns. by rewrite lookup_insert_ne.
  - apply guards_atomic. intros w k Hk. unfold unregister_conn.
    destruct (bool_decide _); [|done]. cbn. by rewrite lookup_delete_ne.
Qed.

(** A connection only ever touches its own harness's entry of the
    connection table, at every single step of its life, whatever the harness
    sends and whatever else runs. *)
Theorem serve_owns_its_entry harness c incoming :
  guards (on_conns (agree_except (hID harness))) (serve cfg harness c incoming)
  /\ forall w w' u k, run (serve cfg harness c incoming) w = Some (u, w') -> k <> hID harness ->
       w_conns w' !! k = w_conns w !! k.
Proof.
  split; [apply guards_serve|]. intros w w' u k Hr.
  exact (guards_run _ _ _ _ _ (proj2 (guards_serve harness c incoming)) Hr k).
Qed.

(** A newer connection wins: registering it closes and cancels the old
    one; from then on the old connection handles no further message, and its
    end neither removes the new entry nor reports a disconnect. *)
Theorem newer_connection_wins harness old c incoming w :
  w_conns w !! hID harness = Some old -> old <> c ->
  let w' := register_conn (hID harness) c w in
  w_conns w' !! hID harness = Some c
  /\ w_trace w' = w_trace w ++ [EvClose old CloseReplaced "replaced by a newer connection"]
  /\ forall w2, w_conns w2 !! hID harness = Some c -> old ∈ w_cancelled w2 ->
       wp (read_loop harness old incoming) (fun _ w3 => w3 = w2) w2
       /\ wp (disconnect harness old) (fun _ w3 => w3 = w2) w2.
Proof.
  intros Hold Hne w'. unfold w', register_conn. rewrite Hold. cbn. split; [apply lookup_insert_eq|].
  split; [done|]. intros w2 Hc Hcan. split.
  - destruct incoming as [|env rest]; [by cbn; rewrite wp_ret|]. cbn. rewrite wp_bind, wp_gets.
    rewrite bool_decide_true by done. by rewrite wp_ret.
  - unfold disconnect. rewrite wp_bind, wp_atomic. unfold unregister_conn.
    rewrite bool_decide_false by congruence. cbn. by rewrite wp_ret.
Qed.

(** Authentication: a connection is served only for the harness whose
    stored hash is that of the bearer token it presents. *)
Theorem authenticate_sound `{!NoFaults E} auth w :
  wp (authenticate auth) (fun r w' => w_db w' = w_db w /\
    forall h, r = Ok h ->
      HasPrefix auth "Bearer " = true
      /\ hTokenHash h = TokenHash (TrimPrefix auth "Bearer ")
      /\ exists id, t_harnesses (w_db w) !! id = Some h) w.
Proof.
  unfold authenticate. destruct (HasPrefix auth "Bearer ") eqn:Hp; cbn; [|by rewrite wp_ret].
  unfold HarnessByTokenHash. wp_steps. cbn. unfold select_harness_by_hash.
  destruct (select _ (t_harnesses (w_db w))) as [|h l] eqn:Hs; cbn; wp_steps; [done|].
  split; [done|]. intros h' [= <-].
  assert (h ∈ select (fun h => String.eqb (hTokenHash h) (TokenHash (TrimPrefix auth "Bearer "))) (t_harnesses (w_db w))) as Hin.
  { rewrite Hs. left. }
  apply elem_of_select in Hin as [Ht Hk]. apply String.eqb_eq in Ht. auto.
Qed.
End Connections.

(** ** Versions *)

(** The version a text denotes: its first three components. *)
Definition version_of (s : string) : Z * Z * Z :=
  let parts := split_at (ascii_of 46) s in
  (version_part parts 0, version_part parts 1, version_part parts 2).

Definition lex_less (a b : Z * Z * Z) : Prop :=
  let '(a1, a2, a3) := a in
  let '(b1, b2, b3) := b in
  a1 < b1 \/ (a1 = b1 /\ (a2 < b2 \/ (a2 = b2 /\ a3 < b3))).

(** versionLess is the lexicographic order on the first three numeric
    components, missing ones counting as zero; so it is irreflexive,
    transitive, and total on versions with different components. *)
Theorem versionLess_lexicographic :
  (forall a b, versionLess a b = true <-> lex_less (version_of a) (version_of b))
  /\ (forall a, versionLess a a = false)
  /\ (forall a b c, versionLess a b = true -> versionLess b c = true -> versionLess a c = true)
  /\ (forall a b, version_of a <> version_of b -> versionLess a b = true \/ versionLess b a = true).
Proof.
  assert (forall a b, versionLess a b = true <-> lex_less (version_of a) (version_of b)) as Hlex.
  { intros a b. unfold versionLess, version_of, lex_less. simpl.
    repeat match goal with |- context [version_part ?p ?i] => generalize (version_part p i); intros end.
    repeat (match goal with |- context [?x =? ?y] => destruct (Z.eqb_spec x y) end; simpl);
      rewrite ?Z.ltb_lt; split; intros; try lia; done. }
  split; [exact Hlex|]. split; [|split].
  - intros a. apply not_true_iff_false. rewrite Hlex.
    destruct (version_of a) as [[a1 a2] a3]. unfold lex_less. lia.
  - intros a b c. rewrite !Hlex. destruct (version_of a) as [[? ?] ?], (version_of b) as [[? ?] ?],
      (version_of c) as [[? ?] ?]. unfold lex_less. lia.
  - intros a b. rewrite !Hlex. destruct (version_of a) as [[a1 a2] a3], (version_of b) as [[b1 b2] b3].
    unfold lex_less. intros Hne. destruct (Z.eq_dec a1 b1), (Z.eq_dec a2 b2), (Z.eq_dec a3 b3);
      subst; try done; lia.
Qed.
