(* ===== verification/Posts.v ===== *)
(** * Posting ([core.go]: configuration, api, reply, edit, finalEdit, audit)

    The identity a job posts with, the debounced edits of its status post,
    and the audit log. *)

From S2P Require Import Prelude Resume GoText Codec Json Protocol Store Tables World Sqlite Integrity StoreFacts CoreText.

Open Scope Z_scope.
Open Scope prog_scope.

(** ** Configuration *)

(** [core.Config], and which collaborators of [core.Core] are set. *)
Class Config : Type := {
  BotUserID : string;
  BotUsername : string;
  PublicURL : string;
  CallbackSecret : string;
  QueueTTL : Duration;
  GracePeriod : Duration;
  ApprovalTTL : Duration;
  JobTimeout : Duration;
  DefaultMaxTurns : Z;
  EditInterval : Duration;
  OutboxRetention : Duration;
  mm_set : bool;                        (** [c.mm] is a client, not [UnavailableAPI] *)
  admin_set : bool;                     (** [c.admin != nil] *)
  provisioner_set : bool;               (** [c.provisioner != nil] *)
  newPoster : option (string -> bool)   (** [None]: nil; whether it makes a client for a token *)
}.

Definition or_default (v dflt : Z) : Z := if v =? 0 then dflt else v.

(** [Config.defaults] *)
Definition defaults (c : Config) : Config := {|
  BotUserID := BotUserID; BotUsername := BotUsername; PublicURL := PublicURL;
  CallbackSecret := CallbackSecret;
  QueueTTL := or_default QueueTTL (5 * minute);
  GracePeriod := or_default GracePeriod (10 * minute);
  ApprovalTTL := or_default ApprovalTTL (30 * minute);
  JobTimeout := or_default JobTimeout (30 * minute);
  DefaultMaxTurns := or_default DefaultMaxTurns 40;
  EditInterval := or_default EditInterval (1200 * millisecond);
  OutboxRetention := or_default OutboxRetention (24 * hour);
  mm_set := mm_set; admin_set := admin_set; provisioner_set := provisioner_set;
  newPoster := newPoster |}.

Section Posts.
Context {E : Env} {C : Config}.

(** [c.mm] *)
Definition shared : Poster := if mm_set then Shared else UnavailableAPI.

Definition api (botUserID : string) : prog World Poster :=
  if String.eqb botUserID "" || String.eqb botUserID BotUserID then Ret shared
  else match newPoster with
  | None => Ret UnavailableAPI
  | Some make =>
      b <- BotByUserID botUserID ;;
      Ret (match b with
           | Err _ => UnavailableAPI
           | Ok b =>
               if String.eqb (bToken b) "" then UnavailableAPI
               else if make (bToken b) then AsBot (bToken b) else UnavailableAPI
           end)
  end.

Definition replyAs (botUserID : string) (to : Post) (msg : string) : prog World unit :=
  p <- api botUserID ;;
  _ <- CreatePost p (new_post (poChannelId to) (rootOf to) msg []) ;; Ret tt.
Definition reply (to : Post) (msg : string) : prog World unit := replyAs "" to msg.

(** Marshalling a Go map writes its keys in order. *)
Definition audit (actor action jobID : string) (details : list (string * json)) : prog World unit :=
  now <- time_now ;;
  _ <- Append (MkAuditEntry now actor action jobID (Some (JObj (order_by_text fst details)))) ;;
  Ret tt.

(** ** Debounced edits *)

(** The section of [c.mu] in [edit]: the job's editor, made if missing. *)
Definition editor_for (jobID : string) (w : World) : nat * World :=
  match w_edits w !! jobID with
  | Some e => (e, w)
  | None =>
      let e := length (w_editors w) in
      (e, set_edits (<[jobID := e]> (w_edits w)) (set_editors (w_editors w ++ [new_editor]) w))
  end.

(** The section of [e.mu] in [edit]. *)
Definition schedule_edit (e : nat) (j : Job) (text : string) (w : World) : unit * World :=
  match w_editors w !! e with
  | None => (tt, w)
  | Some ed =>
      match edTimer ed with
      | Some t => (tt, set_editors (<[e := MkEditor text (Some t) (edLast ed)]> (w_editors w)) w)
      | None =>
          let now := clock (w_tick w) in
          let delay := Z.max 0 (EditInterval - (now - edLast ed)) in
          let t := length (w_timers w) in
          (tt, bump (set_timers (w_timers w ++ [MkTimer e j (now + delay) true])
                 (set_editors (<[e := MkEditor text (Some t) (edLast ed)]> (w_editors w)) w)))
      end
  end.

Definition edit (j : Job) (text : string) : prog World unit :=
  if String.eqb (jStatusPostID j) "" then Ret tt
  else e <- atomic (editor_for (jID j)) ;; atomic (schedule_edit e j text).

(** The runtime starts the function of an armed timer once it is due. *)
Definition start_timer (t : nat) (w : World) : option (Timer * World) :=
  match w_timers w !! t with
  | Some tm =>
      if tmArmed tm && (tmDue tm <=? clock (w_tick w))
      then Some (tm, set_timers (<[t := MkTimer (tmEditor tm) (tmJob tm) (tmDue tm) false]> (w_timers w)) w)
      else None
  | None => None
  end.

Definition take_pending (e : nat) (w : World) : string * World :=
  match w_editors w !! e with
  | Some ed => (edPending ed,
      bump (set_editors (<[e := MkEditor (edPending ed) None (clock (w_tick w))]> (w_editors w)) w))
  | None => ("", w)
  end.

(** The function [edit] gives to [time.AfterFunc]. *)
Definition fire_timer (t : nat) : prog World unit :=
  tm <- Step (start_timer t) Ret ;;
  text <- atomic (take_pending (tmEditor tm)) ;;
  p <- api (jBotUserID (tmJob tm)) ;;
  _ <- UpdatePost p (jStatusPostID (tmJob tm)) text ;; Ret tt.

(** The two sections of [finalEdit]. *)
Definition drop_editor (jobID : string) (w : World) : option nat * World :=
  (w_edits w !! jobID, set_edits (delete jobID (w_edits w)) w).

Definition stop_timer (e : nat) (w : World) : unit * World :=
  match w_editors w !! e with
  | Some ed =>
      match edTimer ed with
      | Some t =>
          (tt, set_timers (alter (fun tm => MkTimer (tmEditor tm) (tmJob tm) (tmDue tm) false) t (w_timers w))
                 (set_editors (<[e := MkEditor (edPending ed) None (edLast ed)]> (w_editors w)) w))
      | None => (tt, w)
      end
  | None => (tt, w)
  end.

Definition finalEdit (j : Job) (text : string) : prog World unit :=
  e <- atomic (drop_editor (jID j)) ;;
  match e with Some e => atomic (stop_timer e) | None => Ret tt end ;;
  if String.eqb (jStatusPostID j) "" then Ret tt
  else
    p <- api (jBotUserID j) ;;
    _ <- UpdatePost p (jStatusPostID j) text ;; Ret tt.

Definition fail (j : Job) (reason : string) : prog World unit :=
  r <- TransitionJob (jID j) ActiveStates JobFailed (MkJobPatch None None (Some reason)) ;;
  match r with
  | Err _ => Ret tt
  | Ok _ => finalEdit j ("❌ " +:+ reason)
  end.
End Posts.

#[global] Arguments api : simpl never.
#[global] Arguments replyAs : simpl never.
#[global] Arguments reply : simpl never.
#[global] Arguments audit : simpl never.
#[global] Arguments edit : simpl never.
#[global] Arguments finalEdit : simpl never.
#[global] Arguments fire_timer : simpl never.
#[global] Arguments fail : simpl never.

(** ** Guarantees *)

Section PostGuards.
Context {E : Env} {C : Config}.

Lemma guards_read R {X Y} (q : DB -> sres X) (f : sres X -> Y) :
  Quiet R -> guards R (bind (query q) (fun r => Ret (f r))).
Proof. intros. secure. Qed.
Lemma guards_BotByUserID R id : Quiet R -> guards R (BotByUserID id).
Proof. apply guards_read. Qed.

Lemma guards_api R id : Quiet R -> guards R (api id).
Proof. intros. unfold api. secure. by apply guards_BotByUserID. Qed.

Lemma guards_replyAs R b p m : Mild R -> guards R (replyAs b p m).
Proof. intros. unfold replyAs. secure. by apply guards_api, mild_quiet. Qed.

Lemma guards_reply R p m : Mild R -> guards R (reply p m).
Proof. apply guards_replyAs. Qed.

Lemma guards_audit_step a b c d : guards w_step (audit a b c d).
Proof. unfold audit. secure. Qed.
Lemma guards_audit_conns S `{!PreOrder S} a b c d : guards (on_conns S) (audit a b c d).
Proof. unfold audit, Append. secure. Qed.

Lemma guards_edit R j t : Quiet R -> guards R (edit j t).
Proof.
  intros. unfold edit. secure; apply guards_atomic; intros w; unfold editor_for, schedule_edit;
    repeat break_goal; apply quiet_step; first [done | later_tick].
Qed.

Lemma guards_finalEdit R j t : Mild R -> guards R (finalEdit j t).
Proof.
  intros HR. pose proof (@mild_quiet R HR). unfold finalEdit.
  secure; try (by apply guards_api); apply guards_atomic; intros w; unfold stop_timer;
    repeat break_goal; apply quiet_step; first [done | later_tick].
Qed.

Lemma guards_fire_timer R t : Mild R -> guards R (fire_timer t).
Proof.
  intros HR. pose proof (@mild_quiet R HR). unfold fire_timer.
  apply guards_bind; [split; [|done] | intros tm; secure; try (by apply guards_api)].
  - intros w x w' Hs. unfold start_timer in Hs. destruct (w_timers w !! t); [|done].
    destruct (_ && _); [|done]. injection Hs as <- <-. apply quiet_step; first [done | later_tick].
  - apply guards_atomic. intros w. unfold take_pending. repeat break_goal; apply quiet_step; first [done | later_tick].
Qed.

Lemma guards_fail j r : guards w_step (fail j r).
Proof. unfold fail. secure. apply guards_finalEdit. apply _. Qed.
Lemma guards_TransitionJob_conns S `{!PreOrder S} id f t p : guards (on_conns S) (TransitionJob id f t p).
Proof. unfold TransitionJob, JobByID. secure. Qed.
Lemma guards_fail_conns S `{!PreOrder S} j r : guards (on_conns S) (fail j r).
Proof. unfold fail. secure; [by apply guards_TransitionJob_conns | apply guards_finalEdit; apply _]. Qed.
End PostGuards.

#[export] Hint Resolve guards_BotByUserID guards_api guards_replyAs guards_reply guards_audit_step
  guards_audit_conns guards_edit guards_finalEdit guards_fire_timer guards_fail
  guards_TransitionJob_conns guards_fail_conns : guards.

Section PostFlow.
Context {E : Env} {C : Config}.

Lemma flow_api id : nonblocking (api id).
Proof. unfold api, BotByUserID. flow. Qed.
#[local] Hint Resolve flow_api : nonblocking.
Lemma flow_replyAs b p m : nonblocking (replyAs b p m).
Proof. unfold replyAs. flow. Qed.
Lemma flow_audit a b c d : nonblocking (audit a b c d).
Proof. unfold audit, Append. flow. Qed.
Lemma flow_edit j t : nonblocking (edit j t).
Proof. unfold edit. flow. Qed.
Lemma flow_finalEdit j t : nonblocking (finalEdit j t).
Proof. unfold finalEdit. flow. Qed.
Lemma flow_JobByID id : nonblocking (JobByID id).
Proof. unfold JobByID. flow. Qed.
#[local] Hint Resolve flow_JobByID flow_finalEdit : nonblocking.
Lemma flow_TransitionJob id f t p : nonblocking (TransitionJob id f t p).
Proof. unfold TransitionJob. flow. Qed.
#[local] Hint Resolve flow_TransitionJob : nonblocking.
Lemma flow_fail j r : nonblocking (fail j r).
Proof. unfold fail. flow. Qed.
End PostFlow.
#[export] Hint Resolve flow_api flow_replyAs flow_audit flow_edit flow_finalEdit flow_JobByID
  flow_TransitionJob flow_fail : nonblocking.
