(* ===== verification/Core.v ===== *)
(** * The broker core ([internal/broker/core/core.go])

    Mentions become jobs, jobs go to the owner's harness, progress and
    approvals become posts.  Every handler is the whole Go function, in its
    order of effects; log lines are left out. *)

From S2P Require Import Prelude Resume GoText Codec Json Protocol Store Tables World Sqlite Integrity StoreFacts CoreText Sender Posts.

Open Scope Z_scope.
Open Scope prog_scope.

(** ** Small helpers *)

Definition MaxHistoryPosts : nat := 60.

(** The bot a post addressed. *)
Record mention : Type := MkMention {
  mn_userID : string;
  mn_username : string;
  mn_owner : string;
  mn_ownerName : string;
  mn_harnessID : string;
  mn_bound : bool
}.

Definition jobBotID (m : mention) : string :=
  if negb (String.eqb (mn_owner m) "") then mn_userID m else "".

Definition job_filter (bot trigger user harness root : string) (states : list JobState) (limit : Z) : JobFilter :=
  MkJobFilter bot trigger user harness root states limit.

(** The last [n] of a list. *)
Definition last_n {A} (n : nat) (l : list A) : list A := drop (length l - n) l.

(** A slice and an error: with an error the slice is nil. *)
Definition rows_or_nil {A} (r : res (list A)) : list A := or_zero [] r.

Section Core.
Context {E : Env} {S : Sender} {C : Config}.

(** [protocol.New] *)
Definition New {T} `{!Wire T} (typ jobID : string) (payload : T) : prog World Envelope :=
  id <- new_ulid ;; ts <- time_now ;;
  Ret (new_envelope (NewID "msg" id) ts typ jobID payload).

Definition randomToken (n : nat) : prog World string :=
  b <- random_bytes n ;; Ret (token_of_bytes b).
Definition randomCode (n : nat) : prog World string :=
  b <- random_bytes n ;; Ret (code_of_bytes b n).

(** ** Choosing a harness *)

(** One round of [pickHarness]: [h] against the best so far. *)
Definition better_harness (best h : Harness) : prog World Harness :=
  oh <- Online (hID h) ;;
  first <- (if oh : bool then ob <- Online (hID best) ;; Ret (negb ob) else Ret false) ;;
  if first : bool then Ret h
  else
    let later := match hLastSeenAt h, hLastSeenAt best with
                 | Some a, Some b => b <? a
                 | Some _, None => true
                 | None, _ => false
                 end in
    if later : bool then
      oh <- Online (hID h) ;; ob <- Online (hID best) ;;
      if Bool.eqb oh ob then Ret h else Ret best
    else Ret best.

Definition pickHarness (userID : string) : prog World (option Harness) :=
  l <- HarnessesByUser userID ;;
  match l with
  | Ok (best :: rest) => h <- for_fold rest best better_harness ;; Ret (Some h)
  | _ => Ret None
  end.

(** ** What a dispatch carries *)

(** One post of the loop in [threadHistory]; the state is the cache of
    names and the history so far. *)
Definition history_post (a : Poster) (trigger : Post) (botUsername : string)
    (st : list (string * string) * list HistoryPost) (p : Post)
    : prog World (list (string * string) * list HistoryPost) :=
  let '(names, out) := st in
  if String.eqb (poId p) (poId trigger) || String.eqb (poUserId p) BotUserID
     || poFromBot p || negb (String.eqb (poType p) "")
  then Ret st
  else
    b <- BotByUserID (poUserId p) ;;
    match b with
    | Ok _ => Ret st
    | Err _ =>
        if (poCreateAt trigger <=? poCreateAt p) && (0 <? poCreateAt trigger) then Ret st
        else
          x <- match List.find (fun kv => String.eqb kv.1 (poUserId p)) names with
               | Some kv => Ret (kv.2, names)
               | None =>
                   u <- GetUser a (poUserId p) ;;
                   let name := match u with Ok u => urUsername u | Err _ => poUserId p end in
                   Ret (name, (poUserId p, name) :: names)
               end ;;
          let '(name, names) := (x : string * list (string * string)) in
          Ret (names, out ++ [MkHistoryPost name (poCreateAt p) (stripMention (poMessage p) botUsername)])
    end.

Definition threadHistory (a : Poster) (trigger : Post) (root botUsername : string)
    : prog World (list HistoryPost) :=
  if String.eqb (poRootId trigger) "" then Ret []
  else
    posts <- GetThread a root ;;
    match posts with
    | Err _ => Ret []
    | Ok posts =>
        st <- for_fold posts ([], []) (history_post a trigger botUsername) ;;
        Ret (last_n MaxHistoryPosts st.2)
    end.

Definition download_one (a : Poster) (out : list File) (id : string) : prog World (list File) :=
  fi <- GetFileInfo a id ;;
  match fi with
  | Err _ => Ret out
  | Ok fi =>
      if MaxFileBytes <? fiSize fi then Ret out
      else
        data <- DownloadFile a id ;;
        match data with
        | Err _ => Ret out
        | Ok data => Ret (out ++ [MkFile (fiName fi) (fiMime fi) (base64_encode data)])
        end
  end.
Definition downloadAttachments (a : Poster) (p : Post) : prog World (list File) :=
  for_fold (poFileIds p) [] (download_one a).

(** ** Creating a job *)

(** The harness of a mention: the bound one, or the user's best. *)
Definition target_harness (p : Post) (target : mention) : prog World (option Harness) :=
  if mn_bound target then
    h <- HarnessByID (mn_harnessID target) ;;
    Ret (match h with
         | Ok h => if String.eqb (hMMUserID h) (poUserId p) then Some h else None
         | Err _ => None
         end)
  else pickHarness (poUserId p).

(** The tail of [createJob], from the row to the audit entry. *)
Definition dispatch_job (p : Post) (job : Job) (agentName : string) (user : User)
    (attachments : list File) (history : list HistoryPost) (online : bool) : prog World unit :=
  r <- CreateJob job ;;
  match r with
  | Err _ => Ret tt
  | Ok _ =>
      env <- New TypeJobDispatch (jID job)
        (MkJobDispatch (jBotUserID job) (jWorkspace job) agentName (jPrompt job)
          (MkThread (poChannelId p) (jRootPostID job) (poId p))
          (MkRequester (urId user) (urUsername user)) attachments history
          (MkLimits DefaultMaxTurns (Z.quot JobTimeout millisecond))) ;;
      r <- SendReliable (jHarnessID job) env ;;
      match r with
      | Err e => fail job ("dispatch failed: " +:+ error_text e)
      | Ok _ =>
          audit (poUserId p) "job.created" (jID job)
            [("harness", enc_string (jHarnessID job)); ("workspace", enc_string (jWorkspace job));
             ("agent", enc_string agentName); ("history", JInt (Z.of_nat (length history)));
             ("queued", JBool (negb online))]
      end
  end.

(** The row [createJob] builds. *)
Definition new_job (id : string) (h : Harness) (p : Post) (root statusPost botUserID workspace prompt : string)
    (online : bool) (now : Time) : Job :=
  MkJob id (hID h) (poUserId p) (poChannelId p) root (poId p) statusPost botUserID workspace prompt
    (if online then JobDispatched else JobQueued) 0 "" "" now now
    (if online then None else Some (now + QueueTTL)) None.

Definition starting_text (h : Harness) (online : bool) : string :=
  if online then "⏳ Starting on `" +:+ hName h +:+ "`…"
  else "💤 `" +:+ hName h +:+ "` is offline. Holding the job for " +:+ duration_text QueueTTL +:+ ".".

Definition createJob (p : Post) (text : string) (target : mention) : prog World unit :=
  h <- target_harness p target ;;
  match h with
  | None => replyAs (mn_userID target) p
              "You have no paired harness. Run `mhb harness init` on your machine to set one up."
  | Some h =>
      let root := rootOf p in
      active <- ListJobs (job_filter (jobBotID target) "" (poUserId p) "" root ActiveStates 1) ;;
      if negb (is_empty_list (rows_or_nil active))
      then replyAs (mn_userID target) p
             ("A job is already running in this thread. Say `@" +:+ mn_username target +:+ " cancel` to stop it.")
      else
        let '(workspace, prompt) := splitWorkspace text in
        let '(agentName, prompt) := splitAgent prompt in
        if String.eqb (TrimSpace prompt) ""
        then replyAs (mn_userID target) p "Tell me what to do after the mention."
        else
          let botUserID := jobBotID target in
          poster <- api botUserID ;;
          user <- GetUser poster (poUserId p) ;;
          match user with
          | Err _ => Ret tt
          | Ok user =>
              attachments <- downloadAttachments poster p ;;
              history <- threadHistory poster p root (mn_username target) ;;
              online <- Online (hID h) ;;
              now <- time_now ;;
              statusPost <- CreatePost poster (new_post (poChannelId p) root (starting_text h online) []) ;;
              match statusPost with
              | Err _ => Ret tt
              | Ok statusPost =>
                  id <- new_ulid ;;
                  dispatch_job p
                    (new_job (NewID "job" id) h p root (poId statusPost) botUserID workspace prompt online now)
                    agentName user attachments history online
              end
          end
  end.

(** ** Cancelling *)

Definition cancelJob (j : Job) (reason : string) : prog World (res unit) :=
  if bool_decide (jState j = JobQueued) then
    r <- TransitionJob (jID j) [JobQueued] JobCancelled no_patch ;;
    match r with
    | Err e => Ret (Err e)
    | Ok _ => finalEdit j "🚫 Cancelled before the harness picked it up." ;; Ret (Ok tt)
    end
  else
    env <- New TypeJobCancel (jID j) (MkJobCancel reason) ;;
    audit (jMMUserID j) "job.cancel_requested" (jID j) [("reason", enc_string reason)] ;;
    SendReliable (jHarnessID j) env.

Definition handleCancel (p : Post) (target : mention) : prog World unit :=
  jobs <- ListJobs (job_filter (jobBotID target) "" (poUserId p) "" (rootOf p) ActiveStates 5) ;;
  if is_empty_list (rows_or_nil jobs)
  then replyAs (mn_userID target) p "Nothing running in this thread for you."
  else
    for_each (rows_or_nil jobs) (fun j => _ <- cancelJob j "user" ;; Ret tt) ;;
    replyAs (mn_userID target) p "Cancelling.".
End Core.

(** ** Inbound posts *)

Definition ChannelTypeDirect : string := "D".

(** The first word of a message that is a command rather than a prompt. *)
Inductive command : Type := CmdCancel | CmdHelp | CmdPrompt.
Definition command_of (text : string) : command :=
  let t := ToLower (TrimSpace text) in
  if String.eqb t "cancel" || String.eqb t "stop" then CmdCancel
  else if String.eqb t "" || String.eqb t "help" then CmdHelp else CmdPrompt.

Section Inbound.
Context {E : Env} {S : Sender} {C : Config}.

(** The [switch] both post handlers end in. *)
Definition run_command (p : Post) (text : string) (target : mention) : prog World unit :=
  match command_of text with
  | CmdCancel => handleCancel p target
  | CmdHelp => replyAs (mn_userID target) p (helpText (mn_username target))
  | CmdPrompt => createJob p text target
  end.

(** A post no bot reacts to. *)
Definition ignored_bot_post (botUserID : string) (p : Post) : bool :=
  String.eqb (poId p) "" || negb (poDeleteAt p =? 0) || String.eqb (poUserId p) botUserID
  || poFromBot p || negb (String.eqb (poType p) "").

(** A reply that mentions nobody continues the bot's own thread: the
    statements [HandleBotPost] asks for an unaddressed post. *)
Definition continues_thread (botUserID : string) (p : Post) (names : list string) : prog World bool :=
  if String.eqb (poRootId p) "" then Ret false
  else
    bots <- ListBots ;;
    match bots with
    | Err _ => Ret false
    | Ok bots =>
        if existsb (fun other => negb (String.eqb (bUserID other) botUserID)
                                 && is_mentioned names (ToLower (bUsername other))) bots
        then Ret false
        else
          previous <- ListJobs (job_filter botUserID "" (poUserId p) "" (poRootId p) [] 1) ;;
          Ret (negb (is_empty_list (rows_or_nil previous)))
    end.

(** The body of [HandleBotPost] under [routingMu]. *)
Definition route_bot_post (botUserID : string) (ev : PostedEvent) (p : Post) : prog World unit :=
  bot <- BotByUserID botUserID ;;
  match bot, newPoster with
  | Err _, _ | _, None => Ret tt
  | Ok bot, Some _ =>
      author <- BotByUserID (poUserId p) ;;
      if is_ok author then Ret tt
      else
        let names := mentionedNames (poMessage p) in
        let addressed := is_mentioned names (ToLower (bUsername bot))
                         || existsb (String.eqb botUserID) (evMentions ev) in
        go_on <- (if negb addressed && negb (String.eqb (evChannelType ev) ChannelTypeDirect)
                  then continues_thread botUserID p names else Ret true) ;;
        if negb go_on then Ret tt
        else if negb (String.eqb (poUserId p) (bMMUserID bot)) then
          a <- api botUserID ;;
          u <- GetUser a (bMMUserID bot) ;;
          let owner := match u with Ok u => urUsername u | Err _ => bMMUserID bot end in
          replyAs botUserID p ("Only @" +:+ owner +:+ " can run jobs on this machine.") ;;
          audit (poUserId p) "job.forbidden" "" [("bot", enc_string (bUsername bot))]
        else
          prior <- ListJobs (job_filter botUserID (poId p) "" "" "" [] 1) ;;
          match prior with
          | Ok [] =>
              run_command p (stripMention (poMessage p) (bUsername bot))
                (MkMention (bUserID bot) (bUsername bot) (bMMUserID bot) (bMMUserID bot) (bHarnessID bot) true)
          | _ => Ret tt
          end
  end.

Definition HandleBotPost (botUserID : string) (ev : PostedEvent) : prog World unit :=
  match evPost ev with
  | None => Ret tt
  | Some p =>
      if ignored_bot_post botUserID p then Ret tt
      else with_lock routingMu (route_bot_post botUserID ev p)
  end.

(** The first bot of the list whose name is mentioned, as a mention. *)
Definition mentioned_user_bot (names : list string) : prog World (option mention) :=
  if is_empty_list names then Ret None
  else
    bots <- ListBots ;;
    match List.find (fun b => is_mentioned names (bUsername b)) (rows_or_nil bots) with
    | None => Ret None
    | Some b =>
        u <- GetUser shared (bMMUserID b) ;;
        let owner := match u with Ok u => urUsername u | Err _ => "" end in
        Ret (Some (MkMention (bUserID b) (bUsername b) (bMMUserID b) owner "" false))
    end.

Definition mentionedBot (ev : PostedEvent) (p : Post) : prog World (option mention) :=
  let names := mentionedNames (poMessage p) in
  m <- mentioned_user_bot names ;;
  match m with
  | Some m => Ret (Some m)
  | None =>
      if existsb (String.eqb BotUserID) (evMentions ev) || is_mentioned names BotUsername
      then Ret (Some (MkMention BotUserID BotUsername "" "" "" false))
      else Ret None
  end.

Definition newPairingCode (userID : string) : prog World (res string) :=
  code <- randomCode 8 ;;
  now <- time_now ;;
  r <- CreatePairing (hashCode code) userID (now + 10 * minute) ;;
  Ret (res_map (fun _ => code) r).

Definition harness_line (h : Harness) (online : bool) : string :=
  "- `" +:+ hName h +:+ "` (" +:+ hID h +:+ ") " +:+ (if online then "online" else "offline")
  +:+ ", last seen " +:+ (match hLastSeenAt h with Some t => local_rfc822 t | None => "never" end)
  +:+ ", v" +:+ hVersion h +:+ nl.
Definition job_line (j : Job) : string :=
  "- " +:+ jID j +:+ ": " +:+ state_text (jState j) +:+ " since " +:+ local_kitchen (jCreatedAt j) +:+ nl.

Definition statusText (userID : string) : prog World string :=
  l <- HarnessesByUser userID ;;
  if is_empty_list (rows_or_nil l) then Ret "No paired harness. Send `pair` to get a code."
  else
    text <- for_fold (rows_or_nil l) "" (fun acc h => o <- Online (hID h) ;; Ret (acc +:+ harness_line h o)) ;;
    jobs <- ListJobs (job_filter "" "" userID "" "" ActiveStates 10) ;;
    if is_empty_list (rows_or_nil jobs) then Ret text
    else Ret (text +:+ nl +:+ "Active jobs:" +:+ nl +:+ Join (map job_line (rows_or_nil jobs)) "").

Definition handleDM (p : Post) : prog World unit :=
  let cmd := match Fields (TrimSpace (poMessage p)) with f :: _ => ToLower f | [] => "" end in
  if String.eqb cmd "pair" then
    if admin_set then
      reply p ("Run `mhb harness init --broker " +:+ PublicURL +:+
               "` on your machine; it creates your own bot and pairs in one go.")
    else
      code <- newPairingCode (poUserId p) ;;
      match code with
      | Err _ => reply p "Could not create a pairing code, see broker logs."
      | Ok code =>
          reply p ("Run this on the machine that should execute your jobs (code valid for 10 minutes):" +:+ nl
            +:+ "```" +:+ nl +:+ "mhb harness pair --broker " +:+ PublicURL +:+ " " +:+ code +:+ nl +:+ "```")
      end
  else if String.eqb cmd "status" then text <- statusText (poUserId p) ;; reply p text
  else reply p (helpText BotUsername).

Definition HandlePost (ev : PostedEvent) : prog World unit :=
  match evPost ev with
  | None => Ret tt
  | Some p =>
      if String.eqb (poUserId p) BotUserID || poFromBot p || negb (String.eqb (poType p) "") then Ret tt
      else if String.eqb (evChannelType ev) ChannelTypeDirect then handleDM p
      else
        m <- mentionedBot ev p ;;
        match m with
        | None => Ret tt
        | Some target =>
            if negb (String.eqb (mn_owner target) "") && negb (String.eqb (mn_owner target) (poUserId p)) then
              let who := if String.eqb (mn_ownerName target) "" then "its owner" else "@" +:+ mn_ownerName target in
              replyAs (mn_userID target) p ("Only " +:+ who +:+ " can run jobs on this machine.") ;;
              audit (poUserId p) "job.forbidden" "" [("bot", enc_string (mn_username target))]
            else run_command p (stripMention (poMessage p) (mn_username target)) target
        end
  end.
End Inbound.

(** ** Harness events ([hub.Handler]) *)

Section HarnessEvents.
Context {E : Env} {S : Sender} {C : Config}.

(** One entry of the hello: resume what is still active, abort the rest. *)
Definition hello_job (known : gmap string Job) (out : list WelcomeJob) (hj : HelloJob)
    : prog World (list WelcomeJob) :=
  match known !! hj_JobID hj with
  | None => Ret (out ++ [MkWelcomeJob (hj_JobID hj) ActionAbort "unknown or finished"])
  | Some j =>
      (if bool_decide (jState j = JobQueued) || bool_decide (jState j = JobDispatched)
       then _ <- TransitionJob (jID j) [JobQueued; JobDispatched] JobRunning no_patch ;; Ret tt
       else Ret tt) ;;
      Ret (out ++ [MkWelcomeJob (hj_JobID hj) ActionResume ""])
  end.

(** An active job the harness did not report. *)
Definition unreported_job (j : Job) : prog World unit :=
  match jState j with
  | JobRunning | JobAwaitingApproval => fail j "the harness restarted and no longer has this job"
  | JobQueued =>
      r <- TransitionJob (jID j) [JobQueued] JobDispatched no_patch ;;
      match r with
      | Ok _ => edit j "⏳ Harness is back, starting…"
      | Err _ => Ret tt
      end
  | _ => Ret tt
  end.

Definition core_OnHello (h : Harness) (hello : Hello) : prog World (list WelcomeJob) :=
  active <- ActiveJobsByHarness (hID h) ;;
  let active := rows_or_nil active in
  let known := foldl (fun (m : gmap string Job) j => <[jID j := j]> m) ∅ active in
  let reported := map hj_JobID (he_Jobs hello) in
  out <- for_fold (he_Jobs hello) [] (hello_job known) ;;
  for_each active (fun j => if existsb (String.eqb (jID j)) reported then Ret tt else unreported_job j) ;;
  Ret out.

Definition core_OnAck (h : Harness) (ref jobID : string) (a : Ack) : prog World unit :=
  if String.eqb jobID "" then Ret tt
  else if ak_OK a then
    r <- TransitionJob jobID [JobDispatched] JobRunning no_patch ;;
    match r with
    | Err _ => Ret tt
    | Ok _ =>
        j <- JobByID jobID ;;
        match j with
        | Ok j => edit j ("▶️ Running on `" +:+ hName h +:+ "`…")
        | Err _ => Ret tt
        end
    end
  else
    j <- JobByID jobID ;;
    match j with
    | Err _ => Ret tt
    | Ok j =>
        if negb (String.eqb (jHarnessID j) (hID h)) then Ret tt
        else if bool_decide (jState j = JobDispatched)
        then fail j ("harness rejected the job: " +:+ nackText a)
        else Ret tt
    end.

Definition core_OnProgress (h : Harness) (jobID : string) (p : JobProgress) : prog World unit :=
  applied <- RecordProgress jobID (jp_Seq p) ;;
  match applied with
  | Ok true =>
      j <- JobByID jobID ;;
      match j with
      | Ok j => if String.eqb (jHarnessID j) (hID h) then edit j (renderProgress (hName h) p) else Ret tt
      | Err _ => Ret tt
      end
  | _ => Ret tt
  end.

Definition sign (approvalID decision nonce : string) : string :=
  hmac_hex CallbackSecret (approvalID +:+ "|" +:+ decision +:+ "|" +:+ nonce).

Definition callback_url (path : string) : string := TrimRight PublicURL "/" +:+ path.

Definition approval_action (approvalID nonce decision label style : string) : PostAction :=
  MkPostAction decision label style (callback_url "/callback/approval")
    [("approval_id", approvalID); ("decision", decision); ("sig", sign approvalID decision nonce)].

Definition approvalAttachment (r : ApprovalRequest) (nonce : string) : MessageAttachment :=
  MkMessageAttachment "#f0ad4e" ("Approval needed: " +:+ aq_Tool r)
    ("```" +:+ nl +:+ truncate (aq_Summary r) 1500 +:+ nl +:+ "```" +:+ nl +:+ "in `" +:+ aq_CWD r +:+ "`")
    ("Approval needed: " +:+ aq_Tool r +:+ " " +:+ truncate (aq_Summary r) 100)
    [approval_action (aq_ApprovalID r) nonce DecisionAllow "Allow" "primary";
     approval_action (aq_ApprovalID r) nonce DecisionDeny "Deny" "danger"].

Definition approval_post (j : Job) (a : MessageAttachment) : Post :=
  MkPost "" "" (jChannelID j) (jRootPostID j) "" "" 0 0 [] false (Some [a]).

(** The row [OnApprovalRequest] stores. *)
Definition new_approval (jobID : string) (r : ApprovalRequest) (nonce : string) (now : Time) : Approval :=
  MkApproval (aq_ApprovalID r) jobID (aq_Tool r) (aq_Summary r) (aq_Input r) nonce now
    (from_unix_milli (aq_ExpiresAt r)) "" "" None.

Definition core_OnApprovalRequest (h : Harness) (jobID : string) (r : ApprovalRequest) : prog World Ack :=
  j <- JobByID jobID ;;
  match j with
  | Err _ => Ret (MkAck false NackUnknownJob "")
  | Ok j =>
      if negb (String.eqb (jHarnessID j) (hID h)) then Ret (MkAck false NackForbidden "")
      else if Terminal (jState j)
      then Ret (MkAck false NackUnknownJob ("job is " +:+ state_text (jState j)))
      else
        nonce <- randomToken 16 ;;
        now <- time_now ;;
        e <- CreateApproval (new_approval jobID r nonce now) ;;
        match e with
        | Err ErrConflict => Ret (MkAck true "" "")
        | Err e => Ret (MkAck false "store" (error_text e))
        | Ok _ =>
            _ <- TransitionJob jobID [JobDispatched; JobRunning] JobAwaitingApproval no_patch ;;
            a <- api (jBotUserID j) ;;
            _ <- CreatePost a (approval_post j (approvalAttachment r nonce)) ;;
            edit j ("⏸ Waiting for approval: **" +:+ aq_Tool r +:+ "** `" +:+ truncate (aq_Summary r) 200 +:+ "`") ;;
            audit (hID h) "approval.requested" jobID
              [("approval", enc_string (aq_ApprovalID r)); ("tool", enc_string (aq_Tool r));
               ("summary", enc_string (aq_Summary r))] ;;
            Ret (MkAck true "" "")
        end
  end.

(** *** Results *)

Definition upload_result (a : Poster) (j : Job) (ids : list string) (f : File) : prog World (list string) :=
  match base64_decode (fi_DataB64 f) with
  | None => Ret ids
  | Some data =>
      if MaxFileBytes <? Z.of_nat (length data) then Ret ids
      else
        fi <- UploadFile a (jChannelID j) (fi_Name f) data ;;
        Ret (match fi with Ok fi => ids ++ [fiId fi] | Err _ => ids end)
  end.

Definition postResult (j : Job) (h : Harness) (r : JobResult) : prog World unit :=
  let meta := result_meta (hName h) r in
  let body := result_body r in
  a <- api (jBotUserID j) ;;
  ids <- (if result_too_long meta body then
            fi <- UploadFile a (jChannelID j) "result.md" (bytes_of body) ;;
            Ret (match fi with Ok fi => [fiId fi] | Err _ => [] end)
          else Ret []) ;;
  ids <- for_fold (jr_Files r) ids (upload_result a j) ;;
  finalEdit j (result_message meta body) ;;
  if is_empty_list ids then Ret tt
  else _ <- CreatePost a (new_post (jChannelID j) (jRootPostID j) "📎 Attachments" ids) ;; Ret tt.

(** The state a result moves its job to. *)
Definition result_state (status : string) : JobState :=
  if String.eqb status StatusSucceeded then JobSucceeded
  else if String.eqb status StatusCancelled then JobCancelled else JobFailed.

Definition result_patch (r : JobResult) : JobPatch :=
  MkJobPatch None (Some (jr_Text r))
    ((fun e => je_Code e +:+ ": " +:+ je_Message e) <$> jr_Error r).

Definition core_OnResult (h : Harness) (jobID : string) (r : JobResult) : prog World Ack :=
  j <- JobByID jobID ;;
  match j with
  | Err _ => Ret (MkAck false NackUnknownJob "")
  | Ok j =>
      if negb (String.eqb (jHarnessID j) (hID h)) then Ret (MkAck false NackForbidden "")
      else if Terminal (jState j) && negb (bool_decide (jState j = JobLost)) then Ret (MkAck true "" "")
      else
        x <- TransitionJob jobID (JobLost :: ActiveStates) (result_state (jr_Status r)) (result_patch r) ;;
        match x with
        | Err e => Ret (MkAck false "store" (error_text e))
        | Ok j =>
            postResult j h r ;;
            audit (hID h) "job.finished" jobID
              [("status", enc_string (jr_Status r)); ("turns", JInt (us_Turns (jr_Usage r)));
               ("cost_usd", JFloat (us_CostUSD (jr_Usage r)))] ;;
            Ret (MkAck true "" "")
        end
  end.

Definition core_OnDisconnect (h : Harness) : prog World unit :=
  jobs <- ListJobs (job_filter "" "" "" (hID h) "" [JobRunning; JobAwaitingApproval; JobDispatched] 0) ;;
  for_each (rows_or_nil jobs) (fun j =>
    edit j ("📡 `" +:+ hName h +:+ "` disconnected. Waiting up to " +:+ duration_text GracePeriod
            +:+ " for it to come back.")).

#[export] Instance core_handler : Handler := {|
  OnHello := core_OnHello;
  OnProgress := core_OnProgress;
  OnResult := core_OnResult;
  OnApprovalRequest := core_OnApprovalRequest;
  OnAck := core_OnAck;
  OnDisconnect := core_OnDisconnect
|}.
End HarnessEvents.

(** ** Approvals via callback *)

(** [model.PostActionIntegrationRequest]. *)
Record CallbackRequest : Type := MkCallbackRequest {
  cb_UserId : string;
  cb_UserName : string;
  cb_PostId : string;
  cb_Context : list (string * json)
}.

(** The response: a text only the clicker sees, or the new button post. *)
Inductive CallbackResponse : Type :=
| Ephemeral (text : string)
| Update (post : Post).

(** [req.Context[key].(string)], "" when absent or of another type. *)
Definition context_text (ctx : list (string * json)) (key : string) : string :=
  match List.find (fun kv => String.eqb kv.1 key) ctx with
  | Some (_, JStr s) => s
  | _ => ""
  end.

Section Callback.
Context {E : Env} {S : Sender} {C : Config}.

(** The job goes on when none of its approvals is pending any more. *)
Definition resume_job (j : Job) : prog World unit :=
  pending <- PendingApprovalsByJob (jID j) ;;
  if is_empty_list (rows_or_nil pending) then
    r <- TransitionJob (jID j) [JobAwaitingApproval] JobRunning no_patch ;;
    match r with Ok _ => edit j "▶️ Running…" | Err _ => Ret tt end
  else Ret tt.

(** The button post after the decision: the buttons are gone. *)
Definition decision_post (req : CallbackRequest) (a : Approval) (decision : string) : Post :=
  let icon := if String.eqb decision DecisionDeny then "⛔ Denied" else "✅ Allowed" in
  MkPost (cb_PostId req) "" "" ""
    (icon +:+ " by @" +:+ cb_UserName req +:+ ": **" +:+ aTool a +:+ "** `" +:+ truncate (aSummary a) 200 +:+ "`")
    "" 0 0 [] false (Some []).

(** The part of [HandleCallback] after a recorded decision. *)
Definition announce_decision (req : CallbackRequest) (j : Job) (a : Approval) (approvalID decision : string)
    (now : Time) : prog World CallbackResponse :=
  env <- New TypeApprovalResponse (jID j)
           (MkApprovalResponse approvalID decision (cb_UserName req) (unix_milli now)) ;;
  _ <- SendReliable (jHarnessID j) env ;;
  resume_job j ;;
  audit (cb_UserId req) "approval.decided" (jID j)
    [("approval", enc_string approvalID); ("decision", enc_string decision); ("tool", enc_string (aTool a))] ;;
  Ret (Update (decision_post req a decision)).

Definition HandleCallback (req : CallbackRequest) : prog World CallbackResponse :=
  let approvalID := context_text (cb_Context req) "approval_id" in
  let decision := context_text (cb_Context req) "decision" in
  let sig := context_text (cb_Context req) "sig" in
  if String.eqb approvalID ""
     || (negb (String.eqb decision DecisionAllow) && negb (String.eqb decision DecisionDeny))
  then Ret (Ephemeral "Malformed approval action.")
  else
    a <- ApprovalByID approvalID ;;
    match a with
    | Err _ => Ret (Ephemeral "This approval no longer exists.")
    | Ok a =>
        if negb (String.eqb sig (sign approvalID decision (aNonce a))) then
          audit (cb_UserId req) "approval.bad_signature" (aJobID a) [("approval", enc_string approvalID)] ;;
          Ret (Ephemeral "Invalid approval signature.")
        else
          j <- JobByID (aJobID a) ;;
          match j with
          | Err _ => Ret (Ephemeral "The job for this approval is gone.")
          | Ok j =>
              if negb (String.eqb (cb_UserId req) (jMMUserID j)) then
                audit (cb_UserId req) "approval.forbidden" (jID j) [("approval", enc_string approvalID)] ;;
                Ret (Ephemeral "Only the job owner can decide this.")
              else if Terminal (jState j)
              then Ret (Ephemeral ("The job already finished (" +:+ state_text (jState j) +:+ ")."))
              else
                now <- time_now ;;
                d <- DecideApproval approvalID decision (cb_UserId req) now ;;
                match d with
                | Err ErrConflict => Ret (Ephemeral "Already decided or expired.")
                | Err _ => Ret (Ephemeral "Could not record the decision.")
                | Ok a => announce_decision req j a approvalID decision now
                end
          end
    end.
End Callback.

(** ** Pairing *)

Record PairRequest : Type := MkPairRequest {
  pr_Code : string;
  pr_Name : string;
  pr_Hostname : string;
  pr_Version : string
}.
Record PairResponse : Type := MkPairResponse {
  ps_HarnessID : string;
  ps_Token : string;
  ps_MMUserID : string;
  ps_Username : string
}.
Definition ErrBadPairingCode : error := ErrOther "invalid or expired pairing code".

Definition harness_name (req : PairRequest) : string :=
  let name := TrimSpace (pr_Name req) in
  let name := if String.eqb name "" then pr_Hostname req else name in
  if String.eqb name "" then "harness" else name.

Section Pairing.
Context {E : Env} {S : Sender} {C : Config}.

(** The direct message about a new harness; the owner's name. *)
Definition announce_pairing (userID name harnessID : string) : prog World string :=
  u <- GetUser shared userID ;;
  match u with
  | Err _ => Ret ""
  | Ok u =>
      ch <- DirectChannel shared BotUserID userID ;;
      match ch with
      | Err _ => Ret (urUsername u)
      | Ok ch =>
          _ <- CreatePost shared (new_post ch ""
                 ("Paired harness `" +:+ name +:+ "` (" +:+ harnessID +:+ "). Mention @" +:+ BotUsername
                  +:+ " in any channel to use it.") []) ;;
          Ret (urUsername u)
      end
  end.

Definition HandlePair (req : PairRequest) : prog World (res PairResponse) :=
  now <- time_now ;;
  user <- ConsumePairing (hashCode (pr_Code req)) now ;;
  match user with
  | Err ErrNotFound => Ret (Err ErrBadPairingCode)
  | Err e => Ret (Err e)
  | Ok userID =>
      let name := harness_name req in
      secret <- randomToken 32 ;;
      let token := "hrt_" +:+ secret in
      id <- new_ulid ;; now <- time_now ;;
      let h := MkHarness (NewID "hrn" id) userID name (tokenHash token) (pr_Version req) now None in
      r <- CreateHarness h ;;
      match r with
      | Err e => Ret (Err e)
      | Ok _ =>
          username <- announce_pairing userID name (hID h) ;;
          audit userID "harness.paired" "" [("harness", enc_string (hID h)); ("name", enc_string name)] ;;
          Ret (Ok (MkPairResponse (hID h) token userID username))
      end
  end.
End Pairing.

(** ** The sweeper *)

Section Sweeper.
Context {E : Env} {S : Sender} {C : Config}.

Definition last_seen (h : Harness) : Time := default (hCreatedAt h) (hLastSeenAt h).

(** One job of the loop: a timeout for an online harness, the grace period
    for an offline one. *)
Definition sweep_job (now : Time) (j : Job) : prog World unit :=
  online <- Online (jHarnessID j) ;;
  if online : bool then
    if (wrap64 (JobTimeout + minute) <? now - jCreatedAt j) && negb (bool_decide (jState j = JobAwaitingApproval))
    then _ <- cancelJob j "timeout" ;; Ret tt
    else Ret tt
  else
    h <- HarnessByID (jHarnessID j) ;;
    match h with
    | Err _ => Ret tt
    | Ok h =>
        if GracePeriod <? now - last_seen h then
          r <- TransitionJob (jID j) ActiveStates JobLost
                 (MkJobPatch None None
                    (Some ("lost: harness offline for more than " +:+ duration_text GracePeriod))) ;;
          match r with
          | Err _ => Ret tt
          | Ok _ => finalEdit j ("📡 Lost contact with `" +:+ hName h +:+
                      "`. If it comes back and finishes, the result still lands here.")
          end
        else Ret tt
    end.

Definition Sweep : prog World unit :=
  now <- time_now ;;
  _ <- PurgeOutbox (now - OutboxRetention) ;;
  expired <- ExpireQueuedJobs now ;;
  for_each (rows_or_nil expired) (fun j =>
    finalEdit j ("💤 Expired: the harness did not come online within " +:+ duration_text QueueTTL +:+ ".")) ;;
  jobs <- ListJobs (job_filter "" "" "" "" "" [JobDispatched; JobRunning; JobAwaitingApproval] 1000) ;;
  for_each (rows_or_nil jobs) (sweep_job now).
End Sweeper.
