(* ===== verification/CoreGuards.v ===== *)
(** * The core under interleaving

    Every step of every handler of the core keeps the database's integrity,
    moves jobs only along legal edges, and leaves the hub's connection table
    alone.  This discharges [HandlerLaws]. *)

From S2P Require Import Prelude Resume GoText Codec Json Protocol Store Tables World Sqlite Integrity StoreFacts CoreText Sender Posts Core.

Open Scope Z_scope.
Open Scope prog_scope.

(** Statements that change the database leave connections alone. *)
Section StoreConns.
Context {E : Env}.
Ltac conns := lazymatch goal with |- guards _ ?m => let h := head_of m in unfold h end; secure.

Lemma c_RecordProgress id n : guards (on_conns eq) (RecordProgress id n). Proof. conns. Qed.
Lemma c_CreateApproval a : guards (on_conns eq) (CreateApproval a). Proof. conns. Qed.
Lemma c_CreateJob j : guards (on_conns eq) (CreateJob j). Proof. conns. Qed.
Lemma c_DecideApproval i d b t : guards (on_conns eq) (DecideApproval i d b t).
Proof. unfold DecideApproval, ApprovalByID. secure. Qed.
End StoreConns.

Section Reads.
Context {E : Env} (R : World -> World -> Prop) `{!Quiet R}.
Lemma r_HarnessByID id : guards R (HarnessByID id). Proof. by apply guards_read. Qed.
Lemma r_HarnessesByUser u : guards R (HarnessesByUser u). Proof. by apply guards_read. Qed.
Lemma r_JobByID id : guards R (JobByID id). Proof. by apply guards_read. Qed.
Lemma r_ListJobs f : guards R (ListJobs f). Proof. by apply guards_read. Qed.
Lemma r_ActiveJobsByHarness h : guards R (ActiveJobsByHarness h). Proof. by apply guards_read. Qed.
Lemma r_ApprovalByID id : guards R (ApprovalByID id). Proof. by apply guards_read. Qed.
Lemma r_PendingApprovalsByJob j : guards R (PendingApprovalsByJob j). Proof. by apply guards_read. Qed.
Lemma r_ListBots : guards R ListBots. Proof. by apply guards_read. Qed.
End Reads.
#[export] Hint Resolve c_RecordProgress c_CreateApproval c_CreateJob c_DecideApproval r_HarnessByID
  r_HarnessesByUser r_JobByID r_ListJobs r_ActiveJobsByHarness r_ApprovalByID
  r_PendingApprovalsByJob r_ListBots : guards.

Section CoreGuards.
Context {E : Env} {S : Sender} `{!SenderLaws S} {C : Config}.

Ltac open_prog := lazymatch goal with |- guards _ ?m => let h := head_of m in unfold h end.

Lemma g_New R `{!Quiet R} {T} `{!Wire T} typ job (x : T) : guards R (New typ job x).
Proof. unfold New. secure. Qed.
Lemma g_randomToken R `{!Quiet R} n : guards R (randomToken n).
Proof. unfold randomToken. secure. Qed.
Lemma g_randomCode R `{!Quiet R} n : guards R (randomCode n).
Proof. unfold randomCode. secure. Qed.
#[local] Hint Resolve g_New g_randomToken g_randomCode : guards.

Lemma g_better_harness R `{!Quiet R} a b : guards R (better_harness a b).
Proof. unfold better_harness. secure. Qed.
#[local] Hint Resolve g_better_harness : guards.
Lemma g_pickHarness R `{!Quiet R} u : guards R (pickHarness u).
Proof. unfold pickHarness. secure. Qed.
Lemma g_history_post R `{!Quiet R} a t b st p : guards R (history_post a t b st p).
Proof. unfold history_post. secure. Qed.
#[local] Hint Resolve g_pickHarness g_history_post : guards.
Lemma g_threadHistory R `{!Quiet R} a t r b : guards R (threadHistory a t r b).
Proof. unfold threadHistory. secure. Qed.
Lemma g_downloadAttachments R `{!Quiet R} a p : guards R (downloadAttachments a p).
Proof. unfold downloadAttachments, download_one. secure. Qed.
Lemma g_target_harness R `{!Quiet R} p t : guards R (target_harness p t).
Proof. unfold target_harness. secure. Qed.
#[local] Hint Resolve g_threadHistory g_downloadAttachments g_target_harness : guards.

(** Both relations of [HandlerLaws] at once. *)
Definition kept {A} (m : prog World A) : Prop := guards w_step m /\ guards (on_conns eq) m.

Ltac keep := split; open_prog; secure.

Lemma k_dispatch_job p j ag u att h o : kept (dispatch_job p j ag u att h o).
Proof. keep. Qed.
Lemma k_createJob p t m : kept (createJob p t m).
Proof. keep; apply k_dispatch_job. Qed.
Lemma k_cancelJob j r : kept (cancelJob j r).
Proof. keep. Qed.
Lemma k_handleCancel p m : kept (handleCancel p m).
Proof. keep; apply k_cancelJob. Qed.

Lemma k_run_command p t m : kept (run_command p t m).
Proof. keep; apply k_handleCancel || apply k_createJob. Qed.
Lemma g_continues_thread R `{!Quiet R} b p n : guards R (continues_thread b p n).
Proof. unfold continues_thread. secure. Qed.
#[local] Hint Resolve g_continues_thread : guards.
Lemma k_HandleBotPost b ev : kept (HandleBotPost b ev).
Proof. split; unfold HandleBotPost, route_bot_post; secure; apply k_run_command. Qed.
Lemma g_mentionedBot R `{!Quiet R} ev p : guards R (mentionedBot ev p).
Proof. unfold mentionedBot, mentioned_user_bot. secure. Qed.
Lemma g_statusText R `{!Quiet R} u : guards R (statusText u).
Proof. unfold statusText. secure. Qed.
#[local] Hint Resolve g_mentionedBot g_statusText : guards.
Lemma k_newPairingCode u : kept (newPairingCode u).
Proof. split; unfold newPairingCode, CreatePairing; secure. apply guards_exec_db; [apply _ | auto with db_steps]. Qed.
Lemma k_handleDM p : kept (handleDM p).
Proof. keep; apply k_newPairingCode. Qed.
Lemma k_HandlePost ev : kept (HandlePost ev).
Proof. keep; apply k_handleDM || apply k_run_command. Qed.

Lemma k_OnHello h hello : kept (core_OnHello h hello).
Proof. split; unfold core_OnHello, hello_job, unreported_job; secure. Qed.
Lemma k_OnAck h ref j a : kept (core_OnAck h ref j a).
Proof. keep. Qed.
Lemma k_OnProgress h j p : kept (core_OnProgress h j p).
Proof. keep. Qed.
Lemma k_OnApprovalRequest h j r : kept (core_OnApprovalRequest h j r).
Proof. keep. Qed.
Lemma g_postResult R `{!Mild R} j h r : guards R (postResult j h r).
Proof. pose proof (@mild_quiet R _). unfold postResult, upload_result. secure. Qed.
#[local] Hint Resolve g_postResult : guards.
Lemma result_state_final s :
  result_state s = JobSucceeded \/ result_state s = JobFailed \/ result_state s = JobCancelled.
Proof. unfold result_state. repeat break_goal; auto. Qed.
Lemma k_OnResult h j r : kept (core_OnResult h j r).
Proof. keep. apply g_TransitionJob, edges_result, result_state_final. Qed.
Lemma k_OnDisconnect h : kept (core_OnDisconnect h).
Proof. keep. Qed.

#[export] Instance core_handler_laws : HandlerLaws core_handler.
Proof.
  split; cbn.
  - apply k_OnHello.
  - apply k_OnProgress.
  - apply k_OnResult.
  - apply k_OnApprovalRequest.
  - apply k_OnAck.
  - apply k_OnDisconnect.
Qed.

Lemma k_HandleCallback req : kept (HandleCallback req).
Proof. split; unfold HandleCallback, announce_decision, resume_job; secure. Qed.
Lemma k_HandlePair req : kept (HandlePair req).
Proof.
  split; unfold HandlePair, announce_pairing, ConsumePairing, CreateHarness; secure;
    apply guards_exec_db; try apply _; auto with db_steps.
Qed.
Lemma k_Sweep : kept Sweep.
Proof.
  split; unfold Sweep, sweep_job, PurgeOutbox, ExpireQueuedJobs; secure; try apply k_cancelJob;
    apply guards_exec_db; try apply _; auto with db_steps.
Qed.
End CoreGuards.
