(* ===== verification/CoreFacts.v ===== *)
(** * What the core promises

    The functional behaviour of the handlers on every branch: who may do
    what, what is stored, what is answered. *)

From S2P Require Import Prelude Resume GoText Codec Json Protocol Store Tables World Sqlite Integrity StoreFacts CoreText Sender Posts Core CoreGuards.

Open Scope Z_scope.
Open Scope prog_scope.

(** ** Only the audit log *)

(** The two databases differ at most by entries added to the audit log. *)
Definition audit_only (d d' : DB) : Prop := exists l, d' = set_audit (t_audit d ++ l) d.
#[export] Instance audit_only_preorder : PreOrder audit_only.
Proof.
  split.
  - intros []. exists []. unfold set_audit. cbn. by rewrite app_nil_r.
  - intros d1 d2 d3 [l1 ->] [l2 ->]. exists (l1 ++ l2). unfold set_audit. cbn. by rewrite app_assoc.
Qed.
Abbreviation w_audit := (on_db audit_only).

Lemma audit_only_tables d d' :
  audit_only d d' ->
  t_harnesses d' = t_harnesses d /\ t_bots d' = t_bots d /\ t_inits d' = t_inits d
  /\ t_pairings d' = t_pairings d /\ t_jobs d' = t_jobs d /\ t_approvals d' = t_approvals d
  /\ t_outbox d' = t_outbox d.
Proof. by intros [l ->]. Qed.

(** Nothing was stored, posted or sent. *)
Definition undisturbed (w w' : World) : Prop :=
  w_db w = w_db w' /\ w_conns w = w_conns w' /\ w_trace w = w_trace w'.
#[export] Instance undisturbed_preorder : PreOrder undisturbed.
Proof. split; [by intros x | intros x y z (? & ? & ?) (? & ? & ?); split_and!; congruence]. Qed.

#[export] Instance undisturbed_quiet : Quiet undisturbed.
Proof. split; [apply _ | done]. Qed.

Section AuditOnly.
Context {E : Env} {C : Config}.

Lemma guards_audit_only a b c d : guards w_audit (audit a b c d).
Proof.
  unfold audit, Append. secure; apply guards_exec_db; try apply _; intros x; cbn; by eexists.
Qed.
End AuditOnly.
#[export] Hint Resolve guards_audit_only : guards.

Ltac frame_audit := eapply wp_mono; [|apply (wp_frame w_audit)]; [|flow|secure].

(** ** Results *)

Section Results.
Context {E : Env} {S : Sender} `{!SenderLaws S} {C : Config} `{!NoFaults E}.

Lemma flow_upload_result a j ids f : nonblocking (upload_result a j ids f).
Proof. unfold upload_result. flow. Qed.
#[local] Hint Resolve flow_upload_result : nonblocking.
Lemma flow_postResult j h r : nonblocking (postResult j h r).
Proof. unfold postResult. flow. Qed.
#[local] Hint Resolve flow_postResult : nonblocking.
#[local] Hint Resolve g_postResult : guards.

(** C31. A result is accepted from the job's own harness only, for a job
    that is active or lost.  The job then is succeeded or cancelled when the
    result says so and failed whatever else it says; it has the text of the
    result, and its error, code and message, if it has one; it is finished at
    the moment of the update; what it is about and its progress number stay;
    and nothing else but the audit log changes.  A repeated result is acknowledged and changes nothing at all;
    an unknown job and a foreign harness are refused. *)
Theorem OnResult_spec h jobID r w :
  wp (core_OnResult h jobID r) (fun ack w' =>
    match t_jobs (w_db w) !! jobID with
    | None => ack = MkAck false NackUnknownJob "" /\ w_db w' = w_db w /\ w_trace w' = w_trace w
    | Some j =>
        if negb (String.eqb (jHarnessID j) (hID h))
        then ack = MkAck false NackForbidden "" /\ w_db w' = w_db w /\ w_trace w' = w_trace w
        else if Terminal (jState j) && negb (bool_decide (jState j = JobLost))
        then ack = MkAck true "" "" /\ w_db w' = w_db w /\ w_trace w' = w_trace w
        else ack = MkAck true "" "" /\ exists j',
          audit_only (set_jobs (<[jobID := j']> (t_jobs (w_db w))) (w_db w)) (w_db w')
          /\ same_job j j' /\ jLastSeq j' = jLastSeq j /\ jStatusPostID j' = jStatusPostID j
          /\ jState j' = (if bool_decide (jr_Status r = "succeeded") then JobSucceeded
                          else if bool_decide (jr_Status r = "cancelled") then JobCancelled else JobFailed)
          /\ jResultText j' = jr_Text r
          /\ jError j' = match jr_Error r with
               | Some e => je_Code e +:+ ": " +:+ je_Message e
               | None => jError j
               end
          /\ jFinishedAt j' = Some (jUpdatedAt j')
    end) w.
Proof.
  unfold core_OnResult. rewrite wp_bind, wp_JobByID.
  destruct (t_jobs (w_db w) !! jobID) as [j|] eqn:Hj; cbn [found]; [|by rewrite wp_ret].
  destruct (negb (String.eqb (jHarnessID j) (hID h))) eqn:Hh; [by rewrite wp_ret|].
  destruct (Terminal (jState j) && negb (bool_decide (jState j = JobLost))) eqn:Ht; [by rewrite wp_ret|].
  rewrite wp_bind. eapply wp_rule; [by apply wp_TransitionJob|]. cbn.
  intros x w1 [Hx _]. unfold transition_outcome in Hx. rewrite Hj in Hx.
  assert (in_states (JobLost :: ActiveStates) j = true) as Hin.
  { unfold in_states. apply bool_decide_eq_true. destruct (jState j); set_solver. }
  rewrite Hin in Hx. destruct Hx as [-> Hd].
  rewrite wp_bind. frame_audit. intros [] w2 Hw2. rewrite wp_bind. frame_audit.
  intros [] w3 Hw3. rewrite wp_ret. split; [done|]. eexists. split.
  { unfold on_db in *. rewrite <- Hd. by trans (w_db w2). }
  split; [by repeat split|]. split; [done|]. split; [done|]. cbn. unfold result_state.
  split; [|split; [done|split; [by destruct (jr_Error r)|]]].
  - destruct (String.eqb_spec (jr_Status r) StatusSucceeded); [by rewrite bool_decide_true|rewrite (bool_decide_false (_ = "succeeded")) by done].
    destruct (String.eqb_spec (jr_Status r) StatusCancelled); [by rewrite bool_decide_true|by rewrite bool_decide_false].
  - by destruct (String.eqb (jr_Status r) StatusSucceeded), (String.eqb (jr_Status r) StatusCancelled).
Qed.
End Results.

(** ** Acks and progress *)

Section Acks.
Context {E : Env} {S : Sender} `{!SenderLaws S} {C : Config} `{!NoFaults E}.

Lemma wp_transition id from to p w (Q : res Job -> World -> Prop) :
  is_empty_list from = false ->
  (forall r w', transition_outcome id from to p (clock (w_tick w)) (w_db w) r (w_db w') ->
     only_db w w' -> Q r w') -> wp (TransitionJob id from to p) Q w.
Proof. intros Hf HQ. eapply wp_rule; [by apply wp_TransitionJob|]. intros r w' []. auto. Qed.

Lemma wp_edit_db j t w (Q : unit -> World -> Prop) :
  (forall w', w_db w' = w_db w -> w_trace w' = w_trace w -> w_conns w' = w_conns w -> Q tt w') ->
  wp (edit j t) Q w.
Proof.
  intros HQ. eapply wp_mono; [|apply (wp_frame undisturbed)]; [|flow|secure].
  intros [] w' (? & ? & ?). auto.
Qed.

Lemma wp_fail j reason w (Q : unit -> World -> Prop) :
  (forall r w1 w', transition_outcome (jID j) ActiveStates JobFailed (MkJobPatch None None (Some reason))
      (clock (w_tick w)) (w_db w) r (w_db w1) -> w_db w' = w_db w1 -> Q tt w') ->
  wp (fail j reason) Q w.
Proof.
  intros HQ. unfold fail. rewrite wp_bind. apply wp_transition; [done|]. intros r w1 Hr _.
  destruct r as [j'|e]; [|rewrite wp_ret; by eapply HQ].
  eapply wp_mono; [|apply (wp_frame (on_db eq))]; [|flow|secure].
  intros [] w' Hw. eapply HQ; [done|]. by symmetry.
Qed.

(** The ack of a dispatch: a positive one starts a dispatched job, and
    only a dispatched one; a negative one fails a dispatched job with the
    harness's reason, and is ignored unless it comes from the job's own
    harness.  No other job is touched. *)
Theorem OnAck_spec h ref jobID a w :
  (forall j, t_jobs (w_db w) !! jobID = Some j -> jID j = jobID) ->
  wp (core_OnAck h ref jobID a) (fun _ w' =>
    exists t, w_db w' = set_jobs (match t_jobs (w_db w) !! jobID with
      | Some j =>
          if String.eqb jobID "" || negb (bool_decide (jState j = JobDispatched)) then t_jobs (w_db w)
          else if ak_OK a then <[jobID := transition_row JobRunning no_patch t j]> (t_jobs (w_db w))
          else if String.eqb (jHarnessID j) (hID h)
          then <[jobID := transition_row JobFailed
                   (MkJobPatch None None (Some ("harness rejected the job: " +:+ nackText a))) t j]> (t_jobs (w_db w))
          else t_jobs (w_db w)
      | None => t_jobs (w_db w)
      end) (w_db w)) w.
Proof.
  intros Hkey. assert (forall w' : World, w_db w' = w_db w -> exists t : Time, w_db w' = set_jobs (t_jobs (w_db w)) (w_db w)) as same.
  { intros w' ->. exists 0. by rewrite set_jobs_id. }
  unfold core_OnAck. destruct (String.eqb jobID "") eqn:Hid.
  { rewrite wp_ret. cbn. destruct (t_jobs (w_db w) !! jobID); by apply same. }
  cbn [orb]. destruct (ak_OK a) eqn:Ha.
  - rewrite wp_bind. apply wp_transition; [done|]. intros r w1 Hr _. unfold transition_outcome in Hr.
    destruct (t_jobs (w_db w) !! jobID) as [j|] eqn:Hj.
    2: { destruct Hr as [-> Hd]. rewrite wp_ret. by apply same. }
    assert (in_states [JobDispatched] j = bool_decide (jState j = JobDispatched)) as Hin.
    { apply bool_decide_ext. set_solver. }
    rewrite Hin in Hr. destruct (bool_decide (jState j = JobDispatched)); cbn [negb].
    + destruct Hr as [-> Hd]. rewrite wp_bind, wp_JobByID.
      destruct (t_jobs (w_db w1) !! jobID); cbn [found]; [|rewrite wp_ret; by eexists].
      apply wp_edit_db. intros w2 -> _ _. by eexists.
    + destruct Hr as [-> Hd]. rewrite wp_ret. by apply same.
  - rewrite wp_bind, wp_JobByID. destruct (t_jobs (w_db w) !! jobID) as [j|] eqn:Hj; cbn [found];
      [|rewrite wp_ret; by apply same].
    destruct (String.eqb (jHarnessID j) (hID h)); cbn [negb].
    2: { rewrite wp_ret. destruct (negb _); by apply same. }
    destruct (bool_decide (jState j = JobDispatched)) eqn:Hs; cbn [negb]; [|rewrite wp_ret; by apply same].
    apply bool_decide_eq_true in Hs. apply wp_fail. intros r w1 w2 Hr ->.
    unfold transition_outcome in Hr. cbn in Hr. rewrite (Hkey j eq_refl), Hj in Hr.
    unfold in_states in Hr. rewrite Hs, bool_decide_true in Hr by set_solver.
    destruct Hr as [_ ->]. by eexists.
Qed.

(** Progress of a job is shown only when it comes from the job's own
    harness; whoever sends it, it changes no job but the named one, and there
    only the progress number. *)
Theorem OnProgress_spec h jobID p w :
  wp (core_OnProgress h jobID p) (fun _ w' =>
    (exists t, w_db w' = set_jobs (match t_jobs (w_db w) !! jobID with
       | Some j => if accepts_progress (jp_Seq p) j
                   then <[jobID := progress_row (jp_Seq p) t j]> (t_jobs (w_db w)) else t_jobs (w_db w)
       | None => t_jobs (w_db w)
       end) (w_db w))
    /\ (forall j, t_jobs (w_db w) !! jobID = Some j -> jHarnessID j <> hID h ->
          w_edits w' = w_edits w /\ w_editors w' = w_editors w /\ w_timers w' = w_timers w)) w.
Proof.
  unfold core_OnProgress, RecordProgress. wp_steps. unfold update_progress. cbn.
  destruct (update_key_cases (accepts_progress (jp_Seq p)) (progress_row (jp_Seq p) (clock (w_tick w))) jobID (t_jobs (w_db w)))
    as [(Hk & Ha & Hu)|[(j & Hk & HP & Ha & Hu)|(j & Hk & HP & Ha & Hu)]]; rewrite Ha, Hu, Hk, ?HP; cbn.
  - rewrite wp_ret. split; [by exists 0|]. done.
  - rewrite wp_ret. split; [by exists 0|]. done.
  - rewrite wp_bind, wp_JobByID. cbn. rewrite lookup_insert_eq. cbn [found].
    destruct (String.eqb_spec (jHarnessID (progress_row (jp_Seq p) (clock (w_tick w)) j)) (hID h)) as [Hh|Hh].
    + apply wp_edit_db. intros w' -> _ _. split; [by eexists|]. intros j' [= <-] Hne. by destruct Hne.
    + rewrite wp_ret. split; [by eexists|]. done.
Qed.
End Acks.

(** ** Approvals *)

Section Approvals.
Context {E : Env} {S : Sender} `{!SenderLaws S} {C : Config} `{!NoFaults E}.

(** An approval request is taken from the job's own harness only and
    for an unfinished job; it is stored pending with its own expiry and a
    fresh nonce, and a dispatched or running job then waits for it.  A
    repeated request is acknowledged without a second button post and
    changes nothing; every refusal leaves the database alone. *)
Theorem OnApprovalRequest_spec h jobID r w :
  wp (core_OnApprovalRequest h jobID r) (fun ack w' =>
    match t_jobs (w_db w) !! jobID with
    | None => ack = MkAck false NackUnknownJob "" /\ w_db w' = w_db w /\ w_trace w' = w_trace w
    | Some j =>
        if negb (String.eqb (jHarnessID j) (hID h))
        then ack = MkAck false NackForbidden "" /\ w_db w' = w_db w /\ w_trace w' = w_trace w
        else if Terminal (jState j)
        then ak_OK ack = false /\ w_db w' = w_db w /\ w_trace w' = w_trace w
        else match t_approvals (w_db w) !! aq_ApprovalID r with
        | Some _ => ack = MkAck true "" "" /\ w_db w' = w_db w /\ w_trace w' = w_trace w
        | None =>
            ack = MkAck true "" "" /\ exists nonce now t,
            let d := set_approvals (<[aq_ApprovalID r := approval_row (new_approval jobID r nonce now)]> (t_approvals (w_db w))) (w_db w) in
            audit_only
              (set_jobs (if in_states [JobDispatched; JobRunning] j
                         then <[jobID := transition_row JobAwaitingApproval no_patch t j]> (t_jobs d)
                         else t_jobs d) d) (w_db w')
        end
    end) w.
Proof.
  unfold core_OnApprovalRequest. rewrite wp_bind, wp_JobByID.
  destruct (t_jobs (w_db w) !! jobID) as [j|] eqn:Hj; cbn [found]; [|by rewrite wp_ret].
  destruct (negb (String.eqb (jHarnessID j) (hID h))); [by rewrite wp_ret|].
  destruct (Terminal (jState j)); [by rewrite wp_ret|].
  unfold randomToken, CreateApproval. wp_steps. set (nonce := token_of_bytes _).
  unfold insert_approval. cbn [aID new_approval aJobID w_db bump set_tick].
  destruct (t_approvals (w_db w) !! aq_ApprovalID r) as [a|] eqn:Hk.
  { rewrite bool_decide_true by eauto. cbn. rewrite inserted_unique. by rewrite wp_ret. }
  rewrite bool_decide_false by (by intros [? ?]). rewrite Hj, bool_decide_true by eauto. cbn.
  rewrite inserted_ok, wp_bind. apply wp_transition; [done|]. intros x w1 Hx _.
  unfold transition_outcome in Hx. cbn in Hx. rewrite Hj in Hx.
  rewrite !wp_bind. frame_audit. intros pst w2 Hw2. rewrite wp_bind. frame_audit. intros o w3 Hw3.
  rewrite wp_bind. frame_audit. intros [] w4 Hw4. rewrite wp_bind. frame_audit. intros [] w5 Hw5.
  rewrite wp_ret. split; [done|]. unfold on_db in *.
  assert (audit_only (w_db w1) (w_db w5)) as Hall by (etrans; [exact Hw2|]; etrans; [exact Hw3|]; by etrans).
  eexists nonce, _, _. destruct (in_states [JobDispatched; JobRunning] j); destruct Hx as [_ Hd];
    rewrite Hd in Hall; exact Hall.
Qed.
End Approvals.

(** *** Decisions *)

(** The message ids that can be drawn from now on are new to the outbox. *)
Definition fresh_messages {E : Env} (w : World) : Prop :=
  forall t, (w_tick w <= t)%nat -> t_outbox (w_db w) !! NewID "msg" (ulid_make t) = None.

Section Decisions.
Context {E : Env} {S : Sender} `{!SenderLaws S} {C : Config} `{!NoFaults E}.

(** The rule for a decision under NoFaults. *)
Lemma wp_decide id dec by_ at_ w (Q : res Approval -> World -> Prop) :
  (forall a w', t_approvals (w_db w) !! id = Some a -> decidable_at at_ a = true ->
     w_db w' = set_approvals (<[id := decide_row dec by_ at_ a]> (t_approvals (w_db w))) (w_db w) ->
     (w_tick w <= w_tick w')%nat -> Q (Ok (scanApproval (decide_row dec by_ at_ a))) w') ->
  (forall w' e, w_db w' = w_db w -> Q (Err e) w') ->
  wp (DecideApproval id dec by_ at_) Q w.
Proof.
  intros H1 H2. unfold DecideApproval. wp_steps. unfold update_decide.
  destruct (update_key_cases (decidable_at at_) (decide_row dec by_ at_) id (t_approvals (w_db w)))
    as [(Hk & Ha & Hu)|[(a & Hk & HP & Ha & Hu)|(a & Hk & HP & Ha & Hu)]]; cbn; rewrite Ha, Hu; cbn;
    rewrite ?wp_bind, wp_ApprovalByID; cbn; rewrite ?lookup_insert_eq, ?Hk; cbn; rewrite ?wp_ret.
  - apply H2. cbn. by destruct (w_db w).
  - apply H2. cbn. by destruct (w_db w).
  - eapply H1; [done..|later_tick].
Qed.

Lemma wp_New {T} `{!Wire T} typ job (x : T) w (Q : Envelope -> World -> Prop) :
  (forall ts w', undisturbed w w' -> Q (new_envelope (NewID "msg" (ulid_make (w_tick w))) ts typ job x) w') ->
  wp (New typ job x) Q w.
Proof. intros HQ. unfold New. wp_steps. by apply HQ. Qed.

(** What a recorded decision leads to. *)
Definition decision_effect (req : CallbackRequest) (j : Job) (a : ApprovalRow) (id decision : string)
    (d d' : DB) : Prop :=
  exists now env sent t l,
    let d1 := stored (jHarnessID j) env sent
      (set_approvals (<[id := decide_row decision (cb_UserId req) now a]> (t_approvals d)) d) in
    decidable_at now a = true
    /\ en_Type env = TypeApprovalResponse /\ en_JobID env = jID j
    /\ en_Payload env = Some (wire_enc (MkApprovalResponse id decision (cb_UserName req) (unix_milli now)))
    /\ select_pending_approvals (jID j) d1 = SqlOk l
    /\ audit_only
         (set_jobs (if is_empty_list l && in_states [JobAwaitingApproval] j
                    then <[jID j := transition_row JobRunning no_patch t j]> (t_jobs d1)
                    else t_jobs d1) d1) d'.

Lemma wp_resume_job j w (Q : unit -> World -> Prop) :
  t_jobs (w_db w) !! jID j = Some j ->
  (forall t l w', select_pending_approvals (jID j) (w_db w) = SqlOk l ->
     w_db w' = set_jobs (if is_empty_list l && in_states [JobAwaitingApproval] j
                         then <[jID j := transition_row JobRunning no_patch t j]> (t_jobs (w_db w))
                         else t_jobs (w_db w)) (w_db w) -> Q tt w') ->
  wp (resume_job j) Q w.
Proof.
  intros Hj HQ. unfold resume_job, PendingApprovalsByJob. rewrite wp_bind, wp_read.
  destruct (select_pending_approvals (jID j) (w_db w)) as [l|e] eqn:Hl; [|done].
  cbn [scan rows_or_nil or_zero].
  destruct (is_empty_list l) eqn:Hempty.
  2: { rewrite wp_ret. apply (HQ 0 l); [done|]. rewrite ?Hempty. cbn. by rewrite set_jobs_id. }
  rewrite wp_bind. apply wp_transition; [done|]. intros x w3 Hx _. unfold transition_outcome in Hx.
  cbn in Hx. rewrite Hj in Hx. destruct (in_states [JobAwaitingApproval] j) eqn:Hin; destruct Hx as [-> Hd3].
  - apply wp_edit_db. intros w4 Hd4 _ _. eapply (HQ _ l); [done|]. rewrite ?Hempty, ?Hin, Hd4, Hd3. cbn. reflexivity.
  - rewrite wp_ret. apply (HQ 0 l); [done|]. rewrite ?Hempty, ?Hin, Hd3. cbn. by rewrite set_jobs_id.
Qed.

Lemma announce_decision_effect req j a id decision now w w0 :
  t_jobs (w_db w0) !! jID j = Some j -> decidable_at now a = true ->
  w_db w = set_approvals (<[id := decide_row decision (cb_UserId req) now a]> (t_approvals (w_db w0))) (w_db w0) ->
  fresh_messages w0 -> (w_tick w0 <= w_tick w)%nat ->
  wp (announce_decision req j (scanApproval (decide_row decision (cb_UserId req) now a)) id decision now)
     (fun resp w' => (exists p, resp = Update p) /\ decision_effect req j a id decision (w_db w0) (w_db w')) w.
Proof.
  intros Hj Hdec Hw Hfresh Htick. unfold announce_decision. rewrite wp_bind. apply wp_New.
  intros ts w1 (Hd1 & _ & _). set (env := new_envelope _ _ _ _ _). rewrite wp_bind.
  eapply wp_rule.
  { apply SendReliable_stores; [done|done|]. rewrite <- Hd1, Hw. by apply Hfresh. }
  cbn beta. intros r w2 ((sent & Hd2) & _). rewrite <- Hd1, Hw in Hd2.
  rewrite wp_bind. apply wp_resume_job; [by rewrite Hd2|]. intros t2 l w3 Hl Hd3.
  rewrite wp_bind. frame_audit. intros [] w4 Hw4. rewrite wp_ret. split; [by eexists|].
  unfold on_db in Hw4. rewrite Hd3, Hd2 in Hw4. rewrite Hd2 in Hl.
  by exists now, env, sent, t2, l.
Qed.

End Decisions.
