(* ===== verification/JobFacts.v ===== *)
(** * The life of a job in the core

    Who can create a job, what is stored for it, and what cancelling,
    expiring and losing it does. *)

From S2P Require Import Prelude Resume GoText Codec Json Protocol Store Tables World Sqlite Integrity StoreFacts CoreText Sender Posts Core CoreGuards CoreFacts.

Open Scope Z_scope.
Open Scope prog_scope.

(** Nothing was stored and no connection came or went, while time passed. *)
Definition calm (w w' : World) : Prop :=
  w_db w = w_db w' /\ w_conns w = w_conns w' /\ (w_tick w <= w_tick w')%nat.
#[export] Instance calm_preorder : PreOrder calm.
Proof. split; [by intros x | intros x y z (? & ? & ?) (? & ? & ?); split_and!; [congruence..|lia]]. Qed.
Ltac still := split_and!; [done|done|later_tick].
#[export] Instance calm_silent : Silent calm.
Proof. split; [split; [apply _|]|]; by intros. Qed.

Ltac frame_calm := eapply wp_mono; [|apply (wp_frame calm)]; [|flow|secure].

Section Choice.
Context {E : Env} {S : Sender} `{!SenderLaws S} {C : Config} `{!NoFaults E}.

Lemma flow_better_harness a b : nonblocking (better_harness a b).
Proof. unfold better_harness. flow. Qed.
Lemma g_better_calm a b : guards calm (better_harness a b).
Proof. apply g_better_harness, _. Qed.

(** The better of two harnesses is one of the two. *)
Lemma wp_better_harness a b w :
  wp (better_harness a b) (fun h w' => calm w w' /\ (h = a \/ h = b)) w.
Proof.
  apply (guards_wp calm); [apply g_better_calm|]. unfold better_harness.
  rewrite wp_bind, wp_Online, wp_bind. destruct (is_online (hID b) w).
  - rewrite wp_bind, wp_Online, wp_ret. destruct (negb _); [rewrite wp_ret; auto|].
    destruct (match hLastSeenAt b with Some _ => _ | None => _ end); [|rewrite wp_ret; auto].
    rewrite wp_bind, wp_Online, wp_bind, wp_Online. destruct (Bool.eqb _ _); rewrite wp_ret; auto.
  - rewrite wp_ret. destruct (match hLastSeenAt b with Some _ => _ | None => _ end); [|rewrite wp_ret; auto].
    rewrite wp_bind, wp_Online, wp_bind, wp_Online. destruct (Bool.eqb _ _); rewrite wp_ret; auto.
Qed.

Lemma wp_pickHarness u w :
  wp (pickHarness u) (fun r w' => calm w w' /\ forall h, r = Some h ->
    hMMUserID h = u /\ exists k, t_harnesses (w_db w) !! k = Some h) w.
Proof.
  unfold pickHarness, HarnessesByUser. rewrite wp_bind, wp_read. cbn [scan select_harnesses_by_user].
  set (l := order_by hCreatedAt _).
  assert (forall h, h ∈ l -> hMMUserID h = u /\ exists k, t_harnesses (w_db w) !! k = Some h) as Hl.
  { intros h Hh. apply elem_of_order_by, elem_of_select in Hh as [Hu Hk]. by apply String.eqb_eq in Hu. }
  destruct l as [|best rest]; [rewrite wp_ret; split; [still|done]|].
  rewrite wp_bind. eapply wp_mono; [|apply (wp_for_fold rest best better_harness (fun h w' => calm w w' /\ h ∈ best :: rest))].
  - intros h w' [Hc Hin]. rewrite wp_ret. split; [done|]. intros h' [= <-]. by apply Hl.
  - split; [still|left].
  - intros x s w1 Hx [Hc Hs]. eapply wp_mono; [|apply wp_better_harness].
    intros h w2 [Hc2 [->| ->]]; (split; [by trans w1|]); [done | by right].
Qed.

Lemma wp_target_harness p t w :
  wp (target_harness p t) (fun r w' => calm w w' /\ forall h, r = Some h ->
    hMMUserID h = poUserId p /\ (exists k, t_harnesses (w_db w) !! k = Some h)
    /\ (mn_bound t = true -> t_harnesses (w_db w) !! mn_harnessID t = Some h)) w.
Proof.
  unfold target_harness. destruct (mn_bound t).
  - rewrite wp_bind, wp_HarnessByID, wp_ret. split; [still|].
    destruct (t_harnesses (w_db w) !! mn_harnessID t) as [h|] eqn:Hh; cbn [found]; [|done].
    destruct (String.eqb_spec (hMMUserID h) (poUserId p)); [|done]. intros h' [= <-]. eauto.
  - eapply wp_mono; [|apply wp_pickHarness]. intros r w' [Hc Hr]. split; [done|].
    intros h Hh. destruct (Hr h Hh) as [? ?]. done.
Qed.
End Choice.

(** ** Listing *)

Lemma select_jobs_none f d :
  select_jobs f d = SqlOk [] -> forall id j, t_jobs d !! id = Some j -> job_matches f j = false.
Proof.
  unfold select_jobs. intros [= H] id j Hj.
  destruct (job_matches f j) eqn:Hm; [|done]. exfalso.
  set (rows := order_by (fun j => - jCreatedAt j) (select (job_matches f) (t_jobs d))) in *.
  assert (j ∈ rows) as Hin by (apply elem_of_order_by, elem_of_select; eauto).
  assert (0 < Z.to_nat (effective_limit (fLimit f)))%nat as Hpos.
  { unfold effective_limit. destruct (Z.leb_spec (fLimit f) 0); lia. }
  destruct rows as [|x l]; [by apply elem_of_nil in Hin|].
  destruct (Z.to_nat (effective_limit (fLimit f))); [lia | done].
Qed.

Lemma select_jobs_some f d id j :
  t_jobs d !! id = Some j -> job_matches f j = true -> exists x l, select_jobs f d = SqlOk (x :: l).
Proof.
  intros Hj Hm. destruct (select_jobs f d) as [[|x l]|] eqn:Hs; [|eauto|done].
  pose proof (select_jobs_none _ _ Hs _ _ Hj). congruence.
Qed.

(** ** Creating a job *)

Section Creating.
Context {E : Env} {S : Sender} `{!SenderLaws S} {C : Config} `{!NoFaults E}.

(** The filter of the one-job-per-thread test. *)
Definition active_in_thread (p : Post) (target : mention) : JobFilter :=
  job_filter (jobBotID target) "" (poUserId p) "" (rootOf p) ActiveStates 1.

(** The row [j] and the order [d] that a mention of [target] in [p] with
    [text] makes on harness [h]: the job is the author's, answers that post in
    its thread, and waits for the harness with an expiry exactly when the
    harness is offline; the order is for the same work in the same thread. *)
Definition job_for (p : Post) (text : string) (target : mention) (h : Harness) (online : bool)
    (j : Job) (d : JobDispatch) : Prop :=
  let '(workspace, rest) := splitWorkspace text in
  let '(agent, prompt) := splitAgent rest in
  jHarnessID j = hID h /\ jMMUserID j = poUserId p /\ jBotUserID j = jobBotID target
  /\ jChannelID j = poChannelId p /\ jRootPostID j = rootOf p /\ jTriggerPostID j = poId p
  /\ jWorkspace j = workspace /\ jPrompt j = prompt /\ TrimSpace prompt <> ""
  /\ jResultText j = "" /\ jError j = "" /\ jFinishedAt j = None /\ jLastSeq j = 0
  /\ (if online then jState j = JobDispatched /\ jExpiresAt j = None
      else jState j = JobQueued /\ jExpiresAt j = Some (jCreatedAt j + QueueTTL))
  /\ jd_Workspace d = workspace /\ jd_Agent d = agent /\ jd_Prompt d = prompt
  /\ jd_BotUserID d = jobBotID target /\ jd_Thread d = MkThread (poChannelId p) (rootOf p) (poId p).

(** A job [j] of [p]'s author was created on the author's harness [h]: its
    dispatch [env] is stored for delivery to [h]; the job is failed at once
    when the connection of an online harness refuses the frame. *)
Definition job_created (p : Post) (text : string) (target : mention) (w : World) (d' : DB) : Prop :=
  exists h j env order sent,
    let online := is_online (hID h) w in
    let d1 := stored (hID h) env sent (set_jobs (<[jID j := job_row j]> (t_jobs (w_db w))) (w_db w)) in
    hMMUserID h = poUserId p
    /\ (mn_bound target = true -> t_harnesses (w_db w) !! mn_harnessID target = Some h)
    /\ (forall k j0, t_jobs (w_db w) !! k = Some j0 ->
          jMMUserID j0 = poUserId p -> jRootPostID j0 = rootOf p ->
          (jobBotID target = "" \/ jBotUserID j0 = jobBotID target) ->
          Terminal (jState j0) = true)
    /\ t_jobs (w_db w) !! jID j = None
    /\ job_for p text target h online j order
    /\ t_outbox (w_db w) !! en_ID env = None
    /\ en_Type env = TypeJobDispatch /\ en_JobID env = jID j /\ en_Payload env = Some (wire_enc order)
    /\ (audit_only d1 d'
        \/ online = true /\ exists reason t, audit_only
             (set_jobs (<[jID j := transition_row JobFailed (MkJobPatch None None (Some reason)) t (job_row j)]> (t_jobs d1)) d1) d').

(** The test of [createJob] covers every job that has not ended. *)
Lemma thread_is_free p target j :
  job_matches (active_in_thread p target) j = false ->
  jMMUserID j = poUserId p -> jRootPostID j = rootOf p ->
  (jobBotID target = "" \/ jBotUserID j = jobBotID target) -> Terminal (jState j) = true.
Proof.
  unfold job_matches, active_in_thread, job_filter, column_matches. cbn.
  intros Hm Hu Hr Hb. rewrite Hu, Hr, !String.eqb_refl, !orb_true_r in Hm. cbn in Hm.
  assert (String.eqb (jobBotID target) "" || String.eqb (jBotUserID j) (jobBotID target) = true) as Hbot.
  { destruct Hb as [->| ->]; [done|]. by rewrite String.eqb_refl, orb_true_r. }
  rewrite Hbot in Hm. cbn in Hm. apply bool_decide_eq_false in Hm.
  destruct (jState j); try reflexivity; destruct Hm; set_solver.
Qed.

Lemma flow_history_post a t b st p : nonblocking (history_post a t b st p).
Proof. unfold history_post, BotByUserID. destruct st. flow. Qed.
#[local] Hint Resolve flow_history_post : nonblocking.
Lemma flow_threadHistory a t r b : nonblocking (threadHistory a t r b).
Proof. unfold threadHistory. flow. Qed.
Lemma flow_downloadAttachments a p : nonblocking (downloadAttachments a p).
Proof. unfold downloadAttachments, download_one. flow. Qed.
#[local] Hint Resolve flow_threadHistory flow_downloadAttachments : nonblocking.
#[local] Hint Resolve g_threadHistory g_downloadAttachments : guards.

Lemma job_active s : s = JobDispatched \/ s = JobQueued -> s ∈ ActiveStates.
Proof. intros [->| ->]; set_solver. Qed.

Lemma wp_dispatch_job p j ag u att hist online w (Q : unit -> World -> Prop) :
  fresh_messages w -> (jState j = JobDispatched \/ jState j = JobQueued) ->
  (t_jobs (w_db w) !! jID j = None -> forall env sent w',
     let order := MkJobDispatch (jBotUserID j) (jWorkspace j) ag (jPrompt j)
       (MkThread (poChannelId p) (jRootPostID j) (poId p)) (MkRequester (urId u) (urUsername u)) att hist
       (MkLimits DefaultMaxTurns (Z.quot JobTimeout millisecond)) in
     let d1 := stored (jHarnessID j) env sent (set_jobs (<[jID j := job_row j]> (t_jobs (w_db w))) (w_db w)) in
     en_Type env = TypeJobDispatch -> en_JobID env = jID j -> en_Payload env = Some (wire_enc order) ->
     t_outbox (w_db w) !! en_ID env = None ->
     (audit_only d1 (w_db w')
      \/ is_online (jHarnessID j) w = true /\ exists reason t, audit_only
           (set_jobs (<[jID j := transition_row JobFailed (MkJobPatch None None (Some reason)) t (job_row j)]> (t_jobs d1)) d1) (w_db w')) ->
     Q tt w') ->
  (forall w', w_db w' = w_db w -> Q tt w') ->
  wp (dispatch_job p j ag u att hist online) Q w.
Proof.
  intros Hfresh Hst H1 H2. unfold dispatch_job, CreateJob. wp_steps. unfold insert_job.
  destruct (bool_decide (is_Some (t_jobs (w_db w) !! jID j))) eqn:Hk.
  { cbn [fst snd]. rewrite inserted_unique, wp_ret. by apply H2. }
  apply is_Some_bool in Hk. destruct (exists_row _ _); [cbn [fst snd]; rewrite inserted_unique, wp_ret; by apply H2|].
  destruct (bool_decide (is_Some (t_harnesses (w_db w) !! _))); cbn [fst snd];
    [rewrite inserted_ok | rewrite inserted_fk, wp_ret; by apply H2].
  rewrite wp_bind. apply wp_New. intros ts w1 (Hd1 & Hc1 & _). cbn in Hd1, Hc1.
  set (env := new_envelope _ _ _ _ _). rewrite wp_bind.
  assert (t_outbox (w_db w) !! en_ID env = None) as Hnew by (apply Hfresh; later_tick).
  eapply wp_rule; [apply SendReliable_stores; [done|done|by rewrite <- Hd1]|].
  cbn beta. intros r w2 ((sent & Hd2) & _ & _ & _ & _ & Hoff). rewrite <- Hd1 in Hd2.
  rewrite (is_online_conns _ w1 w) in Hoff by done.
  destruct r as [|e].
  - frame_audit. intros [] w3 Hw3. apply (H1 Hk env sent w3); [done..|left].
    unfold on_db in Hw3. by rewrite Hd2 in Hw3.
  - apply wp_fail. intros r w3 w4 Hr Hd4. apply (H1 Hk env sent w4); [done..|right].
    split; [destruct (is_online _ w); [done | by specialize (Hoff eq_refl)]|].
    unfold transition_outcome in Hr. rewrite Hd2 in Hr. cbn in Hr. rewrite lookup_insert_eq in Hr.
    unfold in_states in Hr. cbn [job_row jState] in Hr.
    rewrite bool_decide_true in Hr by (by apply job_active).
    destruct Hr as [_ Hr]. eexists _, _. rewrite Hd4, Hr. reflexivity.
Qed.

End Creating.

(** ** Routing *)

Section Routing.
Context {E : Env} {S : Sender} `{!SenderLaws S} {C : Config} `{!NoFaults E}.

Lemma flow_continues_thread b p n : nonblocking (continues_thread b p n).
Proof. unfold continues_thread, ListBots, ListJobs. flow. Qed.
#[local] Hint Resolve flow_continues_thread : nonblocking.
#[local] Hint Resolve g_continues_thread : guards.

(** The post mentions the bot or was made in a direct channel. *)
Definition addressed_to (botUserID : string) (b : Bot) (ev : PostedEvent) (p : Post) : Prop :=
  is_mentioned (mentionedNames (poMessage p)) (ToLower (bUsername b)) = true
  \/ botUserID ∈ evMentions ev \/ evChannelType ev = ChannelTypeDirect.

(** Nothing was stored, posted or sent. *)
Definition untouched (w w' : World) : Prop := w_db w' = w_db w /\ w_trace w' = w_trace w.

(** The author of [p] was turned away: one reply in the post's thread, which
    names the bot's owner (Mattermost may refuse it, and a bot without a usable
    token cannot post it), and one entry of the audit log, and nothing else. *)
Definition turned_away (b : Bot) (p : Post) (w w' : World) : Prop :=
  (exists now, w_db w' = set_audit (t_audit (w_db w)
     ++ [MkAuditEntry now (poUserId p) "job.forbidden" "" (Some (JObj [("bot", enc_string (bUsername b))]))]) (w_db w))
  /\ (w_trace w' = w_trace w
      \/ exists a owner ok, a <> UnavailableAPI /\ w_trace w' = w_trace w ++
           [EvCreatePost a (new_post (poChannelId p) (rootOf p)
              ("Only @" +:+ owner +:+ " can run jobs on this machine.") []) ok]).

Lemma wp_audit actor action job details w (Q : unit -> World -> Prop) :
  (forall now w', w_db w' = set_audit (t_audit (w_db w)
      ++ [MkAuditEntry now actor action job (Some (JObj (order_by_text fst details)))]) (w_db w) ->
    w_trace w' = w_trace w -> Q tt w') ->
  wp (audit actor action job details) Q w.
Proof.
  intros HQ. unfold audit, Append. wp_steps. cbn [eAt].
  destruct (clock _ =? zero_time); rewrite ?wp_time_now, ?wp_bind, ?wp_ret; wp_steps; by eapply HQ.
Qed.

Lemma wp_replyAs id p msg w (Q : unit -> World -> Prop) :
  (forall w', w_db w' = w_db w ->
     (w_trace w' = w_trace w
      \/ exists a ok, a <> UnavailableAPI
           /\ w_trace w' = w_trace w ++ [EvCreatePost a (new_post (poChannelId p) (rootOf p) msg []) ok]) -> Q tt w') ->
  wp (replyAs id p msg) Q w.
Proof.
  intros HQ. unfold replyAs. rewrite wp_bind.
  eapply wp_mono; [|apply (wp_frame undisturbed)]; [|flow|secure]. intros a w1 (Hd & _ & Ht).
  rewrite wp_bind. unfold CreatePost, api_call. destruct a; rewrite ?wp_call, !wp_ret; apply HQ; cbn;
    rewrite <- ?Ht, ?Hd; try done; try by left.
  all: right; eexists _, _; split; [|reflexivity]; done.
Qed.

Lemma turn_away botUserID b p w :
  wp (a <- api botUserID ;;
      u <- GetUser a (bMMUserID b) ;;
      replyAs botUserID p ("Only @" +:+ (match u with Ok u => urUsername u | Err _ => bMMUserID b end)
                           +:+ " can run jobs on this machine.") ;;
      audit (poUserId p) "job.forbidden" "" [("bot", enc_string (bUsername b))])
     (fun _ w' => turned_away b p w w') w.
Proof.
  rewrite wp_bind. eapply wp_mono; [|apply (wp_frame undisturbed)]; [|flow|secure]. intros a w1 (Hd1 & _ & Ht1).
  rewrite wp_bind. eapply wp_mono; [|apply (wp_frame undisturbed)]; [|flow|secure]. intros u w2 (Hd2 & _ & Ht2).
  rewrite wp_bind. apply wp_replyAs. intros w3 Hd3 Ht3. apply wp_audit. intros now w4 Hd4 Ht4. split.
  - exists now. rewrite Hd4, Hd3, <- Hd2, <- Hd1. done.
  - rewrite Ht4. destruct Ht3 as [->|(a' & ok & Ha & ->)]; rewrite <- Ht2, <- Ht1; [by left|right].
    by eexists a', _, ok.
Qed.

(** What becomes of a post that must not be acted upon. *)
Definition refusal (botUserID : string) (ev : PostedEvent) (p : Post) (w w' : World) : Prop :=
  match t_bots (w_db w) !! botUserID with
  | None => untouched w w'
  | Some row =>
      let b := scanBot row in
      (poUserId p <> bMMUserID b ->
         (untouched w w' \/ turned_away b p w w')
         /\ (addressed_to botUserID b ev p -> ignored_bot_post botUserID p = false -> is_Some newPoster ->
             t_bots (w_db w) !! poUserId p = None -> turned_away b p w w'))
      /\ (poUserId p = bMMUserID b ->
          (exists k j, t_jobs (w_db w) !! k = Some j /\ jBotUserID j = botUserID /\ jTriggerPostID j = poId p) ->
          untouched w w')
  end.

Lemma untouched_refusal botUserID ev p w w' :
  untouched w w' ->
  (ignored_bot_post botUserID p = true \/ newPoster = None \/ is_Some (t_bots (w_db w) !! poUserId p)
   \/ forall row, t_bots (w_db w) !! botUserID = Some row -> ~ addressed_to botUserID (scanBot row) ev p) ->
  refusal botUserID ev p w w'.
Proof.
  intros Hu Hwhy. unfold refusal. destruct (t_bots (w_db w) !! botUserID) as [row|]; [|done].
  split; [|done]. intros _. split; [by left|]. intros Ha Hi [n Hn] Hb.
  destruct Hwhy as [?|[?|[[? ?]|Hna]]]; [congruence..|]. by destruct (Hna row eq_refl).
Qed.

Lemma addressed_or_not botUserID b ev p :
  let heard := is_mentioned (mentionedNames (poMessage p)) (ToLower (bUsername b))
               || existsb (String.eqb botUserID) (evMentions ev) in
  negb heard && negb (String.eqb (evChannelType ev) ChannelTypeDirect) = true ->
  ~ addressed_to botUserID b ev p.
Proof.
  cbv zeta. intros [H1 H2]%andb_true_iff [H|[H|H]].
  - by rewrite H in H1.
  - assert (existsb (String.eqb botUserID) (evMentions ev) = true) as He.
    { apply existsb_exists. exists botUserID. split; [by apply list_elem_of_In | apply String.eqb_refl]. }
    rewrite He, orb_true_r in H1. done.
  - by rewrite H, String.eqb_refl in H2.
Qed.

Lemma already_acted botUserID p d :
  (exists k j, t_jobs d !! k = Some j /\ jBotUserID j = botUserID /\ jTriggerPostID j = poId p) ->
  exists x l, select_jobs (job_filter botUserID (poId p) "" "" "" [] 1) d = SqlOk (x :: l).
Proof.
  intros (k & j & Hk & Hb & Hp). apply (select_jobs_some _ _ _ _ Hk).
  unfold job_matches, column_matches, job_filter. cbn. by rewrite Hb, Hp, !String.eqb_refl, !orb_true_r.
Qed.

Lemma route_refuses botUserID ev p w :
  (forall row, t_bots (w_db w) !! botUserID = Some row -> poUserId p = bMMUserID (scanBot row) ->
     exists k j, t_jobs (w_db w) !! k = Some j /\ jBotUserID j = botUserID /\ jTriggerPostID j = poId p) ->
  wp (route_bot_post botUserID ev p) (fun _ w' => refusal botUserID ev p w w') w.
Proof.
  intros Href. unfold route_bot_post. rewrite wp_bind, wp_BotByUserID.
  destruct (t_bots (w_db w) !! botUserID) as [row|] eqn:Hb; cbn [found fmap option_fmap option_map].
  2: { rewrite wp_ret. unfold refusal. by rewrite Hb. }
  destruct newPoster as [mk|] eqn:Hnp; [|rewrite wp_ret; by apply untouched_refusal; [|auto]].
  rewrite wp_bind, wp_BotByUserID. cbn [w_db bump set_tick].
  destruct (t_bots (w_db w) !! poUserId p) as [author|] eqn:Ha; cbn [found fmap option_fmap option_map is_ok].
  { rewrite wp_ret. apply untouched_refusal; [done|]. rewrite Ha. eauto. }
  rewrite wp_bind. set (go := if _ && _ then _ else _).
  assert (wp go (fun r w1 => undisturbed w w1 /\ (r = false -> ~ addressed_to botUserID (scanBot row) ev p)) (bump (bump w))) as Hgo.
  { subst go. destruct (_ && _) eqn:Hheard; [|by rewrite wp_ret].
    eapply wp_mono; [|apply (wp_frame undisturbed)]; [|flow|secure].
    intros r w1 Hu. split; [exact Hu|]. intros _. by apply addressed_or_not. }
  eapply wp_mono; [|exact Hgo]. clear Hgo. intros r w1 [(Hd1 & _ & Ht1) Hr].
  destruct r; cbn [negb].
  2: { rewrite wp_ret. apply untouched_refusal; [done|]. do 3 right. intros row' Hrow.
       rewrite Hb in Hrow. injection Hrow as <-. by apply Hr. }
  destruct (String.eqb_spec (poUserId p) (bMMUserID (scanBot row))) as [Ho|Ho]; cbn [negb].
  - unfold ListJobs. rewrite wp_bind, wp_read, <- Hd1.
    destruct (already_acted _ _ _ (Href row eq_refl Ho)) as (x & l & ->). cbn [scan]. rewrite wp_ret.
    unfold refusal. rewrite Hb. split; [done|]. by intros.
  - eapply wp_mono; [|apply turn_away]. intros [] w2 Haway. unfold turned_away in Haway.
    rewrite <- Hd1, <- Ht1 in Haway. unfold refusal. rewrite Hb. split; [|done]. intros _. split; [by right | done].
Qed.

End Routing.

(** ** Cancelling, expiring, losing *)

Section Ending.
Context {E : Env} {S : Sender} `{!SenderLaws S} {C : Config} `{!NoFaults E}.

Lemma wp_finalEdit_db j t w (Q : unit -> World -> Prop) :
  (forall w', w_db w' = w_db w -> w_conns w' = w_conns w -> Q tt w') -> wp (finalEdit j t) Q w.
Proof.
  intros HQ. eapply wp_mono; [|apply (wp_frame calm)]; [|flow|secure].
  intros [] w' (? & ? & ?). auto.
Qed.

(** Cancelling a job that still waits for its harness ends it at once,
    without a message: its row is cancelled, and the outbox is left as it
    is, so that every pending message, the job's own dispatch too, is still
    flushed when the harness connects. *)
Theorem cancelJob_queued j reason w m :
  t_jobs (w_db w) !! jID j = Some j -> jState j = JobQueued ->
  t_outbox (w_db w) !! mID m = Some m -> mAckedAt m = None ->
  wp (cancelJob j reason) (fun r w' => r = Ok tt
    /\ (exists j', t_jobs (w_db w') !! jID j = Some j' /\ jState j' = JobCancelled)
    /\ t_outbox (w_db w') = t_outbox (w_db w)
    /\ exists l, select_pending_outbox (mHarnessID m) (w_db w') = SqlOk l /\ m ∈ l) w.
Proof.
  intros Hj Hq Hm Ha. unfold cancelJob. rewrite Hq, bool_decide_true by done.
  rewrite wp_bind. apply wp_transition; [done|]. intros r w1 Hr _. unfold transition_outcome in Hr.
  rewrite Hj in Hr. unfold in_states in Hr. rewrite Hq, bool_decide_true in Hr by set_solver.
  destruct Hr as [-> Hd]. rewrite wp_bind. apply wp_finalEdit_db. intros w2 Hd2 _. rewrite wp_ret.
  rewrite Hd2, Hd. split; [done|]. split; [|split; [done|]].
  - eexists. split; [apply lookup_insert_eq | done].
  - eexists. split; [done|]. apply elem_of_order_by_id, elem_of_select. cbn. split; [|by exists (mID m)].
    unfold unacked. rewrite String.eqb_refl, Ha. done.
Qed.

(** Cancelling a job the harness may already run stores a cancel
    message for it and leaves the job to the harness's own result. *)
Theorem cancelJob_running j reason w :
  jState j <> JobQueued -> fresh_messages w ->
  wp (cancelJob j reason) (fun r w' => exists env sent,
    en_Type env = TypeJobCancel /\ en_JobID env = jID j
    /\ en_Payload env = Some (wire_enc (MkJobCancel reason))
    /\ (exists a, w_db w' = stored (jHarnessID j) env sent (set_audit (t_audit (w_db w) ++ a) (w_db w)))
    /\ (is_online (jHarnessID j) w = false -> r = Ok tt)) w.
Proof.
  intros Hq Hfresh. unfold cancelJob. rewrite bool_decide_false by done.
  rewrite wp_bind. apply wp_New. intros ts w1 (Hd1 & Hc1 & _). set (env := new_envelope _ _ _ _ _).
  rewrite wp_bind. eapply wp_mono; [|apply wp_and; [apply (wp_frame w_audit); [flow|secure]
    | apply (wp_frame (on_conns eq)); [flow|secure]]].
  intros [] w2 [[a Hw2] Hc2]. unfold on_conns in Hc2.
  eapply wp_rule; [apply SendReliable_stores; [done|done|rewrite Hw2; cbn; rewrite <- Hd1; by apply Hfresh]|].
  cbn beta. intros r w3 ((sent & Hd3) & _ & _ & _ & _ & Hoff). exists env, sent.
  split; [done|]. split; [done|]. split; [done|]. split.
  - exists a. by rewrite Hd3, Hw2, <- Hd1.
  - intros Hon. apply Hoff. rewrite <- Hon. apply is_online_conns. congruence.
Qed.

(** The sweeper gives a job up as lost only when its harness is offline
    and was last seen longer ago than the grace period; a job of an online
    harness is never lost, and a job that waits for an approval never times
    out. *)
Theorem sweep_job_spec now j w :
  t_jobs (w_db w) !! jID j = Some j ->
  wp (sweep_job now j) (fun _ w' =>
    if is_online (jHarnessID j) w then
      (jState j = JobAwaitingApproval \/ now - jCreatedAt j <= wrap64 (JobTimeout + minute) -> w_db w' = w_db w)
    else
      match t_harnesses (w_db w) !! jHarnessID j with
      | None => w_db w' = w_db w
      | Some h =>
          if (GracePeriod <? now - last_seen h) && in_states ActiveStates j
          then exists msg t, w_db w' = set_jobs
                 (<[jID j := transition_row JobLost (MkJobPatch None None (Some msg)) t j]> (t_jobs (w_db w))) (w_db w)
          else w_db w' = w_db w
      end) w.
Proof.
  intros Hj. unfold sweep_job. rewrite wp_bind, wp_Online. destruct (is_online (jHarnessID j) w).
  - destruct ((wrap64 (JobTimeout + minute) <? now - jCreatedAt j) && negb (bool_decide (jState j = JobAwaitingApproval))) eqn:Ht.
    + assert (nonblocking (cancelJob j "timeout")) as Hn.
      { unfold cancelJob, New. flow. }
      eapply wp_mono; [|apply (nonblocking_wp (bind (cancelJob j "timeout") (fun _ => Ret tt))); by apply nonblocking_bind].
      intros [] w' _ Hc. apply andb_true_iff in Ht as [H1 H2]. apply Z.ltb_lt in H1.
      apply negb_true_iff, bool_decide_eq_false in H2. destruct Hc; [done | lia].
    + by rewrite wp_ret.
  - rewrite wp_bind, wp_HarnessByID. destruct (t_harnesses (w_db w) !! jHarnessID j) as [h|]; cbn [found]; [|by rewrite wp_ret].
    destruct (GracePeriod <? now - last_seen h); cbn [andb]; [|by rewrite wp_ret].
    rewrite wp_bind. apply wp_transition; [done|]. intros r w1 Hr _. unfold transition_outcome in Hr. cbn in Hr.
    rewrite Hj in Hr. destruct (in_states ActiveStates j); destruct Hr as [-> Hd]; [|by rewrite wp_ret].
    apply wp_finalEdit_db. intros w2 Hd2 _. rewrite Hd2, Hd. by eexists _, _.
Qed.
End Ending.
