(* ===== verification/HelloFacts.v ===== *)
(** * Reconnecting: the handshake's effect on jobs

    [OnHello] compares the jobs a harness still runs with those the store
    holds as active, answers each, and settles the ones that are missing. *)

From S2P Require Import Prelude Resume GoText Codec Json Protocol Store Tables World Sqlite Integrity StoreFacts CoreText Sender Posts Core CoreGuards CoreFacts JobFacts.

Open Scope Z_scope.
Open Scope prog_scope.

(** The state of each job. *)
Definition job_state (d : DB) (k : string) : option JobState := jState <$> t_jobs d !! k.

(** What the handshake does to an active job's state. *)
Definition hello_state (reported : bool) (s : JobState) : JobState :=
  if reported then
    match s with JobQueued | JobDispatched => JobRunning | _ => s end
  else
    match s with
    | JobQueued => JobDispatched
    | JobRunning | JobAwaitingApproval => JobFailed
    | _ => s
    end.

Section Hello.
Context {E : Env} {S : Sender} `{!SenderLaws S} {C : Config} `{!NoFaults E}.

(** One transition, seen through the states. *)
Definition state_moved (id : string) (from : list JobState) (to : JobState) (d d' : DB) : Prop :=
  forall k, job_state d' k =
    if bool_decide (k = id) then (fun s => if bool_decide (s ∈ from) then to else s) <$> job_state d k
    else job_state d k.

Lemma transition_moves id from to p now d r d' :
  transition_outcome id from to p now d r d' -> state_moved id from to d d'.
Proof.
  unfold transition_outcome, state_moved, job_state, in_states. intros H k.
  destruct (t_jobs d !! id) as [j|] eqn:Hj.
  - destruct (bool_decide (jState j ∈ from)) eqn:Hin; destruct H as [_ ->]; cbn;
      destruct (bool_decide (k = id)) eqn:Hk; try done.
    + apply bool_decide_eq_true in Hk as ->. rewrite lookup_insert_eq, Hj. cbn. by rewrite Hin.
    + apply bool_decide_eq_false in Hk. by rewrite lookup_insert_ne.
    + apply bool_decide_eq_true in Hk as ->. rewrite Hj. cbn. by rewrite Hin.
  - destruct H as [_ ->]. destruct (bool_decide (k = id)) eqn:Hk; [|done].
    apply bool_decide_eq_true in Hk as ->. by rewrite Hj.
Qed.

Variable (known : gmap string Job) (d0 : DB).
Hypothesis known_state : forall k j, known !! k = Some j -> jID j = k /\ job_state d0 k = Some (jState j).

Definition is_known (k : string) : bool := bool_decide (is_Some (known !! k)).

(** After the loop over the reported jobs [seen]. *)
Definition after_reported (seen : list string) (d : DB) : Prop :=
  forall k, job_state d k =
    if existsb (String.eqb k) seen && is_known k then hello_state true <$> job_state d0 k else job_state d0 k.

Definition hello_answer (hj : HelloJob) : WelcomeJob :=
  if is_known (hj_JobID hj) then MkWelcomeJob (hj_JobID hj) ActionResume ""
  else MkWelcomeJob (hj_JobID hj) ActionAbort "unknown or finished".

Lemma hello_true_idem s : hello_state true (hello_state true s) = hello_state true s.
Proof. by destruct s. Qed.

Lemma wp_hello_job out hj seen w :
  after_reported seen (w_db w) ->
  wp (hello_job known out hj) (fun out' w' =>
    out' = out ++ [hello_answer hj] /\ after_reported (seen ++ [hj_JobID hj]) (w_db w')) w.
Proof.
  intros Hinv. unfold hello_job, hello_answer, is_known.
  destruct (known !! hj_JobID hj) as [j|] eqn:Hk.
  2: { rewrite wp_ret, bool_decide_false by (by intros [? ?]). split; [done|]. intros k. rewrite Hinv.
       rewrite existsb_app. cbn. rewrite orb_false_r. unfold is_known.
       destruct (String.eqb_spec k (hj_JobID hj)) as [->|]; [|by rewrite orb_false_r].
       rewrite Hk. by rewrite !(bool_decide_false (is_Some None)), !andb_false_r by (by intros [? ?]). }
  rewrite (bool_decide_true (is_Some (Some j))) by eauto. destruct (known_state _ _ Hk) as [Hid Hst].
  assert (forall w', state_moved (hj_JobID hj) [JobQueued; JobDispatched] JobRunning (w_db w) (w_db w')
            \/ (w_db w' = w_db w /\ hello_state true (jState j) = jState j) ->
            after_reported (seen ++ [hj_JobID hj]) (w_db w')) as Hnext.
  { intros w' Hw' k. rewrite existsb_app. cbn. rewrite orb_false_r.
    destruct (String.eqb_spec k (hj_JobID hj)) as [->|Hne].
    - rewrite orb_true_r. unfold is_known. rewrite Hk, bool_decide_true by eauto. cbn [andb].
      destruct Hw' as [Hm|[-> Hs]].
      + rewrite Hm, bool_decide_true by done. rewrite Hinv. unfold is_known.
        rewrite Hk, (bool_decide_true (is_Some (Some j))) by eauto. rewrite Hst.
        destruct (existsb _ seen); cbn; by destruct (jState j).
      + rewrite Hinv. unfold is_known. rewrite Hk, bool_decide_true by eauto. rewrite Hst.
        destruct (existsb _ seen); cbn [andb fmap option_fmap option_map]; by rewrite ?Hs.
    - rewrite orb_false_r. destruct Hw' as [Hm|[-> _]]; [|apply Hinv].
      rewrite Hm, bool_decide_false by done. apply Hinv. }
  rewrite wp_bind. destruct (bool_decide (jState j = JobQueued) || bool_decide (jState j = JobDispatched)) eqn:Hq.
  - rewrite wp_bind. apply wp_transition; [done|]. intros r w1 Hr _. rewrite !wp_ret. split; [done|].
    apply Hnext. left. rewrite <- Hid. by eapply transition_moves.
  - rewrite !wp_ret. split; [done|]. apply Hnext. right. split; [done|].
    apply orb_false_iff in Hq as [H1 H2]. apply bool_decide_eq_false in H1, H2. by destruct (jState j).
Qed.

Lemma wp_hello_jobs jobs w :
  after_reported [] (w_db w) ->
  wp (for_fold jobs [] (hello_job known)) (fun out w' =>
    out = map hello_answer jobs /\ after_reported (map hj_JobID jobs) (w_db w')) w.
Proof.
  assert (forall l1 l2 w, after_reported (map hj_JobID l1) (w_db w) ->
    wp (for_fold l2 (map hello_answer l1) (hello_job known)) (fun out w' =>
      out = map hello_answer (l1 ++ l2) /\ after_reported (map hj_JobID (l1 ++ l2)) (w_db w')) w) as H.
  { intros l1 l2. revert l1. induction l2 as [|hj l2 IH]; intros l1 w1 Hinv; cbn [for_fold].
    - rewrite wp_ret. by rewrite app_nil_r.
    - rewrite wp_bind. eapply wp_mono; [|by apply wp_hello_job]. intros out w2 [-> Hw2].
      specialize (IH (l1 ++ [hj]) w2). rewrite !map_app in IH. cbn in IH.
      replace (l1 ++ hj :: l2) with ((l1 ++ [hj]) ++ l2) by (by rewrite <- app_assoc).
      rewrite !map_app. cbn. eapply wp_mono; [|by apply IH]. done. }
  intros Hinv. exact (H [] jobs w Hinv).
Qed.

(** After the loop over the active jobs [seen] too. *)
Definition after_active (reported seen : list string) (d : DB) : Prop :=
  forall k, job_state d k =
    if is_known k && (existsb (String.eqb k) reported || existsb (String.eqb k) seen)
    then hello_state (existsb (String.eqb k) reported) <$> job_state d0 k else job_state d0 k.

Lemma wp_unreported_job reported seen j w :
  known !! jID j = Some j -> existsb (String.eqb (jID j)) reported = false ->
  after_active reported seen (w_db w) ->
  wp (unreported_job j) (fun _ w' => after_active reported (seen ++ [jID j]) (w_db w')) w.
Proof.
  intros Hk Hrep Hinv. destruct (known_state _ _ Hk) as [_ Hst].
  assert (forall w', (forall k, job_state (w_db w') k =
              if bool_decide (k = jID j) then Some (hello_state false (jState j)) else job_state (w_db w) k) ->
            after_active reported (seen ++ [jID j]) (w_db w')) as Hnext.
  { intros w' Hw' k. rewrite Hw', existsb_app. cbn. rewrite orb_false_r.
    destruct (bool_decide (k = jID j)) eqn:He.
    - apply bool_decide_eq_true in He as ->. rewrite String.eqb_refl, Hrep, !orb_true_r, Hst.
      unfold is_known. by rewrite Hk, bool_decide_true by eauto.
    - apply bool_decide_eq_false in He. rewrite (proj2 (String.eqb_neq k (jID j)) He), orb_false_r.
      apply Hinv. }
  assert (exists b : bool, job_state (w_db w) (jID j) = Some (if b then hello_state false (jState j) else jState j)) as [b Hcur].
  { exists (existsb (String.eqb (jID j)) seen). rewrite Hinv, Hrep, Hst. unfold is_known.
    rewrite Hk, bool_decide_true by eauto. by destruct (existsb (String.eqb (jID j)) seen). }
  assert (forall from to w', state_moved (jID j) from to (w_db w) (w_db w') ->
            (forall b : bool, (if bool_decide ((if b then hello_state false (jState j) else jState j) ∈ from)
                        then to else if b then hello_state false (jState j) else jState j) = hello_state false (jState j)) ->
            after_active reported (seen ++ [jID j]) (w_db w')) as Hmoved.
  { intros from to w' Hm Hb. apply Hnext. intros k. rewrite Hm.
    destruct (bool_decide (k = jID j)) eqn:He; [|done]. apply bool_decide_eq_true in He as ->.
    rewrite Hcur. cbn. by rewrite Hb. }
  assert (hello_state false (jState j) = jState j -> after_active reported (seen ++ [jID j]) (w_db w)) as Hstay.
  { intros Hs. apply Hnext. intros k. destruct (bool_decide (k = jID j)) eqn:He; [|done].
    apply bool_decide_eq_true in He as ->. rewrite Hcur, Hs. by destruct b. }
  unfold unreported_job. destruct (jState j) eqn:Hs; try (rewrite wp_ret; by apply Hstay).
  - rewrite wp_bind. apply wp_transition; [done|]. intros r w1 Hr _.
    assert (after_active reported (seen ++ [jID j]) (w_db w1)).
    { eapply Hmoved; [by eapply transition_moves | by intros []]. }
    destruct r; [|by rewrite wp_ret]. apply wp_edit_db. by intros w2 -> _ _.
  - apply wp_fail. intros r w1 w2 Hr ->. eapply Hmoved; [by eapply transition_moves | by intros []].
  - apply wp_fail. intros r w1 w2 Hr ->. eapply Hmoved; [by eapply transition_moves | by intros []].
Qed.

Lemma wp_settle reported active w :
  (forall j, j ∈ active -> known !! jID j = Some j) -> after_reported reported (w_db w) ->
  wp (for_each active (fun j => if existsb (String.eqb (jID j)) reported then Ret tt else unreported_job j))
     (fun _ w' => after_active reported (map jID active) (w_db w')) w.
Proof.
  intros Hact Hinv.
  assert (forall l1 l2 w, (forall j, j ∈ l2 -> known !! jID j = Some j) ->
    after_active reported (map jID l1) (w_db w) ->
    wp (for_each l2 (fun j => if existsb (String.eqb (jID j)) reported then Ret tt else unreported_job j))
       (fun _ w' => after_active reported (map jID (l1 ++ l2)) (w_db w')) w) as H.
  { intros l1 l2. revert l1. induction l2 as [|j l2 IH]; intros l1 w1 Hk Hw; cbn [for_each].
    - rewrite wp_ret. by rewrite app_nil_r.
    - rewrite wp_bind. replace (l1 ++ j :: l2) with ((l1 ++ [j]) ++ l2) by (by rewrite <- app_assoc).
      eapply (wp_mono _ (fun _ w2 => after_active reported (map jID (l1 ++ [j])) (w_db w2))).
      + intros [] w2 Hw2. apply IH; [|done]. intros j' Hj'. apply Hk. by right.
      + rewrite map_app. cbn. destruct (existsb (String.eqb (jID j)) reported) eqn:Hr.
        * rewrite wp_ret. intros k. rewrite (Hw k), existsb_app. cbn. rewrite orb_false_r.
          destruct (String.eqb_spec k (jID j)) as [->|]; [|by rewrite orb_false_r]. by rewrite Hr.
        * apply wp_unreported_job; [apply Hk; left|done..]. }
  apply (H [] active w Hact). intros k. rewrite (Hinv k). cbn. rewrite orb_false_r, andb_comm.
  destruct (is_known k), (existsb (String.eqb k) reported) eqn:He; done.
Qed.
End Hello.

(** ** The handshake *)

(** The jobs the store holds as active for a harness. *)
Definition active_of (h : Harness) (j : Job) : bool :=
  String.eqb (jHarnessID j) (hID h) && negb (Terminal (jState j)).

Lemma active_filter h j :
  hID h <> "" -> job_matches (MkJobFilter "" "" "" (hID h) "" ActiveStates 1000) j = active_of h j.
Proof.
  intros Hh. unfold job_matches, column_matches, active_of. cbn.
  rewrite (proj2 (String.eqb_neq (hID h) "") Hh). cbn. destruct (String.eqb (jHarnessID j) (hID h)); [|done].
  cbn. unfold ActiveStates. destruct (jState j); cbn; apply bool_decide_eq_true_2 || apply bool_decide_eq_false_2; set_solver.
Qed.

Lemma foldl_known_lookup (l : list Job) (m : gmap string Job) k :
  NoDup (map jID l) ->
  foldl (fun (m : gmap string Job) j => <[jID j := j]> m) m l !! k =
    match List.find (fun j => String.eqb (jID j) k) l with Some j => Some j | None => m !! k end.
Proof.
  revert m. induction l as [|j l IH]; intros m Hnd; cbn; [done|]. cbn in Hnd. apply NoDup_cons in Hnd as [Hj Hnd].
  rewrite IH by done. destruct (String.eqb_spec (jID j) k) as [<-|Hne].
  - destruct (List.find _ l) as [j'|] eqn:Hf; [|apply lookup_insert_eq].
    apply List.find_some in Hf as [Hin He]. apply String.eqb_eq in He. destruct Hj. rewrite <- He.
    apply list_elem_of_In, in_map, Hin.
  - destruct (List.find _ l); [done|]. by rewrite lookup_insert_ne.
Qed.

Section Handshake.
Context {E : Env} {S : Sender} `{!SenderLaws S} {C : Config} `{!NoFaults E}.

(** The job [k] is active for [h]. *)
Definition active_job (h : Harness) (d : DB) (k : string) : bool :=
  match t_jobs d !! k with Some j => active_of h j | None => false end.

Lemma active_rows h d :
  db_wf d -> hID h <> "" -> (length (select (active_of h) (t_jobs d)) <= 1000)%nat ->
  exists l, select_jobs (MkJobFilter "" "" "" (hID h) "" ActiveStates 1000) d = SqlOk l
    /\ NoDup (map jID l)
    /\ forall j, j ∈ l <-> t_jobs d !! jID j = Some j /\ active_of h j = true.
Proof.
  intros Hwf Hh Hlen. unfold select_jobs. cbn [fLimit].
  set (f := MkJobFilter "" "" "" (hID h) "" ActiveStates 1000).
  assert (select (job_matches f) (t_jobs d) = select (active_of h) (t_jobs d)) as ->.
  { unfold select. apply List.filter_ext. intros j. by apply active_filter. }
  set (rows := order_by _ _).
  assert (length rows <= 1000)%nat as Hr by (unfold rows; by rewrite order_by_perm).
  exists rows. change (effective_limit 1000) with 1000. rewrite take_ge by lia. split; [done|]. split.
  - unfold rows. assert (map jID (order_by (fun j => - jCreatedAt j) (select (active_of h) (t_jobs d)))
      ≡ₚ map jID (select (active_of h) (t_jobs d))) as -> by (apply fmap_Permutation, order_by_perm).
    apply select_keys_nodup, Hwf.
  - intros j. unfold rows. rewrite elem_of_order_by, elem_of_select. split.
    + intros [Ha [k Hk]]. by rewrite (wf_job_id _ Hwf _ _ Hk).
    + intros [Hj Ha]. eauto.
Qed.

(** The handshake settles every job of the harness.  Each reported job
    gets one answer, in order: resume when the store holds it as active for
    this harness, abort otherwise.  A reported job that was queued or
    dispatched is running; an unreported one that ran or waited for approval
    has failed; an unreported queued one is dispatched; every other job, of
    any harness, keeps its state. *)
Theorem OnHello_spec h hello w :
  db_wf (w_db w) -> hID h <> "" ->
  (length (select (active_of h) (t_jobs (w_db w))) <= 1000)%nat ->
  wp (core_OnHello h hello) (fun out w' =>
    out = map (fun hj => if active_job h (w_db w) (hj_JobID hj)
                         then MkWelcomeJob (hj_JobID hj) ActionResume ""
                         else MkWelcomeJob (hj_JobID hj) ActionAbort "unknown or finished") (he_Jobs hello)
    /\ forall k, job_state (w_db w') k =
         if active_job h (w_db w) k
         then hello_state (existsb (String.eqb k) (map hj_JobID (he_Jobs hello))) <$> job_state (w_db w) k
         else job_state (w_db w) k) w.
Proof.
  intros Hwf Hh Hlen. destruct (active_rows h (w_db w) Hwf Hh Hlen) as (l & Hl & Hnd & Hin).
  unfold core_OnHello, ActiveJobsByHarness, ListJobs. rewrite wp_bind, wp_read, Hl.
  cbn [scan rows_or_nil or_zero]. set (known := foldl _ ∅ l).
  assert (forall k, known !! k = match t_jobs (w_db w) !! k with
                                 | Some j => if active_of h j then Some j else None | None => None end) as Hk.
  { intros k. unfold known. rewrite foldl_known_lookup by done. rewrite lookup_empty.
    destruct (List.find (fun j => String.eqb (jID j) k) l) as [j|] eqn:Hf.
    - apply List.find_some in Hf as [Hj He]. apply String.eqb_eq in He as <-.
      apply list_elem_of_In, Hin in Hj as [-> ->]. done.
    - destruct (t_jobs (w_db w) !! k) as [j|] eqn:Hj; [|done]. destruct (active_of h j) eqn:Ha; [|done].
      pose proof (wf_job_id _ Hwf _ _ Hj) as Hid. eapply List.find_none in Hf.
      2: { apply list_elem_of_In, Hin. rewrite Hid. eauto. }
      cbn in Hf. by rewrite Hid, String.eqb_refl in Hf. }
  assert (forall k, is_known known k = active_job h (w_db w) k) as Hkn.
  { intros k. unfold is_known, active_job. rewrite Hk. destruct (t_jobs (w_db w) !! k) as [j|]; [|done].
    by destruct (active_of h j). }
  assert (forall k j, known !! k = Some j -> jID j = k /\ job_state (w_db w) k = Some (jState j)) as Hks.
  { intros k j Hkj. rewrite Hk in Hkj. unfold job_state. destruct (t_jobs (w_db w) !! k) as [j'|] eqn:Hj; [|done].
    destruct (active_of h j'); [|done]. injection Hkj as ->. split; [by apply (wf_job_id _ Hwf) | done]. }
  rewrite wp_bind. eapply wp_mono; [|apply (wp_hello_jobs known (w_db w) Hks); by intros k].
  intros out w1 [-> Hw1]. rewrite wp_bind.
  eapply wp_mono; [|apply (wp_settle known (w_db w) Hks (map hj_JobID (he_Jobs hello)))].
  - intros [] w2 Hw2. rewrite wp_ret. split.
    + apply map_ext. intros hj. unfold hello_answer. by rewrite Hkn.
    + intros k. rewrite Hw2, Hkn. destruct (active_job h (w_db w) k) eqn:Ha; [|done]. cbn [andb].
      destruct (existsb (String.eqb k) (map hj_JobID (he_Jobs hello))); [done|]. cbn [orb].
      assert (existsb (String.eqb k) (map jID l) = true) as ->; [|done].
      unfold active_job in Ha. destruct (t_jobs (w_db w) !! k) as [j|] eqn:Hj; [|done].
      pose proof (wf_job_id _ Hwf _ _ Hj) as Hid. apply existsb_exists. exists k.
      rewrite String.eqb_refl. split; [|done]. rewrite <- Hid. apply in_map, list_elem_of_In, Hin.
      rewrite Hid. eauto.
  - intros j Hj. apply Hin in Hj as [Hj Ha]. by rewrite Hk, Hj, Ha.
  - done.
Qed.
End Handshake.
