(* ===== verification/PostFacts.v ===== *)
(** * What posting promises

    A job posts with its own bot's credentials or not at all; edits of a
    status post are debounced, the newest text wins, and a final edit drops
    what was scheduled. *)

From S2P Require Import Prelude Resume GoText Codec Json Protocol Store Tables World Sqlite Integrity StoreFacts CoreText Sender Posts Core CoreGuards CoreFacts JobFacts.

Open Scope Z_scope.
Open Scope prog_scope.

(** ** Identity *)

Section Identity.
Context {E : Env} {C : Config} `{!NoFaults E}.

(** The client [p] posts as the bot [id]: the shared client for the shared
    bot, and for a user's bot only that bot's current token. *)
Definition posts_as (d : DB) (id : string) (p : Poster) : Prop :=
  if String.eqb id "" || String.eqb id BotUserID then p = Shared
  else exists b, t_bots d !! id = Some b /\ bToken (br_bot b) <> "" /\ p = AsBot (bToken (br_bot b)).

Definition event_as (d : DB) (id : string) (ev : Event) : Prop :=
  match ev with
  | EvCreatePost p _ _ | EvUpdatePost p _ _ _ | EvUpload p _ _ _ _ => posts_as d id p
  | _ => False
  end.

Lemma wp_api id w (Q : Poster -> World -> Prop) :
  (forall p w', undisturbed w w' -> p = UnavailableAPI \/ posts_as (w_db w) id p -> Q p w') ->
  wp (api id) Q w.
Proof.
  intros HQ. unfold api, posts_as in *. destruct (String.eqb id "" || String.eqb id BotUserID).
  { rewrite wp_ret. apply HQ; [done|]. unfold shared. destruct mm_set; auto. }
  destruct newPoster as [mk|]; [|rewrite wp_ret; apply HQ; auto; done].
  rewrite wp_bind, wp_BotByUserID, wp_ret.
  destruct (t_bots (w_db w) !! id) as [b|]; cbn [found fmap option_fmap option_map]; [|apply HQ; auto; done].
  destruct (String.eqb_spec (bToken (scanBot b)) ""); [apply HQ; auto; done|].
  destruct (mk (bToken (scanBot b))); apply HQ; auto; try done. right. by exists b.
Qed.

Lemma emits_api_call d id {X} p (f : nat -> res X) evs w :
  (forall r, Forall (event_as d id) (evs r) \/ p = UnavailableAPI) ->
  wp (api_call p f evs) (fun _ w' => emits (event_as d id) w w' /\ w_db w' = w_db w) w.
Proof.
  intros H. unfold api_call. destruct p.
  - rewrite wp_call. split; [|done]. eexists. split; [done|]. by destruct (H (f (w_tick w))).
  - rewrite wp_call. split; [|done]. eexists. split; [done|]. by destruct (H (f (w_tick w))).
  - rewrite wp_ret. by split; [reflexivity|].
Qed.

Lemma undisturbed_emits P w w' : undisturbed w w' -> emits P w w'.
Proof. intros (_ & _ & H). exists []. by rewrite H, app_nil_r. Qed.

Lemma finalEdit_as j text w :
  wp (finalEdit j text) (fun _ w' => emits (event_as (w_db w) (jBotUserID j)) w w' /\ w_db w' = w_db w) w.
Proof.
  unfold finalEdit. rewrite wp_bind, wp_atomic, wp_bind.
  assert (forall m w1, nonblocking m -> guards undisturbed m -> undisturbed w w1 ->
     (forall w2, undisturbed w w2 ->
        wp (if String.eqb (jStatusPostID j) "" then Ret tt
            else p <- api (jBotUserID j) ;; _ <- UpdatePost p (jStatusPostID j) text ;; Ret tt)
           (fun _ w' => emits (event_as (w_db w) (jBotUserID j)) w w' /\ w_db w' = w_db w) w2) ->
     wp m (fun (_ : unit) w2 => wp (if String.eqb (jStatusPostID j) "" then Ret tt
            else p <- api (jBotUserID j) ;; _ <- UpdatePost p (jStatusPostID j) text ;; Ret tt)
           (fun _ w' => emits (event_as (w_db w) (jBotUserID j)) w w' /\ w_db w' = w_db w) w2) w1) as Hm.
  { intros m w1 Hn Hg Hu Hk. eapply wp_mono; [|apply (wp_frame undisturbed _ _ Hn Hg)].
    intros u w2 Hu2. apply Hk. by trans w1. }
  apply Hm.
  - destruct (w_edits w !! jID j); flow.
  - destruct (drop_editor (jID j) w).1; [|secure]. apply guards_atomic. intros w1. unfold stop_timer.
    repeat break_goal; done.
  - done.
  - clear Hm. intros w2 Hu2. destruct (String.eqb (jStatusPostID j) "").
    { rewrite wp_ret. split; [by apply undisturbed_emits|]. symmetry. apply Hu2. }
    rewrite wp_bind. apply wp_api. intros p w3 Hu3 Hp. rewrite wp_bind.
    assert (undisturbed w w3) as Hu by (by trans w2). unfold UpdatePost.
    eapply wp_mono; [|apply (emits_api_call (w_db w) (jBotUserID j))].
    + intros r w4 [He Hd]. rewrite wp_ret. split; [|rewrite Hd; symmetry; apply Hu].
      trans w3; [by apply undisturbed_emits | done].
    + intros r. destruct Hp as [->|Hp]; [by right|left]. repeat constructor. cbn.
      by rewrite (proj1 Hu2).
Qed.

Lemma postResult_as j h r w :
  wp (postResult j h r) (fun _ w' => emits (event_as (w_db w) (jBotUserID j)) w w' /\ w_db w' = w_db w) w.
Proof.
  unfold postResult. rewrite wp_bind. apply wp_api. intros p w1 Hu1 Hp.
  set (I := fun w' => emits (event_as (w_db w) (jBotUserID j)) w w' /\ w_db w' = w_db w).
  assert (I w1) as H1 by (split; [by apply undisturbed_emits | symmetry; apply Hu1]).
  assert (forall X (f : nat -> res X) evs w2, I w2 ->
            (forall r, p <> UnavailableAPI -> posts_as (w_db w) (jBotUserID j) p ->
               Forall (event_as (w_db w) (jBotUserID j)) (evs r)) ->
            wp (api_call p f evs) (fun _ w3 => I w3) w2) as Hcall.
  { intros X f evs w2 [He Hd] Hev. eapply wp_mono; [|apply (emits_api_call (w_db w) (jBotUserID j))].
    - intros x w3 [He3 Hd3]. split; [by trans w2 | congruence].
    - intros x. destruct p; [left|left|by right]; (destruct Hp as [?|Hp]; [done|]); by apply Hev. }
  rewrite wp_bind.
  eapply (wp_mono _ (fun _ w2 => I w2)).
  2: { destruct (result_too_long _ _); [|by rewrite wp_ret]. rewrite wp_bind.
       eapply wp_mono; [|apply (Hcall _ _ _ w1 H1)]; [intros x w2 H2; by rewrite wp_ret|].
       intros x _ Hpa. by repeat constructor. }
  intros ids w2 H2. rewrite wp_bind.
  eapply wp_mono; [|apply (wp_for_fold _ ids (upload_result p j) (fun _ w3 => I w3) w2 H2)].
  2: { intros f ids' w3 _ H3. unfold upload_result. destruct (base64_decode _); [|by rewrite wp_ret].
       destruct (MaxFileBytes <? _); [by rewrite wp_ret|]. rewrite wp_bind.
       eapply wp_mono; [|apply (Hcall _ _ _ w3 H3)]; [intros x w4 H4; by rewrite wp_ret|].
       intros x _ Hpa. by repeat constructor. }
  intros ids3 w3 H3. rewrite wp_bind.
  eapply wp_mono; [|apply finalEdit_as]. intros [] w4 [He4 Hd4].
  assert (I w4) as H4. { destruct H3 as [He3 Hd3]. rewrite Hd3 in He4. split; [by trans w3 | congruence]. }
  destruct (is_empty_list ids3); [by rewrite wp_ret|]. rewrite wp_bind.
  eapply wp_mono; [|apply (Hcall _ _ _ w4 H4)]; [intros x w5 H5; by rewrite wp_ret|].
  intros x _ Hpa. by repeat constructor.
Qed.

(** A result is posted with the identity of the job's own bot and no
    other: every upload, edit and post of [postResult] goes out with that
    bot's current token (the shared client only for the shared bot's jobs),
    and when the credentials are gone nothing is sent at all. *)
Theorem postResult_identity j h r w :
  wp (postResult j h r) (fun _ w' =>
    exists evs, w_trace w' = w_trace w ++ evs
    /\ Forall (event_as (w_db w) (jBotUserID j)) evs
    /\ (jBotUserID j <> "" -> jBotUserID j <> BotUserID -> t_bots (w_db w) !! jBotUserID j = None -> evs = [])) w.
Proof.
  eapply wp_mono; [|apply postResult_as]. intros [] w' [(evs & Ht & Hf) _]. exists evs.
  split; [done|]. split; [done|]. intros H1 H2 Hnone. destruct evs as [|ev evs]; [done|].
  apply Forall_cons in Hf as [Hev _]. unfold event_as, posts_as in Hev.
  rewrite (proj2 (String.eqb_neq _ _) H1), (proj2 (String.eqb_neq _ _) H2) in Hev. cbn in Hev.
  destruct ev; try done; destruct Hev as (b & Hb & _); congruence.
Qed.
End Identity.

(** ** Debouncing *)

Section Debounce.
Context {E : Env} {C : Config}.

(** Every entry of [Core.edits] is an editor. *)
Definition editors_ok (w : World) : Prop :=
  forall k e, w_edits w !! k = Some e -> is_Some (w_editors w !! e).

(** An edit waits for its turn and the newest text wins: afterwards the
    job's editor holds the new text and has a timer; an edit that is already
    scheduled keeps its timer, and a new one is due no earlier than the edit
    interval after the last edit.  Nothing is sent yet. *)
Theorem edit_debounced j text w :
  jStatusPostID j <> "" -> editors_ok w ->
  wp (edit j text) (fun _ w' =>
    undisturbed w w' /\ exists e ed t,
    w_edits w' !! jID j = Some e /\ w_editors w' !! e = Some ed
    /\ edPending ed = text /\ edTimer ed = Some t
    /\ match (match w_edits w !! jID j with Some e0 => w_editors w !! e0 | None => None end) with
       | Some (MkEditor _ (Some t0) _) => t = t0 /\ w_timers w' = w_timers w
       | old => exists tm, w_timers w' = w_timers w ++ [tm] /\ t = length (w_timers w)
           /\ tmJob tm = j /\ tmEditor tm = e /\ tmArmed tm = true
           /\ (forall ed0, old = Some ed0 -> edLast ed0 + EditInterval <= tmDue tm)
       end) w.
Proof.
  intros Hs Hok. unfold edit. rewrite (proj2 (String.eqb_neq _ _) Hs).
  rewrite wp_bind, wp_atomic. unfold editor_for. destruct (w_edits w !! jID j) as [e|] eqn:He; cbn [fst snd].
  - destruct (Hok _ _ He) as [ed Hed]. rewrite wp_atomic. unfold schedule_edit. rewrite Hed.
    destruct ed as [pend [t|] last]; cbn.
    + split; [done|]. eexists e, _, t. rewrite list_lookup_insert_eq by (by eapply lookup_lt_Some).
      split; [done|]. split; [done|]. by repeat split.
    + split; [done|]. eexists e, _, _. rewrite list_lookup_insert_eq by (by eapply lookup_lt_Some).
      split; [done|]. split; [done|]. split; [done|]. split; [done|].
      eexists. split; [done|]. repeat (split; [done|]). intros ed0 [= <-]. cbn. lia.
  - rewrite wp_atomic. unfold schedule_edit. cbn. rewrite lookup_app_r, Nat.sub_diag by lia. cbn.
    split; [done|]. eexists _, _, _. rewrite lookup_insert_eq. split; [done|].
    rewrite list_lookup_insert_eq by (rewrite length_app; cbn; lia).
    split; [done|]. split; [done|]. split; [done|]. eexists. split; [done|]. by repeat split.
Qed.

(** A final edit drops what was scheduled: the job has no editor any
    more and its timer can not start, so that only edits already on their way
    to Mattermost remain. *)
Theorem finalEdit_drops_scheduled `{!NoFaults E} j text w e ed t :
  w_edits w !! jID j = Some e -> w_editors w !! e = Some ed -> edTimer ed = Some t ->
  wp (finalEdit j text) (fun _ w' =>
    w_edits w' !! jID j = None /\ start_timer t w' = None) w.
Proof.
  intros He Hed Ht. unfold finalEdit. rewrite wp_bind, wp_atomic. unfold drop_editor. cbn. rewrite He.
  rewrite wp_bind, wp_atomic. unfold stop_timer. cbn. rewrite Hed, Ht. cbn.
  set (w1 := set_timers _ _).
  assert (forall w2, w_edits w2 = w_edits w1 -> w_timers w2 = w_timers w1 ->
            w_edits w2 !! jID j = None /\ start_timer t w2 = None) as Hdone.
  { intros w2 H1 H2. rewrite H1. split; [apply lookup_delete_eq|]. unfold start_timer. rewrite H2. cbn.
    rewrite list_lookup_alter_eq. destruct (w_timers w !! t) as [tm|]; [|done]. done. }
  destruct (String.eqb (jStatusPostID j) ""); [rewrite wp_ret; by apply Hdone|].
  unfold api, UpdatePost, BotByUserID.
  repeat first [ rewrite wp_bind | rewrite wp_ret | rewrite wp_query | break_goal
               | progress (unfold api_call) | rewrite wp_call ]; apply Hdone; done.
Qed.
End Debounce.
