(* ===== verification/Onboarding.v ===== *)
(** * Onboarding ([internal/broker/core/onboarding.go])

    The device flow of [mhb harness init]: the laptop starts a request and
    polls it with its own secret, the owner claims it by slash command, and a
    bot account with its two webhooks is made for the owner.  The provisioner
    of a team is named by the team. *)

From S2P Require Import Prelude Resume GoText Codec Json Protocol Store Tables World Sqlite Integrity StoreFacts CoreText Sender Posts Core CoreGuards.

Open Scope Z_scope.
Open Scope prog_scope.

Definition InitCodeTTL : Duration := 10 * minute.
Definition InitCodeLength : nat := 8.

Definition ErrInitDisabled : error :=
  ErrOther "onboarding is unavailable; ask an administrator to install the Mattermost integration".
Definition ErrInitUnknown : error := ErrOther "unknown or expired init code".
Definition ErrInitPending : error := ErrOther "init code not claimed yet".
Definition ErrInitConsumed : error := ErrOther "init result was already fetched".
Definition bad_bot_name : error :=
  ErrOther "bot name must be 3-22 lowercase letters, digits, . _ or -, starting with a letter".

Record InitStart : Type := MkInitStart {
  is_Code : string;
  is_PollToken : string;
  is_ExpiresAt : Time;
  is_Command : string
}.
Record InitResult : Type := MkInitResult {
  ir_HarnessID : string;
  ir_Token : string;
  ir_MMUserID : string;
  ir_Username : string;
  ir_BotUsername : string
}.
Record CommandRequest : Type := MkCommandRequest {
  cr_Token : string;
  cr_UserID : string;
  cr_UserName : string;
  cr_ChannelID : string;
  cr_TeamID : string;
  cr_RootID : string;
  cr_Text : string
}.

Definition commandHelp : string :=
  "Commands: `/harness init <code> [bot-name]` pairs a machine and creates a bot; `/harness bot create <name> <harness-id>` adds a bot; `/harness join <bot-name>` brings it into this channel; `/harness status` lists your bots and harnesses. Start pairing with `mhb harness init` on your machine.".

Section Onboarding.
Context {E : Env} {S : Sender} {C : Config}.

Definition StartInit (botName harnessName : string) : prog World (res InitStart) :=
  if negb provisioner_set then Ret (Err ErrInitDisabled)
  else
    let botName := ToLower (TrimSpace botName) in
    if negb (String.eqb botName "") && negb (bot_username_ok botName) then Ret (Err bad_bot_name)
    else
      code <- randomCode InitCodeLength ;;
      pollToken <- randomToken 32 ;;
      now <- time_now ;;
      let expires := now + InitCodeTTL in
      r <- CreateInit (MkInitRequest (hashCode code) botName harnessName now expires None "" "" None ""
                         (tokenHash pollToken)) ;;
      Ret (res_map (fun _ => MkInitStart code pollToken expires ("/harness init " +:+ code)) r).

(** [c.installation]: whether the team has a provisioner. *)
Definition installation (teamID : string) : prog World (res unit) :=
  if negb provisioner_set || String.eqb teamID "" then Ret (Err ErrInitDisabled)
  else
    ok <- ask (fun t => provisioner_for t teamID) ;;
    Ret (if ok : bool then Ok tt else Err ErrInitDisabled).

(** The poll's secret is checked before anything is consumed. *)
Definition poll_authentic (pollToken : string) (r : InitRequest) : bool :=
  negb (String.eqb pollToken "") && negb (String.eqb (iPollTokenHash r) "")
  && String.eqb (tokenHash pollToken) (iPollTokenHash r).

(** The names shown with a fetched result. *)
Definition init_names (r : InitRequest) (h : Harness) : prog World (string * string) :=
  b <- BotByUserID (iBotUserID r) ;;
  match b with
  | Err _ => Ret ("", "")
  | Ok bot =>
      p <- installation (bTeamID bot) ;;
      match p with
      | Err _ => Ret ("", bUsername bot)
      | Ok _ =>
          u <- ask (fun t => pv_get_user t (bTeamID bot) (hMMUserID h)) ;;
          Ret (match u with Ok (Some u) => urUsername u | _ => "" end, bUsername bot)
      end
  end.

Definition PollInit (code pollToken : string) : prog World (res InitResult) :=
  req <- InitByCode (hashCode code) ;;
  match req with
  | Err ErrNotFound => Ret (Err ErrInitUnknown)
  | Err e => Ret (Err e)
  | Ok req =>
      if negb (poll_authentic pollToken req) then Ret (Err ErrInitUnknown)
      else
        now <- time_now ;;
        r <- FetchInit (hashCode code) now ;;
        match r with
        | Err ErrNotFound => Ret (Err ErrInitUnknown)
        | Err ErrConflict => Ret (Err ErrInitConsumed)
        | Err e => Ret (Err e)
        | Ok r =>
            if negb (Claimed r) then Ret (Err ErrInitPending)
            else
              h <- HarnessByID (iHarnessID r) ;;
              match h with
              | Err e => Ret (Err e)
              | Ok h =>
                  names <- init_names r h ;;
                  Ret (Ok (MkInitResult (hID h) (iHarnessToken r) (hMMUserID h) names.1 names.2))
              end
        end
  end.

(** ** Making a bot *)

Definition member_call (team kind target userID : string) (f : nat -> res unit) : prog World (res unit) :=
  call f (fun r => [EvMember team kind target userID (is_ok r)]).

(** [rollbackBot]: every remote operation is compensated, newest first. *)
Definition rollbackBot (team : string) (bot : Bot) : prog World unit :=
  (if negb (String.eqb (bOutgoingHookID bot) "")
   then _ <- call (fun t => pv_delete_outgoing t team (bOutgoingHookID bot))
               (fun r => [EvHookDeleted team "outgoing" (bOutgoingHookID bot) (is_ok r)]) ;; Ret tt
   else Ret tt) ;;
  (if negb (String.eqb (bIncomingHookID bot) "")
   then _ <- call (fun t => pv_delete_incoming t team (bIncomingHookID bot))
               (fun r => [EvHookDeleted team "incoming" (bIncomingHookID bot) (is_ok r)]) ;; Ret tt
   else Ret tt) ;;
  (if negb (String.eqb (bUserID bot) "")
   then _ <- call (fun t => pv_disable_bot t team (bUserID bot))
               (fun r => [EvBotDisabled team (bUserID bot) (is_ok r)]) ;;
        _ <- DeleteBot (bUserID bot) ;; Ret tt
   else Ret tt).

Definition with_token (tok : string) (b : Bot) : Bot :=
  MkBot (bUserID b) (bMMUserID b) (bUsername b) tok (bCreatedAt b) (bHarnessID b) (bTeamID b)
    (bChannelID b) (bIncomingHookID b) (bOutgoingHookID b) (bOutgoingToken b).
Definition with_incoming (hook : option IncomingWebhook) (b : Bot) : Bot :=
  match hook with
  | Some h => MkBot (bUserID b) (bMMUserID b) (bUsername b) (bToken b) (bCreatedAt b) (bHarnessID b)
                (bTeamID b) (bChannelID b) (iwId h) (bOutgoingHookID b) (bOutgoingToken b)
  | None => b
  end.
Definition with_outgoing (hook : option OutgoingWebhook) (b : Bot) : Bot :=
  match hook with
  | Some h => MkBot (bUserID b) (bMMUserID b) (bUsername b) (bToken b) (bCreatedAt b) (bHarnessID b)
                (bTeamID b) (bChannelID b) (bIncomingHookID b) (owId h) (owToken h)
  | None => b
  end.

Definition incoming_ok (bot : Bot) (hook : option IncomingWebhook) (err : option error) : bool :=
  match err, hook with
  | None, Some h => negb (String.eqb (iwId h) "") && String.eqb (iwUserId h) (bUserID bot)
  | _, _ => false
  end.
Definition outgoing_ok (hook : option OutgoingWebhook) (err : option error) : bool :=
  match err, hook with
  | None, Some h => negb (String.eqb (owId h) "") && negb (String.eqb (owToken h) "")
  | _, _ => false
  end.

Definition hook_made {H} (id : H -> string) (team kind : string) (r : option H * option error) : list Event :=
  match r.1 with Some h => [EvHookCreated team kind (id h)] | None => [] end.

(** The part of [provisionBot] after the account exists: the bot as far as
    it got, and the outcome. *)
Definition furnish_bot (team channel : string) (bot : Bot) : prog World (Bot * res unit) :=
  tok <- ask (fun t => pv_create_bot_token t team (bUserID bot) "mhb broker") ;;
  let bot := with_token (or_zero "" tok) bot in
  if String.eqb (bToken bot) "" then Ret (bot, Err (ErrOther "could not create bot access token"))
  else
  r <- member_call team "team" team (bUserID bot) (fun t => pv_add_team_member t team team (bUserID bot)) ;;
  match r with Err _ => Ret (bot, Err (ErrOther "could not add bot to this team")) | Ok _ =>
  r <- member_call team "channel" channel (bUserID bot)
         (fun t => pv_add_channel_member t team channel (bUserID bot)) ;;
  match r with Err _ => Ret (bot, Err (ErrOther "could not add bot to this channel")) | Ok _ =>
  i <- call (fun t => pv_create_incoming t team
               (MkIncomingWebhook "" (bUserID bot) team channel (bUsername bot)))
         (hook_made iwId team "incoming") ;;
  let bot := with_incoming i.1 bot in
  if negb (incoming_ok bot i.1 i.2)
  then Ret (bot, Err (ErrOther "could not create incoming webhook owned by the bot; check installation permissions"))
  else
  o <- call (fun t => pv_create_outgoing t team
               (MkOutgoingWebhook "" "" team (bUsername bot) ["@" +:+ bUsername bot]
                  [callback_url ("/webhooks/mattermost/" +:+ bUserID bot)]))
         (hook_made owId team "outgoing") ;;
  let bot := with_outgoing o.1 bot in
  if negb (outgoing_ok o.1 o.2) then Ret (bot, Err (ErrOther "could not create outgoing webhook"))
  else
  r <- CreateBot bot ;;
  Ret (bot, match r with Err _ => Err (ErrOther "could not save bot configuration") | Ok _ => Ok tt end)
  end end.

Definition team_channel (args : CommandRequest) (ch : res (option Channel)) : option Channel :=
  match ch with
  | Ok (Some c) =>
      if String.eqb (chTeamId c) (cr_TeamID args)
         && (String.eqb (chType c) "O" || String.eqb (chType c) "P") then Some c else None
  | _ => None
  end.

(** The checked name of the new bot. *)
Definition choose_bot_name (owner : User) (requested : string) : prog World (res string) :=
  let username := ToLower (TrimSpace requested) in
  username <- (if String.eqb username "" then
                 suffix <- randomToken 3 ;; Ret (generated_bot_name (urUsername owner) suffix)
               else Ret username) ;;
  if negb (bot_username_ok username) then Ret (Err bad_bot_name)
  else
    b <- BotByUsername username ;;
    Ret (match b with
         | Ok _ => Err (ErrOther "that bot name is already taken; choose another name")
         | Err ErrNotFound => Ok username
         | Err _ => Err (ErrOther "could not check bot name")
         end).

Definition provisionBot (args : CommandRequest) (requested harnessID : string) : prog World (res Bot) :=
  let team := cr_TeamID args in
  if String.eqb (cr_UserID args) "" then Ret (Err (ErrOther "missing command owner"))
  else
  ch <- ask (fun t => pv_get_channel t team (cr_ChannelID args)) ;;
  match ch with
  | Err _ | Ok None => Ret (Err (ErrOther "could not read this channel"))
  | Ok (Some _) =>
  match team_channel args ch with
  | None => Ret (Err (ErrOther "create bots in a public or private team channel"))
  | Some _ =>
  owner <- ask (fun t => pv_get_user t team (cr_UserID args)) ;;
  match owner with
  | Err _ | Ok None => Ret (Err (ErrOther "could not look up your Mattermost account"))
  | Ok (Some owner) =>
  name <- choose_bot_name owner requested ;;
  match name with
  | Err e => Ret (Err e)
  | Ok username =>
  account <- call (fun t => pv_create_bot t team username (urUsername owner +:+ "'s harness")
                     ("Runs coding-agent jobs for " +:+ urUsername owner +:+ " through the mhb broker"))
               (fun r => match r with Ok (Some id) => [EvBotCreated team id] | _ => [] end) ;;
  match account with
  | Ok (Some (String _ _ as id)) =>
      now <- time_now ;;
      x <- furnish_bot team (cr_ChannelID args)
             (MkBot id (cr_UserID args) username "" now harnessID team (cr_ChannelID args) "" "" "") ;;
      match x with
      | (bot, Ok _) => Ret (Ok bot)
      | (bot, Err e) => rollbackBot team bot ;; Ret (Err e)
      end
  | _ => Ret (Err (ErrOther "could not create bot; check installation permissions and choose an unused bot name"))
  end end end end end.

(** ** Commands *)

Definition nonempty_or (v dflt : string) : string := if String.eqb v "" then dflt else v.

Definition claim_init (args : CommandRequest) (code requested : string) : prog World (res string) :=
  req <- InitByCode (hashCode code) ;;
  match req with
  | Err ErrNotFound => Ret (Err ErrInitUnknown)
  | Err _ => Ret (Err (ErrOther "could not read pairing request"))
  | Ok req =>
      now <- time_now ;;
      if negb (now <? iExpiresAt req) then Ret (Err ErrInitUnknown)
      else if Claimed req then Ret (Err (ErrOther "this code was already used"))
      else
        p <- installation (cr_TeamID args) ;;
        match p with
        | Err e => Ret (Err e)
        | Ok _ =>
            bot <- provisionBot args (nonempty_or requested (iBotName req)) "" ;;
            match bot with
            | Err e => Ret (Err e)
            | Ok bot =>
                let name := nonempty_or (TrimSpace (iHarnessName req)) "harness" in
                secret <- randomToken 32 ;;
                let token := "hrt_" +:+ secret in
                id <- new_ulid ;; created <- time_now ;;
                let h := MkHarness (NewID "hrn" id) (cr_UserID args) name (tokenHash token) "" created None in
                now <- time_now ;;
                r <- CompleteInit (hashCode code) now h (bUserID bot) token ;;
                match r with
                | Err _ =>
                    rollbackBot (cr_TeamID args) bot ;;
                    Ret (Err (ErrOther "could not complete pairing; try again with a new bot name"))
                | Ok _ =>
                    audit (cr_UserID args) "harness.init" ""
                      [("harness", enc_string (hID h)); ("bot", enc_string (bUsername bot))] ;;
                    Ret (Ok ("Paired `" +:+ name +:+ "` (`" +:+ hID h +:+ "`). Your bot @" +:+ bUsername bot
                      +:+ " is ready in this channel. Mention it to run jobs on this machine. Use `/harness join "
                      +:+ bUsername bot +:+ "` in another channel to add it there."))
                end
            end
        end
  end.
Definition claimInit (args : CommandRequest) (code requested : string) : prog World (res string) :=
  with_lock onboardingMu (claim_init args code requested).

Definition create_bound_bot (args : CommandRequest) (name harnessID : string) : prog World (res string) :=
  h <- HarnessByID harnessID ;;
  match h with
  | Ok h =>
      if negb (String.eqb (hMMUserID h) (cr_UserID args))
      then Ret (Err (ErrOther "harness not found among your paired machines; use `/harness status`"))
      else
        p <- installation (cr_TeamID args) ;;
        match p with
        | Err e => Ret (Err e)
        | Ok _ =>
            bot <- provisionBot args name (hID h) ;;
            match bot with
            | Err e => Ret (Err e)
            | Ok bot =>
                audit (cr_UserID args) "bot.created" ""
                  [("harness", enc_string (hID h)); ("bot", enc_string (bUsername bot))] ;;
                Ret (Ok ("Created @" +:+ bUsername bot +:+ ", bound to `" +:+ hName h +:+ "` (`" +:+ hID h
                         +:+ "`), in this channel."))
            end
        end
  | Err _ => Ret (Err (ErrOther "harness not found among your paired machines; use `/harness status`"))
  end.
Definition createBoundBot (args : CommandRequest) (name harnessID : string) : prog World (res string) :=
  with_lock onboardingMu (create_bound_bot args name harnessID).

Definition joinChannel (args : CommandRequest) (name : string) : prog World (res string) :=
  b <- BotByUsername (TrimPrefix (ToLower name) "@") ;;
  match b with
  | Err _ => Ret (Err (ErrOther "bot not found among your bots; use `/harness status`"))
  | Ok bot =>
      if negb (String.eqb (bMMUserID bot) (cr_UserID args))
      then Ret (Err (ErrOther "bot not found among your bots; use `/harness status`"))
      else if negb (String.eqb (bTeamID bot) (cr_TeamID args))
      then Ret (Err (ErrOther "use a channel in the bot's installed team"))
      else
        p <- installation (cr_TeamID args) ;;
        match p with
        | Err e => Ret (Err e)
        | Ok _ =>
            ch <- ask (fun t => pv_get_channel t (cr_TeamID args) (cr_ChannelID args)) ;;
            match ch with
            | Err _ | Ok None => Ret (Err (ErrOther "could not read this channel"))
            | Ok (Some _) =>
                match team_channel args ch with
                | None => Ret (Err (ErrOther "use `/harness join <bot-name>` in a public or private team channel"))
                | Some _ =>
                    r <- member_call (cr_TeamID args) "channel" (cr_ChannelID args) (bUserID bot)
                           (fun t => pv_add_channel_member t (cr_TeamID args) (cr_ChannelID args) (bUserID bot)) ;;
                    Ret (match r with
                         | Err _ => Err (ErrOther "could not add bot to this channel")
                         | Ok _ => Ok ("@" +:+ bUsername bot +:+ " is now in this channel.")
                         end)
                end
            end
        end
  end.

Definition status_line (h : Harness) (online : bool) (bots : list Bot) : string :=
  "- `" +:+ hName h +:+ "` (`" +:+ hID h +:+ "`): " +:+ (if online then "online" else "offline")
  +:+ Join (map (fun b => " · @" +:+ bUsername b) (List.filter (fun b => String.eqb (bHarnessID b) (hID h)) bots)) ""
  +:+ nl.

Definition onboardingStatusText (userID : string) : prog World string :=
  hs <- HarnessesByUser userID ;;
  match hs with
  | Err _ => Ret "Could not read your harnesses."
  | Ok hs =>
      bots <- BotsByOwner userID ;;
      match bots with
      | Err _ => Ret "Could not read your bots."
      | Ok bots =>
          if is_empty_list hs
          then Ret "No paired harness. Run `mhb harness init` on your machine, then paste the command here."
          else for_fold hs "" (fun acc h => o <- Online (hID h) ;; Ret (acc +:+ status_line h o bots))
      end
  end.

(** The text of the ephemeral response. *)
Definition command_text (r : res string) : string :=
  match r with Ok text => text | Err e => "Command failed: " +:+ error_text e end.

Definition HandleCommand (args : CommandRequest) : prog World string :=
  match Fields (cr_Text args) with
  | [] => Ret commandHelp
  | verb :: rest =>
      let verb := ToLower verb in
      if String.eqb verb "init" then
        match rest with
        | [] => Ret ("Run `mhb harness init --broker " +:+ PublicURL +:+ "` on the machine that will run your coding agents. Then paste its `/harness init <code>` command here. Add a bot name with `/harness init <code> <bot-name>`.")
        | [code] => r <- claimInit args code "" ;; Ret (command_text r)
        | [code; name] => r <- claimInit args code name ;; Ret (command_text r)
        | _ => Ret "Usage: `/harness init <code> [bot-name]`."
        end
      else if String.eqb verb "bot" then
        match rest with
        | [sub; name; harnessID] =>
            if String.eqb (ToLower sub) "create"
            then r <- createBoundBot args name harnessID ;; Ret (command_text r)
            else Ret "Usage: `/harness bot create <name> <harness-id>`."
        | _ => Ret "Usage: `/harness bot create <name> <harness-id>`."
        end
      else if String.eqb verb "join" then
        match rest with
        | [name] => r <- joinChannel args name ;; Ret (command_text r)
        | _ => Ret "Usage: `/harness join <bot-name>`."
        end
      else if String.eqb verb "status" then onboardingStatusText (cr_UserID args)
      else Ret commandHelp
  end.
End Onboarding.
