(* ===== verification/OnboardingFacts.v ===== *)
(** * What onboarding promises

    Polling with the wrong secret consumes nothing; a bot that cannot be
    finished leaves no trace in the database and every remote resource made
    for it is taken back; a claim binds bot and harness to the user who typed
    the command; a pairing code makes one harness, for the code's owner. *)

From S2P Require Import Prelude Resume GoText Codec Json Protocol Store Tables World Sqlite Integrity StoreFacts CoreText Sender Posts Core CoreGuards CoreFacts Onboarding.

Open Scope Z_scope.
Open Scope prog_scope.

(** ** Under interleaving *)

Section OnboardingGuards.
Context {E : Env} {S : Sender} `{!SenderLaws S} {C : Config}.

Ltac open_prog := lazymatch goal with |- guards _ ?m => let h := head_of m in unfold h end.

Section Methods.
Ltac conns := open_prog; secure.
Lemma c_BotByUserID R `{!Quiet R} i : guards R (BotByUserID i). Proof. by apply guards_read. Qed.
Lemma c_BotByUsername R `{!Quiet R} i : guards R (BotByUsername i). Proof. by apply guards_read. Qed.
Lemma c_BotsByOwner R `{!Quiet R} i : guards R (BotsByOwner i). Proof. by apply guards_read. Qed.
Lemma c_InitByCode R `{!Quiet R} i : guards R (InitByCode i). Proof. by apply guards_read. Qed.
Lemma c_CreateInit r : guards (on_conns eq) (CreateInit r). Proof. conns. Qed.
Lemma c_FetchInit c t : guards (on_conns eq) (FetchInit c t).
Proof. unfold FetchInit, fetch_read. secure; try apply c_InitByCode; apply _. Qed.
Lemma c_checkBotHarness R `{!Quiet R} b : guards R (checkBotHarness b). Proof. conns. Qed.
Lemma c_CreateBot b : guards (on_conns eq) (CreateBot b).
Proof. unfold CreateBot. secure. apply c_checkBotHarness, _. Qed.
Lemma c_DeleteBot i : guards (on_conns eq) (DeleteBot i). Proof. conns. Qed.
Lemma c_CompleteInit c t h b k : guards (on_conns eq) (CompleteInit c t h b k). Proof. conns. Qed.
End Methods.
#[local] Hint Resolve c_BotByUserID c_BotByUsername c_BotsByOwner c_InitByCode c_CreateInit c_FetchInit
  c_checkBotHarness c_CreateBot c_DeleteBot c_CompleteInit g_randomToken g_randomCode : guards.

Ltac keep := split; open_prog; secure.

Lemma g_installation R `{!Quiet R} t : guards R (installation t).
Proof. unfold installation. secure. Qed.
#[local] Hint Resolve g_installation : guards.
Lemma g_choose_bot_name R `{!Quiet R} o r : guards R (choose_bot_name o r).
Proof. unfold choose_bot_name. secure. Qed.
Lemma g_init_names R `{!Quiet R} r h : guards R (init_names r h).
Proof. unfold init_names. secure. Qed.
Lemma g_onboardingStatusText R `{!Quiet R} u : guards R (onboardingStatusText u).
Proof. unfold onboardingStatusText. secure. Qed.
#[local] Hint Resolve g_choose_bot_name g_init_names g_onboardingStatusText : guards.

Lemma k_StartInit b h : kept (StartInit b h).
Proof. keep. Qed.
Lemma k_PollInit c t : kept (PollInit c t).
Proof. keep. Qed.
Lemma k_member_call t k a b f : kept (member_call t k a b f).
Proof. keep. Qed.
Lemma k_rollbackBot t b : kept (rollbackBot t b).
Proof. keep. Qed.
Lemma k_furnish_bot t c b : kept (furnish_bot t c b).
Proof. keep; apply k_member_call. Qed.
Lemma k_provisionBot a r h : kept (provisionBot a r h).
Proof. keep; apply k_furnish_bot || apply k_rollbackBot. Qed.
Lemma k_claimInit a c r : kept (claimInit a c r).
Proof. split; unfold claimInit, claim_init; secure; apply k_provisionBot || apply k_rollbackBot. Qed.
Lemma k_createBoundBot a n h : kept (createBoundBot a n h).
Proof. split; unfold createBoundBot, create_bound_bot; secure; apply k_provisionBot. Qed.
Lemma k_joinChannel a n : kept (joinChannel a n).
Proof. keep; apply k_member_call. Qed.
Lemma k_HandleCommand a : kept (HandleCommand a).
Proof. keep; apply k_claimInit || apply k_createBoundBot || apply k_joinChannel. Qed.
End OnboardingGuards.

(** ** Polling *)

Section Poll.
Context {E : Env} {C : Config} `{!NoFaults E}.

Lemma flow_installation t : nonblocking (installation t).
Proof. unfold installation. flow. Qed.
#[local] Hint Resolve flow_installation : nonblocking.

Lemma wp_init_names r h w (Q : string * string -> World -> Prop) :
  (forall x w', w_db w' = w_db w -> Q x w') -> wp (init_names r h) Q w.
Proof.
  intros HQ. eapply wp_mono; [|apply (guards_wp undisturbed _ (fun _ _ => True))].
  - intros x w' [(Hd & _) _]. by apply HQ.
  - apply g_init_names, _.
  - apply nonblocking_wp. unfold init_names, BotByUserID. flow.
Qed.

(** C40. Polling an init code.  Without the secret of the laptop that
    started it nothing is revealed and nothing is consumed, whatever the
    state of the request; with it, the pending, expired and consumed states
    are told apart, and a claimed request hands out its token, the harness
    and its owner, and is marked as fetched in the same step. *)
Theorem PollInit_authenticated code pollToken w :
  wp (PollInit code pollToken) (fun r w' =>
    let now := clock (w_tick (bump w)) in
    match t_inits (w_db w) !! hashCode code with
    | None => r = Err ErrInitUnknown /\ w_db w' = w_db w
    | Some i =>
        if String.eqb pollToken "" || String.eqb (iPollTokenHash i) ""
           || negb (String.eqb (tokenHash pollToken) (iPollTokenHash i))
        then r = Err ErrInitUnknown /\ w_db w' = w_db w
        else if iExpiresAt i <=? now then r = Err ErrInitUnknown /\ w_db w' = w_db w
        else if negb (Claimed i) then r = Err ErrInitPending /\ w_db w' = w_db w
        else if negb (unfetched i) then r = Err ErrInitConsumed /\ w_db w' = w_db w
        else w_db w' = set_inits (<[hashCode code := fetch_row now i]> (t_inits (w_db w))) (w_db w)
             /\ match t_harnesses (w_db w) !! iHarnessID i with
                | None => r = Err ErrNotFound
                | Some h => exists user bot,
                    r = Ok (MkInitResult (hID h) (iHarnessToken i) (hMMUserID h) user bot)
                end
    end) w.
Proof.
  unfold PollInit. rewrite wp_bind, wp_InitByCode.
  destruct (t_inits (w_db w) !! hashCode code) as [i|] eqn:Hi; cbn [found]; [|by rewrite wp_ret].
  unfold poll_authentic. destruct (String.eqb pollToken ""); cbn [andb orb negb]; [by rewrite wp_ret|].
  destruct (String.eqb (iPollTokenHash i) ""); cbn [andb orb negb]; [by rewrite wp_ret|].
  destruct (String.eqb (tokenHash pollToken) (iPollTokenHash i)); cbn [negb]; [|by rewrite wp_ret].
  rewrite wp_bind, wp_time_now, wp_bind. unfold FetchInit. rewrite wp_bind, wp_InitByCode.
  cbn [w_db bump set_tick found]. rewrite Hi. cbn [found].
  set (now := clock (w_tick (bump w))). apply wp_fetch_read; cbn [w_db bump set_tick].
  - intros Ht Hc. rewrite Hi. destruct (Z.leb_spec (iExpiresAt i) now); [lia|]. rewrite Hc. cbn [negb].
    destruct (unfetched i); cbn [negb]; [|intros w' Hw; by rewrite wp_ret].
    intros w' i' Hd Htok Hh Hc'. rewrite Hc'. cbn [negb]. rewrite wp_bind, wp_HarnessByID, Hd, Hh. cbn.
    destruct (t_harnesses (w_db w) !! iHarnessID i) as [h|]; cbn [found]; [|by rewrite wp_ret].
    rewrite wp_bind. apply wp_init_names. intros [u b] w2 Hw2. rewrite wp_ret.
    split; [by rewrite Hw2, <- Hd|]. exists u, b. by rewrite Htok.
  - intros Ht Hc. rewrite Hc. cbn [negb]. destruct (Z.leb_spec (iExpiresAt i) now); [lia|]. by rewrite wp_ret.
  - intros Ht. destruct (Z.leb_spec (iExpiresAt i) now); [|lia]. by rewrite wp_ret.
Qed.
End Poll.

(** ** Making a bot *)

(** The calls that take back what was made for the team were issued, and no
    others: an account is disabled exactly when it was made, a webhook is
    deleted exactly when it was made, and only that account was made a
    member of anything.  Any of these calls may fail ([ok]), which the code
    only logs.  The token of the account and its memberships are not taken back
    by calls of their own: they end with the account. *)
Definition compensated (team : string) (evs : list Event) : Prop :=
  (forall id, id <> "" -> EvBotCreated team id ∈ evs <-> exists ok, EvBotDisabled team id ok ∈ evs)
  /\ (forall kind id, id <> "" -> EvHookCreated team kind id ∈ evs <-> exists ok, EvHookDeleted team kind id ok ∈ evs)
  /\ (forall kind target id ok, EvMember team kind target id ok ∈ evs -> EvBotCreated team id ∈ evs).

(** The database as it was, but that a row with the id of the account made
    may be gone: nothing, when Mattermost gives a new account a new id. *)
Definition none_kept (team : string) (evs : list Event) (d d' : DB) : Prop :=
  d' = d \/ exists id, EvBotCreated team id ∈ evs /\ d' = set_bots (delete id (t_bots d)) d.

Lemma none_kept_fresh team evs d d' :
  none_kept team evs d d' -> (forall id, EvBotCreated team id ∈ evs -> t_bots d !! id = None) -> d' = d.
Proof. intros [->|(id & Hid & ->)] Hf; [done|]. rewrite delete_id by auto. by destruct d. Qed.

(** A complete bot of the command's user, ready to run jobs of [harness]. *)
Definition complete_bot (args : CommandRequest) (harness : string) (b : Bot) : Prop :=
  bMMUserID b = cr_UserID args /\ bTeamID b = cr_TeamID args /\ bChannelID b = cr_ChannelID args
  /\ bHarnessID b = harness /\ bot_username_ok (bUsername b) = true
  /\ bUserID b <> "" /\ bToken b <> "" /\ bIncomingHookID b <> "" /\ bOutgoingHookID b <> ""
  /\ bOutgoingToken b <> "".

(** [CreateBot] accepts an unbound bot, and a bound one only for the owner of
    the harness. *)
Definition bindable (d : DB) (b : Bot) : Prop :=
  bHarnessID b = "" \/ exists h, t_harnesses d !! bHarnessID b = Some h /\ hMMUserID h = bMMUserID b.

Section Provision.
Context {E : Env} {C : Config}.

Lemma wp_checkBotHarness_any b w (Q : res unit -> World -> Prop) :
  (forall w', w_db w' = w_db w -> w_trace w' = w_trace w ->
     (bindable (w_db w) b -> Q (Ok tt) w') /\ (forall e, Q (Err e) w')) ->
  wp (checkBotHarness b) Q w.
Proof.
  intros HQ. unfold checkBotHarness. destruct (String.eqb_spec (bHarnessID b) "").
  { rewrite wp_ret. apply HQ; [done..|by left]. }
  rewrite wp_bind. unfold HarnessByID. rewrite wp_bind.
  apply wp_query_fault; [intros msg|]; rewrite wp_ret; cbn; [apply HQ; done|].
  unfold select_harness. rewrite scan_sql_row.
  destruct (t_harnesses (w_db w) !! bHarnessID b) as [h|] eqn:Hh; cbn; [|apply HQ; done].
  destruct (String.eqb_spec (hMMUserID h) (bMMUserID b)); rewrite wp_ret; apply HQ; try done. right. eauto.
Qed.

Lemma inserted_err e : exists e', inserted (SqlErr e) = Err e'.
Proof. unfold inserted. destruct (isUniqueViolation e); eauto. Qed.

Lemma wp_CreateBot_any b w (Q : res unit -> World -> Prop) :
  (forall w', w_trace w' = w_trace w -> bindable (w_db w) b -> t_bots (w_db w) !! bUserID b = None ->
     w_db w' = set_bots (<[bUserID b := bot_row b]> (t_bots (w_db w))) (w_db w) -> Q (Ok tt) w') ->
  (forall e w', w_trace w' = w_trace w -> w_db w' = w_db w -> Q (Err e) w') ->
  wp (CreateBot b) Q w.
Proof.
  intros HOk HErr. unfold CreateBot. rewrite wp_bind. apply wp_checkBotHarness_any.
  intros w1 Hd Ht. split; [|intros e; rewrite wp_ret; by apply HErr]. intros Hb. rewrite wp_bind.
  assert (forall e w', w_trace w' = w_trace w -> w_db w' = w_db w -> Q (inserted (SqlErr e)) w') as Hno.
  { intros e w' ? ?. destruct (inserted_err e) as [e' ->]. by apply HErr. }
  apply wp_exec_fault; [intros msg; rewrite wp_ret; by apply Hno|]. rewrite wp_ret, Hd.
  unfold insert_bot. destruct (bool_decide _) eqn:Hk; [by apply Hno|]. apply is_Some_bool in Hk.
  destruct (exists_row _ _); [by apply Hno|]. destruct (harness_exists _ _); [|by apply Hno].
  by apply HOk.
Qed.

(** A working database file deletes the row. *)
Definition bot_gone (id : string) (d d' : DB) : Prop :=
  (d' = d \/ d' = set_bots (delete id (t_bots d)) d) /\ (NoFaults E -> d' = set_bots (delete id (t_bots d)) d).

Lemma wp_DeleteBot_any id w (Q : res unit -> World -> Prop) :
  (forall r w', w_trace w' = w_trace w -> bot_gone id (w_db w) (w_db w') -> Q r w') ->
  wp (DeleteBot id) Q w.
Proof.
  intros HQ. unfold DeleteBot. rewrite wp_bind. unfold wp at 1, exec, atomic. cbn.
  destruct (db_fault (w_tick w)) eqn:Hf; rewrite wp_ret.
  - apply HQ; [done|]. split; [by left | intros H; by rewrite H in Hf].
  - apply HQ; [done|]. split; [by right | done].
Qed.

(** One optional compensation call. *)
Lemma wp_undo (c : bool) (f : nat -> res unit) evs ev w (Q : unit -> World -> Prop) :
  (forall r, evs r = [ev (is_ok r)]) ->
  (forall w' o, w_trace w' = w_trace w ++ (if c then [ev o] else []) -> w_db w' = w_db w -> Q tt w') ->
  wp (if c then _ <- call f evs ;; Ret tt else Ret tt) Q w.
Proof.
  intros He HQ. destruct c.
  - rewrite wp_bind, wp_call, wp_ret. eapply HQ; cbn; [by rewrite He | done].
  - rewrite wp_ret. apply (HQ w true); [by rewrite app_nil_r | done].
Qed.

(** The compensation of a bot: what was made is deleted, newest first. *)
Lemma wp_rollbackBot team b w (Q : unit -> World -> Prop) :
  (forall w' o i a,
     w_trace w' = w_trace w
       ++ (if negb (String.eqb (bOutgoingHookID b) "") then [EvHookDeleted team "outgoing" (bOutgoingHookID b) o] else [])
       ++ (if negb (String.eqb (bIncomingHookID b) "") then [EvHookDeleted team "incoming" (bIncomingHookID b) i] else [])
       ++ (if negb (String.eqb (bUserID b) "") then [EvBotDisabled team (bUserID b) a] else []) ->
     (bUserID b <> "" -> bot_gone (bUserID b) (w_db w) (w_db w')) ->
     (bUserID b = "" -> w_db w' = w_db w) -> Q tt w') ->
  wp (rollbackBot team b) Q w.
Proof.
  intros HQ. unfold rollbackBot. rewrite wp_bind.
  apply wp_undo with (ev := EvHookDeleted team "outgoing" (bOutgoingHookID b)); [done|].
  intros w1 o H1 D1. rewrite wp_bind.
  apply wp_undo with (ev := EvHookDeleted team "incoming" (bIncomingHookID b)); [done|].
  intros w2 i H2 D2. destruct (String.eqb_spec (bUserID b) ""); cbn [negb].
  - rewrite wp_ret. eapply (HQ _ _ _ true); [|done|by rewrite D2, D1].
    rewrite H2, H1, <- !app_assoc. destruct (String.eqb_spec (bUserID b) ""); by rewrite app_nil_r || done.
  - rewrite wp_bind, wp_call, wp_bind. apply wp_DeleteBot_any. intros r w3 H3 D3. rewrite wp_ret.
    eapply HQ; [|intros _; rewrite <- D1, <- D2; exact D3|done]. rewrite H3. cbn.
    destruct (String.eqb_spec (bUserID b) ""); [done|]. by rewrite H2, H1, <- !app_assoc.
Qed.

(** The bot a provisioning attempt carries keeps its identity, and knows
    every webhook that was made. *)
Definition same_account (b b' : Bot) : Prop :=
  bUserID b' = bUserID b /\ bMMUserID b' = bMMUserID b /\ bUsername b' = bUsername b
  /\ bHarnessID b' = bHarnessID b /\ bTeamID b' = bTeamID b /\ bChannelID b' = bChannelID b.
Definition furnishing (uid : string) (ev : Event) : Prop :=
  match ev with EvMember _ _ _ id _ => id = uid | EvHookCreated _ _ _ => True | _ => False end.
Definition hook_of (b : Bot) (kind id : string) : Prop :=
  (kind = "incoming" /\ bIncomingHookID b = id) \/ (kind = "outgoing" /\ bOutgoingHookID b = id).
Definition recorded (team : string) (b : Bot) (evs : list Event) : Prop :=
  Forall (furnishing (bUserID b)) evs
  /\ forall kind id, id <> "" -> EvHookCreated team kind id ∈ evs <-> hook_of b kind id.

Lemma hook_made_in {H} (f : H -> string) team k h e kind id :
  EvHookCreated team kind id ∈ hook_made f team k (h, e : option error) <-> exists x, h = Some x /\ kind = k /\ id = f x.
Proof.
  unfold hook_made. cbn. destruct h as [x|]; [rewrite list_elem_of_singleton|rewrite elem_of_nil]; split.
  - intros [= -> ->]. eauto.
  - intros (? & [= <-] & -> & ->). done.
  - done.
  - by intros (? & ? & _).
Qed.
Lemma hook_made_furnishing {H} (f : H -> string) team k h (e : option error) uid : Forall (furnishing uid) (hook_made f team k (h, e)).
Proof. unfold hook_made. destruct h; repeat constructor. Qed.

Lemma recorded_members team b evs :
  Forall (fun ev => match ev with EvMember _ _ _ id _ => id = bUserID b | _ => False end) evs ->
  bIncomingHookID b = "" -> bOutgoingHookID b = "" -> recorded team b evs.
Proof.
  intros Hm Hi Ho. split; [eapply Forall_impl; [exact Hm|]; by intros []|].
  intros kind id Hid. unfold hook_of. rewrite Hi, Ho. split; [|by intros [[_ <-]|[_ <-]]].
  intros Hin. by eapply Forall_forall in Hm; [|exact Hin].
Qed.

Lemma with_incoming_same h b : same_account b (with_incoming h b) /\ bToken (with_incoming h b) = bToken b
  /\ bIncomingHookID (with_incoming h b) = match h with Some h => iwId h | None => bIncomingHookID b end.
Proof. by destruct h. Qed.
Lemma with_outgoing_same h b : same_account b (with_outgoing h b) /\ bToken (with_outgoing h b) = bToken b
  /\ bIncomingHookID (with_outgoing h b) = bIncomingHookID b
  /\ bOutgoingHookID (with_outgoing h b) = match h with Some h => owId h | None => bOutgoingHookID b end
  /\ bOutgoingToken (with_outgoing h b) = match h with Some h => owToken h | None => bOutgoingToken b end.
Proof. by destruct h. Qed.

Lemma wp_furnish_bot team channel bot w (Q : Bot * res unit -> World -> Prop) :
  (forall b evs w', w_trace w' = w_trace w ++ evs -> same_account bot b -> recorded team b evs ->
     (bToken b <> "" -> bIncomingHookID b <> "" -> bOutgoingHookID b <> "" -> bOutgoingToken b <> "" ->
      bindable (w_db w) b -> t_bots (w_db w) !! bUserID b = None ->
      w_db w' = set_bots (<[bUserID b := bot_row b]> (t_bots (w_db w))) (w_db w) -> Q (b, Ok tt) w')
     /\ (forall e, w_db w' = w_db w -> Q (b, Err e) w')) ->
  bIncomingHookID bot = "" -> bOutgoingHookID bot = "" ->
  wp (furnish_bot team channel bot) Q w.
Proof.
  intros HQ Hin0 Hout0. unfold furnish_bot. rewrite wp_bind, wp_ask.
  set (b0 := with_token _ bot). assert (same_account bot b0) as H0 by done.
  destruct (String.eqb_spec (bToken b0) "") as [|Ht].
  { rewrite wp_ret. apply (HQ b0 []); cbn; [by rewrite app_nil_r|done|by apply recorded_members|done]. }
  unfold member_call. rewrite wp_bind, wp_call. set (e1 := EvMember team "team" _ _ _).
  destruct (pv_add_team_member _ _ _ _) as [u1|].
  2: { rewrite wp_ret. apply (HQ b0 [e1]); cbn; [done..|apply recorded_members; by repeat constructor|done]. }
  rewrite wp_bind, wp_call. set (e2 := EvMember team "channel" _ _ _).
  destruct (pv_add_channel_member _ _ _ _) as [u2|].
  2: { rewrite wp_ret. apply (HQ b0 [e1; e2]); cbn; [by rewrite <- app_assoc|done|apply recorded_members; by repeat constructor|done]. }
  rewrite wp_bind, wp_call. destruct (pv_create_incoming _ _ _) as [hi ei]. cbn [fst snd].
  set (evi := hook_made iwId team "incoming" (hi, ei)).
  destruct (with_incoming_same hi b0) as (S1 & T1 & I1). set (b1 := with_incoming hi b0) in *.
  assert (recorded team b1 ([e1; e2] ++ evi)) as R1.
  { split; [apply Forall_app; split; [destruct hi; by repeat constructor | apply hook_made_furnishing]|].
    intros kind id Hid. unfold evi, hook_of. rewrite elem_of_app, hook_made_in, I1.
    replace (bOutgoingHookID b1) with "" by (by destruct hi). replace (bIncomingHookID b0) with "" by done.
    destruct hi; set_solver. }
  destruct (incoming_ok b1 hi ei) eqn:Hi; cbn [negb].
  2: { rewrite wp_ret. eapply (HQ b1); [|done|exact R1|done]. cbn. by rewrite <- !app_assoc. }
  rewrite wp_bind, wp_call. destruct (pv_create_outgoing _ _ _) as [ho eo]. cbn [fst snd].
  set (evo := hook_made owId team "outgoing" (ho, eo)).
  destruct (with_outgoing_same ho b1) as (S2 & T2 & I2 & O2 & K2). set (b2 := with_outgoing ho b1) in *.
  assert (same_account bot b2) as S3.
  { destruct S1 as (?&?&?&?&?&?), S2 as (?&?&?&?&?&?). split_and!; etrans; eauto. }
  assert (recorded team b2 (([e1; e2] ++ evi) ++ evo)) as R2.
  { destruct R1 as [N1 R1]. split.
    { apply Forall_app. split; [|apply hook_made_furnishing]. by destruct S2 as (-> & _). }
    intros kind id Hid. unfold evo. rewrite elem_of_app, (R1 _ _ Hid), hook_made_in. unfold hook_of. rewrite I2, O2.
    replace (bOutgoingHookID b1) with "" by (by destruct hi). destruct ho; naive_solver. }
  destruct (outgoing_ok ho eo) eqn:Ho; cbn [negb].
  2: { rewrite wp_ret. eapply (HQ b2); [|done|exact R2|done]. cbn. by rewrite <- !app_assoc. }
  rewrite wp_bind. apply wp_CreateBot_any; cbn.
  - intros w' Hw Hb Hk Hd. rewrite wp_ret. eapply (HQ b2); [|done|exact R2|..]; try done.
    + rewrite Hw. cbn. by rewrite <- !app_assoc.
    + by rewrite T2, T1.
    + rewrite I2, I1. unfold incoming_ok in Hi. destruct ei, hi; boolprop; naive_solver.
    + rewrite O2. unfold outgoing_ok in Ho. destruct eo, ho; boolprop; naive_solver.
    + rewrite K2. unfold outgoing_ok in Ho. destruct eo, ho; boolprop; naive_solver.
  - intros e w' Hw Hd. rewrite wp_ret. eapply (HQ b2); [|done|exact R2|done].
    rewrite Hw. cbn. by rewrite <- !app_assoc.
Qed.
End Provision.

Section ProvisionBot.
Context {E : Env} {C : Config}.

Lemma wp_choose_bot_name owner requested w (Q : res string -> World -> Prop) :
  (forall name w', undisturbed w w' -> bot_username_ok name = true -> Q (Ok name) w') ->
  (forall e w', undisturbed w w' -> Q (Err e) w') ->
  wp (choose_bot_name owner requested) Q w.
Proof.
  intros HOk HErr.
  assert (forall name w', undisturbed w w' ->
    wp (if negb (bot_username_ok name) then Ret (Err bad_bot_name)
        else b <- BotByUsername name ;;
             Ret (match b with
                  | Ok _ => Err (ErrOther "that bot name is already taken; choose another name")
                  | Err ErrNotFound => Ok name
                  | Err _ => Err (ErrOther "could not check bot name")
                  end)) Q w') as H.
  { intros name w' Hw. destruct (bot_username_ok name) eqn:Hn; cbn [negb]; [|rewrite wp_ret; auto].
    rewrite wp_bind. eapply wp_mono; [|apply (wp_frame undisturbed)]; [|unfold BotByUsername; flow|apply c_BotByUsername, _].
    intros b w2 Hw2. rewrite wp_ret. assert (undisturbed w w2) by (by trans w').
    destruct b as [|[]]; auto. }
  unfold choose_bot_name. rewrite wp_bind.
  destruct (String.eqb _ ""); [|rewrite wp_ret; by apply H].
  rewrite wp_bind. eapply wp_mono; [|apply (wp_frame undisturbed)]; [|unfold randomToken; flow|apply g_randomToken, _].
  intros suffix w1 Hw1. rewrite wp_ret. by apply H.
Qed.

Lemma compensated_nil team : compensated team [].
Proof. split_and!; set_solver. Qed.

(** A rolled back account leaves nothing behind. *)
Lemma elem_of_undo (s : string) (x ev : Event) :
  x ∈ (if negb (String.eqb s "") then [ev] else []) <-> s <> "" /\ x = ev.
Proof. destruct (String.eqb_spec s ""); cbn [negb]; set_solver. Qed.

Lemma rolled_back team id b evs o i a :
  id <> "" -> bUserID b = id -> recorded team b evs ->
  compensated team (([EvBotCreated team id] ++ evs)
    ++ (if negb (String.eqb (bOutgoingHookID b) "") then [EvHookDeleted team "outgoing" (bOutgoingHookID b) o] else [])
    ++ (if negb (String.eqb (bIncomingHookID b) "") then [EvHookDeleted team "incoming" (bIncomingHookID b) i] else [])
    ++ (if negb (String.eqb (bUserID b) "") then [EvBotDisabled team (bUserID b) a] else [])).
Proof.
  intros Hid Hb [R1 R2]. rewrite Forall_forall in R1. rewrite Hb in *.
  assert (forall ev, ev ∈ evs -> ~ furnishing id ev -> False) as Hno by (intros ev Hev Hn; by apply Hn, R1).
  split_and!.
  - intros x Hx. repeat setoid_rewrite elem_of_app.
    repeat setoid_rewrite elem_of_undo. repeat setoid_rewrite list_elem_of_singleton. split.
    + intros [[[= ->]|Hev]|[[_ ?]|[[_ ?]|[_ ?]]]]; try done; [exists a; auto|]. by destruct (Hno _ Hev); intros [].
    + intros [ok [[?|Hev]|[[_ ?]|[[_ ?]|[_ [= -> ->]]]]]]; try done; [|by auto]. by destruct (Hno _ Hev); intros [].
  - intros kind x Hx. repeat setoid_rewrite elem_of_app.
    repeat setoid_rewrite elem_of_undo. repeat setoid_rewrite list_elem_of_singleton. split.
    + intros [[?|Hev]|[[_ ?]|[[_ ?]|[_ ?]]]]; try done.
      apply (R2 _ _ Hx) in Hev as [[-> <-]|[-> <-]]; [exists i | exists o]; auto 10.
    + intros [ok [[?|Hev]|[[_ [= -> -> ->]]|[[_ [= -> -> ->]]|[_ ?]]]]]; try done.
      * by destruct (Hno _ Hev); intros [].
      * left. right. apply (R2 _ _ Hx). by right.
      * left. right. apply (R2 _ _ Hx). by left.
  - intros kind target x ok. rewrite !elem_of_app, !elem_of_undo, !list_elem_of_singleton.
    intros [[?|Hev]|[[_ ?]|[[_ ?]|[_ ?]]]]; try done. apply R1 in Hev. cbn in Hev. subst x. auto.
Qed.

(** What an attempt leaves behind: a complete stored bot, or nothing. *)
Lemma wp_provisionBot args requested harness w (Q : res Bot -> World -> Prop) :
  (forall b evs w', w_trace w' = w_trace w ++ EvBotCreated (cr_TeamID args) (bUserID b) :: evs ->
     recorded (cr_TeamID args) b evs -> complete_bot args harness b -> bindable (w_db w) b -> t_bots (w_db w) !! bUserID b = None ->
     w_db w' = set_bots (<[bUserID b := bot_row b]> (t_bots (w_db w))) (w_db w) -> Q (Ok b) w') ->
  (forall e evs w', w_trace w' = w_trace w ++ evs -> compensated (cr_TeamID args) evs ->
     none_kept (cr_TeamID args) evs (w_db w) (w_db w') -> Q (Err e) w') ->
  wp (provisionBot args requested harness) Q w.
Proof.
  intros HOk HErr.
  assert (forall e w', undisturbed w w' -> Q (Err e) w') as Hnone.
  { intros e w' (Hd & _ & Ht). apply (HErr e []).
    - by rewrite app_nil_r.
    - apply compensated_nil.
    - by left. }
  unfold provisionBot. destruct (String.eqb (cr_UserID args) ""); [rewrite wp_ret; by apply Hnone|].
  rewrite wp_bind, wp_ask. destruct (pv_get_channel _ _ _) as [[ch|]|]; [|rewrite wp_ret; by apply Hnone..].
  destruct (team_channel _ _); [|rewrite wp_ret; by apply Hnone].
  rewrite wp_bind, wp_ask. destruct (pv_get_user _ _ _) as [[owner|]|]; [|rewrite wp_ret; by apply Hnone..].
  rewrite wp_bind. apply wp_choose_bot_name.
  2: { intros e w' Hw. rewrite wp_ret. by apply Hnone. }
  intros name w1 (Hd1 & Hc1 & Ht1) Hname. rewrite wp_bind, wp_call. cbn in Hd1, Ht1.
  destruct (pv_create_bot _ _ _ _ _) as [[[|ch0 id]|]|].
  - rewrite wp_ret. eapply HErr; [cbn; by rewrite Ht1| |by left].
    split_and!; [|set_solver..]. intros id Hid. split; [set_solver | intros [? ?]; set_solver].
  - set (uid := String ch0 id). rewrite wp_bind, wp_time_now, wp_bind. apply wp_furnish_bot; [|done..].
    intros b evs w2 Hw2 (A1 & A2 & A3 & A4 & A5 & A6) Hr. cbn in A1, A2, A3, A4, A5, A6, Hw2. split.
    + intros. rewrite wp_ret. cbn in *. rewrite <- Hd1 in *.
      eapply HOk; [by rewrite Hw2, A1, <- Ht1, <- app_assoc | done | | done..].
      rewrite <- A1 in *. split_and!; try done; [by rewrite A3 | by rewrite A1].
    + intros e Hd2. rewrite wp_bind. apply wp_rollbackBot. intros w3 o i a Hw3 Hd3 _. rewrite wp_ret.
      destruct Hd3 as [Hd3 _]; [by rewrite A1|]. rewrite Hd2 in Hd3. cbn in Hd3. rewrite <- Hd1, A1 in Hd3.
      eapply HErr; [rewrite Hw3, Hw2, <- Ht1, <- (app_assoc (w_trace w)), <- (app_assoc (w_trace w)); reflexivity | |].
      { by apply (rolled_back _ uid). }
      destruct Hd3 as [Hd3|Hd3]; [by left|right]. exists uid. split; [|exact Hd3]. by do 3 left.
  - rewrite wp_ret. apply (HErr _ []); [cbn; by rewrite Ht1, app_nil_r | apply compensated_nil | by left].
  - rewrite wp_ret. apply (HErr _ []); [cbn; by rewrite Ht1, app_nil_r | apply compensated_nil | by left].
Qed.

(** C39. Making a bot stores a complete bot or none, whatever fails at
    whatever point, database faults included.  On success exactly one row is
    added: a complete bot of the user who typed the command, in the command's
    team and channel, bound to the requested harness only if that user owns it.
    On failure every row of every table stays as it was (but one with the very
    id that Mattermost gave the new account), and the calls that disable the
    account and delete the webhooks were issued for exactly what was made; they
    may fail, and no call takes the token or the memberships back. *)
Theorem provisionBot_compensates args requested harness w :
  wp (provisionBot args requested harness) (fun r w' =>
    exists evs, w_trace w' = w_trace w ++ evs
    /\ match r with
       | Ok b =>
           complete_bot args harness b
           /\ (harness = "" \/ exists h, t_harnesses (w_db w) !! harness = Some h /\ hMMUserID h = cr_UserID args)
           /\ EvBotCreated (cr_TeamID args) (bUserID b) ∈ evs
           /\ t_bots (w_db w) !! bUserID b = None
           /\ w_db w' = set_bots (<[bUserID b := bot_row b]> (t_bots (w_db w))) (w_db w)
       | Err _ => compensated (cr_TeamID args) evs /\ none_kept (cr_TeamID args) evs (w_db w) (w_db w')
           /\ ((forall id, EvBotCreated (cr_TeamID args) id ∈ evs -> t_bots (w_db w) !! id = None) -> w_db w' = w_db w)
       end) w.
Proof.
  apply wp_provisionBot.
  - intros b evs w' Hw _ Hb Hbind Hk Hd. eexists. split; [exact Hw|].
    split; [done|]. destruct Hb as (Ho & _ & _ & Hh & _). split; [|split; [left | done]].
    unfold bindable in Hbind. by rewrite Hh, Ho in Hbind.
  - intros e evs w' Hw Hc Hd. exists evs. split; [done|]. split; [done|]. split; [done|].
    by apply none_kept_fresh.
Qed.
End ProvisionBot.

(** ** Claiming a code *)

Section Claim.
Context {E : Env} {S : Sender} {C : Config}.

(** The database after a completed claim. *)
Definition claimed_db (code : string) (now : Time) (h : Harness) (token : string) (b : Bot)
    (i : InitRequest) (d : DB) : DB :=
  set_inits (<[code := claim_row now (hID h) token (bUserID b) i]> (t_inits d))
    (set_bots (<[bUserID b := set_bot_harness (hID h) (bot_row b)]> (t_bots d))
      (set_harnesses (<[hID h := harness_row h]> (t_harnesses d)) d)).

Lemma wp_CompleteInit_new code now h b token d w (Q : res unit -> World -> Prop) :
  w_db w = set_bots (<[bUserID b := bot_row b]> (t_bots d)) d ->
  (forall i w', t_inits d !! code = Some i -> now < iExpiresAt i -> Claimed i = false ->
     t_harnesses d !! hID h = None -> w_trace w' = w_trace w ->
     w_db w' = claimed_db code now h token b i d -> Q (Ok tt) w') ->
  (forall e w', w_trace w' = w_trace w -> w_db w' = w_db w -> Q (Err e) w') ->
  wp (CompleteInit code now h (bUserID b) token) Q w.
Proof.
  intros Hd HOk HErr. unfold CompleteInit. rewrite wp_bind.
  apply wp_exec_fault; [intros msg; rewrite wp_ret; by apply HErr|]. rewrite wp_ret, Hd. unfold complete_init_tx. cbn.
  destruct (t_inits d !! code) as [i|] eqn:Hi; [|by apply HErr].
  destruct (Z.ltb_spec now (iExpiresAt i)); cbn [negb]; [|by apply HErr].
  destruct (Claimed i) eqn:Hc; [by apply HErr|]. rewrite lookup_insert_eq.
  destruct (_ || _); [by apply HErr|]. unfold insert_harness. cbn.
  destruct (bool_decide (is_Some (t_harnesses d !! hID h))) eqn:Hk;
    [destruct (isUniqueViolation _); by apply HErr|].
  apply is_Some_bool in Hk. destruct (exists_row _ _); [destruct (isUniqueViolation _); by apply HErr|].
  apply (HOk i); try done. cbn. unfold claimed_db. by rewrite insert_insert_eq.
Qed.

(** Claiming an init code, with a working database: either the code was
    valid and unclaimed, and now a fresh bot and a fresh harness of the user
    who typed the command exist, bound to each other, the harness known by
    the hash of the token the laptop will fetch; or the command failed and
    harnesses and codes are as before, no bot was added, and the calls that take
    back what was made on the way were issued. *)
Theorem claimInit_spec `{!NoFaults E} args code requested w :
  onboardingMu ∉ w_locks w ->
  wp (claimInit args code requested) (fun r w' =>
    onboardingMu ∉ w_locks w' /\
    match r with
    | Ok _ => exists i b h token now,
        t_inits (w_db w) !! hashCode code = Some i /\ Claimed i = false /\ now < iExpiresAt i
        /\ complete_bot args "" b /\ t_bots (w_db w) !! bUserID b = None
        /\ hMMUserID h = cr_UserID args /\ hTokenHash h = tokenHash token
        /\ t_harnesses (w_db w) !! hID h = None
        /\ audit_only (claimed_db (hashCode code) now h token b i (w_db w)) (w_db w')
    | Err _ => exists evs, w_trace w' = w_trace w ++ evs
        /\ compensated (cr_TeamID args) evs /\ none_kept (cr_TeamID args) evs (w_db w) (w_db w')
    end) w.
Proof.
  intros Hlock. unfold claimInit. apply wp_with_lock; [done|].
  eapply wp_mono.
  { intros r w1 H. split; [|exact H]. cbn. rewrite list_elem_of_In, filter_In. intros [_ Hf].
    by rewrite bool_decide_true in Hf. }
  cbn. set (w0 := set_locks _ w). change (w_db w) with (w_db w0). change (w_trace w) with (w_trace w0). clearbody w0.
  set (Q := fun (r : res string) (w' : World) => match r with Ok _ => _ | Err _ => _ end).
  assert (forall e w', undisturbed w0 w' -> Q (Err e) w') as Hnone.
  { intros e w' (Hd & _ & Ht). exists []. rewrite <- Ht, <- Hd, app_nil_r. split; [done|].
    split; [apply compensated_nil | by left]. }
  change (wp (claim_init args code requested) Q w0).
  unfold claim_init. rewrite wp_bind, wp_InitByCode.
  destruct (t_inits (w_db w0) !! hashCode code) as [i|] eqn:Hi; cbn [found]; [|rewrite wp_ret; by apply Hnone].
  rewrite wp_bind, wp_time_now. destruct (_ <? _); cbn [negb]; [|rewrite wp_ret; by apply Hnone].
  destruct (Claimed i) eqn:Hcl; [rewrite wp_ret; by apply Hnone|].
  rewrite wp_bind. eapply wp_mono; [|apply (wp_frame undisturbed)]; [|apply flow_installation|apply g_installation, _].
  intros p w1 Hw1. assert (undisturbed w0 w1) as H01 by exact Hw1. clear Hw1.
  destruct p as [[]|e]; [|rewrite wp_ret; by apply Hnone]. destruct H01 as (Hd1 & _ & Ht1).
  rewrite wp_bind. apply wp_provisionBot.
  2: { intros e evs w2 Hw2 Hc Hd2. rewrite wp_ret. exists evs. by rewrite Ht1, Hd1. }
  intros b evs w2 Hw2 Hr Hb _ Hk Hd2. rewrite <- Hd1 in *.
  rewrite wp_bind. eapply wp_mono; [|apply (wp_frame undisturbed)]; [|unfold randomToken; flow|apply g_randomToken, _].
  intros secret w3 (Hd3 & _ & Ht3). rewrite wp_bind, wp_new_ulid, wp_bind, wp_time_now, wp_bind, wp_time_now.
  set (token := "hrt_" +:+ secret). set (h := MkHarness _ _ _ _ _ _ _).
  rewrite wp_bind. apply (wp_CompleteInit_new _ _ _ _ _ (w_db w0)); cbn [w_db w_trace bump set_tick].
  - by rewrite <- Hd3.
  - intros i' w4 Hi' Hexp Hcl' Hh _ Hd4. rewrite Hi in Hi'. injection Hi' as <-.
    rewrite wp_bind. frame_audit. intros [] w5 Hw5. rewrite wp_ret.
    exists i, b, h, token. eexists. split_and!; try done. by rewrite <- Hd4.
  - intros e w4 Ht4 Hd4. rewrite wp_bind. apply wp_rollbackBot. intros w5 o a0 a Ht5 Hd5 _. rewrite wp_ret.
    assert (bUserID b <> "") as Hid by apply Hb. destruct (Hd5 Hid) as [_ Hgone].
    unfold Q. rewrite Hgone by done.
    exists ((EvBotCreated (cr_TeamID args) (bUserID b) :: evs)
      ++ (if negb (String.eqb (bOutgoingHookID b) "") then [EvHookDeleted (cr_TeamID args) "outgoing" (bOutgoingHookID b) o] else [])
      ++ (if negb (String.eqb (bIncomingHookID b) "") then [EvHookDeleted (cr_TeamID args) "incoming" (bIncomingHookID b) a0] else [])
      ++ (if negb (String.eqb (bUserID b) "") then [EvBotDisabled (cr_TeamID args) (bUserID b) a] else [])).
    split; [by rewrite Ht5, Ht4, <- Ht3, Hw2, <- Ht1, <- app_assoc|].
    split; [by apply (rolled_back _ (bUserID b))|].
    left. rewrite Hd4, <- Hd3, Hd2. cbn. rewrite delete_insert_id by done. by destruct (w_db w0).
Qed.
End Claim.

(** ** Pairing by direct message *)

Section Pair.
Context {E : Env} {C : Config} `{!NoFaults E}.

Definition use_pairing (code : string) (now : Time) (p : Pairing) (d : DB) : DB :=
  set_pairings (<[code := MkPairing (gMMUserID p) (gExpiresAt p) (Some (col_time now))]> (t_pairings d)) d.

Lemma flow_announce_pairing u n h : nonblocking (announce_pairing u n h).
Proof. unfold announce_pairing. flow. Qed.
Lemma g_announce_pairing R `{!Mild R} u n h : guards R (announce_pairing u n h).
Proof. unfold announce_pairing. secure. Qed.
#[local] Hint Resolve flow_announce_pairing g_announce_pairing : guards nonblocking.

(** Pairing.  An unknown, used or expired code is refused and nothing
    changes.  A usable code is consumed for good, and its owner gets one new
    harness, stored under the hash of exactly the token that is returned;
    only when its id or token hash is already taken is the code lost without a
    harness. *)
Theorem HandlePair_spec req w :
  wp (HandlePair req) (fun r w' =>
    let now := clock (w_tick w) in
    let code := hashCode (pr_Code req) in
    match t_pairings (w_db w) !! code with
    | Some p =>
        if pairing_usable now p then
          match r with
          | Ok resp => exists h,
              ps_HarnessID resp = hID h /\ ps_MMUserID resp = gMMUserID p
              /\ hMMUserID h = gMMUserID p /\ hName h = harness_name req
              /\ hTokenHash h = tokenHash (ps_Token resp)
              /\ t_harnesses (w_db w) !! hID h = None
              /\ audit_only (set_harnesses (<[hID h := harness_row h]> (t_harnesses (w_db w)))
                              (use_pairing code now p (w_db w))) (w_db w')
          | Err e => e = ErrConflict /\ w_db w' = use_pairing code now p (w_db w)
          end
        else r = Err ErrBadPairingCode /\ w_db w' = w_db w
    | None => r = Err ErrBadPairingCode /\ w_db w' = w_db w
    end) w.
Proof.
  unfold HandlePair. rewrite wp_bind, wp_time_now, wp_bind, wp_ConsumePairing.
  cbn [w_db bump set_tick w_tick set_db]. set (now := clock (w_tick w)). unfold update_consume.
  destruct (t_pairings (w_db w) !! hashCode (pr_Code req)) as [p|] eqn:Hp; [|cbn; rewrite wp_ret; split; [done|]; by destruct (w_db w)].
  destruct (pairing_usable now p); cbn [scan fst snd]; [|rewrite wp_ret; split; [done|]; by destruct (w_db w)]. rewrite wp_bind.
  eapply wp_mono; [|apply (wp_frame undisturbed)]; [|unfold randomToken; flow|apply g_randomToken, _].
  intros secret w1 (Hd1 & _). cbn in Hd1. set (token := "hrt_" +:+ secret).
  rewrite wp_bind, wp_new_ulid, wp_bind, wp_time_now. set (h := MkHarness _ _ _ _ _ _ _).
  rewrite wp_bind. unfold CreateHarness. rewrite wp_write. cbn [w_db bump set_tick]. rewrite <- Hd1. unfold insert_harness.
  fold (use_pairing (hashCode (pr_Code req)) now p (w_db w)).
  destruct (bool_decide _) eqn:Hk; cbn [fst snd]; [by rewrite inserted_unique, wp_ret|].
  destruct (exists_row _ _); cbn [fst snd]; [by rewrite inserted_unique, wp_ret|]. rewrite inserted_ok.
  apply is_Some_bool in Hk. rewrite wp_bind. frame_audit; auto with guards nonblocking typeclass_instances.
  intros user w2 Hw2. rewrite wp_bind. frame_audit. intros [] w3 Hw3. rewrite wp_ret. exists h.
  split_and!; try done. unfold on_db in Hw2, Hw3. cbn in Hw2. by trans (w_db w2).
Qed.
End Pair.
