(* ===== verification/System.v ===== *)
(** * The broker as a whole

    Every entry point of the broker may run at any time, interleaved with the
    others at single statements, calls and locked sections.  What all their
    steps guarantee therefore holds in every reachable state: the database
    keeps its integrity, jobs only move along their life cycle, and secrets
    and decisions are single-use. *)

From S2P Require Import Prelude Resume GoText Codec Json Protocol Store Tables World Sqlite Integrity StoreFacts CoreText Sender Hub HubFacts Posts Core CoreGuards Onboarding OnboardingFacts.

Open Scope Z_scope.
Open Scope prog_scope.

(** ** The job state machine *)

(** What a job in state [s] can still become. *)
Definition successors (s : JobState) : list JobState :=
  match s with
  | JobQueued => [JobQueued; JobDispatched; JobRunning; JobAwaitingApproval; JobSucceeded; JobFailed;
                  JobCancelled; JobLost; JobExpired]
  | JobDispatched => [JobDispatched; JobRunning; JobAwaitingApproval; JobSucceeded; JobFailed; JobCancelled; JobLost]
  | JobRunning | JobAwaitingApproval => [JobRunning; JobAwaitingApproval; JobSucceeded; JobFailed; JobCancelled; JobLost]
  | JobLost => [JobLost; JobSucceeded; JobFailed; JobCancelled]
  | JobSucceeded | JobFailed | JobCancelled | JobExpired => [s]
  end.

Definition next_states (s t : JobState) : bool := bool_decide (t ∈ successors s).

Lemma next_states_refl s : next_states s s = true.
Proof. by destruct s. Qed.
Lemma next_states_edge s t u : job_edge s t -> next_states t u = true -> next_states s u = true.
Proof.
  intros He. destruct He as [|s [->|[->| ->]]|s [->| ->]|s t H1 [->|[->| ->]]|s H|]; try by destruct u.
  all: repeat match goal with
    | H : _ ∈ ActiveStates |- _ => unfold ActiveStates in H
    | H : _ ∈ JobLost :: ActiveStates |- _ => unfold ActiveStates in H
    | H : _ ∈ _ :: _ |- _ => apply elem_of_cons in H as [->|H]
    | H : _ ∈ [] |- _ => by apply elem_of_nil in H
    end; by destruct u.
Qed.
Lemma rtc_next_states s t : rtc job_edge s t -> next_states s t = true.
Proof. induction 1 as [s|s t u He _ IH]; [apply next_states_refl | by eapply next_states_edge]. Qed.

Section System.
Context {E : Env} {C : Config} (cfg : HubConfig).

Definition forget {A} (m : prog World A) : prog World unit := _ <- m ;; Ret tt.

(** What the outside can start: Mattermost events and webhooks, the HTTP
    endpoints, connections of harnesses, the sweeper, debounce timers and
    shutdown. *)
Inductive broker_entry : prog World unit -> Prop :=
| entry_bot_post bot ev : broker_entry (forget (HandleBotPost bot ev))
| entry_post ev : broker_entry (forget (HandlePost ev))
| entry_callback req : broker_entry (forget (HandleCallback req))
| entry_pair req : broker_entry (forget (HandlePair req))
| entry_start_init bot harness : broker_entry (forget (StartInit bot harness))
| entry_poll_init code token : broker_entry (forget (PollInit code token))
| entry_command args : broker_entry (forget (HandleCommand args))
| entry_connection auth c incoming : broker_entry (ServeHTTP cfg auth c incoming)
| entry_sweep : broker_entry Sweep
| entry_timer t : broker_entry (fire_timer t)
| entry_close : broker_entry Close.

Lemma guards_forget R {A} (m : prog World A) : guards R m -> guards R (forget m).
Proof. intros H. by apply guards_bind. Qed.

Lemma guards_authenticate auth : guards w_step (authenticate auth).
Proof. unfold authenticate. secure. Qed.

Lemma entry_steps p : broker_entry p -> guards w_step p.
Proof.
  intros He. destruct He; try apply guards_forget.
  - apply k_HandleBotPost.
  - apply k_HandlePost.
  - apply k_HandleCallback.
  - apply k_HandlePair.
  - apply k_StartInit.
  - apply k_PollInit.
  - apply k_HandleCommand.
  - unfold ServeHTTP. secure; [apply guards_authenticate | apply guards_serve].
  - apply k_Sweep.
  - apply guards_fire_timer, _.
  - apply guards_modify. intros w. unfold on_db. reflexivity.
Qed.

Lemma reach_step w0 c1 c2 :
  reach broker_entry ([], w0) c1 -> reach broker_entry c1 c2 -> db_step (w_db c1.2) (w_db c2.2).
Proof.
  intros H1 H2.
  destruct (pool_guarantee broker_entry w_step ([], w0) c1 entry_steps) as [Hall _]; [constructor|done|].
  by apply (pool_guarantee broker_entry w_step c1 c2 entry_steps Hall).
Qed.

(** C1. Integrity.  From a well-formed database, in every state any
    interleaving of the broker's handlers can reach, whatever Mattermost,
    the harnesses and the database file do: every row sits under its key,
    token hashes and bot names are unique, a bot has at most one job per
    trigger post, and every job, approval and bound bot refers to a row
    that exists. *)
Theorem broker_integrity w0 ps w :
  db_wf (w_db w0) -> reach broker_entry ([], w0) (ps, w) -> db_wf (w_db w).
Proof. intros Hwf Hr. by apply (reach_step w0 ([], w0) (ps, w)); [constructor|..]. Qed.

(** C29. The life of a job.  Between any two points of any run a job keeps
    its id, harness, owner, thread, trigger, bot, workspace and prompt, its
    progress number never falls, and its state only moves forward: a
    finished or expired job stays as it is, a lost job can only be given a
    result, a dispatched job is never queued again, and a job that runs or
    waits for an approval is not dispatched again, though it may go from one of
    the two to the other and back. *)
Theorem job_lifecycle w0 c1 c2 id j :
  reach broker_entry ([], w0) c1 -> reach broker_entry c1 c2 ->
  t_jobs (w_db c1.2) !! id = Some j ->
  exists j', t_jobs (w_db c2.2) !! id = Some j'
    /\ same_job j j' /\ jLastSeq j <= jLastSeq j'
    /\ next_states (jState j) (jState j') = true.
Proof.
  intros H1 H2 Hj. destruct (reach_step _ _ _ H1 H2) as [_ Hev].
  destruct (ev_jobs _ _ Hev _ _ Hj) as (j' & Hj' & Hs & Hl & He).
  exists j'. auto using rtc_next_states.
Qed.

(** What is final stays final, in every interleaving: a decision with
    its decider, the use of a pairing code, the claim of an init code with
    the harness and bot it bound, and the audit log; a harness keeps its
    owner and token hash; and nothing is written to the token column of a
    request again once a fetch has erased it. *)
Theorem decisions_are_final w0 c1 c2 :
  reach broker_entry ([], w0) c1 -> reach broker_entry c1 c2 ->
  let d1 := w_db c1.2 in
  let d2 := w_db c2.2 in
  (forall id a, t_approvals d1 !! id = Some a -> is_Some (ar_decision a) ->
     exists a', t_approvals d2 !! id = Some a' /\ ar_decision a' = ar_decision a
       /\ ar_decided_by a' = ar_decided_by a)
  /\ (forall code p, t_pairings d1 !! code = Some p -> is_Some (gUsedAt p) ->
     exists p', t_pairings d2 !! code = Some p' /\ forall now, pairing_usable now p' = false)
  /\ (forall code i, t_inits d1 !! code = Some i -> Claimed i = true ->
     exists i', t_inits d2 !! code = Some i' /\ Claimed i' = true
       /\ iHarnessID i' = iHarnessID i /\ iBotUserID i' = iBotUserID i
       /\ (unfetched i = false -> iHarnessToken i' = iHarnessToken i))
  /\ (forall id h, t_harnesses d1 !! id = Some h ->
     exists h', t_harnesses d2 !! id = Some h' /\ hMMUserID h' = hMMUserID h /\ hTokenHash h' = hTokenHash h)
  /\ exists l, t_audit d2 = t_audit d1 ++ l.
Proof.
  intros H1 H2 d1 d2. destruct (reach_step _ _ _ H1 H2) as [_ Hev]. split_and!.
  - intros id a Ha Hd. destruct (ev_approvals _ _ Hev _ _ Ha) as (a' & Ha' & _ & Hfin).
    destruct (Hfin Hd) as (? & ? & _). by exists a'.
  - intros code p Hp Hu. destruct (ev_pairings _ _ Hev _ _ Hp) as (p' & Hp' & _ & _ & Hused).
    exists p'. split; [done|]. intros now. unfold pairing_usable. by rewrite Hused, bool_decide_true.
  - intros code i Hi Hc. apply bool_decide_eq_true in Hc.
    destruct (ev_inits _ _ Hev _ _ Hi) as (i' & Hi' & _ & _ & _ & Hcl & _).
    destruct (Hcl Hc) as (E1 & E2 & E3 & _ & E5). exists i'. split; [done|].
    unfold Claimed. rewrite E1, bool_decide_true by done. repeat (split; [done|]).
    intros Hf. apply E5. unfold unfetched in Hf. by apply negb_false_iff, bool_decide_eq_true in Hf.
  - intros id h Hh. destruct (ev_harnesses _ _ Hev _ _ Hh) as (h' & Hh' & _ & ? & ? & _). by exists h'.
  - apply (ev_audit _ _ Hev).
Qed.
End System.
