(* ===== verification/ContractFacts.v ===== *)
(** * The sqlite store keeps its contract

    Every call of the store takes effect at one instant between its start and
    its return, whatever the other goroutines do to the database meanwhile, and
    there does what [Contract.v] promises; [store_linearizable] says so of
    every run of the broker. *)

From S2P Require Import Prelude Resume GoText Json Protocol Store Tables World Sqlite Integrity StoreFacts.
From S2P Require Import Sender Hub Posts Core Linear System Contract.

Open Scope Z_scope.
Open Scope prog_scope.

(** The trouble of the database file does not read like a violated UNIQUE
    constraint, which is all [isUniqueViolation] looks at. *)
Class PlainFaults (E : Env) : Prop :=
  plain_fault : forall t msg, db_fault t = Some msg -> Contains msg "UNIQUE constraint failed" = false.

#[export] Instance no_faults_plain `{!NoFaults E} : PlainFaults E.
Proof. intros t msg. by rewrite no_fault. Qed.

(** ** One statement *)

Section Rules.
Context {E : Env} `{!PlainFaults E}.

Abbreviation call P F m w := (atomic_call w_db w_step P F m w).
Abbreviation rest m Q w := (settled w_db w_step m Q w).

Lemma inserted_fault t msg : db_fault t = Some msg -> inserted (SqlErr (SqlFault msg)) = Err (ErrOther msg).
Proof. intros H. unfold inserted, isUniqueViolation. change (sql_text (SqlFault msg)) with msg. by rewrite (plain_fault _ _ H). Qed.

(** A statement, then the result: the point of the call. *)
Lemma call_query {X A} (q : DB -> sres X) (g : sres X -> A) P F w :
  (forall t msg d, db_fault t = Some msg -> P d (g (SqlErr (SqlFault msg))) d) ->
  (forall d, P d (g (q d)) d) -> call P F (r <- query q ;; Ret (g r)) w.
Proof.
  intros Hf Hq. apply atomic_call_point. intros w1 _. cbn.
  destruct (db_fault (w_tick w1)) eqn:Ef; [by eapply Hf | done].
Qed.

Lemma call_exec_at {X A} (s : DB -> sres X * DB) (g : sres X -> A) P F w :
  (forall t msg d, db_fault t = Some msg -> P d (g (SqlErr (SqlFault msg))) d) ->
  (forall w1, w_step w w1 -> P (w_db w1) (g (s (w_db w1)).1) (s (w_db w1)).2) ->
  call P F (r <- exec s ;; Ret (g r)) w.
Proof.
  intros Hf Hq. apply atomic_call_point. intros w1 Hr. cbn.
  destruct (db_fault (w_tick w1)) eqn:Ef; cbn; [by eapply Hf|].
  specialize (Hq w1 Hr). by destruct (s (w_db w1)).
Qed.

Lemma call_exec {X A} (s : DB -> sres X * DB) (g : sres X -> A) P F w :
  (forall t msg d, db_fault t = Some msg -> P d (g (SqlErr (SqlFault msg))) d) ->
  (forall d, P d (g (s d).1) (s d).2) -> call P F (r <- exec s ;; Ret (g r)) w.
Proof. intros Hf Hq. apply call_exec_at; auto. Qed.

(** A statement that is followed by others. *)
Lemma call_query_then {X A} (q : DB -> sres X) (k : sres X -> prog World A) P F w :
  (forall w1 t msg, db_fault t = Some msg -> call P F (k (SqlErr (SqlFault msg))) w1) ->
  (forall w1 w2, w_step w w1 -> w_db w2 = w_db w1 ->
     rest (k (q (w_db w1))) (fun a => P (w_db w1) a (w_db w1)) w2 \/ call P F (k (q (w_db w1))) w2) ->
  call P F (bind (query q) k) w.
Proof.
  intros Hf Hq. apply atomic_call_step. intros w1 Hr. cbn.
  destruct (db_fault (w_tick w1)) eqn:Ef; [right; split; [done | by eapply Hf]|].
  destruct (Hq w1 (bump w1) Hr eq_refl); [by left | by right].
Qed.

Lemma call_exec_then {X A} (s : DB -> sres X * DB) (k : sres X -> prog World A) P F w :
  (forall w1 t msg, db_fault t = Some msg -> call P F (k (SqlErr (SqlFault msg))) w1) ->
  (forall w1 w2, w_step w w1 -> w_db w2 = (s (w_db w1)).2 ->
     rest (k (s (w_db w1)).1) (fun a => P (w_db w1) a (w_db w2)) w2) ->
  call P F (bind (exec s) k) w.
Proof.
  intros Hf Hq. apply atomic_call_step. intros w1 Hr. cbn.
  destruct (db_fault (w_tick w1)) eqn:Ef; cbn; [right; split; [done | by eapply Hf]|].
  specialize (Hq w1). destruct (s (w_db w1)) as [x d] eqn:Es. left. apply (Hq (bump (set_db d w1)) Hr eq_refl).
Qed.

(** A row read again after the point. *)
Lemma rest_query {X A} (q : DB -> sres X) (k : sres X -> prog World A) (Q : A -> Prop) w :
  (forall w1 t msg, db_fault t = Some msg -> rest (k (SqlErr (SqlFault msg))) Q w1) ->
  (forall w1 w2, w_step w w1 -> w_db w2 = w_db w1 -> rest (k (q (w_db w1))) Q w2) ->
  rest (bind (query q) k) Q w.
Proof.
  intros Hf Hq. apply settled_step. intros w1 Hr. cbn. split; [done|].
  destruct (db_fault (w_tick w1)) eqn:Ef; [by eapply Hf | by apply (Hq w1)].
Qed.

Lemma query_bind {X Y A} (q : DB -> sres X) (f : sres X -> Y) (k : Y -> prog World A) :
  bind (r <- query q ;; Ret (f r)) k = bind (query q) (fun r => k (f r)).
Proof. reflexivity. Qed.

Lemma bind_query {X Y A} (q : DB -> sres X) (f : sres X -> prog World Y) (k : Y -> prog World A) :
  bind (bind (query q) f) k = bind (query q) (fun r => bind (f r) k).
Proof. reflexivity. Qed.

Lemma call_time {A} (k : Time -> prog World A) P F w :
  (forall t w1, call P F (k t) w1) -> call P F (bind time_now k) w.
Proof. intros H. apply atomic_call_quiet. intros w1 _. by split; [|apply H]. Qed.
End Rules.

(** ** Reads *)

Section Shapes.
Implicit Types d : DB.

Lemma outcome_fault {E : Env} {A} (c : StoreCall A) d t msg :
  db_fault t = Some msg -> outcome c d (Err (ErrOther msg)) d.
Proof. intros Hf. right. exists t, msg. auto. Qed.
Lemma refused_fault {E : Env} {A} (c : StoreCall A) t msg :
  db_fault t = Some msg -> refused c (Err (ErrOther msg)).
Proof. intros Hf. left. by exists t, msg. Qed.

Lemma read_row {A} (o : option A) d : reads_row o d (scan (sql_row o)) d.
Proof. by destruct o. Qed.

Lemma read_all {A} (P : A -> Prop) before l d :
  (forall a, a ∈ l <-> P a) -> StronglySorted before l -> reads_all P before d (scan (SqlOk l)) d.
Proof. intros Hl Hs. split; [done|]. by exists l. Qed.

Lemma read_least {A} (P : A -> Prop) before l d :
  (forall a, before a a) -> (forall a, a ∈ l <-> P a) -> StronglySorted before l ->
  reads_least P before d (scan (sql_row (head l))) d.
Proof.
  intros Hrefl Hl Hs. split; [done|]. destruct l as [|a l]; cbn.
  - split; [done|]. intros a Ha. by apply Hl, elem_of_nil in Ha.
  - split; [apply Hl; left|]. intros b Hb%Hl. apply elem_of_cons in Hb as [->|Hb]; [done|].
    apply StronglySorted_inv in Hs as [_ Hs]. by eapply Forall_forall in Hs.
Qed.

(** The rows a WHERE clause selects. *)
Lemma elem_of_view {R A} (view : R -> A) (b : R -> bool) (P : R -> Prop) t a :
  (forall r, b r = true <-> P r) -> a ∈ map view (select b t) <-> in_table view P t a.
Proof.
  intros Hb. unfold in_table. rewrite list_elem_of_In, in_map_iff. setoid_rewrite <- list_elem_of_In.
  setoid_rewrite elem_of_select. setoid_rewrite Hb. naive_solver.
Qed.
Lemma elem_of_rows {A} (b : A -> bool) (P : A -> Prop) t a :
  (forall r, b r = true <-> P r) -> a ∈ select b t <-> in_table id P t a.
Proof. intros Hb. rewrite <- (elem_of_view id b P t a Hb). by rewrite map_id. Qed.

Lemma sorted_any {A} (l : list A) : StronglySorted (fun _ _ => True) l.
Proof. induction l; constructor; [done | by apply Forall_true]. Qed.

Lemma exists_row_iff {A} (b : A -> bool) (P : A -> Prop) t :
  (forall r, b r = true <-> P r) -> exists_row b t = true <-> exists k r, t !! k = Some r /\ P r.
Proof. intros Hb. rewrite exists_row_true. by setoid_rewrite Hb. Qed.

Lemma adds_taken (taken refs : Prop) after d col :
  taken -> adds taken refs after d (inserted (SqlErr (SqlUnique col))) d.
Proof. rewrite inserted_unique. by cbn. Qed.
Lemma adds_new (taken refs : Prop) after d :
  ~ taken -> refs -> adds taken refs after d (inserted (SqlOk tt)) after.
Proof. rewrite inserted_ok. by cbn. Qed.
Lemma adds_dangling (taken refs : Prop) after d :
  ~ refs -> adds taken refs after d (inserted (SqlErr SqlForeignKey)) d.
Proof. rewrite inserted_fk. by cbn. Qed.

Lemma set_approvals_id d : set_approvals (t_approvals d) d = d.
Proof. by destruct d. Qed.
Lemma set_inits_id d : set_inits (t_inits d) d = d.
Proof. by destruct d. Qed.
Lemma set_bots_id d : set_bots (t_bots d) d = d.
Proof. by destruct d. Qed.

Lemma all_rows {A} (r : A) : (fun _ => true) r = true <-> True.
Proof. done. Qed.
End Shapes.

(** ** Harnesses, pairings, outbox, installations, audit *)

Section Methods.
Context {E : Env} `{!PlainFaults E}.
Implicit Types d : DB.

Abbreviation keeps c := (forall w, atomic_call w_db w_step (outcome c) (refused c) (store_call c) w).

(** A method of one statement. *)
Ltac faulty := intros ?t ?msg ?d ?Hf; rewrite ?(inserted_fault _ _ Hf); by eapply outcome_fault.
Ltac open_call := intros ?w; cbn [store_call harness_call pairing_call job_call approval_call
  outbox_call bot_call installation_call init_call audit_call].
Tactic Notation "one_query" reference(m) :=
  open_call; unfold m; apply call_query; [faulty | intros ?d; left; cbn].
Tactic Notation "one_exec" reference(m) := open_call; unfold m; apply call_exec; [faulty | intros ?d].

Lemma keeps_harnesses {A} (c : HarnessStore A) : keeps (on_harnesses c).
Proof.
  destruct c as [h|id|hash|user|id seenAt version|id].
  - one_exec CreateHarness. left. unfold insert_harness.
    destruct (bool_decide_reflect (is_Some (t_harnesses d !! hID h))); [apply adds_taken; by left|].
    destruct (exists_row _ _) eqn:Hx; [apply adds_taken; right | apply adds_new; [intros [?|Hk]|]]; try done.
    + by eapply exists_row_iff in Hx; [|intros r; apply String.eqb_eq].
    + eapply exists_row_iff in Hk; [|intros r; apply String.eqb_eq]. congruence.
  - one_query HarnessByID. apply read_row.
  - one_query HarnessByTokenHash. apply read_least; [done| |apply sorted_any].
    intros a. apply elem_of_rows. intros r. apply String.eqb_eq.
  - one_query HarnessesByUser. apply read_all; [|apply order_by_sorted].
    intros a. rewrite elem_of_order_by. apply elem_of_rows. intros r. apply String.eqb_eq.
  - one_exec TouchHarness. left. unfold update_touch, affected_key, update_key. cbn.
    destruct (t_harnesses d !! id) as [h|] eqn:Hh; cbn; [eauto | by destruct d].
  - one_exec DeleteHarness. unfold delete_harness. destruct (t_harnesses d !! id) as [h|] eqn:Hh; cbn; [|by left].
    left. destruct (exists_row _ (t_jobs d)) eqn:Hj; cbn.
    { split; [done|]. split; [done|]. left. by eapply exists_row_iff in Hj; [|intros r; apply String.eqb_eq]. }
    destruct (exists_row _ (t_bots d)) eqn:Hb; cbn.
    { split; [done|]. split; [done|]. right. by eapply exists_row_iff in Hb; [|intros r; apply bool_decide_eq_true]. }
    rewrite Hh.
    split; [eauto|]. split; [|split; [|done]].
    + intros k j Hk. pose proof (proj1 (exists_row_false _ _) Hj k j Hk). by apply String.eqb_neq.
    + intros k b Hk. pose proof (proj1 (exists_row_false _ _) Hb k b Hk). by apply bool_decide_eq_false in H.
Qed.

(** [scan] of a row that no statement found. *)
Ltac by_key t k r Hr := destruct (t !! k) as [r|] eqn:Hr; cbn.

Lemma keeps_pairings {A} (c : PairingStore A) : keeps (on_pairings c).
Proof.
  destruct c as [code user expiresAt|code now].
  - one_exec CreatePairing. left. unfold insert_pairing. case_bool_decide; [by apply adds_taken | by apply adds_new].
  - one_exec ConsumePairing. left. unfold update_consume. by_key (t_pairings d) code p Hp.
    2: { split; [done|]. split; [done|]. by rewrite Hp. }
    destruct (pairing_usable now p) eqn:Hu; cbn.
    + apply pairing_usable_spec in Hu as [Hn Ht]. eauto 10.
    + split; [done|]. split; [done|]. intros p' [= <-]%(eq_trans (eq_sym Hp)).
      destruct (gUsedAt p) eqn:Hn; [left; eauto|right]. apply Z.nlt_ge. intros Ht.
      by rewrite (proj2 (pairing_usable_spec now p)) in Hu.
Qed.

Lemma update_ack_alter id at_ t :
  update_key unacked (ack_row at_) id t = alter (fun m => if mAckedAt m then m else ack_row at_ m) id t.
Proof.
  apply map_eq. intros k. rewrite lookup_update_key. destruct (decide (k = id)) as [->|Hk].
  - rewrite lookup_alter_eq. destruct (t !! id) as [m|]; cbn; [|done]. unfold unacked. by destruct (mAckedAt m).
  - by rewrite lookup_alter_ne.
Qed.

Lemma length_filter_perm {A} (P : A -> bool) l l' : l ≡ₚ l' -> length (List.filter P l) = length (List.filter P l').
Proof. induction 1; cbn; repeat case_match; cbn; congruence. Qed.

Lemma length_select_insert {A} (P : A -> bool) (t : gmap string A) k x :
  t !! k = None -> length (select P (<[k := x]> t)) = ((if P x then 1 else 0) + length (select P t))%nat.
Proof.
  intros Hk. unfold select.
  rewrite (length_filter_perm P _ (x :: (map_to_list t).*2)) by (by rewrite map_to_list_insert).
  cbn. by destruct (P x).
Qed.

(** A row is selected or it is kept. *)
Lemma select_and_rest {A} (P : A -> bool) (t : gmap string A) :
  (length (select P t) + size (filter (fun kv => P kv.2 = false) t) = size t)%nat.
Proof.
  induction t as [|k x t Hk IH] using map_ind; [done|]. rewrite length_select_insert, map_size_insert_None by done.
  rewrite map_filter_insert. cbn. destruct (P x); cbn.
  - rewrite decide_False by done. rewrite delete_id by done. lia.
  - rewrite decide_True by done. rewrite map_size_insert_None; [lia|].
    apply map_lookup_filter_None_2. by left.
Qed.

Lemma purge_spec t d n d' :
  delete_purged t d = (SqlOk n, d') -> contract (on_outbox (call_PurgeOutbox t)) d (Ok n) d'.
Proof.
  unfold delete_purged. intros [= <- <-]. cbn. eexists. split; [done|]. split; [|split; [|by destruct d]].
  - intros k m. rewrite map_lookup_filter_Some. cbn. unfold acked_before.
    destruct (mAckedAt m) as [a|]; [rewrite Z.ltb_ge|]; naive_solver.
  - unfold affected. rewrite <- Nat2Z.inj_add. f_equal. apply (select_and_rest (acked_before t)).
Qed.

Lemma keeps_outbox {A} (c : OutboxStore A) : keeps (on_outbox c).
Proof.
  destruct c as [m|harness|id at_|t].
  - one_exec Enqueue. left. unfold insert_outbox. case_bool_decide; [by apply adds_taken | by apply adds_new].
  - one_query PendingOutbox. apply read_all; [|apply order_by_id_sorted].
    intros a. rewrite elem_of_order_by_id. apply elem_of_rows. intros r.
    rewrite andb_true_iff, String.eqb_eq. unfold unacked. destruct (mAckedAt r); cbn; naive_solver.
  - one_exec AckOutbox. left. cbn. by rewrite update_ack_alter.
  - one_exec PurgeOutbox. left. destruct (delete_purged t d) as [[n|e] d'] eqn:Hp; [|done].
    by apply purge_spec.
Qed.

#[local] Instance text_le_trans {B} (f : B -> string) : Transitive (text_le f).
Proof. intros x y z. unfold text_le. intros. by trans (f y). Qed.
#[local] Instance text_le_total {B} (f : B -> string) : Total (text_le f).
Proof. intros x y. unfold text_le. apply total, _. Qed.

Lemma keeps_installations {A} (c : InstallationStore A) : keeps (on_installations c).
Proof.
  destruct c as [i|team|].
  - one_exec SaveInstallation. by left.
  - one_query InstallationByTeam. apply read_row.
  - one_query ListInstallations. apply read_all.
    + intros a. unfold order_by_text. rewrite merge_sort_Permutation. by apply elem_of_rows.
    + apply (StronglySorted_merge_sort _).
Qed.

Lemma keeps_audit {A} (c : AuditStore A) : keeps (on_audit c).
Proof.
  destruct c as [e]. open_call. unfold Append.
  assert (forall at_ w, (eAt e <> zero_time -> at_ = eAt e) ->
    atomic_call w_db w_step (outcome (on_audit (call_Append e))) (refused (on_audit (call_Append e)))
      (r <- exec (insert_audit (MkAuditEntry at_ (eActor e) (eAction e) (eJobID e) (eDetails e))) ;;
       Ret (passed r)) w) as H.
  { intros at_ w0 Ha. apply call_exec; [faulty|]. intros d. left. cbn. eauto. }
  destruct (Z.eqb_spec (eAt e) zero_time) as [Hz|Hz]; [|by apply H].
  apply call_time. intros t w1. by apply H.
Qed.

(** ** Jobs and approvals *)

Lemma newest_jobs f P n :
  (forall j, job_matches f j = true <-> P j) -> n = effective_limit (fLimit f) ->
  forall d, lists_newest P n d (scan (select_jobs f d)) d.
Proof.
  intros HP -> d. split; [done|]. eexists. split; [done|].
  set (l := order_by _ _).
  assert (forall j, j ∈ l <-> in_table id P (t_jobs d) j) as Hl.
  { intros j. unfold l. rewrite elem_of_order_by. by apply elem_of_rows. }
  assert (0 < effective_limit (fLimit f)) as Hpos.
  { unfold effective_limit. destruct (Z.leb_spec (fLimit f) 0); lia. }
  split; [|split; [|split]].
  - intros j Hj. apply Hl. by eapply elem_of_take_sub.
  - apply sorted_take. eapply sorted_impl; [|apply order_by_sorted]. unfold key_le. intros; lia.
  - rewrite length_take. lia.
  - rewrite length_take. intros Hn j Hj%Hl. by rewrite take_ge by lia.
Qed.

Lemma active_matches harness j : harness <> "" ->
  job_matches (MkJobFilter "" "" "" harness "" ActiveStates 1000) j = true
  <-> jHarnessID j = harness /\ Terminal (jState j) = false.
Proof.
  intros Hn. unfold job_matches, column_matches. cbn -[ActiveStates].
  rewrite (proj2 (String.eqb_neq harness "")) by done. cbn -[ActiveStates].
  rewrite andb_true_r, andb_true_iff, String.eqb_eq. unfold ActiveStates.
  destruct (jState j); (rewrite bool_decide_true by set_solver) || (rewrite bool_decide_false by set_solver); naive_solver.
Qed.

(** A compare-and-set that read its row again. *)
Lemma keeps_TransitionJob id from to p : keeps (on_jobs (call_TransitionJob id from to p)).
Proof.
  open_call. unfold TransitionJob. destruct from as [|s from]; [by right|].
  set (fr := s :: from). cbn [is_empty_list]. apply call_time. intros now w1.
  apply call_exec_then; [intros w2 t msg Hf; by eapply refused_fault|].
  intros w2 w3 _ Hdb. unfold update_transition in *. cbn in Hdb |- *.
  destruct (update_key_cases (in_states fr) (transition_row to p now) id (t_jobs (w_db w2)))
    as [(Hk & Ha & Hu)|[(j & Hk & HP & Ha & Hu)|(j & Hk & HP & Ha & Hu)]]; rewrite Ha; cbn;
    rewrite Hu in Hdb; rewrite ?set_jobs_id in Hdb; unfold JobByID; rewrite ?query_bind, Hdb.
  1,2: apply rest_query; [intros w4 t msg Hf; by eapply outcome_fault|]; intros w4 w5 [_ Hev] _;
    unfold select_job; rewrite scan_sql_row.
  - destruct (t_jobs (w_db w4) !! id) as [j'|] eqn:Hj'; cbn; left; cbn; [|done]. split; [done|].
    intros j. by rewrite Hk.
  - rewrite Hdb in Hev. destruct (ev_jobs _ _ Hev _ _ Hk) as (j' & -> & _). left. cbn. split; [done|].
    rewrite Hk. intros ? [= <-]. unfold in_states in HP. by apply bool_decide_eq_false in HP.
  - assert (jState j ∈ fr) as Hin by by apply bool_decide_eq_true in HP.
    apply rest_query.
    + intros w4 t msg Hf. right. exists t, msg. split; [done|]. split; [done|]. right. split; [done|].
      exists (transition_row to p now j), j, now. split_and!; [done..|reflexivity].
    + intros w4 w5 [_ Hev] _. rewrite Hdb in Hev. cbn in Hev. unfold select_job. rewrite scan_sql_row.
      destruct (ev_jobs _ _ Hev id (transition_row to p now j)) as (j' & -> & Hle); [apply lookup_insert_eq|].
      left. cbn. eauto 10.
Qed.

Lemma progress_spec id seq now d r d' :
  update_progress id seq now d = (r, d') ->
  contract (on_jobs (call_RecordProgress id seq)) d (res_map (fun n => n =? 1) (passed r)) d'.
Proof.
  unfold update_progress. intros [= <- <-].
  destruct (update_key_cases (accepts_progress seq) (progress_row seq now) id (t_jobs d))
    as [(Hk & Ha & Hu)|[(j & Hk & HP & Ha & Hu)|(j & Hk & HP & Ha & Hu)]]; rewrite Ha, Hu, ?set_jobs_id; cbn.
  - split; [done|]. by rewrite Hk.
  - split; [done|]. rewrite Hk. intros ? [= <-]. unfold accepts_progress, in_states in HP.
    apply andb_false_iff in HP as [HP|HP]; [left; by apply Z.ltb_ge | right; by apply bool_decide_eq_false in HP].
  - apply andb_true_iff in HP as [Hl Hs]. apply Z.ltb_lt in Hl. apply bool_decide_eq_true in Hs. eauto 10.
Qed.

Lemma keeps_jobs {A} (c : JobStore A) : keeps (on_jobs c).
Proof.
  destruct c as [j|id|f|harness|id from to p|id seq|now].
  - one_exec CreateJob. unfold insert_job.
    destruct (bool_decide_reflect (is_Some (t_jobs d !! jID j))); [left; apply adds_taken; by left|].
    destruct (exists_row _ _) eqn:Hx; [left; apply adds_taken; right; by apply exists_row_true|].
    left. case_bool_decide; [apply adds_new; [|done]|by apply adds_dangling].
    intros [?|Hk]; [done|]. apply exists_row_true in Hk. congruence.
  - one_query JobByID. apply read_row.
  - one_query ListJobs. by apply newest_jobs.
  - open_call. unfold ActiveJobsByHarness, ListJobs. apply call_query; [faulty|]. intros d. left. cbn [contract job_contract].
    intros Hn. apply newest_jobs; [|done]. intros j. by apply active_matches.
  - apply keeps_TransitionJob.
  - open_call. unfold RecordProgress. apply call_time. intros now w1. apply call_exec; [faulty|].
    intros d. left. destruct (update_progress id seq now d) eqn:Hp. by eapply progress_spec.
  - one_exec ExpireQueuedJobs. left. cbn. eexists. split; [done|]. split; [|split; [|by destruct d]].
    + intros j'. by apply elem_of_view.
    + intros k. apply lookup_update_where.
Qed.

Lemma keeps_DecideApproval id dec by_ at_ : keeps (on_approvals (call_DecideApproval id dec by_ at_)).
Proof.
  open_call. unfold DecideApproval. apply call_exec_then; [intros w2 t msg Hf; by eapply refused_fault|].
  intros w2 w3 _ Hdb. unfold update_decide in *. cbn in Hdb |- *.
  destruct (update_key_cases (decidable_at at_) (decide_row dec by_ at_) id (t_approvals (w_db w2)))
    as [(Hk & Ha & Hu)|[(a & Hk & HP & Ha & Hu)|(a & Hk & HP & Ha & Hu)]]; rewrite Ha; cbn;
    rewrite Hu in Hdb; rewrite ?set_approvals_id in Hdb; unfold ApprovalByID; rewrite ?query_bind, Hdb.
  1,2: apply rest_query; [intros w4 t msg Hf; by eapply outcome_fault|]; intros w4 w5 [_ Hev] _;
    unfold select_approval; rewrite scan_sql_row.
  - destruct (t_approvals (w_db w4) !! id) as [a'|] eqn:Ha'; cbn; left; cbn; [|done]. split; [done|].
    intros a. by rewrite Hk.
  - rewrite Hdb in Hev. destruct (ev_approvals _ _ Hev _ _ Hk) as (a' & -> & _). left. cbn. split; [done|].
    rewrite Hk. intros ? [= <-]. destruct (ar_decision a) eqn:Hd; [left; eauto|right].
    apply Z.nlt_ge. intros Ht. by rewrite (proj2 (decidable_at_spec at_ a)) in HP.
  - apply decidable_at_spec in HP as [Hd Ht]. apply rest_query.
    + intros w4 t msg Hf. right. exists t, msg. split; [done|]. split; [done|]. right. split; [done|].
      exists (scanApproval (decide_row dec by_ at_ a)), a, (decide_row dec by_ at_ a). split_and!; [done..|reflexivity|done].
    + intros w4 w5 [_ Hev] _. rewrite Hdb in Hev. cbn in Hev. unfold select_approval. rewrite scan_sql_row.
      destruct (ev_approvals _ _ Hev id (decide_row dec by_ at_ a)) as (a' & -> & Hle); [apply lookup_insert_eq|].
      left. cbn. eauto 10.
Qed.

Lemma keeps_approvals {A} (c : ApprovalStore A) : keeps (on_approvals c).
Proof.
  destruct c as [a|id|job|id dec by_ at_].
  - one_exec CreateApproval. unfold insert_approval. case_bool_decide; [left; by apply adds_taken|].
    left. case_bool_decide; [by apply adds_new | by apply adds_dangling].
  - one_query ApprovalByID. apply read_row.
  - one_query PendingApprovalsByJob. apply read_all; [|apply order_by_sorted].
    intros a. rewrite elem_of_order_by. apply elem_of_view. intros r.
    rewrite andb_true_iff, String.eqb_eq. unfold undecided. destruct (ar_decision r); cbn; naive_solver.
  - apply keeps_DecideApproval.
Qed.

(** ** Bots *)

(** The check that comes before a bot is written. *)
Lemma call_check {A} b (k : prog World (res A)) (P : DB -> res A -> DB -> Prop) F w :
  (forall t msg, db_fault t = Some msg -> F (Err (ErrOther msg))) ->
  (forall d, no_harness b d -> P d (Err ErrNotFound) d) ->
  (forall d, foreign_harness b d -> P d (Err ErrConflict) d) ->
  (forall w1, (forall w2, w_step w1 w2 -> own_harness b (w_db w2)) -> atomic_call w_db w_step P F k w1) ->
  atomic_call w_db w_step P F (c <- checkBotHarness b ;; match c with Err e => Ret (Err e) | Ok _ => k end) w.
Proof.
  intros HF Hno Hforeign Hk. unfold checkBotHarness. destruct (String.eqb_spec (bHarnessID b) "") as [He|Hne].
  { apply Hk. intros w2 _. by left. }
  unfold HarnessByID. rewrite query_bind, bind_query. apply call_query_then; [intros w1 t msg Hf; by eapply HF|].
  intros w1 w2 _ Hdb. unfold select_harness. rewrite scan_sql_row.
  destruct (t_harnesses (w_db w1) !! bHarnessID b) as [h|] eqn:Hh; cbn -[atomic_call settled].
  2: { left. by apply Hno. }
  destruct (String.eqb_spec (hMMUserID h) (bMMUserID b)) as [Ho|Ho]; [right|left].
  - apply Hk. intros w3 [_ Hev]. right. rewrite Hdb in Hev.
    destruct (ev_harnesses _ _ Hev _ _ Hh) as (h' & Hh' & _ & Eo & _). exists h'. split; [done|]. by rewrite Eo.
  - apply Hforeign. split; [done|]. by exists h.
Qed.

Lemma own_harness_exists b d : own_harness b d -> harness_exists (nullString (bHarnessID b)) d = true.
Proof.
  unfold own_harness, harness_exists, nullString. intros [->|(h & Hh & _)]; [done|].
  destruct (String.eqb (bHarnessID b) ""); [done|]. apply bool_decide_true. by rewrite Hh.
Qed.

Lemma insert_bot_spec b d :
  own_harness b d -> outcome (on_bots (call_CreateBot b)) d (inserted (insert_bot b d).1) (insert_bot b d).2.
Proof.
  intros Hown. unfold insert_bot.
  destruct (bool_decide_reflect (is_Some (t_bots d !! bUserID b))).
  { left. cbn. rewrite inserted_unique. auto. }
  destruct (exists_row _ _) eqn:Hx; cbn.
  { left. rewrite inserted_unique. split; [|done]. left. right.
    by eapply exists_row_iff in Hx; [|intros r; apply String.eqb_eq]. }
  rewrite (own_harness_exists b d Hown). left. cbn. rewrite inserted_ok.
  split; [|done]. intros [?|Hk]; [done|]. eapply exists_row_iff in Hk; [|intros r; apply String.eqb_eq]. congruence.
Qed.

Lemma rebindable_spec b o :
  rebindable b o = true <->
  bMMUserID (br_bot o) = bMMUserID b /\ (br_harness_id o = None \/ br_harness_id o = Some (bHarnessID b)).
Proof.
  unfold rebindable. rewrite andb_true_iff, String.eqb_eq. destruct (br_harness_id o) as [h|]; [|naive_solver].
  rewrite String.eqb_eq. naive_solver.
Qed.

Lemma update_bot_spec b d :
  own_harness b d ->
  outcome (on_bots (call_UpdateBot b)) d
    (match (update_bot b d).1 with
     | SqlErr e => Err (ErrOther (sql_text e))
     | SqlOk n => if n =? 1 then Ok tt else Err ErrConflict
     end) (update_bot b d).2.
Proof.
  intros Hown. unfold update_bot.
  rewrite (own_harness_exists b d Hown), andb_false_r. cbn [fst snd].
  destruct (update_key_cases (rebindable b) (rebound_row b) (bUserID b) (t_bots d))
    as [(Hk & Ha & Hu)|[(o & Hk & HP & Ha & Hu)|(o & Hk & HP & Ha & Hu)]];
    rewrite Ha, Hu, ?set_bots_id; left; cbn.
  - split; [|done]. right. by rewrite Hk.
  - split; [|done]. right. rewrite Hk. intros ? [= <-] Ho. destruct (br_harness_id o) as [h|] eqn:Hh.
    + exists h. split; [done|]. intros ->. by rewrite (proj2 (rebindable_spec b o)) in HP; [|auto].
    + by rewrite (proj2 (rebindable_spec b o)) in HP; [|auto].
  - apply rebindable_spec in HP as [Ho Hb]. eauto 10.
Qed.

Lemma keeps_bots {A} (c : BotStore A) : keeps (on_bots c).
Proof.
  destruct c as [b|owner|id| |owner|name|b|id].
  - open_call. unfold CreateBot. apply call_check; [intros t msg Hf; by eapply refused_fault|by left; cbn|by left; cbn; auto|].
    intros w1 Hown. apply call_exec_at; [faulty|]. intros w2 Hr. by apply insert_bot_spec, Hown.
  - one_query BotByOwner. apply read_least; [| |apply order_by_id_sorted].
    + intros a. right. split; [done|]. reflexivity.
    + intros a. rewrite elem_of_order_by_id. apply elem_of_view. intros r. apply String.eqb_eq.
  - one_query BotByUserID. apply read_row.
  - one_query ListBots. apply read_all; [|apply order_by_sorted].
    intros a. rewrite elem_of_order_by. by apply elem_of_view.
  - one_query BotsByOwner. apply read_all; [|apply order_by_id_sorted].
    intros a. rewrite elem_of_order_by_id. apply elem_of_view. intros r. apply String.eqb_eq.
  - one_query BotByUsername. apply read_least; [done| |apply sorted_any].
    intros a. apply elem_of_view. intros r. apply String.eqb_eq.
  - open_call. unfold UpdateBot. apply call_check; [intros t msg Hf; by eapply refused_fault|by left; cbn|by left; cbn; auto|].
    intros w1 Hown. apply call_exec_at; [faulty|]. intros w2 Hr. by apply update_bot_spec, Hown.
  - one_exec DeleteBot. left. unfold delete_bot, affected_key. cbn.
    destruct (t_bots d !! id) as [b|] eqn:Hb; cbn; [by eauto|]. rewrite delete_id by done. by rewrite set_bots_id.
Qed.

(** ** Init requests *)

Lemma claimable_no now i : claimable now i = false -> Claimed i = true \/ ms (iExpiresAt i) <= ms now.
Proof.
  unfold claimable. rewrite andb_false_iff, negb_false_iff, Z.ltb_ge. done.
Qed.

Lemma keeps_ClaimInit code now harness token : keeps (on_inits (call_ClaimInit code now harness token)).
Proof.
  open_call. unfold ClaimInit. apply call_exec_then; [intros w2 t msg Hf; by eapply refused_fault|].
  intros w2 w3 _ Hdb. unfold update_claim in *. cbn in Hdb |- *.
  destruct (update_key_cases (claimable now) (fun r => claim_row now harness token (iBotUserID r) r) code (t_inits (w_db w2)))
    as [(Hk & Ha & Hu)|[(i & Hk & HP & Ha & Hu)|(i & Hk & HP & Ha & Hu)]]; rewrite Ha; cbn;
    rewrite Hu in Hdb; rewrite ?set_inits_id in Hdb; rewrite Hdb.
  3: { left. cbn. apply andb_true_iff in HP as [Hc Ht]. apply negb_true_iff in Hc. apply Z.ltb_lt in Ht. eauto 10. }
  all: assert (forall e, e = ErrNotFound \/ e = ErrConflict ->
    outcome (on_inits (call_ClaimInit code now harness token)) (w_db w2) (Err e) (w_db w2)) as Hout
    by (intros e He; left; cbn; split; [done|]; split; [done|]; rewrite Hk; [done || by intros ? [= <-]; apply claimable_no]).
  all: unfold InitByCode; rewrite query_bind; apply rest_query; [intros w4 t msg _; by apply Hout; left|].
  all: intros w4 w5 _ _; unfold select_init; rewrite scan_sql_row; destruct (t_inits (w_db w4) !! code) as [i'|];
    cbn; [destruct (iExpiresAt i' <=? now)|]; apply Hout; auto.
Qed.

Lemma fetched_result code now i i2 d :
  init_le i i2 -> Claimed i = true -> unfetched i2 = true -> now < iExpiresAt i -> t_inits d !! code = Some i2 ->
  contract (on_inits (call_FetchInit code now)) d
    (Ok (MkInitRequest (iCodeHash i) (iBotName i) (iHarnessName i) (iCreatedAt i)
           (iExpiresAt i) (iClaimedAt i) (iHarnessID i) (iHarnessToken i) (Some now)
           (iBotUserID i) (iPollTokenHash i)))
    (set_inits (<[code := fetch_row now i2]> (t_inits d)) d).
Proof.
  intros (_ & Hexp & Hpoll & Hcl & _) Hc Hf Ht Hk. apply bool_decide_eq_true in Hc.
  destruct (Hcl Hc) as (E1 & E2 & E3 & E4 & _). cbn. exists i2. unfold Claimed. cbn. rewrite E1, Hexp.
  rewrite bool_decide_true by done. repeat split; try done.
  destruct E4 as [E4|E4]; [done|]. unfold unfetched in Hf. by rewrite bool_decide_true in Hf.
Qed.

Lemma keeps_FetchInit code now : keeps (on_inits (call_FetchInit code now)).
Proof.
  open_call. unfold FetchInit, InitByCode. rewrite query_bind. apply call_query_then; [intros w2 t msg Hf; by eapply refused_fault|].
  intros w1 w2 _ Hdb. unfold select_init. rewrite scan_sql_row.
  destruct (t_inits (w_db w1) !! code) as [i|] eqn:Hi; cbn -[atomic_call settled].
  2: { left. left. cbn. by rewrite Hi. }
  unfold fetch_read. destruct (Z.ltb_spec now (iExpiresAt i)) as [Ht|Ht]; cbn -[atomic_call settled].
  2: { left. left. cbn. split; [done|]. split; [done|]. rewrite Hi. by intros ? [= <-]. }
  destruct (Claimed i) eqn:Hc; cbn -[atomic_call settled].
  2: { left. left. cbn. exists i. rewrite Hc. auto 20. }
  right. apply call_exec_then; [intros w3 t msg Hf; by eapply refused_fault|]. intros w3 w4 [_ Hev] Hdb4.
  rewrite Hdb in Hev. destruct (ev_inits _ _ Hev _ _ Hi) as (i2 & Hi2 & Hle).
  unfold update_fetch in *. cbn in Hdb4 |- *.
  destruct (update_key_cases unfetched (fetch_row now) code (t_inits (w_db w3)))
    as [(Hk & _)|[(i' & Hk & HP & Ha & Hu)|(i' & Hk & HP & Ha & Hu)]]; [congruence|..];
    rewrite Ha; cbn; rewrite Hu in Hdb4; rewrite ?set_inits_id in Hdb4; rewrite Hdb4; left; simplify_eq.
  - cbn. split; [done|]. exists i2. split; [done|]. split; [|done].
    destruct Hle as (_ & _ & _ & Hcl & _). apply bool_decide_eq_true in Hc. apply bool_decide_eq_true.
    by destruct (Hcl Hc) as [-> _].
  - by apply fetched_result.
Qed.

Lemma complete_init_spec code now h bot token d :
  outcome (on_inits (call_CompleteInit code now h bot token)) d
    (complete_init_tx code now h bot token d).1 (complete_init_tx code now h bot token d).2.
Proof.
  unfold complete_init_tx. by_key (t_inits d) code i Hi.
  2: { left. cbn. split; [done|]. split; [done|]. right. by rewrite Hi. }
  destruct (Z.ltb_spec now (iExpiresAt i)); cbn.
  2: { left. cbn. split; [done|]. split; [done|]. right. rewrite Hi. by intros ? [= <-]. }
  destruct (Claimed i) eqn:Hc; cbn; [left; cbn; split; [done|]; left; eauto|].
  by_key (t_bots d) bot b Hb; [|left; cbn; auto].
  destruct (String.eqb_spec (bMMUserID (br_bot b)) (hMMUserID h)) as [Ho|Ho]; cbn.
  2: { left. cbn. split; [done|]. right; left. eauto. }
  case_bool_decide as Hh; cbn; [left; cbn; split; [done|]; right; left; eauto|].
  unfold insert_harness. case_bool_decide as Hid; cbn.
  { left. cbn. split; [done|]. right; right. by left. }
  destruct (exists_row _ _) eqn:Hx; cbn.
  { left. cbn. split; [done|]. right; right; right. by eapply exists_row_iff in Hx; [|intros r; apply String.eqb_eq]. }
  left. cbn. exists i, b. apply eq_None_not_Some in Hh, Hid. auto 20.
Qed.

Lemma keeps_inits {A} (c : InitStore A) : keeps (on_inits c).
Proof.
  destruct c as [r|code|code now harness token|code now|harness|code now h bot token].
  - one_exec CreateInit. left. unfold insert_init. case_bool_decide; [by apply adds_taken | by apply adds_new].
  - one_query InitByCode. apply read_row.
  - apply keeps_ClaimInit.
  - apply keeps_FetchInit.
  - one_query InitByHarness. apply read_least; [done| |].
    + intros a. rewrite elem_of_order_by. apply elem_of_rows. intros r. apply String.eqb_eq.
    + eapply sorted_impl; [|apply order_by_sorted]. unfold key_le. intros; lia.
  - open_call. unfold CompleteInit.
    assert (forall d, (let '(r, d') := complete_init_tx code now h bot token d in (SqlOk r, d'))
      = (SqlOk (complete_init_tx code now h bot token d).1, (complete_init_tx code now h bot token d).2)) as E0
      by (intros d; by destruct (complete_init_tx code now h bot token d)).
    apply call_exec; [faulty|]. intros d. rewrite E0. cbn [fst snd]. apply complete_init_spec.
Qed.

(** ** All calls *)

Lemma store_call_keeps {A} (c : StoreCall A) : keeps c.
Proof.
  destruct c; auto using keeps_harnesses, keeps_pairings, keeps_jobs, keeps_approvals, keeps_outbox,
    keeps_bots, keeps_inits, keeps_audit, keeps_installations.
Qed.
End Methods.

(** ** In the running broker *)

Section Broker.
Context {E : Env} {C : Config} (cfg : HubConfig) `{!PlainFaults E}.

(** C9. The store is linearizable.  Take any point of any run of the broker
    where a thread is about to make a call of the store, and any
    continuation of the run, with its steps [l].  Until the call returns, at
    most one of its own steps changes the database.  When it has returned [r],
    either one of its own steps since the start took the database from [d] to
    [d'] and none of its other steps changed anything, and of [d], [r] and [d']
    the contract of the interface holds, or [r] is a fault of the database file
    and [d'] is [d] (or, for [TransitionJob] and
    [DecideApproval], which read their row again, the change is made and reading
    it back failed); or it failed in that way, or was refused for its arguments,
    without such a step. *)
Theorem store_linearizable {A} w0 c1 i (c : StoreCall A) (k : res A -> prog World unit) l c2 :
  reach (broker_entry cfg) ([], w0) c1 ->
  c1.1 !! i = Some (r <- store_call c ;; k r) ->
  lrun (broker_entry cfg) c1 l c2 ->
  call_in_run w_db (broker_entry cfg) i (store_call c) k l c1 c2 (fun h m _ =>
    at_most_one h /\ forall r, m = Ret r -> at_one_point (outcome c) (refused c) h r).
Proof.
  intros H1 Hi Hr.
  destruct (pool_guarantee (broker_entry cfg) w_step ([], w0) c1 (entry_steps cfg)) as [Hall _];
    [constructor | done|].
  eapply (pool_linear w_db w_step); [apply entry_steps | done | done | apply store_call_keeps | done].
Qed.
End Broker.
