(* ===== verification/Tokens.v ===== *)
(** * The token a paired machine is given works

    A claimed init request holds the token of the harness that was made with
    it, in every interleaving; so what a poll hands out authenticates its
    machine from then on. *)

From S2P Require Import Prelude Resume GoText Codec Json Protocol Store Tables World Sqlite Integrity StoreFacts CoreText Sender Hub HubFacts Posts Core CoreGuards Onboarding OnboardingFacts System.

Open Scope Z_scope.
Open Scope prog_scope.

(** Every token that waits to be fetched is that of its harness. *)
Definition tokens_backed (d : DB) : Prop :=
  forall code r, t_inits d !! code = Some r -> holds_token r -> token_backed d r.

Lemma backed_evolves d d' : db_evolves d d' -> tokens_backed d -> tokens_backed d'.
Proof.
  intros He Hb code r Hr Ht. destruct (ev_tokens _ _ He _ _ Hr Ht) as [Hr'|]; [|done].
  eapply token_backed_grows; [apply He|]. by eapply Hb.
Qed.

Section Tokens.
Context {E : Env} {C : Config} (cfg : HubConfig).

Lemma bearer token :
  HasPrefix ("Bearer " +:+ token) "Bearer " = true /\ TrimPrefix ("Bearer " +:+ token) "Bearer " = token.
Proof.
  assert (HasPrefix ("Bearer " +:+ token) "Bearer " = true) as H by (vm_compute; by destruct token).
  split; [done|]. unfold TrimPrefix. rewrite H. unfold drop_bytes. cbn. apply str_of_bytes_of.
Qed.

(** The hub finds the one harness with the token's hash. *)
Lemma authenticates `{!NoFaults E} token w k h :
  db_wf (w_db w) -> t_harnesses (w_db w) !! k = Some h -> hTokenHash h = tokenHash token ->
  wp (authenticate ("Bearer " +:+ token)) (fun a _ => a = Ok h) w.
Proof.
  intros Hwf Hh Ht. unfold authenticate. destruct (bearer token) as [-> ->]. cbn [negb].
  unfold HarnessByTokenHash. wp_steps. cbn. unfold select_harness_by_hash.
  assert (forall x, x ∈ select (fun h => String.eqb (hTokenHash h) (TokenHash token)) (t_harnesses (w_db w)) <-> x = h) as Hall.
  { intros x. rewrite elem_of_select, String.eqb_eq. split.
    - intros [Hx [id Hid]]. assert (id = k) as ->; [|congruence].
      apply (wf_token _ Hwf id k x h Hid Hh). apply String.eqb_eq. rewrite Ht. symmetry. exact Hx.
    - intros ->. split; [exact Ht|by exists k]. }
  destruct (select _ (t_harnesses (w_db w))) as [|x l] eqn:Hs.
  - exfalso. apply (elem_of_nil h), Hall. done.
  - cbn. wp_steps. f_equal. apply Hall. left.
Qed.

(** What a poll hands out, and of which request. *)
Lemma wp_PollInit_ok `{!NoFaults E} code pollToken w :
  wp (PollInit code pollToken) (fun r w' => forall x, r = Ok x ->
    exists i h, t_inits (w_db w) !! hashCode code = Some i /\ poll_authentic pollToken i = true /\ holds_token i
      /\ t_harnesses (w_db w) !! iHarnessID i = Some h
      /\ ir_HarnessID x = hID h /\ ir_Token x = iHarnessToken i /\ ir_MMUserID x = hMMUserID h) w.
Proof.
  unfold PollInit. rewrite wp_bind, wp_InitByCode.
  destruct (t_inits (w_db w) !! hashCode code) as [i|] eqn:Hi; cbn [found]; [|by rewrite wp_ret].
  destruct (poll_authentic pollToken i) eqn:Ha; cbn [negb]; [|by rewrite wp_ret].
  rewrite wp_bind, wp_time_now, wp_bind. unfold FetchInit. rewrite wp_bind, wp_InitByCode.
  cbn [w_db bump set_tick found]. rewrite Hi. cbn [found].
  apply wp_fetch_read; cbn [w_db bump set_tick].
  - intros _ Hc. rewrite Hi. destruct (unfetched i) eqn:Hf; [|intros w' _; by rewrite wp_ret].
    intros w' i' Hd Htok Hh Hc'. rewrite Hc'. cbn [negb]. rewrite wp_bind, wp_HarnessByID, Hd, Hh. cbn.
    destruct (t_harnesses (w_db w) !! iHarnessID i) as [h|] eqn:Hk; cbn [found]; [|by rewrite wp_ret].
    rewrite wp_bind. apply wp_init_names. intros [u b] w2 _. rewrite wp_ret. intros x [= <-].
    exists i, h. cbn. by repeat split.
  - intros _ Hc. rewrite Hc. cbn [negb]. by rewrite wp_ret.
  - intros _. by rewrite wp_ret.
Qed.

(** In every state that any interleaving of the broker can reach: when a poll
    with the laptop's secret hands out a result, its token authenticates a
    connection, in every later state, whatever ran in between, as the harness that
    the result names, of the user that it names. *)
Lemma paired_machine_authenticates `{!NoFaults E} w0 ps w code pollToken :
  db_wf (w_db w0) -> tokens_backed (w_db w0) -> reach (broker_entry cfg) ([], w0) (ps, w) ->
  wp (PollInit code pollToken) (fun r w1 => forall x c2, r = Ok x -> reach (broker_entry cfg) (ps, w1) c2 ->
    wp (authenticate ("Bearer " +:+ ir_Token x)) (fun a _ => exists h, a = Ok h
      /\ hID h = ir_HarnessID x /\ hMMUserID h = ir_MMUserID x) c2.2) w.
Proof.
  intros Hwf Hb Hr. destruct (pool_guarantee (broker_entry cfg) w_step ([], w0) (ps, w) (entry_steps cfg)) as [Hall [Hwf1 Hev1]];
    [constructor|done|].
  pose proof (backed_evolves _ _ Hev1 Hb) as Hb1. specialize (Hwf1 Hwf). cbn in Hb1, Hwf1.
  eapply wp_mono; [|apply (guards_wp w_step); [apply (k_PollInit code pollToken)|apply (wp_PollInit_ok code pollToken w)]].
  intros r w1 [[Hwf2 Hev2] Hok] x c2 Hx H2. destruct (Hok x Hx) as (i & h & Hi & _ & Ht & Hh & E1 & E2 & E3).
  destruct (Hb1 _ _ Hi Ht) as (h' & Hh' & Etok). assert (h' = h) as -> by congruence.
  destruct (pool_guarantee (broker_entry cfg) w_step (ps, w1) c2 (entry_steps cfg) Hall H2) as [_ [Hwf3 Hev3]]. cbn in Hwf3, Hev3.
  destruct (ev_harnesses _ _ (transitivity Hev2 Hev3) _ _ Hh) as (h2 & Hh2 & I1 & I2 & I3 & _).
  eapply wp_mono; [|apply (authenticates (ir_Token x) c2.2 (iHarnessID i) h2); [by apply Hwf3, Hwf2|done|]].
  - intros a w2 ->. exists h2. split; [done|]. by rewrite I1, I2, E1, E3.
  - rewrite I3, Etok, E2. done.
Qed.
End Tokens.
