(* ===== verification/Aes.v ===== *)
(** * AES-256 in Galois/counter mode, and unpadded base64

    The grants of the OAuth service are sealed with [cipher.NewGCM] over
    [aes.NewCipher] before they reach the database, bound to their team as
    additional data.  These are the algorithms of FIPS 197 and NIST SP
    800-38D on bytes as integers, for the key and nonce sizes the program
    uses; the examples are the published test vectors.  What the program
    relies on is at the end of each section: opening what was sealed gives it
    back, whatever the block cipher. *)

From S2P Require Import Prelude GoText Codec.

Open Scope Z_scope.

(** ** Galois/counter mode over any block cipher *)

Module Gcm.

(** Multiplication in GF(2^128), blocks as big-endian numbers with the
    reflected bit order of the standard. *)
Definition half (v : Z) : Z :=
  if Z.odd v then Z.lxor (Z.shiftr v 1) (Z.shiftl 225 120) else Z.shiftr v 1.
Fixpoint mul_from (n : nat) (x z v : Z) : Z :=
  match n with
  | O => z
  | S k => mul_from k x (if Z.testbit x (Z.of_nat k) then Z.lxor z v else z) (half v)
  end.
Definition mul (x y : Z) : Z := mul_from 128 x 0 y.

Definition number (l : list Z) : Z := foldl (fun n b => n * 256 + b) 0 l.

(** Blocks of 16 bytes, the last one filled with zeros. *)
Fixpoint chunks (fuel : nat) (l : list Z) : list (list Z) :=
  match fuel, l with
  | S k, _ :: _ => take 16 l :: chunks k (drop 16 l)
  | _, _ => []
  end.
Definition blocks (l : list Z) : list (list Z) := chunks (length l) l.
Definition filled (l : list Z) : list Z := l ++ repeat 0 (16 - length l).

Definition ghash (h : Z) (l : list (list Z)) : Z :=
  foldl (fun y b => mul (Z.lxor y (number (filled b))) h) 0 l.

Section Mode.
(** The block cipher under the key: 16 bytes to 16 bytes. *)
Context (cipher : list Z -> list Z).

Definition counter_block (nonce : list Z) (n : Z) : list Z := nonce ++ Sha256.be 4 n.

Fixpoint ctr_from (fuel : nat) (nonce : list Z) (n : Z) (data : list Z) : list Z :=
  match fuel, data with
  | S k, _ :: _ =>
      zip_with Z.lxor (take 16 data) (filled (cipher (counter_block nonce n)))
      ++ ctr_from k nonce (n + 1) (drop 16 data)
  | _, _ => []
  end.
Definition ctr (nonce data : list Z) : list Z := ctr_from (length data) nonce 2 data.

Definition tag (nonce data ad : list Z) : list Z :=
  let h := number (cipher (repeat 0 16)) in
  let lengths := Sha256.be 8 (8 * Z.of_nat (length ad)) ++ Sha256.be 8 (8 * Z.of_nat (length data)) in
  zip_with Z.lxor (Sha256.be 16 (ghash h (blocks ad ++ blocks data ++ [lengths])))
    (filled (cipher (counter_block nonce 1))).

(** [Seal] appends the tag; [Open] checks it before it decrypts. *)
Definition seal (nonce data ad : list Z) : list Z :=
  let c := ctr nonce data in c ++ tag nonce c ad.
Definition open (nonce sealed ad : list Z) : option (list Z) :=
  if (length sealed <? 16)%nat then None
  else
    let c := take (length sealed - 16) sealed in
    let t := drop (length sealed - 16) sealed in
    if bool_decide (t = tag nonce c ad) then Some (ctr nonce c) else None.

Lemma filled_length l : (16 <= length (filled l))%nat.
Proof. unfold filled. rewrite length_app, repeat_length. lia. Qed.

Lemma zip_xor_length l k : length (zip_with Z.lxor (take 16 l) (filled k)) = length (take 16 l).
Proof. rewrite length_zip_with. pose proof (filled_length k). rewrite length_take. lia. Qed.

Lemma zip_xor_twice l k : (length l <= length k)%nat -> zip_with Z.lxor (zip_with Z.lxor l k) k = l.
Proof.
  revert k. induction l as [|a l IH]; intros [|b k] Hk; simpl in *; [done..|lia|].
  rewrite IH by lia. by rewrite Z.lxor_assoc, Z.lxor_nilpotent, Z.lxor_0_r.
Qed.

Lemma ctr_from_length fuel nonce n data : (length data <= fuel)%nat -> length (ctr_from fuel nonce n data) = length data.
Proof.
  revert n data. induction fuel as [|k IH]; intros n [|b data] Hf; simpl in Hf; [done|lia|done|].
  cbn [ctr_from]. rewrite length_app, zip_xor_length, IH by (rewrite length_drop; simpl; lia).
  rewrite length_take, length_drop. cbn [length] in *. lia.
Qed.

Lemma ctr_from_twice fuel nonce n data :
  (length data <= fuel)%nat -> ctr_from fuel nonce n (ctr_from fuel nonce n data) = data.
Proof.
  revert n data. induction fuel as [|k IH]; intros n [|b data] Hf; [done|simpl in Hf; lia|done|].
  assert (Hd : (length (drop 16 (b :: data)) <= k)%nat) by (rewrite length_drop; simpl in *; lia).
  specialize (IH (n + 1) (drop 16 (b :: data)) Hd). cbn [ctr_from].
  set (z := zip_with Z.lxor (take 16 (b :: data)) (filled (cipher (counter_block nonce n)))).
  set (rest := ctr_from k nonce (n + 1) (drop 16 (b :: data))) in *.
  assert (Hz : length z = length (take 16 (b :: data))) by apply zip_xor_length.
  assert (Hsplit : take 16 (z ++ rest) = z /\ drop 16 (z ++ rest) = rest).
  { destruct (decide (length z = 16)%nat) as [E|E]; [rewrite <- E; split; [apply take_app_length|apply drop_app_length]|].
    rewrite length_take in Hz. assert (rest = []) as ->.
    { apply nil_length_inv. unfold rest. rewrite ctr_from_length, length_drop by done. lia. }
    rewrite app_nil_r. split; [apply take_ge | apply drop_ge]; lia. }
  destruct Hsplit as [Ht Hr]. destruct (z ++ rest) as [|y l] eqn:E.
  - apply app_eq_nil in E as [E _]. rewrite E in Hz. done.
  - rewrite Ht, Hr, IH. unfold z. rewrite zip_xor_twice.
    + apply take_drop.
    + rewrite length_take. pose proof (filled_length (cipher (counter_block nonce n))). lia.
Qed.

Lemma ctr_length nonce data : length (ctr nonce data) = length data.
Proof. by apply ctr_from_length. Qed.

Lemma ctr_twice nonce data : ctr nonce (ctr nonce data) = data.
Proof. unfold ctr. rewrite ctr_from_length by done. by apply ctr_from_twice. Qed.

Lemma tag_length nonce data ad : length (tag nonce data ad) = 16%nat.
Proof.
  unfold tag. rewrite length_zip_with.
  pose proof (filled_length (cipher (counter_block nonce 1))).
  change (length (Sha256.be 16 _)) with 16%nat. lia.
Qed.

(** Opening what was sealed under the same nonce and additional data. *)
Lemma open_seal nonce data ad : open nonce (seal nonce data ad) ad = Some data.
Proof.
  unfold open, seal. rewrite length_app, tag_length, (proj2 (Nat.ltb_ge _ _)) by lia.
  rewrite Nat.add_sub, take_app_length, drop_app_length, bool_decide_true by done. by rewrite ctr_twice.
Qed.

(** What opens was sealed: a ciphertext is accepted only if it is the one that
    [seal] makes of its plaintext, under this nonce and this additional data. *)
Lemma open_sealed nonce sealed data ad : open nonce sealed ad = Some data -> sealed = seal nonce data ad.
Proof.
  unfold open, seal. case_match; [done|]. case_bool_decide as Ht; [|done]. intros [= <-].
  rewrite ctr_twice, <- Ht. symmetry. apply take_drop.
Qed.
End Mode.
End Gcm.

(** ** AES with a 32-byte key *)

Module Aes256.

Definition sbox : list Z :=
  [99; 124; 119; 123; 242; 107; 111; 197; 48; 1; 103; 43; 254; 215; 171; 118;
   202; 130; 201; 125; 250; 89; 71; 240; 173; 212; 162; 175; 156; 164; 114; 192;
   183; 253; 147; 38; 54; 63; 247; 204; 52; 165; 229; 241; 113; 216; 49; 21;
   4; 199; 35; 195; 24; 150; 5; 154; 7; 18; 128; 226; 235; 39; 178; 117;
   9; 131; 44; 26; 27; 110; 90; 160; 82; 59; 214; 179; 41; 227; 47; 132;
   83; 209; 0; 237; 32; 252; 177; 91; 106; 203; 190; 57; 74; 76; 88; 207;
   208; 239; 170; 251; 67; 77; 51; 133; 69; 249; 2; 127; 80; 60; 159; 168;
   81; 163; 64; 143; 146; 157; 56; 245; 188; 182; 218; 33; 16; 255; 243; 210;
   205; 12; 19; 236; 95; 151; 68; 23; 196; 167; 126; 61; 100; 93; 25; 115;
   96; 129; 79; 220; 34; 42; 144; 136; 70; 238; 184; 20; 222; 94; 11; 219;
   224; 50; 58; 10; 73; 6; 36; 92; 194; 211; 172; 98; 145; 149; 228; 121;
   231; 200; 55; 109; 141; 213; 78; 169; 108; 86; 244; 234; 101; 122; 174; 8;
   186; 120; 37; 46; 28; 166; 180; 198; 232; 221; 116; 31; 75; 189; 139; 138;
   112; 62; 181; 102; 72; 3; 246; 14; 97; 53; 87; 185; 134; 193; 29; 158;
   225; 248; 152; 17; 105; 217; 142; 148; 155; 30; 135; 233; 206; 85; 40; 223;
   140; 161; 137; 13; 191; 230; 66; 104; 65; 153; 45; 15; 176; 84; 187; 22].

Definition byte_at (l : list Z) (i : nat) : Z := nth i l 0.
Definition sub (b : Z) : Z := nth (Z.to_nat b) sbox 0.
Definition xtime (b : Z) : Z := Z.lxor (Z.land (2 * b) 255) (if b <? 128 then 0 else 27).

(** The state is 16 bytes, column by column. *)
Definition over_state (f : nat -> Z) : list Z := map f (seq 0 16).
Definition add_round_key (key st : list Z) : list Z := over_state (fun i => Z.lxor (byte_at st i) (byte_at key i)).
Definition sub_bytes (st : list Z) : list Z := over_state (fun i => sub (byte_at st i)).
Definition shift_rows (st : list Z) : list Z := over_state (fun i => byte_at st ((i + 4 * (i mod 4)) mod 16)).
Definition mix_columns (st : list Z) : list Z :=
  over_state (fun i =>
    let a k := byte_at st (4 * (i / 4) + (i + k) mod 4) in
    Z.lxor (Z.lxor (xtime (a 0%nat)) (Z.lxor (xtime (a 1%nat)) (a 1%nat))) (Z.lxor (a 2%nat) (a 3%nat))).

(** The key schedule: 60 words of four bytes, newest first. *)
Definition xor_words (a b : list Z) : list Z := zip_with Z.lxor a b.
Definition rot_word (w : list Z) : list Z := match w with a :: w' => w' ++ [a] | [] => [] end.
Fixpoint expand_from (n i : nat) (rcon : Z) (ws : list (list Z)) : list (list Z) :=
  match n with
  | O => ws
  | S k =>
      let last := nth 0 ws [] in
      let '(t, rcon') :=
        if (i mod 8 =? 0)%nat then (xor_words (map sub (rot_word last)) [rcon; 0; 0; 0], xtime rcon)
        else if (i mod 8 =? 4)%nat then (map sub last, rcon)
        else (last, rcon) in
      expand_from k (S i) rcon' (xor_words (nth 7 ws []) t :: ws)
  end.
Definition key_words (key : list Z) : list (list Z) := map (fun i => take 4 (drop (4 * i) key)) (seq 0 8).
Fixpoint round_keys (fuel : nat) (ws : list (list Z)) : list (list Z) :=
  match fuel with
  | O => []
  | S k => concat (take 4 ws) :: round_keys k (drop 4 ws)
  end.
Definition expand (key : list Z) : list (list Z) :=
  round_keys 15 (reverse (expand_from 52 8 1 (reverse (key_words key)))).

Definition round (st key : list Z) : list Z := add_round_key key (mix_columns (shift_rows (sub_bytes st))).
Definition encrypt_with (keys : list (list Z)) (block : list Z) : list Z :=
  let middle := foldl round (add_round_key (nth 0 keys []) block) (take 13 (drop 1 keys)) in
  add_round_key (nth 14 keys []) (shift_rows (sub_bytes middle)).
End Aes256.

(** [cipher.NewGCM] over [aes.NewCipher(key)], nonces of 12 bytes. *)
Definition NonceSize : nat := 12.
Definition aead_seal (key nonce data ad : list Z) : list Z :=
  let keys := Aes256.expand key in Gcm.seal (Aes256.encrypt_with keys) nonce data ad.
Definition aead_open (key nonce sealed ad : list Z) : option (list Z) :=
  let keys := Aes256.expand key in Gcm.open (Aes256.encrypt_with keys) nonce sealed ad.

Lemma aead_open_seal key nonce data ad : aead_open key nonce (aead_seal key nonce data ad) ad = Some data.
Proof. apply Gcm.open_seal. Qed.
Lemma aead_open_sealed key nonce sealed data ad :
  aead_open key nonce sealed ad = Some data -> sealed = aead_seal key nonce data ad.
Proof. apply Gcm.open_sealed. Qed.

Definition from_hex_digit (c : Z) : Z := if c <? 58 then c - 48 else c - 87.
Fixpoint from_hex (l : list Z) : list Z :=
  match l with a :: b :: l' => from_hex_digit a * 16 + from_hex_digit b :: from_hex l' | _ => [] end.
Definition hex (s : string) : list Z := from_hex (bytes_of s).

(** FIPS 197, appendix C.3. *)
Example aes256_fips197 :
  Aes256.encrypt_with (Aes256.expand (hex "000102030405060708090a0b0c0d0e0f101112131415161718191a1b1c1d1e1f"))
    (hex "00112233445566778899aabbccddeeff") = hex "8ea2b7ca516745bfeafc49904b496089".
Proof. vm_compute. reflexivity. Qed.

(** Test case 16 of the GCM specification. *)
Example gcm_test_case_16 :
  hex_encode (aead_seal
    (hex "feffe9928665731c6d6a8f9467308308feffe9928665731c6d6a8f9467308308")
    (hex "cafebabefacedbaddecaf888")
    (hex "d9313225f88406e5a55909c5aff5269a86a7a9531534f7da2e4c303d8a318a721c3c0c95956809532fcf0e2449a6b525b16aedf5aa0de657ba637b39")
    (hex "feedfacedeadbeeffeedfacedeadbeefabaddad2"))
  = "522dc1f099567d07f47f37a32a84427d643a8cdcbfe5c0c97598a2bd2555d1aa8cb08e48590dbb3da7b08b1056828838c5f61e6393ba7a0abcc9f66276fc6ece0f4e1768cddf8853bb2d551b".
Proof. vm_compute. reflexivity. Qed.

(** ** Base64 without padding *)

(** [RawStdEncoding]: the padded text without its padding. *)
Definition raw_base64_encode (l : list Z) : string :=
  str_of (List.filter (fun c => negb (c =? 61)) (b64_enc l)).

(** [RawURLEncoding] has [-] and [_] for [+] and [/]. *)
Definition url_char (c : Z) : Z := if c =? 43 then 45 else if c =? 47 then 95 else c.
Definition raw_url_encode (l : list Z) : string :=
  str_of (map url_char (List.filter (fun c => negb (c =? 61)) (b64_enc l))).

Fixpoint raw_b64_dec (l : list Z) : option (list Z) :=
  match l with
  | c0 :: c1 :: c2 :: c3 :: l' =>
      v0 ← b64_val c0; v1 ← b64_val c1; v2 ← b64_val c2; v3 ← b64_val c3; rest ← raw_b64_dec l';
      Some (v0 * 4 + v1 / 16 :: (v1 mod 16) * 16 + v2 / 4 :: (v2 mod 4) * 64 + v3 :: rest)
  | [c0; c1; c2] =>
      v0 ← b64_val c0; v1 ← b64_val c1; v2 ← b64_val c2;
      Some [v0 * 4 + v1 / 16; (v1 mod 16) * 16 + v2 / 4]
  | [c0; c1] => v0 ← b64_val c0; v1 ← b64_val c1; Some [v0 * 4 + v1 / 16]
  | [_] => None
  | [] => Some []
  end.
Definition raw_base64_decode (s : string) : option (list Z) :=
  raw_b64_dec (List.filter (fun c => negb ((c =? 10) || (c =? 13))) (bytes_of s)).

#[local] Ltac Zify.zify_post_hook ::= Z.to_euclidean_division_equations.

Lemma raw_b64_dec_enc l :
  Forall is_byte l -> raw_b64_dec (List.filter (fun c => negb (c =? 61)) (b64_enc l)) = Some l.
Proof.
  unfold is_byte. induction l as [l IH] using list_len_ind. intros Hl.
  destruct l as [|a [|b [|c l']]]; repeat match goal with H : Forall _ (_ :: _) |- _ => apply Forall_cons in H as [? ?] end;
    cbn [b64_enc List.filter]; [done|..]; rewrite !b64_char_not_pad by lia;
    try change (negb (61 =? 61)) with false; cbn [negb List.filter raw_b64_dec];
    rewrite ?b64_val_char_eq by lia; cbn [mbind option_bind].
  - do 2 f_equal; lia.
  - do 3 f_equal; lia.
  - rewrite IH; [|simpl; lia|done]. cbn [mbind option_bind]. repeat f_equal; lia.
Qed.

Lemma filter_comm {A} (p q : A -> bool) l : List.filter p (List.filter q l) = List.filter q (List.filter p l).
Proof.
  induction l as [|a l IH]; [done|]. simpl.
  destruct (q a) eqn:Eq, (p a) eqn:Ep; simpl; rewrite ?Eq, ?Ep, IH; done.
Qed.

Lemma raw_base64_round_trip l : Forall is_byte l -> raw_base64_decode (raw_base64_encode l) = Some l.
Proof.
  intros H. unfold raw_base64_decode, raw_base64_encode. rewrite bytes_of_str_of.
  - rewrite filter_comm, b64_enc_no_newline by done. by apply raw_b64_dec_enc.
  - pose proof (b64_enc_bytes l H) as Hb. induction Hb as [|c k Hc _ IH]; simpl; [constructor|].
    destruct (negb (c =? 61)); [by constructor | done].
Qed.

(** *** What is sealed is made of bytes *)

Lemma lxor_byte a b : is_byte a -> is_byte b -> is_byte (Z.lxor a b).
Proof.
  unfold is_byte. intros Ha Hb. assert (Hn : 0 <= Z.lxor a b) by (apply Z.lxor_nonneg; lia). split; [done|].
  apply Z.nle_gt. intros H. assert (Hl : 8 <= Z.log2 (Z.lxor a b)) by (apply Z.log2_le_pow2; lia).
  pose proof (Z.log2_lxor a b ltac:(lia) ltac:(lia)).
  assert (forall n, 0 <= n < 256 -> Z.log2 n < 8) as Hlog.
  { intros n Hr. destruct (decide (n = 0)) as [->|]; [done|]. apply Z.log2_lt_pow2; lia. }
  pose proof (Hlog a Ha). pose proof (Hlog b Hb). lia.
Qed.

Lemma nth_byte l i : Forall is_byte l -> is_byte (nth i l 0).
Proof.
  intros H. destruct (nth_in_or_default i l 0) as [Hin| ->]; [|done].
  by apply (proj1 (Forall_forall _ _) H), list_elem_of_In.
Qed.

Lemma over_state_bytes f : (forall i, is_byte (f i)) -> Forall is_byte (Aes256.over_state f).
Proof. intros H. apply Forall_map, Forall_true. exact H. Qed.

Lemma zip_xor_bytes l k : Forall is_byte l -> Forall is_byte k -> Forall is_byte (zip_with Z.lxor l k).
Proof.
  intros Hl. revert k. induction Hl as [|a l Ha _ IH]; intros [|b k] Hk; simpl; [constructor..|].
  apply Forall_cons in Hk as [Hb Hk]. constructor; [by apply lxor_byte | by apply IH].
Qed.

Lemma be_bytes n v : Forall is_byte (Sha256.be n v).
Proof.
  induction n as [|k IH]; simpl; constructor; [|done].
  change 255 with (Z.ones 8). rewrite Z.land_ones by lia. unfold is_byte. change (2 ^ 8) with 256. lia.
Qed.

Lemma sub_byte b : is_byte (Aes256.sub b).
Proof. apply nth_byte. eapply bool_decide_unpack. vm_compute. exact I. Qed.

Lemma xtime_byte b : is_byte (Aes256.xtime b).
Proof.
  apply lxor_byte; [|by case_match].
  change 255 with (Z.ones 8). rewrite Z.land_ones by lia. unfold is_byte. change (2 ^ 8) with 256. lia.
Qed.

#[local] Hint Resolve lxor_byte nth_byte zip_xor_bytes be_bytes sub_byte xtime_byte over_state_bytes : bytes.
#[local] Hint Resolve Forall_app_2 Forall_take Forall_drop Forall_nil_2 : bytes.

Definition word_bytes (ws : list (list Z)) : Prop := Forall (Forall is_byte) ws.

Lemma nth_word ws i : word_bytes ws -> Forall is_byte (nth i ws []).
Proof.
  intros H. destruct (nth_in_or_default i ws []) as [Hin| ->]; [|constructor].
  by apply (proj1 (Forall_forall _ _) H), list_elem_of_In.
Qed.

Lemma map_sub_bytes l : Forall is_byte (map Aes256.sub l).
Proof. apply Forall_map, Forall_true. apply sub_byte. Qed.

Lemma expand_from_bytes n i rcon ws :
  is_byte rcon -> word_bytes ws -> word_bytes (Aes256.expand_from n i rcon ws).
Proof.
  revert i rcon ws. induction n as [|k IH]; intros i rcon ws Hr Hw; [done|]. cbn [Aes256.expand_from].
  pose proof (nth_word ws 0 Hw). pose proof (nth_word ws 7 Hw). unfold Aes256.xor_words.
  repeat case_match; simplify_eq; apply IH; auto with bytes; constructor; auto using map_sub_bytes with bytes.
  apply zip_xor_bytes; [done|]. apply zip_xor_bytes; [apply map_sub_bytes|].
  by repeat (constructor; [done|]).
Qed.

Lemma round_keys_bytes fuel ws : word_bytes ws -> word_bytes (Aes256.round_keys fuel ws).
Proof.
  unfold word_bytes. revert ws. induction fuel as [|k IH]; intros ws H; simpl; constructor; auto with bytes.
  by apply Forall_concat, Forall_take.
Qed.

Lemma expand_bytes key : Forall is_byte key -> word_bytes (Aes256.expand key).
Proof.
  intros H. apply round_keys_bytes, Forall_reverse, expand_from_bytes; [done|]. apply Forall_reverse, Forall_map, Forall_true.
  auto with bytes.
Qed.

Lemma encrypt_bytes key block :
  Forall is_byte key -> Forall is_byte block -> Forall is_byte (Aes256.encrypt_with (Aes256.expand key) block).
Proof.
  intros Hk Hb. pose proof (expand_bytes key Hk) as Hw. unfold Aes256.encrypt_with.
  apply over_state_bytes. intros i. apply lxor_byte; [|by apply nth_byte, nth_word].
  apply nth_byte, over_state_bytes. intros k. apply nth_byte, over_state_bytes. intros. apply sub_byte.
Qed.

Lemma filled_bytes l : Forall is_byte l -> Forall is_byte (Gcm.filled l).
Proof. intros H. apply Forall_app_2; [done|]. apply Forall_forall. by intros x ->%list_elem_of_In%repeat_spec. Qed.

Lemma ctr_bytes cipher fuel nonce n data :
  (forall b, Forall is_byte b -> Forall is_byte (cipher b)) -> Forall is_byte nonce -> Forall is_byte data ->
  Forall is_byte (Gcm.ctr_from cipher fuel nonce n data).
Proof.
  intros Hc Hn. revert n data. induction fuel as [|k IH]; intros n [|b data] Hd; [constructor..|].
  cbn [Gcm.ctr_from]. apply Forall_app_2; [|by apply IH, Forall_drop].
  apply zip_xor_bytes; [by apply Forall_take|]. apply filled_bytes, Hc. unfold Gcm.counter_block. auto with bytes.
Qed.

Lemma aead_seal_bytes key nonce data ad :
  Forall is_byte key -> Forall is_byte nonce -> Forall is_byte data -> Forall is_byte (aead_seal key nonce data ad).
Proof.
  intros Hk Hn Hd. assert (Hc := fun b => encrypt_bytes key b Hk). apply Forall_app_2.
  - by apply ctr_bytes.
  - apply zip_xor_bytes; [apply be_bytes|]. apply filled_bytes, Hc. unfold Gcm.counter_block. auto with bytes.
Qed.

Lemma aead_seal_length key nonce data ad : length (aead_seal key nonce data ad) = (length data + 16)%nat.
Proof. unfold aead_seal, Gcm.seal. by rewrite length_app, Gcm.ctr_length, Gcm.tag_length. Qed.
