(* ===== verification/Lift.v ===== *)
(** * Programs on a part of a larger state

    A component with a state of its own that also uses the broker's world runs
    on a larger state.  The programs of the broker run there on their part of
    it, step by step, so that they interleave with the component's. *)

From S2P Require Import Prelude Resume.

Open Scope prog_scope.

(** The part and how it is replaced. *)
Class Part (W V : Type) : Type := {
  part : V -> W;
  put_part : W -> V -> V;
  part_put w v : part (put_part w v) = w;
  put_put w w' v : put_part w (put_part w' v) = put_part w v;
  put_part_same v : put_part (part v) v = v
}.

Fixpoint lift {W V A} `{!Part W V} (m : prog W A) : prog V A :=
  match m with
  | Ret a => Ret a
  | Step f k =>
      Step (fun v => match f (part v) with Some (x, w) => Some (x, put_part w v) | None => None end)
        (fun x => lift (k x))
  end.

Section Lift.
Context {W V : Type} `{!Part W V}.

Lemma run_lift {A} (m : prog W A) (v : V) :
  run (lift m) v = match run m (part v) with Some (a, w) => Some (a, put_part w v) | None => None end.
Proof.
  revert v. induction m as [a|X f k IH]; intros v; simpl; [by rewrite put_part_same|].
  destruct (f (part v)) as [[x w]|]; [|done]. rewrite IH, part_put.
  destruct (run (k x) w) as [[a w']|]; [|done]. by rewrite put_put.
Qed.

Lemma wp_lift {A} (m : prog W A) Q (v : V) : wp (lift m) Q v <-> wp m (fun a w => Q a (put_part w v)) (part v).
Proof. unfold wp. rewrite run_lift. by destruct (run m (part v)) as [[a w]|]. Qed.

Lemma guards_lift (R : V -> V -> Prop) {A} (m : prog W A) :
  guards (fun w w' => forall v, part v = w -> R v (put_part w' v)) m -> guards R (lift m).
Proof.
  induction m as [a|X f k IH]; [done|]. intros [Hf Hk]. split; [|intros x; apply IH, Hk].
  intros v x v' H. simpl in H. destruct (f (part v)) as [[y w]|] eqn:Ef; [|done].
  injection H as <- <-. by eapply (Hf _ _ _ Ef).
Qed.

Lemma nonblocking_lift {A} (m : prog W A) : nonblocking m -> nonblocking (lift (V := V) m).
Proof.
  induction m as [a|X f k IH]; [done|]. intros [Hf Hk]. split; [|intros x; apply IH, Hk].
  intros v. simpl. destruct (Hf (part v)) as [[x w] ->]. by eexists.
Qed.
End Lift.
