(* ===== verification/OAuth.v ===== *)
(** * The OAuth installation service ([internal/broker/oauth/service.go])

    A Mattermost administrator installs the integration in a team: a browser
    is sent to Mattermost with a fresh state, comes back with a code, the code
    becomes a grant, and the team's row keeps the grant, sealed, with the
    slash command made for it.  Later the broker asks for a client of a team
    and the grant is refreshed when it is about to expire.

    The service runs on the broker's world and a state of its own: the pending
    states (behind [statesMu], a locked section is one step) and [mu], held
    across exchanges and installations. *)

From S2P Require Import Prelude Resume GoText Codec Aes Json Protocol Store Tables World Sqlite Lift.

Open Scope Z_scope.
Open Scope prog_scope.

(** ** Data *)

Definition stateTTL : Z := 10 * minute.
Definition cookieName : string := "harness_oauth_state".

Record OAuthConfig : Type := MkOAuthConfig {
  oMMURL : string;
  oPublicURL : string;
  oClientID : string;
  oClientSecret : string;
  oEncryptionKey : string
}.

Record pendingState : Type := MkPendingState {
  psTeamRef : string;
  psBrowser : list Z;
  psExpires : Time
}.

Record credentials : Type := MkCredentials {
  crAccessToken : string;
  crRefreshToken : string;
  crExpiresAt : Time;
  crUpdatedAt : Time
}.

(** *** Mattermost's data, as far as the service looks at it *)

Record OUser : Type := MkOUser { ouId : string; ouIsSystemAdmin : bool; ouDeleteAt : Z }.
Record OTeam : Type := MkOTeam { otId : string; otDeleteAt : Z }.
Record Command : Type := MkCommand {
  cmId : string;
  cmToken : string;
  cmTeamId : string;
  cmTrigger : string;
  cmMethod : string;
  cmURL : string;
  cmDeleteAt : Z
}.

(** What comes back from the token endpoint: nothing, or a status with the
    first JSON document of (64 KiB of) the body. *)
Inductive token_answer : Type :=
| NoAnswer
| Answered (status : Z) (body : option json).

Record TokenResponse : Type := MkTokenResponse {
  trAccessToken : string;
  trRefreshToken : string;
  trExpiresIn : Z;
  trTokenType : string
}.
Definition TokenResponse_fields : fields TokenResponse := [
  ("access_token", field trAccessToken (fun v x => MkTokenResponse v (trRefreshToken x) (trExpiresIn x) (trTokenType x)) dec_string);
  ("refresh_token", field trRefreshToken (fun v x => MkTokenResponse (trAccessToken x) v (trExpiresIn x) (trTokenType x)) dec_string);
  ("expires_in", field trExpiresIn (fun v x => MkTokenResponse (trAccessToken x) (trRefreshToken x) v (trTokenType x)) dec_int);
  ("token_type", field trTokenType (fun v x => MkTokenResponse (trAccessToken x) (trRefreshToken x) (trExpiresIn x) v) dec_string)
].

(** A URL as [net/url] takes it apart. *)
Record URL : Type := MkURL {
  uScheme : string; uHost : string; uHasUser : bool; uRawQuery : string; uFragment : string
}.

Definition form : Type := list (string * string).

(** The outside of the service.  Calls of the Mattermost API carry the access
    token they are made with.  [cred_text] and [cred_parse] are the JSON text
    of a grant, with times in the local zone ([None]: [encoding/json] refuses). *)
Class OEnv : Type := {
  url_parse : string -> option URL;
  IsValidId : string -> bool;
  IsValidTeamName : string -> bool;
  TeamNameMaxLength : Z;
  CommandMethodPost : string;
  cred_text : credentials -> option string;
  cred_parse : string -> option credentials;
  token_endpoint : nat -> form -> token_answer;
  get_me : nat -> string -> res (option OUser);
  get_team : nat -> string -> string -> res (option OTeam) * option Z;    (** with the HTTP status of a response *)
  get_team_by_name : nat -> string -> string -> res (option OTeam);
  get_team_member : nat -> string -> string -> string -> res (option Z);  (** [DeleteAt] *)
  list_commands : nat -> string -> string -> res (list Command);
  get_command : nat -> string -> string -> res (option Command);
  create_command : nat -> string -> Command -> res (option Command);
  delete_command : nat -> string -> string -> res unit
}.

(** *** Requests and responses *)

Record OAuthRequest : Type := MkOAuthRequest { oqQuery : form; oqCookie : option string }.

Definition query_get (r : OAuthRequest) (key : string) : string :=
  default "" (snd <$> List.find (fun kv => String.eqb kv.1 key) (oqQuery r)).

Record Cookie : Type := MkCookie {
  ckName : string; ckValue : string; ckPath : string; ckHttpOnly : bool; ckSecure : bool;
  ckSameSite : string; ckMaxAge : Z
}.

Inductive page : Type :=
| InstallForm
| InstalledPage
| ErrorPage (msg : string)
| RedirectTo (url : string).

Record HTTPResponse : Type := MkHTTPResponse {
  rsStatus : Z;
  rsHeaders : list (string * string);
  rsCookies : list Cookie;
  rsPage : page
}.

(** ** The state *)

Inductive OEvent : Type :=
| OvIssued (state browser : string) (p : pendingState)
| OvConsumed (state cookie : string) (p : pendingState) (now : Time)
| OvExchange (f : form) (ok : bool)
| OvCommandCreated (token teamID : string) (c : Command)
| OvCommandDeleted (token id : string) (ok : bool).

Record OWorld : Type := MkOWorld {
  ow_world : World;
  ow_states : gmap string pendingState;
  ow_mu : bool;    (** held *)
  ow_trace : list OEvent
}.

Definition put_world (w : World) (v : OWorld) : OWorld := MkOWorld w (ow_states v) (ow_mu v) (ow_trace v).
#[export] Instance broker_part : Part World OWorld.
Proof. refine {| part := ow_world; put_part := put_world |}; by intros; try destruct v. Defined.

Definition set_states x v := MkOWorld (ow_world v) x (ow_mu v) (ow_trace v).
Definition set_mu x v := MkOWorld (ow_world v) (ow_states v) x (ow_trace v).
Definition orecord (evs : list OEvent) v := MkOWorld (ow_world v) (ow_states v) (ow_mu v) (ow_trace v ++ evs).
Definition otick (n : nat) v := put_world (set_tick (n + w_tick (ow_world v)) (ow_world v)) v.
Definition odb (v : OWorld) : DB := w_db (ow_world v).

(** ** Operations on the state *)

Section OAuth.
Context {E : Env} {O : OEnv}.

Definition oask {X} (f : nat -> X) (evs : X -> list OEvent) : prog OWorld X :=
  atomic (fun v => let x := f (w_tick (ow_world v)) in (x, otick 1 (orecord (evs x) v))).
Definition onow : prog OWorld Time := oask clock (fun _ => []).
Definition orandom (n : nat) : prog OWorld (list Z) := oask (fun t => rand_read t n) (fun _ => []).

(** [s.mu.Lock(); defer s.mu.Unlock()] *)
Definition with_mu {X} (body : prog OWorld X) : prog OWorld X :=
  await (fun v => if ow_mu v then None else Some (set_mu true v)) ;;
  x <- body ;;
  modify (set_mu false) ;;
  Ret x.

(** *** Calls of Mattermost *)

Definition GetMe (token : string) := oask (fun t => get_me t token) (fun _ => []).
Definition GetTeam (token id : string) := oask (fun t => get_team t token id) (fun _ => []).
Definition GetTeamByName (token name : string) := oask (fun t => get_team_by_name t token name) (fun _ => []).
Definition GetTeamMember (token team user : string) := oask (fun t => get_team_member t token team user) (fun _ => []).
Definition ListCommands (token team : string) := oask (fun t => list_commands t token team) (fun _ => []).
Definition GetCommandById (token id : string) := oask (fun t => get_command t token id) (fun _ => []).
Definition CreateCommand (token : string) (c : Command) : prog OWorld (res (option Command)) :=
  oask (fun t => create_command t token c)
    (fun r => match r with Ok (Some made) => [OvCommandCreated token (cmTeamId c) made] | _ => [] end).
Definition DeleteCommand (token id : string) : prog OWorld (res unit) :=
  oask (fun t => delete_command t token id) (fun r => [OvCommandDeleted token id (is_ok r)]).

(** ** Texts *)

(** [url.QueryEscape] and [Values.Encode]. *)
Definition unreserved (b : Z) : bool :=
  in_range 48 b 57 || in_range 65 b 90 || in_range 97 b 122 || (b =? 45) || (b =? 46) || (b =? 95) || (b =? 126).
Definition upper_hex (n : Z) : Z := if n <? 10 then 48 + n else 55 + n.
Definition escape_byte (b : Z) : list Z :=
  if unreserved b then [b] else if b =? 32 then [43] else [37; upper_hex (b / 16); upper_hex (b mod 16)].
Definition QueryEscape (s : string) : string := str_of (concat (map escape_byte (bytes_of s))).
Definition values_encode (f : form) : string :=
  Join (map (fun kv => QueryEscape kv.1 +:+ "=" +:+ QueryEscape kv.2) (order_by_text fst f)) "&".

Definition secureHeaders : list (string * string) := [
  ("Cache-Control", "no-store");
  ("Referrer-Policy", "no-referrer");
  ("Content-Security-Policy", "default-src 'none'; form-action 'self'; frame-ancestors 'none'");
  ("X-Content-Type-Options", "nosniff")
].
Section Service.
Context (cfg : OAuthConfig).

(** [New]: the configuration it accepts. *)
Definition url_ok (raw : string) : bool :=
  match url_parse raw with
  | None => false
  | Some u => negb (String.eqb (uHost u) "") && (String.eqb (uScheme u) "http" || String.eqb (uScheme u) "https")
              && negb (uHasUser u) && String.eqb (uRawQuery u) "" && String.eqb (uFragment u) ""
  end.
Definition oauth_New (db_set : bool) : res OAuthConfig :=
  if negb (url_ok (oMMURL cfg) && url_ok (oPublicURL cfg))
  then Err (ErrOther "oauth: URLs must be absolute HTTP(S) URLs without credentials, query, or fragment")
  else if String.eqb (oClientID cfg) "" || String.eqb (oClientSecret cfg) ""
          || negb (String.length (oEncryptionKey cfg) =? 32)%nat || negb db_set
  then Err (ErrOther "oauth: client credentials, installation store, and 32-byte encryption key are required")
  else Ok (MkOAuthConfig (TrimRight (oMMURL cfg) "/") (TrimRight (oPublicURL cfg) "/") (oClientID cfg)
             (oClientSecret cfg) (oEncryptionKey cfg)).

Definition stateCookie (value : string) (age : Z) : Cookie :=
  MkCookie cookieName value "/oauth" true (HasPrefix (oPublicURL cfg) "https://") "Lax" age.

Definition http_error (cookies : list Cookie) (msg : string) (status : Z) : HTTPResponse :=
  MkHTTPResponse status secureHeaders cookies (ErrorPage msg).

(** ** [start] *)

Definition randomValue : prog OWorld string := b <- orandom 32 ;; Ret (raw_url_encode b).

(** The section under [statesMu]: what has expired goes (each entry is held
    against a reading of the clock), then there is room or not. *)
Definition purge (t : nat) (states : gmap string pendingState) : gmap string pendingState :=
  list_to_map (omap (fun kv => if clock (t + kv.1) <? psExpires kv.2.2 then Some kv.2 else None)
                 (zip (seq 0 (size states)) (map_to_list states))).
Definition register_state (state browser teamRef : string) : prog OWorld bool :=
  atomic (fun v =>
    let t := w_tick (ow_world v) in
    let n := size (ow_states v) in
    let kept := purge t (ow_states v) in
    if (1000 <=? size kept)%nat then (false, otick n (set_states kept v))
    else
      let p := MkPendingState teamRef (Sha256.sum (bytes_of browser)) (clock (t + n) + stateTTL) in
      (true, otick (S n) (orecord [OvIssued state browser p] (set_states (<[state := p]> kept) v)))).

Definition start (r : OAuthRequest) : prog OWorld HTTPResponse :=
  let teamRef := TrimSpace (query_get r "team_id") in
  if String.eqb teamRef "" then
    Ret (MkHTTPResponse 200 (secureHeaders ++ [("Content-Type", "text/html; charset=utf-8")]) [] InstallForm)
  else if negb (IsValidId teamRef)
          && ((TeamNameMaxLength <? Z.of_nat (String.length teamRef)) || negb (IsValidTeamName teamRef)) then
    Ret (http_error [] "Enter a Mattermost team name or a 26-character team ID." 400)
  else
    state <- randomValue ;;
    browser <- randomValue ;;
    ok <- register_state state browser teamRef ;;
    if negb ok then Ret (http_error [] "Too many pending installations. Try again later." 503)
    else
      let q := [("response_type", "code"); ("client_id", oClientID cfg);
                ("redirect_uri", oPublicURL cfg +:+ "/oauth/callback"); ("state", state)] in
      Ret (MkHTTPResponse 302 secureHeaders [stateCookie browser (Z.quot stateTTL second)]
             (RedirectTo (oMMURL cfg +:+ "/oauth/authorize?" +:+ values_encode q))).

(** ** Grants *)

(** The nonce leads what is sealed; the team is authenticated with it. *)
Definition encrypt (teamID : string) (c : credentials) : prog OWorld (res string) :=
  match cred_text c with
  | None => Ret (Err (ErrOther "json: unsupported value"))
  | Some data =>
      nonce <- orandom NonceSize ;;
      Ret (Ok (raw_base64_encode (nonce ++ aead_seal (bytes_of (oEncryptionKey cfg)) nonce (bytes_of data) (bytes_of teamID))))
  end.

Definition decrypt (teamID encrypted : string) : res credentials :=
  match raw_base64_decode encrypted with
  | None => Err (ErrOther "oauth: invalid encrypted grant")
  | Some data =>
      if (length data <? NonceSize)%nat then Err (ErrOther "oauth: invalid encrypted grant")
      else
        match aead_open (bytes_of (oEncryptionKey cfg)) (take NonceSize data) (drop NonceSize data) (bytes_of teamID) with
        | None => Err (ErrOther "oauth: cannot decrypt grant")
        | Some plaintext =>
            match cred_parse (str_of plaintext) with
            | None => Err (ErrOther "oauth: invalid stored grant")
            | Some cred =>
                if String.eqb (crAccessToken cred) "" then Err (ErrOther "oauth: invalid stored grant") else Ok cred
            end
        end
  end.

(** A token response is used if it is complete. *)
Definition bearer (token_type : string) : bool :=
  String.eqb token_type "" || String.eqb (ToLower token_type) "bearer".
Definition accept_token (body : option json) : option TokenResponse :=
  doc ← body;
  match dec_struct TokenResponse_fields (MkTokenResponse "" "" 0 "") doc with
  | (t, true) =>
      if String.eqb (trAccessToken t) "" || (trExpiresIn t <=? 0) || negb (bearer (trTokenType t)) then None else Some t
  | (_, false) => None
  end.

Definition token_of (a : token_answer) : res TokenResponse :=
  match a with
  | NoAnswer => Err (ErrOther "oauth: token request failed")
  | Answered status body =>
      if negb (status =? 200) then Err (ErrOther "oauth: token request rejected")
      else match accept_token body with
           | None => Err (ErrOther "oauth: invalid token response")
           | Some t => Ok t
           end
  end.

Definition exchange (f : form) : prog OWorld (res credentials) :=
  let f := f ++ [("client_id", oClientID cfg); ("client_secret", oClientSecret cfg)] in
  answer <- oask (fun t => token_endpoint t f) (fun a => [OvExchange f (is_ok (token_of a))]) ;;
  match token_of answer with
  | Err e => Ret (Err e)
  | Ok t =>
      expires <- onow ;;
      updated <- onow ;;
      Ret (Ok (MkCredentials (trAccessToken t) (trRefreshToken t)
                 (expires + wrap64 (trExpiresIn t * second)) updated))
  end.

(** [saveCredentials]: every row of the user gets the grant; a failed write is
    reported at the end. *)
Fixpoint save_rows (userID : string) (cred : credentials) (l : list Installation) (saved : res unit) : prog OWorld (res unit) :=
  match l with
  | [] => Ret saved
  | i :: l' =>
      if negb (String.eqb (nUserID i) userID) then save_rows userID cred l' saved
      else
        e <- encrypt (nTeamID i) cred ;;
        match e with
        | Err x => Ret (Err x)
        | Ok text =>
            r <- lift (SaveInstallation (MkInstallation (nTeamID i) (nUserID i) text (nCommandID i) (nCommandToken i))) ;;
            save_rows userID cred l'
              (match r with Ok _ => saved | Err _ => Err (ErrOther "oauth: persist shared grant failed") end)
        end
  end.
Definition saveCredentials (userID : string) (cred : credentials) : prog OWorld (res unit) :=
  l <- lift ListInstallations ;;
  match l with
  | Err _ => Ret (Err (ErrOther "oauth: list installations failed"))
  | Ok l => save_rows userID cred l (Ok tt)
  end.

(** ** [install] *)

Definition errCollision : error := ErrOther "oauth: unrelated harness command exists".
Definition command_url : string := oPublicURL cfg +:+ "/commands/harness".

(** The team's live [/harness] command, which must be the one of its row. *)
Fixpoint own_command (token teamID existing : string) (l : list Command) (found : option Command)
    : prog OWorld (res (option Command)) :=
  match l with
  | [] => Ret (Ok found)
  | c :: l' =>
      if negb (String.eqb (cmTrigger c) "harness") || negb (cmDeleteAt c =? 0)
      then own_command token teamID existing l' found
      else if negb (String.eqb (cmId c) existing) || String.eqb existing "" then Ret (Err errCollision)
      else
        full <- GetCommandById token (cmId c) ;;
        match full with
        | Ok (Some full) =>
            if negb (String.eqb (cmTeamId full) teamID) || negb (String.eqb (cmTrigger full) "harness")
               || negb (String.eqb (cmURL full) command_url) || negb (String.eqb (cmMethod full) CommandMethodPost)
            then Ret (Err errCollision)
            else own_command token teamID existing l' (Some full)
        | _ => Ret (Err (ErrOther "oauth: get command failed"))
        end
  end.

Definition new_command (teamID : string) : Command :=
  MkCommand "" "" teamID "harness" CommandMethodPost command_url 0.

(** The row is written once there is a command with its credentials. *)
Definition save_installation (teamID userID : string) (cred : credentials) (c : Command) : prog OWorld (res unit) :=
  if String.eqb (cmId c) "" || String.eqb (cmToken c) "" then Ret (Err (ErrOther "oauth: command credentials missing"))
  else
    e <- encrypt teamID cred ;;
    match e with
    | Err x => Ret (Err x)
    | Ok text =>
        r <- lift (SaveInstallation (MkInstallation teamID userID text (cmId c) (cmToken c))) ;;
        Ret (match r with Ok _ => Ok tt | Err _ => Err (ErrOther "oauth: save installation failed") end)
    end.

(** With the deferred function: a command made on the way to a failure is
    deleted again. *)
Definition create_installation (token teamID userID : string) (cred : credentials) : prog OWorld (res unit) :=
  made <- CreateCommand token (new_command teamID) ;;
  match made with
  | Ok (Some c) =>
      r <- save_installation teamID userID cred c ;;
      when (negb (is_ok r) && negb (String.eqb (cmId c) "")) (DeleteCommand token (cmId c) ;; Ret tt) ;;
      Ret r
  | _ => Ret (Err (ErrOther "oauth: create command failed"))
  end.

(** From [ListCommands] on, [commandID] being the one of the team's row. *)
Definition install_over (token teamID userID : string) (cred : credentials) (commandID : string) : prog OWorld (res unit) :=
  commands <- ListCommands token teamID ;;
  match commands with
  | Err _ => Ret (Err (ErrOther "oauth: list commands failed"))
  | Ok commands =>
      found <- own_command token teamID commandID commands None ;;
      match found with
      | Err e => Ret (Err e)
      | Ok (Some c) => save_installation teamID userID cred c
      | Ok None => create_installation token teamID userID cred
      end
  end.

Definition install (token teamID userID : string) (cred : credentials) : prog OWorld (res unit) :=
  existing <- lift (InstallationByTeam teamID) ;;
  match existing with
  | Ok i => install_over token teamID userID cred (nCommandID i)
  | Err ErrNotFound => install_over token teamID userID cred ""
  | Err _ => Ret (Err (ErrOther "oauth: installation lookup failed"))
  end.

(** ** [callback] *)

(** The section under [statesMu]: a state is good once, for the browser it was
    given to, until it expires. *)
Definition consume_state (state cookie : string) : prog OWorld (option pendingState) :=
  atomic (fun v =>
    let now := clock (w_tick (ow_world v)) in
    match ow_states v !! state with
    | Some p =>
        if (now <? psExpires p) && bool_decide (Sha256.sum (bytes_of cookie) = psBrowser p)
        then (Some p, otick 1 (orecord [OvConsumed state cookie p now] (set_states (delete state (ow_states v)) v)))
        else (None, otick 1 v)
    | None => (None, v)
    end).

(** The selected team by its id or its name: names can look like ids. *)
Definition selected_team (token teamRef : string) : prog OWorld (res (option OTeam)) :=
  if IsValidId teamRef then
    r <- GetTeam token teamRef ;;
    match r with
    | (Err _, Some 404) => GetTeamByName token teamRef
    | (r, _) => Ret r
    end
  else GetTeamByName token teamRef.

Definition installed : HTTPResponse :=
  MkHTTPResponse 200 (secureHeaders ++ [("Content-Type", "text/html; charset=utf-8")]) [stateCookie "" (-1)] InstalledPage.

(** From the exchange on, under [mu]. *)
Definition install_with_code (teamRef code : string) : prog OWorld HTTPResponse :=
  let refuse := http_error [stateCookie "" (-1)] in
  cred <- exchange [("grant_type", "authorization_code"); ("code", code);
                    ("redirect_uri", oPublicURL cfg +:+ "/oauth/callback")] ;;
  match cred with
  | Err _ => Ret (refuse "Mattermost authorization failed. Start again." 502)
  | Ok cred =>
      let token := crAccessToken cred in
      user <- GetMe token ;;
      match user with
      | Ok (Some user) =>
          if negb (ouIsSystemAdmin user) || negb (ouDeleteAt user =? 0)
          then Ret (refuse "Installation requires a Mattermost system administrator." 403)
          else
            saved <- saveCredentials (ouId user) cred ;;
            match saved with
            | Err _ => Ret (refuse "Cannot save Mattermost authorization. Try again." 502)
            | Ok _ =>
                team <- selected_team token teamRef ;;
                match team with
                | Ok (Some team) =>
                    if negb (IsValidId (otId team)) || negb (otDeleteAt team =? 0)
                    then Ret (refuse "The selected team is unavailable." 403)
                    else
                      member <- GetTeamMember token (otId team) (ouId user) ;;
                      match member with
                      | Ok (Some 0) =>
                          r <- install token (otId team) (ouId user) cred ;;
                          Ret (match r with
                               | Ok _ => installed
                               | Err e =>
                                   if bool_decide (e = errCollision)
                                   then refuse "This team already has an unrelated /harness command. Remove or rename it in Mattermost before installing." 409
                                   else refuse "Harness installation failed. Check Mattermost integration settings and try again." 502
                               end)
                      | _ => Ret (refuse "Join the selected team before installing Harness." 403)
                      end
                | _ => Ret (refuse "The selected team is unavailable." 403)
                end
            end
      | _ => Ret (refuse "Cannot verify the authorizing user." 502)
      end
  end.

Definition invalid_session : HTTPResponse :=
  http_error [] "Invalid or expired installation session. Start again." 400.

Definition callback (r : OAuthRequest) : prog OWorld HTTPResponse :=
  let state := query_get r "state" in
  match oqCookie r with
  | None => Ret invalid_session
  | Some cookie =>
      if String.eqb state "" then Ret invalid_session
      else
        pending <- consume_state state cookie ;;
        match pending with
        | None => Ret invalid_session
        | Some p =>
            if negb (String.eqb (query_get r "error") "") || String.eqb (query_get r "code") ""
            then Ret (http_error [stateCookie "" (-1)] "Mattermost authorization was declined or incomplete. Start again." 400)
            else with_mu (install_with_code (psTeamRef p) (query_get r "code"))
        end
  end.

(** ** [Client] *)

(** Of two grants of an installer the one written last, or else the one that
    lasts longer. *)
Definition newer (candidate cred : credentials) : bool :=
  (crUpdatedAt cred <? crUpdatedAt candidate)
  || ((crUpdatedAt candidate =? crUpdatedAt cred) && (crExpiresAt cred <? crExpiresAt candidate)).
Definition newest_step (i : Installation) (cred : credentials) (other : Installation) : credentials :=
  if negb (String.eqb (nUserID other) (nUserID i)) || String.eqb (nTeamID other) (nTeamID i) then cred
  else match decrypt (nTeamID other) (nCredentials other) with
       | Ok candidate => if newer candidate cred then candidate else cred
       | Err _ => cred
       end.
Definition newest (i : Installation) (cred : credentials) (l : list Installation) : credentials :=
  foldl (newest_step i) cred l.

Definition with_refresh_token (fallback : string) (c : credentials) : credentials :=
  if String.eqb (crRefreshToken c) ""
  then MkCredentials (crAccessToken c) fallback (crExpiresAt c) (crUpdatedAt c) else c.

(** The access token of the client it returns. *)
Definition current_token (teamID : string) : prog OWorld (res string) :=
  i <- lift (InstallationByTeam teamID) ;;
  match i with
  | Err e => Ret (Err e)
  | Ok i =>
      match decrypt teamID (nCredentials i) with
      | Err e => Ret (Err e)
      | Ok cred =>
          l <- lift ListInstallations ;;
          match l with
          | Err _ => Ret (Err (ErrOther "oauth: list installations failed"))
          | Ok l =>
              let cred := newest i cred l in
              now <- onow ;;
              if now + minute <? crExpiresAt cred then Ret (Ok (crAccessToken cred))
              else if String.eqb (crRefreshToken cred) ""
              then Ret (Err (ErrOther "oauth: grant expired; reinstall this team"))
              else
                refreshed <- exchange [("grant_type", "refresh_token"); ("refresh_token", crRefreshToken cred)] ;;
                match refreshed with
                | Err e => Ret (Err e)
                | Ok refreshed =>
                    let refreshed := with_refresh_token (crRefreshToken cred) refreshed in
                    saved <- saveCredentials (nUserID i) refreshed ;;
                    match saved with
                    | Err e => Ret (Err e)
                    | Ok _ => Ret (Ok (crAccessToken refreshed))
                    end
                end
          end
      end
  end.
Definition oauth_Client (teamID : string) : prog OWorld (res string) := with_mu (current_token teamID).

Definition VerifyCommand (teamID token : string) : prog OWorld bool :=
  if String.eqb token "" then Ret false
  else
    i <- lift (InstallationByTeam teamID) ;;
    Ret (match i with
         | Ok i => negb (String.eqb (nCommandID i) "") && negb (String.eqb (nCommandToken i) "")
                   && String.eqb token (nCommandToken i)
         | Err _ => false
         end).
End Service.
End OAuth.
