(* ===== verification/OAuthFacts.v ===== *)
(** * What the OAuth service promises

    An installation takes a session that this browser started, an active
    administrator and a member of the team; a command made on the way to a
    failure is taken back; a client comes with a grant that is current, and a
    rotated grant is stored before it is used; in every interleaving with the
    rest of the broker a session is good once. *)

From S2P Require Import Prelude Resume GoText Codec Aes Json Protocol Store Tables World Sqlite Integrity StoreFacts CoreText Sender Hub HubFacts Posts Core CoreGuards Onboarding OnboardingFacts System Lift OAuth.

Open Scope Z_scope.
Open Scope prog_scope.

Section Facts.
Context {E : Env} {O : OEnv} (cfg : OAuthConfig).
Implicit Types v : OWorld.

(** ** Sealed grants *)

(** [text] is the grant [c], sealed for [team]. *)
Definition sealed (team : string) (c : credentials) (text : string) : Prop :=
  exists t data, cred_text c = Some data
    /\ text = raw_base64_encode (rand_read t NonceSize
         ++ aead_seal (bytes_of (oEncryptionKey cfg)) (rand_read t NonceSize) (bytes_of data) (bytes_of team)).

(** ** Steps that leave the rows, the sessions and the lock alone *)

Definition untouched v v' : Prop :=
  odb v' = odb v /\ ow_states v' = ow_states v /\ ow_mu v' = ow_mu v.
#[export] Instance untouched_preorder : PreOrder untouched.
Proof. split; [done|]. unfold untouched. intros x y z (-> & -> & ->) (-> & -> & ->). done. Qed.

Lemma wp_oask {X} (f : nat -> X) evs (Q : X -> OWorld -> Prop) v :
  (forall v', untouched v v' -> ow_trace v' = ow_trace v ++ evs (f (w_tick (ow_world v))) ->
     Q (f (w_tick (ow_world v))) v') ->
  wp (oask f evs) Q v.
Proof. intros H. apply wp_atomic. by apply H. Qed.

Lemma wp_lift_query {X} (q : DB -> sres X) (f : sres X -> res X) (Q : res X -> OWorld -> Prop) v :
  (forall msg, f (SqlErr (SqlFault msg)) = Err (ErrOther msg)) ->
  (forall r v', untouched v v' -> ow_trace v' = ow_trace v ->
     r = f (q (odb v)) \/ (exists msg, r = Err (ErrOther msg)) -> Q r v') ->
  wp (lift (r <- query q ;; Ret (f r))) Q v.
Proof.
  intros Hf H. apply wp_lift, wp_bind, wp_query_fault; [intros msg|]; apply wp_ret, H; try done; [|by left].
  right. exists msg. apply Hf.
Qed.

(** A query takes one tick of the clock. *)
Lemma wp_query_tick {X} (q : DB -> sres X) (f : sres X -> res X) v :
  wp (lift (r <- query q ;; Ret (f r))) (fun _ v' => w_tick (ow_world v') = S (w_tick (ow_world v))) v.
Proof. apply wp_lift, wp_bind, wp_query_fault; [intros msg|]; by apply wp_ret. Qed.

Lemma wp_InstallationByTeam team (Q : res Installation -> OWorld -> Prop) v :
  (forall r v', untouched v v' -> ow_trace v' = ow_trace v ->
     r = found (t_installations (odb v) !! team) \/ (exists msg, r = Err (ErrOther msg)) -> Q r v') ->
  wp (lift (InstallationByTeam team)) Q v.
Proof.
  intros H. apply wp_lift_query; [done|]. intros r v' Hu Ht Hr. apply H; [done..|].
  unfold select_installation in Hr. by rewrite scan_sql_row in Hr.
Qed.

Lemma wp_ListInstallations (Q : res (list Installation) -> OWorld -> Prop) v :
  (forall r v', untouched v v' -> ow_trace v' = ow_trace v ->
     match r with
     | Ok l => forall i, i ∈ l <-> exists team, t_installations (odb v) !! team = Some i
     | Err _ => True
     end -> Q r v') ->
  wp (lift ListInstallations) Q v.
Proof.
  intros H. apply wp_lift_query; [done|]. intros r v' Hu Ht Hr. apply H; [done..|].
  destruct Hr as [->|[msg ->]]; [|done]. cbn. intros i. unfold order_by_text.
  rewrite merge_sort_Permutation, elem_of_select. naive_solver.
Qed.

Lemma wp_SaveInstallation i (Q : res unit -> OWorld -> Prop) v :
  (forall v', ow_states v' = ow_states v -> ow_mu v' = ow_mu v -> ow_trace v' = ow_trace v ->
     (forall msg, odb v' = odb v -> Q (Err (ErrOther msg)) v')
     /\ (odb v' = set_installations (<[nTeamID i := i]> (t_installations (odb v))) (odb v) -> Q (Ok tt) v')) ->
  wp (lift (SaveInstallation i)) Q v.
Proof.
  intros H. apply wp_lift, wp_bind, wp_exec_fault; [intros msg|]; apply wp_ret; cbn; by apply H.
Qed.

Lemma wp_encrypt team c (Q : res string -> OWorld -> Prop) v :
  (forall r v', untouched v v' -> ow_trace v' = ow_trace v ->
     match r with Ok text => sealed team c text | Err e => e <> errCollision end -> Q r v') ->
  wp (encrypt cfg team c) Q v.
Proof.
  intros H. unfold encrypt. destruct (cred_text c) as [data|] eqn:Hc; [|by apply wp_ret, H].
  apply wp_bind, wp_oask. intros v' Hu Ht. apply wp_ret, H; [done|by rewrite Ht, app_nil_r|].
  by eexists _, data.
Qed.

(** A grant that Mattermost gave for [f], at some moment of the run. *)
Definition granted (f : form) (c : credentials) : Prop :=
  exists tick t expires,
    token_of (token_endpoint tick (f ++ [("client_id", oClientID cfg); ("client_secret", oClientSecret cfg)])) = Ok t
    /\ crAccessToken c = trAccessToken t /\ crRefreshToken c = trRefreshToken t
    /\ crExpiresAt c = expires + wrap64 (trExpiresIn t * second).

Definition exchanged (ev : OEvent) : Prop := match ev with OvExchange _ _ => True | _ => False end.

Lemma wp_exchange f (Q : res credentials -> OWorld -> Prop) v :
  (forall r v', untouched v v' -> (exists evs, ow_trace v' = ow_trace v ++ evs /\ Forall exchanged evs) ->
     match r with Ok c => granted f c | Err _ => True end -> Q r v') ->
  wp (exchange cfg f) Q v.
Proof.
  intros H. unfold exchange. apply wp_bind, wp_oask. intros v1 Hu1 Ht1.
  destruct (token_of _) as [t|e] eqn:Et.
  - apply wp_bind, wp_oask. intros v2 Hu2 Ht2. apply wp_bind, wp_oask. intros v3 Hu3 Ht3.
    apply wp_ret, H.
    + by repeat (etrans; [eassumption|]).
    + rewrite Ht3, Ht2, Ht1, !app_nil_r. eexists. split; [done|]. by repeat constructor.
    + by eexists _, t, (clock (w_tick (ow_world v1))).
  - apply wp_ret, H; [done| |done]. rewrite Ht1. eexists. split; [done|]. by repeat constructor.
Qed.

(** ** Rotating the grants of a user *)

Definition with_text (i : Installation) (text : string) : Installation :=
  MkInstallation (nTeamID i) (nUserID i) text (nCommandID i) (nCommandToken i).

(** A row stays, or it is of the user and its grant is now [c]. *)
Definition regrant (user : string) (c : credentials) (i i' : Installation) : Prop :=
  i' = i \/ nUserID i = user /\ exists text, sealed (nTeamID i) c text /\ i' = with_text i text.
Definition regranted (user : string) (c : credentials) (d d' : DB) : Prop :=
  exists t, d' = set_installations t d
    /\ forall team, option_Forall2 (regrant user c) (t_installations d !! team) (t !! team).

Lemma set_installations_same d : set_installations (t_installations d) d = d.
Proof. by destruct d. Qed.

#[export] Instance regrant_preorder user c : PreOrder (regrant user c).
Proof.
  split; [by left|]. intros x y z [->|(Hu & t & Ht & ->)]; [done|].
  intros [->|(_ & t' & Ht' & ->)]; [by right; eauto|]. right. split; [done|]. by exists t'.
Qed.
#[export] Instance regranted_preorder user c : PreOrder (regranted user c).
Proof.
  split.
  - intros d. exists (t_installations d). rewrite set_installations_same. split; [done|]. intros team. reflexivity.
  - intros d1 d2 d3 (t2 & -> & H2) (t3 & -> & H3). exists t3. split; [done|]. intros team.
    etrans; [apply H2 | apply H3].
Qed.

Lemma regranted_one user c d team i text :
  t_installations d !! team = Some i -> nUserID i = user -> nTeamID i = team -> sealed team c text ->
  regranted user c d (set_installations (<[team := with_text i text]> (t_installations d)) d).
Proof.
  intros Hi Hu Ht Hs. eexists. split; [done|]. intros k. destruct (decide (k = team)) as [->|Hk].
  - rewrite lookup_insert_eq, Hi. constructor. right. subst. eauto.
  - by rewrite lookup_insert_ne.
Qed.

(** The row of a team holds the grant [c]. *)
Definition holds (c : credentials) (d : DB) (team : string) : Prop :=
  exists i text, t_installations d !! team = Some i /\ nCredentials i = text /\ sealed team c text.

Definition keyed_rows (d : DB) : Prop := keyed nTeamID (t_installations d).

Lemma regranted_row user c d d' team i :
  regranted user c d d' -> t_installations d !! team = Some i ->
  exists i', t_installations d' !! team = Some i' /\ regrant user c i i'.
Proof. intros (t & -> & H) Hi. specialize (H team). rewrite Hi in H. inversion H; subst; eauto. Qed.

Lemma regranted_keyed user c d d' : regranted user c d d' -> keyed_rows d -> keyed_rows d'.
Proof.
  intros (t & -> & H) Hk k i' Hi. cbn in Hi. specialize (H k). rewrite Hi in H. inversion H as [i ? Hr Heq|]; subst.
  symmetry in Heq. specialize (Hk k i Heq). by destruct Hr as [->|(_ & text & _ & ->)].
Qed.

Lemma holds_regranted user c d d' team : keyed_rows d -> regranted user c d d' -> holds c d team -> holds c d' team.
Proof.
  intros Hk Hr (i & text & Hi & <- & Hs). destruct (regranted_row _ _ _ _ _ _ Hr Hi) as (i' & Hi' & [->|(_ & t & Ht & ->)]).
  - by exists i, (nCredentials i).
  - exists (with_text i t), t. rewrite (Hk _ _ Hi) in Ht. done.
Qed.

(** The row [i] was read from, or what a regrant made of it. *)
Definition present (d : DB) (i : Installation) : Prop :=
  exists i0, t_installations d !! nTeamID i = Some i0 /\ with_text i0 "" = with_text i "".

Lemma with_text_same i0 i text : with_text i0 "" = with_text i "" -> with_text i0 text = with_text i text.
Proof. unfold with_text. intros [= -> -> -> ->]. done. Qed.

Lemma present_regranted user c d d' i : regranted user c d d' -> present d i -> present d' i.
Proof.
  intros Hr (i0 & Hi & Hs). destruct (regranted_row _ _ _ _ _ _ Hr Hi) as (i' & Hi' & [->|(_ & t & _ & ->)]).
  - by exists i0.
  - by exists (with_text i0 t).
Qed.

Definition grant_saved (user : string) (c : credentials) v v' : Prop :=
  ow_states v' = ow_states v /\ ow_mu v' = ow_mu v /\ ow_trace v' = ow_trace v
  /\ regranted user c (odb v) (odb v').

Lemma grant_saved_untouched user c v v' : untouched v v' -> ow_trace v' = ow_trace v -> grant_saved user c v v'.
Proof. intros (Hd & Hs & Hm) Ht. repeat split; try done. by rewrite Hd. Qed.

Lemma grant_saved_trans user c v1 v2 v3 : grant_saved user c v1 v2 -> grant_saved user c v2 v3 -> grant_saved user c v1 v3.
Proof. intros (S1 & M1 & T1 & R1) (S2 & M2 & T2 & R2). repeat split; try congruence. by etrans. Qed.

Lemma wp_save_rows user c l saved v :
  keyed_rows (odb v) -> Forall (present (odb v)) l ->
  wp (save_rows cfg user c l saved) (fun r v' =>
    grant_saved user c v v'
    /\ (r = Ok tt -> saved = Ok tt /\ forall i, i ∈ l -> nUserID i = user -> holds c (odb v') (nTeamID i))) v.
Proof.
  revert saved v. induction l as [|i l IH]; intros saved v Hk Hl; cbn [save_rows].
  - apply wp_ret. split; [by apply grant_saved_untouched|]. intros ->. split; [done|]. by intros i Hi%elem_of_nil.
  - apply Forall_cons in Hl as [Hi Hl]. destruct (String.eqb_spec (nUserID i) user) as [Hu|Hu]; cbn [negb].
    2: { eapply wp_mono; [|by apply IH]. intros r v' [Hg Hr]. split; [done|]. intros Ho.
         destruct (Hr Ho) as [-> Hh]. split; [done|]. intros k [->|Hin]%elem_of_cons; [done|by apply Hh]. }
    apply wp_bind, wp_encrypt. intros r v1 U1 T1 Hr. destruct r as [text|e].
    2: { apply wp_ret. split; [by apply grant_saved_untouched | done]. }
    assert (Hd1 : odb v1 = odb v) by apply U1.
    assert (Hu1 : ow_states v1 = ow_states v /\ ow_mu v1 = ow_mu v) by (split; apply U1).
    apply wp_bind, wp_SaveInstallation. intros v2 S2 M2 T2. rewrite Hd1. split; [intros msg D2|intros D2].
    + eapply wp_mono; [|apply IH; rewrite D2; done]. intros r v' [Hg Hr']. split.
      * eapply grant_saved_trans; [|exact Hg]. apply grant_saved_untouched; [|congruence].
        destruct Hu1. repeat split; congruence.
      * intros Ho. by destruct (Hr' Ho).
    + destruct Hi as (i0 & Hi0 & Hs).
      assert (Hnext : regranted user c (odb v) (odb v2)).
      { rewrite D2. change (MkInstallation _ _ _ _ _) with (with_text i text). rewrite <- (with_text_same i0) by done.
        pose proof (Hk _ _ Hi0) as Ht0. injection Hs as _ Hu0 _ _. cbn. rewrite Ht0.
        apply regranted_one; congruence || done. }
      eapply wp_mono; [|apply IH].
      * intros r v' [Hg Hr']. assert (Hgo : grant_saved user c v v2) by (destruct Hu1; repeat split; congruence || done).
        split; [by eapply grant_saved_trans|]. intros Ho. destruct (Hr' Ho) as [-> Hh]. split; [done|].
        intros k [->|Hin]%elem_of_cons Hku; [|by apply Hh]. eapply holds_regranted; [|apply Hg|].
        -- by eapply regranted_keyed.
        -- rewrite D2. exists (with_text i text), text. cbn. by rewrite lookup_insert_eq.
      * by eapply regranted_keyed.
      * eapply Forall_impl; [exact Hl|]. intros k. by apply (present_regranted user c).
Qed.

Lemma wp_saveCredentials user c (Q : res unit -> OWorld -> Prop) v :
  keyed_rows (odb v) ->
  (forall r v', grant_saved user c v v' ->
     (r = Ok tt -> forall team i, t_installations (odb v) !! team = Some i -> nUserID i = user -> holds c (odb v') team) ->
     Q r v') ->
  wp (saveCredentials cfg user c) Q v.
Proof.
  intros Hk H. unfold saveCredentials. apply wp_bind, wp_ListInstallations. intros r v1 U1 T1 Hr.
  destruct r as [l|e]; [|apply wp_ret, H; [by apply grant_saved_untouched | done]].
  assert (Hd1 : odb v1 = odb v) by apply U1.
  eapply wp_mono; [|apply wp_save_rows; rewrite Hd1].
  - intros r v2 [Hg Hr2]. apply H; [eapply grant_saved_trans; [by apply grant_saved_untouched | done]|].
    intros Ho team i Hi Hu. destruct (Hr2 Ho) as [_ Hh]. rewrite <- (Hk _ _ Hi). apply Hh; [|done]. apply Hr. eauto.
  - done.
  - apply Forall_forall. intros i Hi. apply Hr in Hi as [team Hi]. exists i. by rewrite (Hk _ _ Hi).
Qed.

(** ** Installing *)

(** A command that is this broker's own in the team. *)
Definition own (team : string) (c : Command) : Prop :=
  cmTeamId c = team /\ cmTrigger c = "harness" /\ cmURL c = command_url cfg /\ cmMethod c = CommandMethodPost.

Definition live (c : Command) : Prop := cmTrigger c = "harness" /\ cmDeleteAt c = 0.

Lemma wp_own_command token team existing l acc v :
  wp (own_command cfg token team existing l acc) (fun r v' =>
    untouched v v' /\ ow_trace v' = ow_trace v
    /\ match r with
       | Ok (Some c) => acc = Some c
           \/ existing <> "" /\ own team c /\ exists t, get_command t token existing = Ok (Some c)
       | Ok None => acc = None /\ Forall (fun c => ~ live c) l
       | Err _ => True
       end) v.
Proof.
  revert acc v. induction l as [|c l IH]; intros acc v; cbn [own_command].
  - apply wp_ret. split; [done|]. split; [done|]. destruct acc; auto.
  - destruct (negb _ || negb _) eqn:Elive.
    { eapply wp_mono; [|apply IH]. intros r v' (U & T & Hr). split; [done|]. split; [done|].
      destruct r as [[c'|]|]; [done| |done]. destruct Hr as [-> Hl]. split; [done|]. constructor; [|done].
      intros [Ht Hd]. rewrite Ht, Hd in Elive. done. }
    destruct (negb _ || String.eqb existing "") eqn:Eown; [by apply wp_ret|].
    apply orb_false_iff in Eown as [Eid Ene]. apply negb_false_iff, String.eqb_eq in Eid. rewrite Eid.
    apply String.eqb_neq in Ene.
    apply wp_bind, wp_oask. intros v1 U1 T1. rewrite app_nil_r in T1.
    destruct (get_command _ _ _) as [[full|]|e] eqn:Eget; try by apply wp_ret.
    destruct (negb _ || _ || _ || _) eqn:Ebad; [by apply wp_ret|].
    rewrite !orb_false_iff, !negb_false_iff, !String.eqb_eq in Ebad. destruct Ebad as [[[H1 H2] H3] H4].
    assert (existing <> "" /\ own team full /\ exists t, get_command t token existing = Ok (Some full)) as Hfull
      by (split; [done|]; split; [done|]; by eexists).
    eapply wp_mono; [|apply IH]. intros r v' (U2 & T2 & Hr). split; [by etrans|]. split; [congruence|].
    destruct r as [[c'|]|]; [|destruct Hr as [Hr _]; discriminate Hr|done].
    destruct Hr as [[= ->]|Hr]; by right.
Qed.

(** The row that stands for an installation. *)
Definition installed_row (team user : string) (cred : credentials) (c : Command) (d d' : DB) : Prop :=
  cmId c <> "" /\ cmToken c <> "" /\ exists text, sealed team cred text
    /\ d' = set_installations (<[team := MkInstallation team user text (cmId c) (cmToken c)]> (t_installations d)) d.

Lemma wp_save_installation team user cred c (Q : res unit -> OWorld -> Prop) v :
  (forall r v', ow_states v' = ow_states v -> ow_mu v' = ow_mu v -> ow_trace v' = ow_trace v ->
     match r with
     | Ok _ => installed_row team user cred c (odb v) (odb v')
     | Err e => odb v' = odb v /\ e <> errCollision
     end -> Q r v') ->
  wp (save_installation cfg team user cred c) Q v.
Proof.
  intros H. unfold save_installation. destruct (_ || _) eqn:Ec; [by apply wp_ret, H|].
  apply orb_false_iff in Ec as [Hid%String.eqb_neq Htok%String.eqb_neq].
  apply wp_bind, wp_encrypt. intros r v1 (D1 & S1 & M1) T1 Hr. destruct r as [text|e]; [|by apply wp_ret, H].
  apply wp_bind, wp_SaveInstallation. intros v2 S2 M2 T2. rewrite D1. split; [intros msg|]; intros D2; apply wp_ret, H; try congruence.
  - split; [congruence | done].
  - by repeat (split; [done|]); exists text.
Qed.

(** What an installation of [team] for [user] left: the row with the command,
    which is the one the team's row named before or was made now; or nothing,
    and a command made on the way is deleted again (or has no id to delete it
    by). *)
Definition install_outcome (token team user : string) (cred : credentials) (r : res unit) v v' : Prop :=
  exists evs, ow_trace v' = ow_trace v ++ evs
  /\ match r with
     | Ok _ => exists c, installed_row team user cred c (odb v) (odb v')
         /\ (evs = [OvCommandCreated token team c]
             \/ evs = [] /\ own team c /\ exists i t, t_installations (odb v) !! team = Some i
                  /\ get_command t token (nCommandID i) = Ok (Some c))
     | Err e => odb v' = odb v
         /\ (evs = []
             \/ e <> errCollision /\ exists c, OvCommandCreated token team c ∈ evs
                 /\ (cmId c = "" \/ exists ok, evs = [OvCommandCreated token team c; OvCommandDeleted token (cmId c) ok]))
     end.

Definition rest_same v v' : Prop := ow_states v' = ow_states v /\ ow_mu v' = ow_mu v.

Lemma wp_create_installation token team user cred v :
  wp (create_installation cfg token team user cred) (fun r v' =>
    rest_same v v' /\ install_outcome token team user cred r v v') v.
Proof.
  unfold create_installation. apply wp_bind, wp_oask. intros v1 (D1 & S1 & M1) T1.
  destruct (create_command _ _ _) as [[c|]|e]; cbn in T1.
  2-3: apply wp_ret; split; [done|]; exists []; rewrite T1; by auto.
  apply wp_bind, wp_save_installation. intros r v2 S2 M2 T2 Hr. rewrite D1 in Hr.
  assert (Hsame : rest_same v v2) by (split; congruence).
  destruct r as [[]|e]; cbn [is_ok negb andb when].
  - apply wp_bind, wp_ret, wp_ret. split; [done|]. eexists. rewrite T2, T1. split; [done|]. exists c. auto.
  - destruct Hr as [D2 He]. destruct (String.eqb_spec (cmId c) "") as [Hc|Hc]; cbn [negb when].
    + apply wp_bind, wp_ret, wp_ret. split; [done|]. eexists. rewrite T2, T1. split; [done|]. split; [done|].
      right. split; [done|]. exists c. split; [by left | by left].
    + apply wp_bind, wp_bind, wp_oask. intros v3 (D3 & S3 & M3) T3. apply wp_ret, wp_ret.
      split; [split; congruence || (destruct Hsame; congruence)|]. eexists. rewrite T3, T2, T1, <- app_assoc. split; [done|].
      split; [congruence|]. right. split; [done|]. exists c. split; [by left|]. right. by eexists.
Qed.

Lemma wp_install_over token team user cred commandID v :
  (commandID = "" \/ exists i, t_installations (odb v) !! team = Some i /\ nCommandID i = commandID) ->
  wp (install_over cfg token team user cred commandID) (fun r v' =>
    rest_same v v' /\ install_outcome token team user cred r v v') v.
Proof.
  intros Hid. unfold install_over. apply wp_bind, wp_oask. intros v1 U1 T1. rewrite app_nil_r in T1.
  assert (Hnone : forall e v', untouched v v' -> ow_trace v' = ow_trace v ->
    rest_same v v' /\ install_outcome token team user cred (Err e) v v').
  { intros e v' (D & S & M) T. split; [done|]. exists []. rewrite app_nil_r. auto. }
  destruct (list_commands _ _ _) as [l|e]; [|apply wp_ret; by apply Hnone].
  apply wp_bind. eapply wp_mono; [|apply wp_own_command]. intros r v2 (U2 & T2 & Hr).
  assert (U : untouched v v2) by (by etrans). assert (T : ow_trace v2 = ow_trace v) by congruence.
  assert (Hout : forall r v', rest_same v2 v' -> install_outcome token team user cred r v2 v' ->
    rest_same v v' /\ install_outcome token team user cred r v v').
  { destruct U as (D & S & M). intros r' v' [] H'. split; [split; congruence|].
    unfold install_outcome in *. by rewrite D, T in H'. }
  destruct r as [[c|]|e]; [| |apply wp_ret; by apply Hnone].
  - destruct Hr as [Hr|(Hne & Hown & t & Hget)]; [done|]. destruct Hid as [->|(i & Hi & <-)]; [done|].
    apply wp_save_installation. intros r v3 S3 M3 T3 Hs. apply Hout; [done|].
    exists []. rewrite app_nil_r. split; [done|]. destruct r as [[]|e].
    + exists c. split; [done|]. right. split; [done|]. split; [done|]. exists i, t. by rewrite (proj1 U).
    + destruct Hs as [Hs _]. auto.
  - eapply wp_mono; [|apply wp_create_installation]. intros r v3 []. by apply Hout.
Qed.

Lemma wp_install token team user cred v :
  wp (install cfg token team user cred) (fun r v' =>
    rest_same v v' /\ install_outcome token team user cred r v v') v.
Proof.
  unfold install. apply wp_bind, wp_InstallationByTeam. intros ex v1 (D1 & S1 & M1) T1 Hex.
  assert (Hnext : forall id, (id = "" \/ exists i, t_installations (odb v1) !! team = Some i /\ nCommandID i = id) ->
    wp (install_over cfg token team user cred id) (fun r v' => rest_same v v' /\ install_outcome token team user cred r v v') v1).
  { intros id Hid. eapply wp_mono; [|by apply wp_install_over]. intros r v' [[S M] H]. split; [split; congruence|].
    unfold install_outcome in *. by rewrite D1, T1 in H. }
  destruct ex as [i|[]].
  - apply Hnext. right. exists i. rewrite D1. destruct Hex as [Hex|[msg Hex]]; [|done].
    destruct (t_installations (odb v) !! team); by simplify_eq/=.
  - apply Hnext. by left.
  - apply wp_ret. split; [done|]. exists []. rewrite app_nil_r. auto.
  - apply wp_ret. split; [done|]. exists []. rewrite app_nil_r. auto.
Qed.

(** ** The lock *)

Lemma wp_with_mu {X} (body : prog OWorld X) Q v :
  ow_mu v = false -> wp body (fun x v' => Q x (set_mu false v')) (set_mu true v) -> wp (with_mu body) Q v.
Proof.
  intros Hm H. unfold with_mu. apply wp_bind. unfold wp at 1. cbn. rewrite Hm. cbn.
  apply wp_bind. eapply wp_mono; [|exact H]. intros x v' HQ. by apply wp_bind, wp_modify, wp_ret.
Qed.

(** ** The callback *)

Definition session (r : OAuthRequest) v (p : pendingState) (cookie : string) : Prop :=
  oqCookie r = Some cookie /\ query_get r "state" <> "" /\ ow_states v !! query_get r "state" = Some p
  /\ Sha256.sum (bytes_of cookie) = psBrowser p /\ clock (w_tick (ow_world v)) < psExpires p.

Definition code_form (r : OAuthRequest) : form :=
  [("grant_type", "authorization_code"); ("code", query_get r "code");
   ("redirect_uri", oPublicURL cfg +:+ "/oauth/callback")].

(** What Mattermost said of the holder of [token]. *)
Definition active_admin (token user : string) : Prop :=
  exists t, get_me t token = Ok (Some (MkOUser user true 0)).
Definition active_member (token team user : string) : Prop := exists t, get_team_member t token team user = Ok (Some 0).
Definition active_team (token teamRef team : string) : Prop :=
  IsValidId team = true
  /\ ((IsValidId teamRef = true /\ exists t status, get_team t token teamRef = (Ok (Some (MkOTeam team 0)), status))
      \/ exists t, get_team_by_name t token teamRef = Ok (Some (MkOTeam team 0))).

Definition refused (resp : HTTPResponse) : Prop := exists msg, rsPage resp = ErrorPage msg.

(** The part after the exchange: for the grant and the user that [cred] is of. *)
Definition admitted (teamRef : string) (cred : credentials) (resp : HTTPResponse) (d d' : DB) : Prop :=
  exists user, active_admin (crAccessToken cred) user
  /\ (refused resp /\ regranted user cred d d'
      \/ resp = installed cfg
         /\ exists team c d1, active_team (crAccessToken cred) teamRef team
            /\ active_member (crAccessToken cred) team user
            /\ regranted user cred d d1 /\ installed_row team user cred c d1 d').

Lemma wp_selected_team token teamRef v :
  wp (selected_team token teamRef) (fun r v' => untouched v v' /\
    match r with
    | Ok (Some tm) => IsValidId (otId tm) = true -> otDeleteAt tm = 0 -> active_team token teamRef (otId tm)
    | _ => True
    end) v.
Proof.
  assert (Hname : forall v1, untouched v v1 -> wp (GetTeamByName token teamRef) (fun r v' => untouched v v' /\
    match r with
    | Ok (Some tm) => IsValidId (otId tm) = true -> otDeleteAt tm = 0 -> active_team token teamRef (otId tm)
    | _ => True
    end) v1).
  { intros v1 U1. apply wp_oask. intros v2 U2 _. split; [by etrans|].
    destruct (get_team_by_name _ _ _) as [[[id del]|]|] eqn:Eg; try done. cbn. intros Hv ->. split; [done|]. right. by eexists. }
  unfold selected_team. destruct (IsValidId teamRef) eqn:Ev; [|by apply Hname].
  apply wp_bind, wp_oask. intros v1 U1 _. destruct (get_team _ _ _) as [r status] eqn:Eg.
  assert (Hret : wp (Ret r) (fun r v' => untouched v v' /\
    match r with
    | Ok (Some tm) => IsValidId (otId tm) = true -> otDeleteAt tm = 0 -> active_team token teamRef (otId tm)
    | _ => True
    end) v1).
  { apply wp_ret. split; [done|]. destruct r as [[[id del]|]|]; try done. cbn. intros Hv ->. split; [done|]. left. eauto. }
  repeat case_match; subst; first [exact Hret | by apply Hname].
Qed.

Lemma refused_error cookies msg status : refused (http_error cookies msg status).
Proof. by exists msg. Qed.
#[local] Hint Resolve refused_error : core.

Lemma wp_install_with_code r teamRef v :
  keyed_rows (odb v) ->
  wp (install_with_code cfg teamRef (query_get r "code")) (fun resp v' =>
    rest_same v v'
    /\ (refused resp /\ odb v' = odb v
        \/ exists cred, granted (code_form r) cred /\ admitted teamRef cred resp (odb v) (odb v'))) v.
Proof.
  intros Hk. unfold install_with_code. apply wp_bind, wp_exchange. intros rc v1 (D1 & S1 & M1) _ Hg.
  destruct rc as [cred|e]; [|apply wp_ret; split; [done|]; left; auto].
  apply wp_bind, wp_oask. intros v2 (D2 & S2 & M2) _.
  destruct (get_me _ _) as [[user|]|] eqn:Eme; [|apply wp_ret; split; [split; congruence|left; split; [auto|congruence]]..].
  destruct (negb _ || negb _) eqn:Eadm; [apply wp_ret; split; [split; congruence|left; split; [auto|congruence]]|].
  apply orb_false_iff in Eadm as [Ha%negb_false_iff Hd%negb_false_iff%Z.eqb_eq].
  assert (Hadmin : active_admin (crAccessToken cred) (ouId user)).
  { eexists. rewrite Eme. destruct user; cbn in *; by subst. }
  assert (Dv : odb v2 = odb v) by congruence.
  apply wp_bind, wp_saveCredentials; [by rewrite Dv|]. intros saved v3 (S3 & M3 & _ & R3) _. rewrite Dv in R3.
  assert (Hre : forall cookies msg status v', odb v' = odb v3 -> ow_states v' = ow_states v3 -> ow_mu v' = ow_mu v3 ->
    rest_same v v' /\ (refused (http_error cookies msg status) /\ odb v' = odb v
        \/ exists cred, granted (code_form r) cred
             /\ admitted teamRef cred (http_error cookies msg status) (odb v) (odb v'))).
  { intros cookies msg status v' D S M. split; [split; congruence|]. right. exists cred. split; [done|].
    exists (ouId user). split; [done|]. left. rewrite D. auto. }
  destruct saved as [[]|e]; [|apply wp_ret; by apply Hre].
  apply wp_bind. eapply wp_mono; [|apply wp_selected_team]. intros rt v4 [(D4 & S4 & M4) Hteam].
  destruct rt as [[team|]|e]; [|apply wp_ret; by apply Hre..].
  destruct (negb _ || negb _) eqn:Eteam; [apply wp_ret; by apply Hre|].
  apply orb_false_iff in Eteam as [Hv%negb_false_iff Hdel%negb_false_iff%Z.eqb_eq].
  apply wp_bind, wp_oask. intros v5 (D5 & S5 & M5) _.
  destruct (get_team_member _ _ _ _) as [[[]|]|] eqn:Emem; try (apply wp_ret; apply Hre; congruence).
  apply wp_bind. eapply wp_mono; [|apply wp_install]. intros ri v6 ([S6 M6] & evs & _ & Hi). apply wp_ret.
  destruct ri as [[]|e].
  - destruct Hi as (c & Hrow & _). split; [split; congruence|]. right. exists cred. split; [done|].
    exists (ouId user). split; [done|]. right. split; [done|]. exists (otId team), c, (odb v3).
    split; [by apply Hteam|]. split; [by eexists|]. split; [done|]. by rewrite D5, D4 in Hrow.
  - destruct Hi as [D6 _]. case_bool_decide; apply Hre; congruence.
Qed.

(** C6. Who can install.  A callback changes nothing unless it comes, before
    it expires, with a state this service issued and the cookie it issued it
    with; the state is then used up.  Even so nothing changes unless
    Mattermost turns the code into a grant of an active system administrator;
    the rows of that user's installations then hold the new grant, and no other
    row is touched.  And the one row an installation writes is of a team that
    exists, has this user as a member, and is named by the session; it holds the
    grant, sealed, and a command's credentials. *)
Theorem callback_authorized r v :
  ow_mu v = false -> keyed_rows (odb v) ->
  wp (callback cfg r) (fun resp v' =>
    ow_mu v' = false
    /\ (resp = invalid_session /\ odb v' = odb v /\ ow_states v' = ow_states v
        \/ exists p cookie, session r v p cookie /\ ow_states v' = delete (query_get r "state") (ow_states v)
           /\ (refused resp /\ odb v' = odb v
               \/ exists cred, granted (code_form r) cred /\ admitted (psTeamRef p) cred resp (odb v) (odb v')))) v.
Proof.
  intros Hm Hk. unfold callback. destruct (oqCookie r) as [cookie|] eqn:Ec; [|apply wp_ret; auto].
  destruct (String.eqb_spec (query_get r "state") "") as [|Hs]; [apply wp_ret; auto|].
  apply wp_bind, wp_atomic. destruct (ow_states v !! query_get r "state") as [p|] eqn:Ep; [|apply wp_ret; auto].
  cbv zeta. destruct (clock _ <? _) eqn:Hexp; [apply Z.ltb_lt in Hexp|apply wp_ret; auto].
  case_bool_decide as Hb; cbn [andb fst snd]; [|apply wp_ret; auto].
  assert (Hses : session r v p cookie) by done.
  destruct (_ || _); [apply wp_ret; split; [done|]; right; exists p, cookie; auto|].
  apply wp_with_mu; [done|]. eapply wp_mono; [|by apply wp_install_with_code]. intros resp v2 [[S2 M2] H2].
  split; [done|]. right. exists p, cookie. split; [done|]. split; [exact S2|]. exact H2.
Qed.

(** ** Opening grants *)

(** [crypto/rand] fills the buffer. *)
Definition random_fills : Prop := forall t n, length (rand_read t n) = n /\ Forall is_byte (rand_read t n).

(** What is opened for a team was sealed for that team: exactly the texts that
    encode a nonce with the ciphertext under it of a grant, with the team as
    additional data, are accepted. *)
Lemma decrypt_spec team text c :
  decrypt cfg team text = Ok c <->
  exists nonce data, length nonce = NonceSize
    /\ raw_base64_decode text
       = Some (nonce ++ aead_seal (bytes_of (oEncryptionKey cfg)) nonce data (bytes_of team))
    /\ cred_parse (str_of data) = Some c /\ crAccessToken c <> "".
Proof.
  unfold decrypt. split.
  - destruct (raw_base64_decode text) as [l|] eqn:Eb; [|done].
    destruct (length l <? NonceSize)%nat eqn:El; [done|]. apply Nat.ltb_ge in El.
    destruct (aead_open _ _ _ _) as [data|] eqn:Eo; [|done]. destruct (cred_parse _) as [c'|] eqn:Ep; [|done].
    destruct (String.eqb_spec (crAccessToken c') ""); [done|]. intros [= <-].
    apply aead_open_sealed in Eo. exists (take NonceSize l), data. rewrite <- Eo, take_drop.
    split; [rewrite length_take; lia|]. done.
  - intros (nonce & data & Hn & -> & Hp & Ht). rewrite length_app.
    rewrite (proj2 (Nat.ltb_ge _ _)) by lia. rewrite <- Hn, take_app_length, drop_app_length, aead_open_seal, Hp.
    by destruct (String.eqb_spec (crAccessToken c) "").
Qed.

Lemma sealed_opens team c text :
  random_fills -> (forall data, cred_text c = Some data -> cred_parse data = Some c) -> crAccessToken c <> "" ->
  sealed team c text -> decrypt cfg team text = Ok c.
Proof.
  intros Hr Hp Ht (t & data & Hc & ->). destruct (Hr t NonceSize) as [Hl Hb]. apply decrypt_spec.
  exists (rand_read t NonceSize), (bytes_of data). split; [done|]. rewrite raw_base64_round_trip.
  - split; [done|]. rewrite str_of_bytes_of. auto.
  - apply Forall_app_2; [done|]. apply aead_seal_bytes; [apply bytes_of_range | done | apply bytes_of_range].
Qed.

(** ** Clients *)

(** [c] is a grant that some row of the user holds. *)
Definition grant_of (d : DB) (user team : string) (c : credentials) : Prop :=
  exists i, t_installations d !! team = Some i /\ nUserID i = user /\ decrypt cfg team (nCredentials i) = Ok c.

(** Every other grant of the user was written before [c], or at the same time
    and lasts no longer. *)
Definition latest_grant (d : DB) (user : string) (c : credentials) : Prop :=
  (exists team, grant_of d user team c)
  /\ forall team c', grant_of d user team c' ->
       crUpdatedAt c' < crUpdatedAt c \/ crUpdatedAt c' = crUpdatedAt c /\ crExpiresAt c' <= crExpiresAt c.

Lemma not_newer c' c :
  newer c' c = false ->
  crUpdatedAt c' < crUpdatedAt c \/ crUpdatedAt c' = crUpdatedAt c /\ crExpiresAt c' <= crExpiresAt c.
Proof. unfold newer. rewrite orb_false_iff, andb_false_iff, !Z.ltb_ge, Z.eqb_neq. lia. Qed.

Lemma newer_irrefl c : newer c c = false.
Proof. unfold newer. rewrite !Z.ltb_irrefl. by rewrite andb_false_r. Qed.

Lemma newer_trans c1 c2 c3 : newer c1 c2 = false -> newer c2 c3 = false -> newer c1 c3 = false.
Proof. unfold newer. rewrite !orb_false_iff, !andb_false_iff, !Z.ltb_ge, !Z.eqb_neq. lia. Qed.

Lemma newer_asym c1 c2 : newer c1 c2 = true -> newer c2 c1 = false.
Proof.
  unfold newer. rewrite orb_false_iff, andb_false_iff, orb_true_iff, andb_true_iff,
    !Z.ltb_ge, !Z.ltb_lt, Z.eqb_eq, Z.eqb_neq. lia.
Qed.

Lemma newest_spec d i l acc :
  keyed_rows d -> (forall x, x ∈ l -> exists team, t_installations d !! team = Some x) ->
  (exists team, grant_of d (nUserID i) team acc) ->
  (exists team, grant_of d (nUserID i) team (newest cfg i acc l))
  /\ newer acc (newest cfg i acc l) = false
  /\ forall other c, other ∈ l -> nUserID other = nUserID i -> nTeamID other <> nTeamID i ->
       decrypt cfg (nTeamID other) (nCredentials other) = Ok c -> newer c (newest cfg i acc l) = false.
Proof.
  intros Hk. unfold newest. revert acc. induction l as [|o l IH]; intros acc Hl Hacc; cbn [foldl].
  { split; [done|]. split; [apply newer_irrefl|]. by intros other c Hin%elem_of_nil. }
  assert (Hstep : (exists team, grant_of d (nUserID i) team (newest_step cfg i acc o))
    /\ newer acc (newest_step cfg i acc o) = false
    /\ forall c, nUserID o = nUserID i -> nTeamID o <> nTeamID i ->
         decrypt cfg (nTeamID o) (nCredentials o) = Ok c -> newer c (newest_step cfg i acc o) = false).
  { unfold newest_step. destruct (String.eqb_spec (nUserID o) (nUserID i)) as [Hu|]; cbn [negb orb]; [|by rewrite newer_irrefl].
    destruct (String.eqb_spec (nTeamID o) (nTeamID i)) as [|Ht]; [by rewrite newer_irrefl|].
    destruct (decrypt _ _ _) as [c|] eqn:Ed; [|by rewrite newer_irrefl].
    destruct (newer c acc) eqn:En.
    - destruct (Hl o ltac:(by left)) as [team Ho]. pose proof (Hk _ _ Ho) as <-.
      split; [by exists (nTeamID o), o|]. split; [|by intros c' _ _ [= <-]; apply newer_irrefl].
      by apply newer_asym.
    - split; [done|]. split; [apply newer_irrefl|]. by intros c' _ _ [= <-]. }
  destruct Hstep as (Hg & Ha & Ho). destruct (IH (newest_step cfg i acc o)) as (Hg' & Ha' & Hl'); [by auto using list_elem_of_further..|done|].
  split; [done|]. split; [by eapply newer_trans|].
  intros other c [->|Hin]%elem_of_cons; [|by apply Hl']. intros Hu Ht Hd. eapply newer_trans; [by apply Ho|done].
Qed.

Definition refresh_form (c : credentials) : form := [("grant_type", "refresh_token"); ("refresh_token", crRefreshToken c)].

(** The token [r] is current for [team] at [now]: of the latest grant of the
    team's installer when it lasts more than a minute, and else of its
    refreshment, which is stored. *)
Definition current (team : string) (now : Time) (r : res string) (d d' : DB) : Prop :=
  match r with
  | Ok token => exists i best, t_installations d !! team = Some i /\ latest_grant d (nUserID i) best
      /\ (now + 60000000000 < crExpiresAt best /\ token = crAccessToken best /\ d' = d
          \/ crExpiresAt best <= now + 60000000000 /\ crRefreshToken best <> ""
              /\ exists fresh, granted (refresh_form best) fresh /\ token = crAccessToken fresh
              /\ regranted (nUserID i) (with_refresh_token (crRefreshToken best) fresh) d d'
              /\ forall k j, t_installations d !! k = Some j -> nUserID j = nUserID i ->
                   holds (with_refresh_token (crRefreshToken best) fresh) d' k)
  | Err _ => d' = d \/ exists user c, regranted user c d d'
  end.

Lemma with_refresh_token_access rt c : crAccessToken (with_refresh_token rt c) = crAccessToken c.
Proof. unfold with_refresh_token. by case_match. Qed.

Lemma wp_current_token team v :
  keyed_rows (odb v) ->
  wp (current_token cfg team) (fun r v' => rest_same v v'
    /\ current team (clock (2 + w_tick (ow_world v))) r (odb v) (odb v')) v.
Proof.
  intros Hk. unfold current_token. apply wp_bind. eapply wp_mono; [|apply wp_and; [apply wp_query_tick
    | apply (wp_InstallationByTeam team (fun r v' => untouched v v' /\
        (r = found (t_installations (odb v) !! team) \/ exists msg, r = Err (ErrOther msg)))); by intros]].
  intros ri v1 [T1 [(D1 & S1 & M1) Hri]].
  assert (Hsame : forall e v', untouched v v' -> rest_same v v'
    /\ current team (clock (2 + w_tick (ow_world v))) (Err e) (odb v) (odb v')).
  { intros e v' (D & S & M). split; [done|]. by left. }
  destruct ri as [i|e]; [|apply wp_ret; by apply Hsame].
  assert (Hi : t_installations (odb v) !! team = Some i).
  { destruct Hri as [Hri|[msg Hri]]; [|done]. destruct (t_installations (odb v) !! team); by simplify_eq/=. }
  destruct (decrypt cfg team (nCredentials i)) as [cred|e] eqn:Ed; [|apply wp_ret; by apply Hsame].
  apply wp_bind. eapply wp_mono; [|apply wp_and; [apply wp_query_tick
    | apply (wp_ListInstallations (fun r v' => untouched v1 v' /\
        match r with Ok l => forall i, i ∈ l <-> exists team, t_installations (odb v1) !! team = Some i | Err _ => True end)); by intros]].
  intros rl v2 [T2 [(D2 & S2 & M2) Hrl]].
  destruct rl as [l|e]; [|apply wp_ret; apply Hsame; repeat split; congruence].
  assert (Hteam : nTeamID i = team) by (by apply Hk).
  assert (Hbest : latest_grant (odb v) (nUserID i) (newest cfg i cred l)).
  { destruct (newest_spec (odb v) i l cred Hk) as (Hg & Ha & Hl).
    - intros x Hx. rewrite <- D1. by apply Hrl.
    - exists team, i. done.
    - split; [done|]. intros k c (j & Hj & Hu & Hd). apply not_newer. pose proof (Hk _ _ Hj) as <-.
      destruct (decide (nTeamID j = team)) as [Hjt|Hjt].
      + rewrite Hjt, Hi in Hj. injection Hj as <-. rewrite Hjt, Ed in Hd. by injection Hd as <-.
      + apply (Hl j); [|congruence..|done]. apply Hrl. rewrite D1. by eexists. }
  revert Hbest. generalize (newest cfg i cred l) as best. intros best Hbest.
  apply wp_bind, wp_oask. intros v3 (D3 & S3 & M3) _. rewrite T2, T1.
  change (clock (S (S (w_tick (ow_world v))))) with (clock (2 + w_tick (ow_world v))).
  destruct (Z.ltb_spec (clock (2 + w_tick (ow_world v)) + minute) (crExpiresAt best)) as [Hlong|Hshort].
  { apply wp_ret. split; [split; congruence|]. exists i, best. split; [done|]. split; [done|]. left.
    split; [exact Hlong|]. split; [done | congruence]. }
  destruct (String.eqb_spec (crRefreshToken best) "") as [|Hrefresh]; [apply wp_ret; apply Hsame; repeat split; congruence|].
  apply wp_bind, wp_exchange. intros rf v4 (D4 & S4 & M4) _ Hf.
  destruct rf as [fresh|e]; [|apply wp_ret; apply Hsame; repeat split; congruence].
  assert (Dv : odb v4 = odb v) by congruence.
  apply wp_bind, wp_saveCredentials; [by rewrite Dv|]. intros rs v5 (S5 & M5 & _ & R5) Hholds. rewrite Dv in R5, Hholds.
  destruct rs as [[]|e]; apply wp_ret; (split; [split; congruence|]).
  - exists i, best. split; [done|]. split; [done|]. right.
    split; [exact Hshort|]. split; [done|]. exists fresh. rewrite with_refresh_token_access.
    split; [done|]. split; [done|]. split; [done|]. by apply Hholds.
  - right. by eexists _, _.
Qed.

(** C25. A client is current.  Its token is that of the grant of the team's
    installer that was written last (of those written at that time, the one
    that lasts longest), if, at the moment the run reads the clock, after its
    two queries, that grant lasts more than another minute; and if it does
    not, the grant was refreshed with its own refresh token, and every
    installation of that installer holds the new grant before the client is
    handed out.  No other row is touched, and the lock is free again. *)
Theorem Client_current team v :
  ow_mu v = false -> keyed_rows (odb v) ->
  wp (oauth_Client cfg team) (fun r v' =>
    ow_mu v' = false /\ ow_states v' = ow_states v
    /\ current team (clock (2 + w_tick (ow_world v))) r (odb v) (odb v')) v.
Proof.
  intros Hm Hk. apply wp_with_mu; [done|]. eapply wp_mono; [|by apply wp_current_token].
  intros r v' [[S _] H]. done.
Qed.

(** C26. An installation is all or nothing.  It ends with the team's row
    holding the user, the sealed grant and the credentials of a command that is
    either the one this broker had made for the team before, checked with
    Mattermost, or made now.  Otherwise no row has changed, and a command made
    on the way is deleted again (unless Mattermost gave it no id to delete it
    by); and a collision is reported only before anything was made. *)
Theorem install_all_or_nothing token team user cred v :
  wp (install cfg token team user cred) (fun r v' =>
    ow_states v' = ow_states v /\ ow_mu v' = ow_mu v /\ install_outcome token team user cred r v v') v.
Proof. eapply wp_mono; [|apply wp_install]. intros r v' [[S M] H]. done. Qed.

Lemma VerifyCommand_sound team token v :
  wp (VerifyCommand team token) (fun b v' => untouched v v' /\ ow_trace v' = ow_trace v
    /\ (b = true -> token <> "" /\ exists i, t_installations (odb v) !! team = Some i
          /\ nCommandID i <> "" /\ nCommandToken i = token)) v.
Proof.
  unfold VerifyCommand. destruct (String.eqb_spec token "") as [->|Ht]; [by apply wp_ret|].
  apply wp_bind, wp_InstallationByTeam. intros r v' U T Hr. apply wp_ret. split; [done|]. split; [done|].
  destruct r as [i|e]; [|done]. rewrite !andb_true_iff, !negb_true_iff, !String.eqb_neq, String.eqb_eq.
  intros [[Hc _] ->]. split; [done|]. exists i. destruct Hr as [Hr|[msg Hr]]; [|done].
  destruct (t_installations (odb v) !! team); by simplify_eq/=.
Qed.
End Facts.

(** ** Sessions, in every interleaving *)

(** How often a state was issued, and how often it was used. *)
Definition issues (state : string) (ev : OEvent) : bool :=
  match ev with OvIssued s _ _ => String.eqb s state | _ => false end.
Definition consumes (state : string) (ev : OEvent) : bool :=
  match ev with OvConsumed s _ _ _ => String.eqb s state | _ => false end.
Definition count (f : OEvent -> bool) (tr : list OEvent) : nat := length (List.filter f tr).
Definition session_event (ev : OEvent) : bool :=
  match ev with OvIssued _ _ _ | OvConsumed _ _ _ _ => true | _ => false end.

#[global] Arguments count : simpl never.

Lemma count_app f tr1 tr2 : count f (tr1 ++ tr2) = (count f tr1 + count f tr2)%nat.
Proof. unfold count. by rewrite List.filter_app, length_app. Qed.

Record sessions_ok (v : OWorld) : Prop := {
  ss_bound : (size (ow_states v) <= 1000)%nat;
  ss_pending state p : ow_states v !! state = Some p -> exists browser, OvIssued state browser p ∈ ow_trace v;
  ss_issued state browser p : OvIssued state browser p ∈ ow_trace v -> psBrowser p = Sha256.sum (bytes_of browser);
  ss_consumed state cookie p now : OvConsumed state cookie p now ∈ ow_trace v ->
    Sha256.sum (bytes_of cookie) = psBrowser p /\ now < psExpires p
    /\ exists browser, OvIssued state browser p ∈ ow_trace v;
  ss_once state : (count (consumes state) (ow_trace v)
    + (if bool_decide (is_Some (ow_states v !! state)) then 1 else 0) <= count (issues state) (ow_trace v))%nat
}.

(** A step that keeps the sessions well-formed. *)
Definition sessions_step (v v' : OWorld) : Prop := sessions_ok v -> sessions_ok v'.
#[export] Instance sessions_step_preorder : PreOrder sessions_step.
Proof. split; unfold sessions_step; [intros v H; exact H|]. intros x y z H1 H2 H. auto. Qed.

Lemma session_events_only evs f : (forall ev, f ev = true -> session_event ev = true) ->
  Forall (fun ev => session_event ev = false) evs -> count f evs = 0%nat.
Proof.
  intros Hf. induction 1 as [|ev evs Hev _ IH]; [done|]. unfold count in *. simpl.
  destruct (f ev) eqn:E; [|done]. rewrite (Hf ev E) in Hev. done.
Qed.

Lemma quiet_session v v' evs :
  ow_states v' = ow_states v -> ow_trace v' = ow_trace v ++ evs ->
  Forall (fun ev => session_event ev = false) evs -> sessions_step v v'.
Proof.
  intros Hs Ht He [Hb Hp Hi Hc Ho].
  assert (Hin : forall ev, session_event ev = true -> ev ∈ ow_trace v' <-> ev ∈ ow_trace v).
  { intros ev Hev. rewrite Ht, elem_of_app. split; [|by left]. intros [|H]; [done|].
    rewrite Forall_forall in He. by rewrite (He ev H) in Hev. }
  split; rewrite ?Hs; [done| | | |].
  - intros state p H. destruct (Hp state p H) as [b Hb']. exists b. by apply Hin.
  - intros state b p H. eapply Hi. by apply Hin.
  - intros state c p now H. apply Hin in H; [|done]. destruct (Hc _ _ _ _ H) as (? & ? & b & Hb'). split; [done|].
    split; [done|]. exists b. by apply Hin.
  - intros state. rewrite Ht, !count_app.
    rewrite (session_events_only evs (consumes state)), (session_events_only evs (issues state)) by (by intros [] || done).
    specialize (Ho state). lia.
Qed.

Section Interleaved.
Context {E : Env} {O : OEnv} {C : Config} (cfg : OAuthConfig) (hub : HubConfig).

Lemma purge_subset t m : purge t m ⊆ m.
Proof.
  unfold purge. apply map_subseteq_spec. intros k p H. apply elem_of_list_to_map_2 in H.
  apply list_elem_of_omap in H as ([n [k' p']] & Hin & Hs). cbn in Hs. case_match; [|done]. injection Hs as -> ->.
  apply elem_of_zip_r in Hin. by apply elem_of_map_to_list.
Qed.

Lemma shrink_sessions v m : m ⊆ ow_states v -> sessions_step v (set_states m v).
Proof.
  intros Hm [Hb Hp Hi Hc Ho]. pose proof (fun k p => lookup_weaken m (ow_states v) k p) as Hw.
  split; cbn; [|by eauto..|].
  - etrans; [by apply map_subseteq_size|done].
  - intros state. etrans; [|apply (Ho state)]. apply Nat.add_le_mono_l.
    case_bool_decide as Hs; [|lia]. destruct Hs as [p Hs]. rewrite bool_decide_true; [done|]. eauto.
Qed.

Lemma issue_session v state browser p :
  (size (ow_states v) < 1000)%nat -> psBrowser p = Sha256.sum (bytes_of browser) ->
  sessions_step v (orecord [OvIssued state browser p] (set_states (<[state := p]> (ow_states v)) v)).
Proof.
  intros Hsize Hbr [Hb Hp Hi Hc Ho]. split; cbn.
  - pose proof (map_size_insert state p (ow_states v)) as ->. destruct (ow_states v !! state); cbn; lia.
  - intros k q [[<- <-]|[_ Hk]]%lookup_insert_Some; [exists browser; set_solver|].
    destruct (Hp k q Hk) as [b Hin]. exists b. set_solver.
  - intros k b q [Hin|[= -> -> ->]%list_elem_of_singleton]%elem_of_app; [by eapply Hi | done].
  - intros k c q now [Hin|H%list_elem_of_singleton]%elem_of_app; [|discriminate H].
    destruct (Hc _ _ _ _ Hin) as (? & ? & b & ?). split; [done|]. split; [done|]. exists b. set_solver.
  - intros k. rewrite !count_app. specialize (Ho k). unfold count at 2 4. cbn [List.filter issues consumes].
    destruct (String.eqb_spec state k) as [->|Hk]; cbn.
    + rewrite (bool_decide_true (is_Some _)) by (rewrite lookup_insert_eq; eauto). case_bool_decide; lia.
    + rewrite lookup_insert_ne by done. lia.
Qed.

Lemma consume_session v state cookie p now :
  ow_states v !! state = Some p -> Sha256.sum (bytes_of cookie) = psBrowser p -> now < psExpires p ->
  sessions_step v (orecord [OvConsumed state cookie p now] (set_states (delete state (ow_states v)) v)).
Proof.
  intros Hs Hbr Hexp [Hb Hp Hi Hc Ho]. split; cbn.
  - etrans; [apply map_subseteq_size, delete_subseteq|done].
  - intros k q [_ Hk]%lookup_delete_Some. destruct (Hp k q Hk) as [b Hin]. exists b. set_solver.
  - intros k b q [Hin|H%list_elem_of_singleton]%elem_of_app; [by eapply Hi | discriminate H].
  - intros k c q t [Hin|[= -> -> -> ->]%list_elem_of_singleton]%elem_of_app.
    + destruct (Hc _ _ _ _ Hin) as (? & ? & b & ?). split; [done|]. split; [done|]. exists b. set_solver.
    + split; [done|]. split; [done|]. destruct (Hp state p Hs) as [b Hin]. exists b. set_solver.
  - intros k. rewrite !count_app. specialize (Ho k). unfold count at 2 4. cbn [List.filter issues consumes].
    destruct (String.eqb_spec state k) as [->|Hk]; cbn.
    + rewrite (bool_decide_true (is_Some _)) in Ho by eauto.
      rewrite lookup_delete_eq, (bool_decide_false (is_Some None)) by (by intros []). lia.
    + rewrite lookup_delete_ne by done. lia.
Qed.

Lemma tick_session v n : sessions_step v (otick n v).
Proof. eapply (quiet_session _ _ []); [done|cbn; by rewrite app_nil_r|constructor]. Qed.
#[local] Hint Resolve tick_session : core.

Lemma guards_register state browser teamRef : guards sessions_step (register_state state browser teamRef).
Proof.
  apply guards_atomic. intros v. cbv zeta.
  set (kept := purge (w_tick (ow_world v)) (ow_states v)).
  assert (Hkept : sessions_step v (set_states kept v)) by apply shrink_sessions, purge_subset.
  destruct (1000 <=? size kept)%nat eqn:En; cbn [snd].
  - by trans (set_states kept v).
  - apply Nat.leb_gt in En. set (p := MkPendingState _ _ _). etrans; [exact Hkept|].
    etrans; [by apply (issue_session (set_states kept v) state browser p)|]. apply tick_session.
Qed.

Lemma guards_consume state cookie : guards sessions_step (consume_state state cookie).
Proof.
  apply guards_atomic. intros v. cbv zeta. destruct (ow_states v !! state) as [p|] eqn:Hs; cbn [snd]; [|done].
  destruct (clock _ <? _) eqn:Hexp; [|apply tick_session]. case_bool_decide; [|apply tick_session]. cbn [andb snd].
  apply Z.ltb_lt in Hexp. etrans; [by apply (consume_session v state cookie p)|]. apply tick_session.
Qed.

Lemma guards_oask {X} (f : nat -> X) evs :
  (forall x, Forall (fun ev => session_event ev = false) (evs x)) -> guards sessions_step (oask f evs).
Proof. intros H. apply guards_atomic. intros v. by eapply quiet_session. Qed.
Lemma guards_onow : guards sessions_step onow.
Proof. apply guards_oask. constructor. Qed.
Lemma guards_orandom n : guards sessions_step (orandom n).
Proof. apply guards_oask. constructor. Qed.

Lemma guards_trivial {W A} (m : prog W A) : guards (fun _ _ => True) m.
Proof. unfold guards. induction m; simpl; auto. Qed.

(** The broker's own steps do not know the sessions. *)
Lemma guards_broker {A} (m : prog World A) : guards sessions_step (lift m).
Proof.
  apply guards_lift. eapply guards_mono; [|apply guards_trivial].
  intros w w' _ v _. eapply (quiet_session _ _ []); [done|cbn; by rewrite app_nil_r|constructor].
Qed.

Lemma guards_with_mu {X} (body : prog OWorld X) : guards sessions_step body -> guards sessions_step (with_mu body).
Proof.
  intros H. apply guards_bind.
  - apply guards_await. intros v v'. destruct (ow_mu v); [done|]. intros [= <-].
    eapply (quiet_session _ _ []); [done|cbn; by rewrite app_nil_r|constructor].
  - intros _. apply guards_bind; [done|]. intros x. apply guards_bind; [|done]. apply guards_modify. intros v.
    eapply (quiet_session _ _ []); [done|cbn; by rewrite app_nil_r|constructor].
Qed.

#[local] Hint Resolve guards_oask guards_onow guards_orandom guards_broker guards_register guards_consume guards_with_mu : guards.
#[local] Hint Extern 1 (Forall (fun _ => session_event _ = false) _) => repeat constructor : guards.
#[local] Hint Extern 1 (forall _, Forall (fun _ => session_event _ = false) _) =>
  intros; repeat case_match; repeat constructor : guards.

Lemma guards_encrypt team c : guards sessions_step (encrypt cfg team c).
Proof. unfold encrypt. secure. Qed.
#[local] Hint Resolve guards_encrypt : guards.
Lemma guards_exchange f : guards sessions_step (exchange cfg f).
Proof. unfold exchange. secure. Qed.
Lemma guards_save_rows user c l saved : guards sessions_step (save_rows cfg user c l saved).
Proof. revert saved. induction l as [|i l IH]; intros saved; cbn [save_rows]; secure. Qed.
#[local] Hint Resolve guards_exchange guards_save_rows : guards.
Lemma guards_saveCredentials user c : guards sessions_step (saveCredentials cfg user c).
Proof. unfold saveCredentials. secure. Qed.
Lemma guards_own_command token team ex l acc : guards sessions_step (own_command cfg token team ex l acc).
Proof. revert acc. induction l as [|c l IH]; intros acc; cbn [own_command]; unfold GetCommandById; secure. Qed.
Lemma guards_save_installation team user cred c : guards sessions_step (save_installation cfg team user cred c).
Proof. unfold save_installation. secure. Qed.
#[local] Hint Resolve guards_saveCredentials guards_own_command guards_save_installation : guards.
Lemma guards_install token team user cred : guards sessions_step (install cfg token team user cred).
Proof.
  assert (forall id, guards sessions_step (install_over cfg token team user cred id)).
  { intros id. unfold install_over, create_installation, ListCommands, CreateCommand, DeleteCommand. secure. }
  unfold install. secure.
Qed.
#[local] Hint Resolve guards_install : guards.
Lemma guards_callback r : guards sessions_step (callback cfg r).
Proof.
  unfold callback. secure. apply guards_with_mu.
  unfold install_with_code, GetMe, GetTeamMember, selected_team, GetTeam, GetTeamByName. secure.
Qed.
Lemma guards_start r : guards sessions_step (start cfg r).
Proof. unfold start, randomValue. secure. Qed.
Lemma guards_Client team : guards sessions_step (oauth_Client cfg team).
Proof. apply guards_with_mu. unfold current_token. secure. Qed.
Lemma guards_VerifyCommand team token : guards sessions_step (VerifyCommand team token).
Proof. unfold VerifyCommand. secure. Qed.

(** What may happen in the process: the browser's requests, a need for a
    client, a slash command to verify, and every entry point of the broker. *)
Inductive service_entry : prog OWorld unit -> Prop :=
| service_start r : service_entry (_ <- start cfg r ;; Ret tt)
| service_callback r : service_entry (_ <- callback cfg r ;; Ret tt)
| service_client team : service_entry (_ <- oauth_Client cfg team ;; Ret tt)
| service_verify team token : service_entry (_ <- VerifyCommand team token ;; Ret tt)
| service_broker p : broker_entry hub p -> service_entry (lift p).

Definition fresh_service (w : World) : OWorld := MkOWorld w ∅ false [].

Lemma fresh_sessions w : sessions_ok (fresh_service w).
Proof.
  split; cbn; [rewrite map_size_empty; lia|..].
  - intros state p H. by rewrite lookup_empty in H.
  - intros state b p H. by apply elem_of_nil in H.
  - intros state c p now H. by apply elem_of_nil in H.
  - intros state. rewrite lookup_empty, bool_decide_false; [done | by intros []].
Qed.

Lemma reachable_sessions w0 ps v : reach service_entry ([], fresh_service w0) (ps, v) -> sessions_ok v.
Proof.
  intros Hr. apply (pool_guarantee service_entry sessions_step) in Hr as [_ H]; [by apply H, fresh_sessions | |constructor].
  intros p []; [apply guards_bind; [|done]..|].
  - apply guards_start.
  - apply guards_callback.
  - apply guards_Client.
  - apply guards_VerifyCommand.
  - apply guards_broker.
Qed.

(** C15. Sessions.  In every interleaving of the service's requests, with each
    other and with the rest of the broker: at most a thousand sessions are
    pending; a session that is used was issued with the cookie's value (up to
    its hash) and has not expired; and a state is used at most as often as it
    was issued. *)
Theorem sessions_are_single_use w0 ps v :
  reach service_entry ([], fresh_service w0) (ps, v) ->
  (size (ow_states v) <= 1000)%nat
  /\ (forall state cookie p now, OvConsumed state cookie p now ∈ ow_trace v ->
        now < psExpires p
        /\ exists browser, OvIssued state browser p ∈ ow_trace v
             /\ Sha256.sum (bytes_of cookie) = Sha256.sum (bytes_of browser))
  /\ (forall state, (count (consumes state) (ow_trace v) <= count (issues state) (ow_trace v))%nat).
Proof.
  intros Hr. destruct (reachable_sessions w0 ps v Hr) as [Hb _ Hi Hc Ho]. split; [done|]. split.
  - intros state c p now H. destruct (Hc _ _ _ _ H) as (Hs & Hn & b & Hb'). split; [done|]. exists b.
    rewrite <- (Hi _ _ _ Hb'). done.
  - intros state. specialize (Ho state). lia.
Qed.
End Interleaved.
