(* ===== verification/Server.v ===== *)
(** * The broker's HTTP endpoints ([internal/cli/broker.go], [webhook.go])

    What stands between a request and the handlers of the core: the token of
    an outgoing webhook, the token of the slash command, the mapping of errors
    to statuses.  A request is what its handler reads of it; a body that is too
    long or does not parse is [None]. *)

From S2P Require Import Prelude Resume GoText Codec Aes Json Protocol Store Tables World Sqlite Integrity StoreFacts CoreText Sender Hub Posts Core CoreGuards CoreFacts JobFacts Onboarding Lift OAuth OAuthFacts.

Open Scope Z_scope.
Open Scope prog_scope.

(** ** Options *)

Record brokerOptions : Type := MkBrokerOptions {
  boMMURL : string;
  boOAuthClientID : string;
  boOAuthClientSecret : string;
  boBotProvisioningToken : string;
  boPublicURL : string;
  boListen : string;
  boDBPath : string;
  boCallbackSecret : string;
  boMinHarnessVersion : string;
  boQueueTTL : Z;
  boGracePeriod : Z;
  boJobTimeout : Z
}.

Definition required_flags (o : brokerOptions) : list (string * string) := [
  ("mm-url", boMMURL o); ("oauth-client-id", boOAuthClientID o); ("oauth-client-secret", boOAuthClientSecret o);
  ("bot-provisioning-token", boBotProvisioningToken o); ("public-url", boPublicURL o);
  ("callback-secret", boCallbackSecret o)].

Definition validate (o : brokerOptions) : res brokerOptions :=
  let missing := map (fun kv => "--" +:+ kv.1) (List.filter (fun kv => String.eqb kv.2 "") (required_flags o)) in
  if negb (is_empty_list missing)
  then Err (ErrOther ("missing: " +:+ Join missing ", " +:+ " (or the matching environment variables)"))
  else if (String.length (boCallbackSecret o) <? 32)%nat
  then Err (ErrOther "--callback-secret must be at least 32 characters")
  else Ok (MkBrokerOptions (boMMURL o) (boOAuthClientID o) (boOAuthClientSecret o) (boBotProvisioningToken o)
             (TrimRight (boPublicURL o) "/") (boListen o) (boDBPath o) (boCallbackSecret o) (boMinHarnessVersion o) (boQueueTTL o)
             (boGracePeriod o) (boJobTimeout o)).

(** What [runBroker] hands to [oauth.New]. *)
Definition oauth_config (o : brokerOptions) : OAuthConfig :=
  MkOAuthConfig (boMMURL o) (boPublicURL o) (boOAuthClientID o) (boOAuthClientSecret o)
    (str_of (Sha256.sum (bytes_of ("mhb/oauth/" +:+ boCallbackSecret o)))).

(** ** Answers *)

Inductive answer : Type :=
| Failure (msg : string) (status : Z)
| Accepted
| Found (location : string)
| Body {T : Type} (x : T).

(** ** Outgoing webhooks *)

(** What the client of a bot answers; the calls carry the bot's token. *)
Class WebhookAPI : Type := {
  api_get_post : nat -> string -> string -> res (option Post);
  api_get_channel : nat -> string -> string -> res (option Channel)
}.

Record WebhookPayload : Type := MkWebhookPayload {
  wpToken : string;
  wpPostID : string;
  wpTeamID : string;
  wpChannelID : string;
  wpUserID : string
}.
Definition WebhookPayload_fields : fields WebhookPayload := [
  ("token", field wpToken (fun v x => MkWebhookPayload v (wpPostID x) (wpTeamID x) (wpChannelID x) (wpUserID x)) dec_string);
  ("post_id", field wpPostID (fun v x => MkWebhookPayload (wpToken x) v (wpTeamID x) (wpChannelID x) (wpUserID x)) dec_string);
  ("team_id", field wpTeamID (fun v x => MkWebhookPayload (wpToken x) (wpPostID x) v (wpChannelID x) (wpUserID x)) dec_string);
  ("channel_id", field wpChannelID (fun v x => MkWebhookPayload (wpToken x) (wpPostID x) (wpTeamID x) v (wpUserID x)) dec_string);
  ("user_id", field wpUserID (fun v x => MkWebhookPayload (wpToken x) (wpPostID x) (wpTeamID x) (wpChannelID x) v) dec_string)
].

(** The media type as [mime.ParseMediaType] gives it, and the body read
    accordingly. *)
Record WebhookRequest : Type := MkWebhookRequest {
  wrBotID : string;
  wrContentType : string;
  wrJSON : option json;
  wrForm : option form
}.

Definition form_get (f : form) (key : string) : string :=
  default "" (snd <$> List.find (fun kv => String.eqb kv.1 key) f).

Definition read_payload (r : WebhookRequest) : WebhookPayload + answer :=
  let bad := inr (Failure "bad request" 400) in
  if String.eqb (wrContentType r) "application/json" then
    match wrJSON r with
    | None => bad
    | Some doc =>
        match dec_struct WebhookPayload_fields (MkWebhookPayload "" "" "" "" "") doc with
        | (p, true) => inl p
        | (_, false) => bad
        end
    end
  else if String.eqb (wrContentType r) "application/x-www-form-urlencoded" then
    match wrForm r with
    | None => bad
    | Some f => inl (MkWebhookPayload (form_get f "token") (form_get f "post_id") (form_get f "team_id")
                       (form_get f "channel_id") (form_get f "user_id"))
    end
  else inr (Failure "unsupported content type" 415).

Section Server.
Context {E : Env} {O : OEnv} {W : WebhookAPI} {S : Sender} {C : Config} (oauth : OAuthConfig).

Definition GetPost (token id : string) : prog World (res (option Post)) := ask (fun t => api_get_post t token id).
Definition GetChannel (token id : string) : prog World (res (option Channel)) := ask (fun t => api_get_channel t token id).

(** The bot's row must know the token; then the post itself is fetched, for a
    token alone says nothing about who wrote what. *)
Definition token_valid (b : Bot) (p : WebhookPayload) : bool :=
  negb (String.eqb (bHarnessID b) "") && negb (String.eqb (bOutgoingToken b) "")
  && String.eqb (wpToken p) (bOutgoingToken b).
Definition payload_matches (b : Bot) (p : WebhookPayload) : bool :=
  negb (String.eqb (wpPostID p) "") && String.eqb (wpTeamID p) (bTeamID b) && String.eqb (wpUserID p) (bMMUserID b).
Definition post_matches (b : Bot) (p : WebhookPayload) (post : Post) : bool :=
  String.eqb (poId post) (wpPostID p) && String.eqb (poUserId post) (bMMUserID b)
  && String.eqb (poChannelId post) (wpChannelID p) && (poDeleteAt post =? 0).
Definition channel_matches (b : Bot) (ch : Channel) : bool :=
  String.eqb (chTeamId ch) (bTeamID b) && String.eqb (chType ch) "O".

Definition outgoingHandler (onPost : string -> PostedEvent -> prog World unit) (r : WebhookRequest) : prog World answer :=
  match read_payload r with
  | inr a => Ret a
  | inl p =>
      b <- BotByUserID (wrBotID r) ;;
      match b with
      | Err _ => Ret (Failure "invalid webhook token" 401)
      | Ok b =>
          if negb (token_valid b p) then Ret (Failure "invalid webhook token" 401)
          else if negb (payload_matches b p) then Ret (Failure "invalid webhook request" 403)
          else
            post <- GetPost (bToken b) (wpPostID p) ;;
            match post with
            | Err _ => Ret (Failure "post unavailable" 502)
            | Ok None => Ret (Failure "post does not match webhook" 403)
            | Ok (Some post) =>
                if negb (post_matches b p post) then Ret (Failure "post does not match webhook" 403)
                else
                  ch <- GetChannel (bToken b) (poChannelId post) ;;
                  match ch with
                  | Err _ => Ret (Failure "channel unavailable" 502)
                  | Ok None => Ret (Failure "channel does not match webhook" 403)
                  | Ok (Some ch) =>
                      if negb (channel_matches b ch) then Ret (Failure "channel does not match webhook" 403)
                      else
                        onPost (bUserID b) (MkPostedEvent (Some post) (chType ch) []) ;;
                        Ret (Body (JObj []))
                  end
            end
      end
  end.

(** ** Onboarding, commands and callbacks *)

Record InitBody : Type := MkInitBody { ibBotName : string; ibHarnessName : string }.
Definition InitBody_fields : fields InitBody := [
  ("bot_name", field ibBotName (fun v x => MkInitBody v (ibHarnessName x)) dec_string);
  ("harness_name", field ibHarnessName (fun v x => MkInitBody (ibBotName x) v) dec_string)
].

(** [POST /init] *)
Definition post_init (body : option json) : prog World answer :=
  match dec_struct InitBody_fields (MkInitBody "" "") <$> body with
  | Some (b, true) =>
      r <- StartInit (ibBotName b) (ibHarnessName b) ;;
      Ret (match r with
           | Ok s => Body s
           | Err e => Failure (error_text e) (if bool_decide (e = ErrInitDisabled) then 501 else 400)
           end)
  | _ => Ret (Failure "bad request" 400)
  end.

(** [GET /init/{code}] *)
Definition get_init (code authorization : string) : prog World answer :=
  r <- PollInit code (TrimPrefix authorization "Bearer ") ;;
  Ret (match r with
       | Ok res => Body res
       | Err e =>
           if bool_decide (e = ErrInitPending) then Accepted
           else if bool_decide (e = ErrInitUnknown) then Failure (error_text e) 404
           else if bool_decide (e = ErrInitConsumed) then Failure (error_text e) 410
           else Failure "internal error" 500
       end).

(** [POST /commands/harness] *)
Definition command_request (f : form) : CommandRequest :=
  MkCommandRequest (form_get f "token") (form_get f "user_id") (form_get f "user_name") (form_get f "channel_id")
    (form_get f "team_id") (form_get f "root_id") (form_get f "text").
Definition post_command (body : option form) : prog OWorld answer :=
  match body with
  | None => Ret (Failure "bad request" 400)
  | Some f =>
      ok <- VerifyCommand (form_get f "team_id") (form_get f "token") ;;
      if negb ok then Ret (Failure "invalid command token" 401)
      else
        text <- lift (HandleCommand (command_request f)) ;;
        Ret (Body text)
  end.

(** [POST /callback/approval] *)
Definition post_callback (body : option CallbackRequest) : prog World answer :=
  match body with
  | None => Ret (Failure "bad request" 400)
  | Some req => r <- HandleCallback req ;; Ret (Body r)
  end.

(** [GET /] *)
Definition get_root : answer := Found "/oauth/start".
End Server.

(** ** What the endpoints let through *)

(** A world that differs by questions to the outside only. *)
Definition asked (w w' : World) : Prop :=
  w_db w' = w_db w /\ w_trace w' = w_trace w /\ w_conns w' = w_conns w /\ w_locks w' = w_locks w.
#[export] Instance asked_preorder : PreOrder asked.
Proof. split; [done|]. unfold asked. intros x y z (-> & -> & -> & ->) (-> & -> & -> & ->). done. Qed.

Section Promises.
Context {E : Env} {O : OEnv} {W : WebhookAPI} {S : Sender} {C : Config} (oauth : OAuthConfig).

(** The request brings the secret of a bound bot's webhook, and Mattermost,
    asked with the bot's own token, confirms that the bot's owner wrote this
    post, in an open channel of the bot's team. *)
Definition delivers (r : WebhookRequest) (w : World) (b : Bot) (post : Post) (ch : Channel) : Prop :=
  exists p row, read_payload r = inl p
  /\ t_bots (w_db w) !! wrBotID r = Some row /\ b = scanBot row
  /\ bHarnessID b <> "" /\ bOutgoingToken b <> "" /\ wpToken p = bOutgoingToken b /\ wpTeamID p = bTeamID b
  /\ (exists t, api_get_post t (bToken b) (poId post) = Ok (Some post))
  /\ poUserId post = bMMUserID b /\ poDeleteAt post = 0
  /\ (exists t, api_get_channel t (bToken b) (poChannelId post) = Ok (Some ch))
  /\ chTeamId ch = bTeamID b /\ chType ch = "O".

Lemma wp_ask_rule {X} (f : nat -> X) (Q : X -> World -> Prop) w :
  (forall w', asked w w' -> Q (f (w_tick w)) w') -> wp (ask f) Q w.
Proof. intros H. by apply wp_ask, H. Qed.

Lemma wp_BotByUserID_rule id (Q : res Bot -> World -> Prop) w :
  (forall r w', asked w w' ->
     match r with Ok b => exists row, t_bots (w_db w) !! id = Some row /\ b = scanBot row | Err _ => True end -> Q r w') ->
  wp (BotByUserID id) Q w.
Proof.
  intros H. unfold BotByUserID. apply wp_bind, wp_query_fault; [intros msg|]; apply wp_ret, H; try done.
  unfold select_bot. rewrite scan_sql_row. destruct (t_bots (w_db w) !! id) as [row|]; [|done]. by exists row.
Qed.

(** C7. An outgoing webhook gets a post to the core only if it brings the
    token of the bot's webhook and the post is what Mattermost itself says it
    is: fetched with the bot's credentials, not deleted, written by the bot's
    owner in an open channel of the bot's team.  Every other request is
    answered with an error and changes nothing. *)
Theorem webhook_authentic onPost (P : World -> Prop) r w :
  (forall b post ch w1, delivers r w b post ch -> asked w w1 ->
     wp (onPost (bUserID b) (MkPostedEvent (Some post) (chType ch) [])) (fun _ => P) w1) ->
  wp (outgoingHandler onPost r) (fun a w' =>
    (exists msg status, a = Failure msg status /\ 400 <= status /\ asked w w')
    \/ (exists b post ch, delivers r w b post ch) /\ a = Body (JObj []) /\ P w') w.
Proof.
  intros Hon.
  assert (Hno : forall msg status w', 400 <= status -> asked w w' -> wp (Ret (Failure msg status)) (fun a w' =>
    (exists msg status, a = Failure msg status /\ 400 <= status /\ asked w w')
    \/ (exists b post ch, delivers r w b post ch) /\ a = Body (JObj []) /\ P w') w').
  { intros msg status w' Hs Ha. apply wp_ret. left. eauto. }
  unfold outgoingHandler. destruct (read_payload r) as [p|a] eqn:Ep.
  2: { unfold read_payload in Ep. repeat case_match; simplify_eq; by apply Hno. }
  apply wp_bind, wp_BotByUserID_rule. intros rb w1 A1 Hb. destruct rb as [b|e]; [|by apply Hno].
  destruct Hb as (row & Hrow & ->). destruct (token_valid _ p) eqn:Et; cbn [negb]; [|by apply Hno].
  destruct (payload_matches _ p) eqn:Em; cbn [negb]; [|by apply Hno].
  unfold token_valid in Et. rewrite !andb_true_iff, !negb_true_iff, !String.eqb_neq, String.eqb_eq in Et.
  unfold payload_matches in Em. rewrite !andb_true_iff, !String.eqb_eq in Em.
  apply wp_bind, wp_ask_rule. intros w2 A2. destruct (api_get_post _ _ _) as [[post|]|] eqn:Ep2;
    try (apply Hno; [done|by trans w1]).
  destruct (post_matches _ p post) eqn:Epm; cbn [negb]; [|apply Hno; [done|by trans w1]].
  unfold post_matches in Epm. rewrite !andb_true_iff, !String.eqb_eq, Z.eqb_eq in Epm.
  apply wp_bind, wp_ask_rule. intros w3 A3. assert (A : asked w w3) by (trans w1; [done|by trans w2]).
  destruct (api_get_channel _ _ _) as [[ch|]|] eqn:Ec; try by apply Hno.
  destruct (channel_matches _ ch) eqn:Ecm; cbn [negb]; [|by apply Hno].
  unfold channel_matches in Ecm. rewrite andb_true_iff, !String.eqb_eq in Ecm.
  assert (Hdel : delivers r w (scanBot row) post ch).
  { destruct Epm as [[[Hid ?] ?] ?]. exists p, row. rewrite <- Hid in Ep2. destruct_and!. by repeat (split; eauto). }
  apply wp_bind. eapply wp_mono; [|by apply (Hon _ post ch)]. intros x w4 HP. apply wp_ret. right.
  split; [by exists (scanBot row), post, ch|]. done.
Qed.

(** A slash command of [team] with the token Mattermost gave for it. *)
Definition verified (v : OWorld) (f : form) : Prop :=
  exists i, t_installations (odb v) !! form_get f "team_id" = Some i
    /\ nCommandID i <> "" /\ nCommandToken i = form_get f "token" /\ form_get f "token" <> "".

(** C28. A slash command reaches the core only with the token of the command
    that was made for its team.  Every other request is answered 400 or 401 and changes nothing. *)
Theorem command_authentic (P : string -> World -> Prop) body v :
  (forall f w1, body = Some f -> verified v f -> w_db w1 = odb v -> wp (HandleCommand (command_request f)) P w1) ->
  wp (post_command body) (fun a v' =>
    (exists msg, (a = Failure msg 400 \/ a = Failure msg 401) /\ untouched v v')
    \/ exists f text, body = Some f /\ verified v f /\ a = Body text /\ P text (ow_world v')) v.
Proof.
  intros Hcmd. unfold post_command. destruct body as [f|].
  2: { apply wp_ret. left. eexists. split; [by left | done]. }
  apply wp_bind. eapply wp_mono; [|apply VerifyCommand_sound]. intros ok v1 (U1 & _ & Hok).
  destruct ok; cbn [negb].
  2: { apply wp_ret. left. eexists. split; [by right | done]. }
  destruct (Hok eq_refl) as (Ht & i & Hi & Hc & Htok).
  assert (Hver : verified v f) by (exists i; done).
  apply wp_bind, wp_lift. eapply wp_mono; [|apply (Hcmd f); [done|done|apply U1]].
  intros text w HP. apply wp_ret. right. exists f, text. done.
Qed.
End Promises.

(** ** Options make a service *)

Lemma round_length st kw : length st = 8%nat -> length (Sha256.round st kw) = 8%nat.
Proof. intros H. by do 9 (destruct st as [|? st]; [done|]). Qed.

Lemma rounds_length l st : length st = 8%nat -> length (foldl Sha256.round st l) = 8%nat.
Proof. revert st. induction l as [|kw l IH]; intros st H; [done|]. by apply IH, round_length. Qed.

Lemma blocks_length fuel ws st : length st = 8%nat -> length (Sha256.blocks fuel ws st) = 8%nat.
Proof.
  revert ws st. induction fuel as [|k IH]; intros ws st H; [done|]. simpl. destruct ws; [done|]. apply IH.
  unfold Sha256.compress. rewrite length_zip_with, rounds_length; lia.
Qed.

Lemma sum_length l : length (Sha256.sum l) = 32%nat.
Proof.
  unfold Sha256.sum. generalize (blocks_length (length (Sha256.words (Sha256.pad l))) (Sha256.words (Sha256.pad l)) Sha256.H0 eq_refl).
  generalize (Sha256.blocks (length (Sha256.words (Sha256.pad l))) (Sha256.words (Sha256.pad l)) Sha256.H0). intros st H.
  do 8 (destruct st as [|? st]; [discriminate H|]). by destruct st.
Qed.

Lemma str_of_length l : String.length (str_of l) = length l.
Proof. induction l as [|b l IH]; [done|]. simpl. by rewrite IH. Qed.

(** Options that pass [validate] make a service, if their URLs are such. *)
Lemma validated_service {O : OEnv} o o' :
  validate o = Ok o' -> url_ok (boMMURL o') = true -> url_ok (boPublicURL o') = true ->
  exists cfg, oauth_New (oauth_config o') true = Ok cfg /\ oEncryptionKey cfg = oEncryptionKey (oauth_config o').
Proof.
  unfold validate. destruct (is_empty_list _) eqn:Em; cbn [negb]; [|done]. destruct (_ <? 32)%nat eqn:El; [done|].
  intros [= <-]. cbn. intros Hmm Hpub. unfold oauth_New. cbn. rewrite Hmm, Hpub. cbn.
  assert (Hreq : forall k v, (k, v) ∈ required_flags o -> String.eqb v "" = false).
  { intros k v Hin. destruct (String.eqb v "") eqn:Ev; [|done]. apply is_empty_list_true, map_eq_nil in Em.
    assert (H : (k, v) ∈ List.filter (fun kv => String.eqb kv.2 "") (required_flags o)).
    { apply list_elem_of_In, List.filter_In. split; [by apply list_elem_of_In | done]. }
    rewrite Em in H. by apply elem_of_nil in H. }
  rewrite (Hreq "oauth-client-id" (boOAuthClientID o)), (Hreq "oauth-client-secret" (boOAuthClientSecret o))
    by (unfold required_flags; set_solver).
  rewrite str_of_length, sum_length. cbn. by eexists.
Qed.
