(* ===== verification/GoDuration.v ===== *)
(** * Reading a duration ([time.ParseDuration])

    The function of Go's standard library that the command line uses for its
    durations, with the bounds of its machine integers and its float64
    arithmetic for fractions. *)

From Stdlib Require Import SpecFloat.
From S2P Require Import Prelude GoText Json.

Open Scope Z_scope.

(** ** float64, as far as it is used *)

Definition f64 (n : Z) : spec_float := binary_normalize 53 1024 n 0 false.
Definition f64_mul : spec_float -> spec_float -> spec_float := SFmul 53 1024.
Definition f64_div : spec_float -> spec_float -> spec_float := SFdiv 53 1024.

(** The conversion to an integer, which drops the fraction. *)
Definition f64_trunc (x : spec_float) : Z :=
  match x with
  | S754_finite s m e => (if s then Z.opp else id) (Z.shiftl (Zpos m) e)
  | _ => 0
  end.

(** ** The pieces of the text *)

Definition is_digit (c : Z) : bool := in_range 48 c 57.

(** [leadingInt]: [None] on an overflow. *)
Fixpoint leadingInt (x : Z) (s : list Z) : option (Z * list Z) :=
  match s with
  | c :: s' =>
      if is_digit c then
        if 2 ^ 63 / 10 <? x then None
        else if 2 ^ 63 <? x * 10 + (c - 48) then None
        else leadingInt (x * 10 + (c - 48)) s'
      else Some (x, s)
  | [] => Some (x, [])
  end.

(** [leadingFraction]: the digits that fit, and their scale. *)
Fixpoint leadingFraction (x : Z) (scale : spec_float) (overflow : bool) (s : list Z) : Z * spec_float * list Z :=
  match s with
  | c :: s' =>
      if is_digit c then
        if overflow then leadingFraction x scale true s'
        else if (2 ^ 63 - 1) / 10 <? x then leadingFraction x scale true s'
        else if 2 ^ 63 <? x * 10 + (c - 48) then leadingFraction x scale true s'
        else leadingFraction (x * 10 + (c - 48)) (f64_mul scale (f64 10)) false s'
      else (x, scale, s)
  | [] => (x, scale, [])
  end.

Definition unitMap (u : string) : option Z :=
  if String.eqb u "ns" then Some 1
  else if String.eqb u "us" || String.eqb u "µs" || String.eqb u "μs" then Some 1000
  else if String.eqb u "ms" then Some 1000000
  else if String.eqb u "s" then Some second
  else if String.eqb u "m" then Some minute
  else if String.eqb u "h" then Some hour
  else None.

(** The unit goes up to the next digit or dot. *)
Fixpoint take_unit (s : list Z) : list Z * list Z :=
  match s with
  | c :: s' => if (c =? 46) || is_digit c then ([], s) else let '(u, r) := take_unit s' in (c :: u, r)
  | [] => ([], [])
  end.

(** One number with its unit: its value in nanoseconds. *)
Definition read_part (s : list Z) : option (Z * list Z) :=
  match s with
  | [] => None
  | c :: _ =>
      if negb ((c =? 46) || is_digit c) then None
      else match leadingInt 0 s with
      | None => None
      | Some (v, s1) =>
          let pre := negb (length s =? length s1)%nat in
          let '(f, scale, s2, post) :=
            match s1 with
            | c :: t => if c =? 46 then
                          let '(f, scale, r) := leadingFraction 0 (f64 1) false t in
                          (f, scale, r, negb (length t =? length r)%nat)
                        else (0, f64 1, s1, false)
            | [] => (0, f64 1, s1, false)
            end in
          if negb pre && negb post then None
          else let '(u, s3) := take_unit s2 in
          match unitMap (str_of u) with
          | None => None
          | Some unit =>
              if 2 ^ 63 / unit <? v then None
              else
                let v := v * unit in
                let v := if 0 <? f then v + f64_trunc (f64_mul (f64 f) (f64_div (f64 unit) scale)) else v in
                if 2 ^ 63 <? v then None else Some (v, s3)
          end
      end
  end.

Fixpoint read_parts (fuel : nat) (d : Z) (s : list Z) : option Z :=
  match s with
  | [] => Some d
  | _ =>
      match fuel, read_part s with
      | S n, Some (v, s') =>
          let d' := (d + v) mod 2 ^ 64 in    (* uint64 *)
          if 2 ^ 63 <? d' then None else read_parts n d' s'
      | _, _ => None
      end
  end.

(** [None] is any error; no caller looks at which. *)
Definition ParseDuration (text : string) : option Duration :=
  let s := bytes_of text in
  let '(neg, s) := match s with
                   | c :: t => if (c =? 45) || (c =? 43) then (c =? 45, t) else (false, s)
                   | [] => (false, [])
                   end in
  if bool_decide (s = [48]) then Some 0
  else if is_empty_list s then None
  else
    match read_parts (length s) 0 s with
    | Some d => if neg then Some (- d) else if 2 ^ 63 - 1 <? d then None else Some d
    | None => None
    end.

Example parse_minutes : ParseDuration "5m" = Some (5 * minute). Proof. vm_compute. reflexivity. Qed.
Example parse_mixed : ParseDuration "1h15m30.918s" = Some (4530918000000). Proof. vm_compute. reflexivity. Qed.
Example parse_fraction : ParseDuration "0.3333333333333333333h" = Some (20 * minute). Proof. vm_compute. reflexivity. Qed.
Example parse_micro : ParseDuration "-1.5µs" = Some (-1500). Proof. vm_compute. reflexivity. Qed.
Example parse_least : ParseDuration "-9223372036854775808ns" = Some (- 2 ^ 63). Proof. vm_compute. reflexivity. Qed.
Example parse_too_much : ParseDuration "9223372036854775808ns" = None. Proof. vm_compute. reflexivity. Qed.
Example parse_no_unit : ParseDuration "30" = None. Proof. vm_compute. reflexivity. Qed.

(** ** What it gives *)

Lemma leadingInt_shorter x s v r : leadingInt x s = Some (v, r) -> (length r <= length s)%nat.
Proof.
  revert x. induction s as [|c s IH]; simpl; intros x; [by intros [= _ <-]|].
  destruct (is_digit c); [|by intros [= _ <-]]. destruct (_ <? x); [done|]. destruct (_ <? _); [done|].
  intros H%IH. simpl. lia.
Qed.
Lemma leadingFraction_shorter x scale o s : (length (leadingFraction x scale o s).2 <= length s)%nat.
Proof.
  revert x scale o. induction s as [|c s IH]; simpl; intros x scale o; [done|].
  destruct (is_digit c); [|done]. destruct o; [rewrite IH; lia|].
  destruct (_ <? x); [rewrite IH; lia|]. destruct (_ <? _); rewrite IH; lia.
Qed.
Lemma take_unit_length s : (length (take_unit s).1 + length (take_unit s).2 = length s)%nat.
Proof.
  induction s as [|c s IH]; simpl; [done|]. destruct (_ || _); [done|]. destruct (take_unit s). simpl in *. lia.
Qed.

(** A part has a unit, so it takes at least one byte. *)
Lemma read_part_shorter s v r : read_part s = Some (v, r) -> (length r < length s)%nat.
Proof.
  unfold read_part. destruct s as [|c s]; [done|]. destruct (negb _); [done|].
  destruct (leadingInt 0 (c :: s)) as [[v0 s1]|] eqn:Hi; [|done]. apply leadingInt_shorter in Hi.
  set (q := match s1 with [] => _ | _ => _ end).
  assert (length q.1.2 <= length s1)%nat as Hq.
  { unfold q. destruct s1 as [|b t]; [done|]. destruct (b =? 46); [|done].
    pose proof (leadingFraction_shorter 0 (f64 1) false t). destruct (leadingFraction _ _ _ t) as [[f sc] u].
    simpl in *. lia. }
  destruct q as [[[f sc] s2] post]. simpl in Hq. destruct (negb _ && negb post); [done|].
  pose proof (take_unit_length s2) as Ht. destruct (take_unit s2) as [u s3]. simpl in Ht.
  destruct u as [|b u]; [done|]. destruct (unitMap _) as [unit|]; [|done]. destruct (_ <? v0); [done|].
  destruct (_ <? _); [done|]. intros [= _ <-]. simpl in *. lia.
Qed.

(** The length of the text is fuel enough. *)
Lemma read_parts_fuel n m d s :
  (length s <= n)%nat -> (length s <= m)%nat -> read_parts n d s = read_parts m d s.
Proof.
  revert m d s. induction n as [|n IH]; intros m d s Hn Hm.
  - destruct s; [by destruct m|]. simpl in Hn. lia.
  - destruct s as [|c s]; [by destruct m|]. destruct m as [|m]; [simpl in Hm; lia|].
    cbn [read_parts]. destruct (read_part (c :: s)) as [[v r]|] eqn:Hr; [|done].
    apply read_part_shorter in Hr. destruct (_ <? _); [done|]. apply IH; simpl in *; lia.
Qed.

Lemma read_parts_range n d s v : 0 <= d <= 2 ^ 63 -> read_parts n d s = Some v -> 0 <= v <= 2 ^ 63.
Proof.
  revert d s. induction n as [|n IH]; intros d [|c s] Hd; cbn [read_parts]; try (by intros [= <-]). 
  destruct (read_part (c :: s)) as [[x r]|]; [|done].
  destruct (Z.ltb_spec (2 ^ 63) ((d + x) mod 2 ^ 64)) as [|Hle]; [done|]. apply IH.
  pose proof (Z.mod_pos_bound (d + x) (2 ^ 64)). lia.
Qed.

(** What is read fits an int64. *)
Lemma ParseDuration_range text d : ParseDuration text = Some d -> - 2 ^ 63 <= d <= maxInt64.
Proof.
  unfold ParseDuration, maxInt64. destruct (match bytes_of text with [] => _ | _ => _ end) as [neg s].
  case_bool_decide; [intros [= <-]; lia|]. destruct (is_empty_list s); [done|].
  destruct (read_parts _ _ s) as [x|] eqn:Hx; [|done]. apply read_parts_range in Hx; [|lia].
  destruct neg; [intros [= <-]; lia|]. destruct (Z.ltb_spec (2 ^ 63 - 1) x); [done|]. intros [= <-]. lia.
Qed.
