(* ===== verification/Startup.v ===== *)
(** * The configuration of the broker ([internal/cli/broker.go])

    The options of the command with their environment variables and flags, and
    what [runBroker] makes of them.  The flag library hands over the flags it
    has read, with their texts; its error texts, the vendor's client and the log
    are outside. *)

From S2P Require Import Prelude Resume GoText Codec Aes GoDuration Json Protocol Store Tables World Sqlite Integrity StoreFacts CoreText Sender Hub Posts Core Onboarding Lift OAuth OAuthFacts Server.

Open Scope Z_scope.

(** ** The options *)

Section Options.
Context (getenv : string -> string) (flag_error : string -> string -> string).

Definition env (k def : string) : string := let v := getenv k in if String.eqb v "" then def else v.

Definition envDuration (k : string) (def : Duration) : Duration :=
  let v := getenv k in
  if String.eqb v "" then def else default def (ParseDuration v).

(** The values the flags start with. *)
Definition default_options : brokerOptions := {|
  boMMURL := env "MM_URL" "";
  boOAuthClientID := env "MM_OAUTH_CLIENT_ID" "";
  boOAuthClientSecret := env "MM_OAUTH_CLIENT_SECRET" "";
  boBotProvisioningToken := env "MM_BOT_PROVISIONING_TOKEN" "";
  boPublicURL := env "PUBLIC_URL" "";
  boListen := env "LISTEN_ADDR" ":8080";
  boDBPath := env "DB_PATH" "broker.db";
  boCallbackSecret := env "CALLBACK_SECRET" "";
  boMinHarnessVersion := env "MIN_HARNESS_VERSION" "";
  boQueueTTL := envDuration "QUEUE_TTL" (5 * minute);
  boGracePeriod := envDuration "GRACE_PERIOD" (10 * minute);
  boJobTimeout := envDuration "JOB_TIMEOUT" (30 * minute)
|}.

(** The variables the flags are bound to. *)
Inductive flag_var : Type :=
| StringVar (set : string -> brokerOptions -> brokerOptions)
| DurationVar (set : Duration -> brokerOptions -> brokerOptions).

Definition set_boMMURL v o := MkBrokerOptions v (boOAuthClientID o) (boOAuthClientSecret o) (boBotProvisioningToken o) (boPublicURL o) (boListen o) (boDBPath o) (boCallbackSecret o) (boMinHarnessVersion o) (boQueueTTL o) (boGracePeriod o) (boJobTimeout o).
Definition set_boOAuthClientID v o := MkBrokerOptions (boMMURL o) v (boOAuthClientSecret o) (boBotProvisioningToken o) (boPublicURL o) (boListen o) (boDBPath o) (boCallbackSecret o) (boMinHarnessVersion o) (boQueueTTL o) (boGracePeriod o) (boJobTimeout o).
Definition set_boOAuthClientSecret v o := MkBrokerOptions (boMMURL o) (boOAuthClientID o) v (boBotProvisioningToken o) (boPublicURL o) (boListen o) (boDBPath o) (boCallbackSecret o) (boMinHarnessVersion o) (boQueueTTL o) (boGracePeriod o) (boJobTimeout o).
Definition set_boBotProvisioningToken v o := MkBrokerOptions (boMMURL o) (boOAuthClientID o) (boOAuthClientSecret o) v (boPublicURL o) (boListen o) (boDBPath o) (boCallbackSecret o) (boMinHarnessVersion o) (boQueueTTL o) (boGracePeriod o) (boJobTimeout o).
Definition set_boPublicURL v o := MkBrokerOptions (boMMURL o) (boOAuthClientID o) (boOAuthClientSecret o) (boBotProvisioningToken o) v (boListen o) (boDBPath o) (boCallbackSecret o) (boMinHarnessVersion o) (boQueueTTL o) (boGracePeriod o) (boJobTimeout o).
Definition set_boListen v o := MkBrokerOptions (boMMURL o) (boOAuthClientID o) (boOAuthClientSecret o) (boBotProvisioningToken o) (boPublicURL o) v (boDBPath o) (boCallbackSecret o) (boMinHarnessVersion o) (boQueueTTL o) (boGracePeriod o) (boJobTimeout o).
Definition set_boDBPath v o := MkBrokerOptions (boMMURL o) (boOAuthClientID o) (boOAuthClientSecret o) (boBotProvisioningToken o) (boPublicURL o) (boListen o) v (boCallbackSecret o) (boMinHarnessVersion o) (boQueueTTL o) (boGracePeriod o) (boJobTimeout o).
Definition set_boCallbackSecret v o := MkBrokerOptions (boMMURL o) (boOAuthClientID o) (boOAuthClientSecret o) (boBotProvisioningToken o) (boPublicURL o) (boListen o) (boDBPath o) v (boMinHarnessVersion o) (boQueueTTL o) (boGracePeriod o) (boJobTimeout o).
Definition set_boMinHarnessVersion v o := MkBrokerOptions (boMMURL o) (boOAuthClientID o) (boOAuthClientSecret o) (boBotProvisioningToken o) (boPublicURL o) (boListen o) (boDBPath o) (boCallbackSecret o) v (boQueueTTL o) (boGracePeriod o) (boJobTimeout o).
Definition set_boQueueTTL v o := MkBrokerOptions (boMMURL o) (boOAuthClientID o) (boOAuthClientSecret o) (boBotProvisioningToken o) (boPublicURL o) (boListen o) (boDBPath o) (boCallbackSecret o) (boMinHarnessVersion o) v (boGracePeriod o) (boJobTimeout o).
Definition set_boGracePeriod v o := MkBrokerOptions (boMMURL o) (boOAuthClientID o) (boOAuthClientSecret o) (boBotProvisioningToken o) (boPublicURL o) (boListen o) (boDBPath o) (boCallbackSecret o) (boMinHarnessVersion o) (boQueueTTL o) v (boJobTimeout o).
Definition set_boJobTimeout v o := MkBrokerOptions (boMMURL o) (boOAuthClientID o) (boOAuthClientSecret o) (boBotProvisioningToken o) (boPublicURL o) (boListen o) (boDBPath o) (boCallbackSecret o) (boMinHarnessVersion o) (boQueueTTL o) (boGracePeriod o) v.

Definition broker_flags : list (string * flag_var) := [
  ("mm-url", StringVar set_boMMURL);
  ("oauth-client-id", StringVar set_boOAuthClientID);
  ("oauth-client-secret", StringVar set_boOAuthClientSecret);
  ("bot-provisioning-token", StringVar set_boBotProvisioningToken);
  ("public-url", StringVar set_boPublicURL);
  ("listen", StringVar set_boListen);
  ("db", StringVar set_boDBPath);
  ("callback-secret", StringVar set_boCallbackSecret);
  ("min-harness-version", StringVar set_boMinHarnessVersion);
  ("queue-ttl", DurationVar set_boQueueTTL);
  ("grace-period", DurationVar set_boGracePeriod);
  ("job-timeout", DurationVar set_boJobTimeout)].

(** One flag of the command line. *)
Definition set_flag (o : brokerOptions) (kv : string * string) : res brokerOptions :=
  match List.find (fun f => String.eqb f.1 kv.1) broker_flags with
  | None => Err (ErrOther (flag_error kv.1 kv.2))
  | Some (_, StringVar set) => Ok (set kv.2 o)
  | Some (_, DurationVar set) =>
      match ParseDuration kv.2 with
      | Some d => Ok (set d o)
      | None => Err (ErrOther (flag_error kv.1 kv.2))
      end
  end.

Fixpoint set_flags (o : brokerOptions) (l : list (string * string)) : res brokerOptions :=
  match l with
  | [] => Ok o
  | kv :: l => match set_flag o kv with Err e => Err e | Ok o => set_flags o l end
  end.

(** The command up to its [RunE]: the flags, then [PreRunE]. *)
Definition newBrokerCmd (flags : list (string * string)) : res brokerOptions :=
  match set_flags default_options flags with
  | Err e => Err e
  | Ok o => validate o
  end.
End Options.

(** ** What [runBroker] makes of the options *)

(** [core.New] and [WithProvisioner]: [mm] says whether a shared client is
    given, [factory] which tokens a client is made for. *)
Definition core_New (cfg : Config) (mm : bool) : Config :=
  let c := @defaults cfg in {|
    BotUserID := @BotUserID c; BotUsername := @BotUsername c; PublicURL := @PublicURL c;
    CallbackSecret := @CallbackSecret c; QueueTTL := @QueueTTL c; GracePeriod := @GracePeriod c;
    ApprovalTTL := @ApprovalTTL c; JobTimeout := @JobTimeout c; DefaultMaxTurns := @DefaultMaxTurns c;
    EditInterval := @EditInterval c; OutboxRetention := @OutboxRetention c;
    mm_set := mm; admin_set := false; provisioner_set := false; newPoster := None |}.

Definition WithProvisioner (factory : string -> bool) (c : Config) : Config := {|
  BotUserID := @BotUserID c; BotUsername := @BotUsername c; PublicURL := @PublicURL c;
  CallbackSecret := @CallbackSecret c; QueueTTL := @QueueTTL c; GracePeriod := @GracePeriod c;
  ApprovalTTL := @ApprovalTTL c; JobTimeout := @JobTimeout c; DefaultMaxTurns := @DefaultMaxTurns c;
  EditInterval := @EditInterval c; OutboxRetention := @OutboxRetention c;
  mm_set := @mm_set c; admin_set := @admin_set c; provisioner_set := true; newPoster := Some factory |}.

(** The [core.Config] literal: what it does not name is zero. *)
Definition core_options (o : brokerOptions) : Config := {|
  BotUserID := ""; BotUsername := ""; PublicURL := boPublicURL o; CallbackSecret := boCallbackSecret o;
  QueueTTL := boQueueTTL o; GracePeriod := boGracePeriod o; ApprovalTTL := 0; JobTimeout := boJobTimeout o;
  DefaultMaxTurns := 0; EditInterval := 0; OutboxRetention := 0;
  mm_set := false; admin_set := false; provisioner_set := false; newPoster := None |}.

(** The parts of a running broker. *)
Record Broker : Type := MkBroker {
  brOAuth : OAuthConfig;
  brHub : HubConfig;
  brCore : Config;
  brListen : string
}.

(** [hub.New] *)
Definition hub_New : HubConfig := MkHubConfig (15 * second) "".

(** [runBroker] up to its goroutines, given how [sqlite.Open] ended; an error
    closes the store again. *)
Definition assemble {O : OEnv} (o : brokerOptions) (opened : res unit) : res Broker :=
  match opened with
  | Err e => Err e
  | Ok _ =>
      match oauth_New (oauth_config o) true with
      | Err e => Err e
      | Ok auth =>
          Ok (MkBroker auth (MkHubConfig (HeartbeatInterval hub_New) (boMinHarnessVersion o))
                (WithProvisioner (fun _ => true) (core_New (core_options o) false)) (boListen o))
      end
  end.

(** ** The configuration that runs *)

Section Configured.
Context (getenv : string -> string) (flag_error : string -> string -> string).

(** The last value given for a flag. *)
Definition last_flag (name : string) (flags : list (string * string)) : option string :=
  last (map snd (List.filter (fun kv => String.eqb kv.1 name) flags)).

(** The flags with a text and the options they set. *)
Definition string_options : list (string * (brokerOptions -> string)) := [
  ("mm-url", boMMURL); ("oauth-client-id", boOAuthClientID); ("oauth-client-secret", boOAuthClientSecret);
  ("bot-provisioning-token", boBotProvisioningToken); ("public-url", boPublicURL); ("listen", boListen);
  ("db", boDBPath); ("callback-secret", boCallbackSecret); ("min-harness-version", boMinHarnessVersion)].

Lemma set_flag_get name get o kv o' :
  (name, get) ∈ string_options -> set_flag flag_error o kv = Ok o' ->
  get o' = if String.eqb kv.1 name then kv.2 else get o.
Proof.
  destruct kv as [k v]. unfold set_flag. cbn [fst snd]. intros Hin. destruct (String.eqb_spec k name) as [->|Hne].
  - repeat apply elem_of_cons in Hin as [[= -> ->]|Hin]; [..|by apply elem_of_nil in Hin]; cbn; by intros [= <-].
  - destruct (List.find _ broker_flags) as [f|] eqn:Hf; [|done]. apply List.find_some in Hf as [Hf Hk].
    apply String.eqb_eq in Hk. subst k. unfold broker_flags in Hf. simpl in Hf.
    repeat destruct Hf as [<-|Hf]; [..|done]; cbn -[ParseDuration];
      try (destruct (ParseDuration v) as [d|]; [|done]); intros [= <-];
      repeat apply elem_of_cons in Hin as [[= -> ->]|Hin]; try done; by apply elem_of_nil in Hin.
Qed.

Lemma last_flag_cons name kv flags :
  last_flag name (kv :: flags) =
    match last_flag name flags with
    | Some v => Some v
    | None => if String.eqb kv.1 name then Some kv.2 else None
    end.
Proof.
  unfold last_flag. simpl. destruct (String.eqb kv.1 name); [|by destruct (last _)].
  cbn [map]. by rewrite last_cons.
Qed.

Lemma set_flags_get name get flags o o' :
  (name, get) ∈ string_options -> set_flags flag_error o flags = Ok o' ->
  get o' = default (get o) (last_flag name flags).
Proof.
  intros Hin. revert o. induction flags as [|kv flags IH]; simpl; intros o; [by intros [= ->]|].
  destruct (set_flag flag_error o kv) as [o1|] eqn:Hf; [|done]. intros Hr. rewrite (IH o1 Hr), last_flag_cons.
  destruct (last_flag name flags); [done|]. rewrite (set_flag_get _ _ _ _ _ Hin Hf). by destruct (String.eqb kv.1 name).
Qed.

(** What a broker runs with when its command line is accepted.  A text comes
    from its last flag, else from its environment variable, else it is the
    default; whatever the durations say none is zero; posts are made by the bots
    only, the callbacks are signed with a secret of at least 32 bytes and the
    grants are sealed with a key of 32. *)
Theorem broker_configured {O : OEnv} flags o opened b :
  newBrokerCmd getenv flag_error flags = Ok o -> assemble o opened = Ok b ->
  (forall name get, (name, get) ∈ string_options -> name <> "public-url" ->
     get o = default (get (default_options getenv)) (last_flag name flags))
  /\ boPublicURL o = TrimRight (default (env getenv "PUBLIC_URL" "") (last_flag "public-url" flags)) "/"
  /\ (32 <= String.length (@CallbackSecret (brCore b)))%nat
  /\ @CallbackSecret (brCore b) = boCallbackSecret o /\ @PublicURL (brCore b) = boPublicURL o
  /\ String.length (oEncryptionKey (brOAuth b)) = 32%nat
  /\ @QueueTTL (brCore b) = or_default (boQueueTTL o) (5 * minute)
  /\ @GracePeriod (brCore b) = or_default (boGracePeriod o) (10 * minute)
  /\ @JobTimeout (brCore b) = or_default (boJobTimeout o) (30 * minute)
  /\ @ApprovalTTL (brCore b) = 30 * minute /\ @EditInterval (brCore b) = 1200 * millisecond
  /\ @mm_set (brCore b) = false /\ @provisioner_set (brCore b) = true
  /\ MinHarnessVersion (brHub b) = boMinHarnessVersion o /\ opened = Ok tt.
Proof.
  unfold newBrokerCmd. destruct (set_flags _ _ flags) as [o1|] eqn:Hf; [|done]. intros Hv Hb.
  assert (forall name get, (name, get) ∈ string_options ->
    get o1 = default (get (default_options getenv)) (last_flag name flags)) as Hget
    by (intros name get Hin; by eapply set_flags_get).
  unfold validate in Hv. destruct (is_empty_list _); cbn [negb] in Hv; [|done].
  destruct (Nat.ltb_spec (String.length (boCallbackSecret o1)) 32) as [|Hlen]; [done|]. injection Hv as <-.
  unfold assemble in Hb. destruct opened as [[]|]; [|done].
  destruct (oauth_New _ true) as [auth|] eqn:Ha; [|done]. injection Hb as <-. split; [|split].
  - intros name get Hin Hne. rewrite <- Hget by done. revert Hin.
    unfold string_options. intros Hin.
    repeat apply elem_of_cons in Hin as [[= -> ->]|Hin]; try done; by apply elem_of_nil in Hin.
  - cbn. f_equal. apply (Hget "public-url" boPublicURL). unfold string_options. set_solver.
  - split; [exact Hlen|]. split; [reflexivity|]. split; [reflexivity|]. split; [|by repeat split]. unfold oauth_New in Ha. cbn in Ha.
    repeat case_match; try done. injection Ha as <-. cbn [brOAuth oEncryptionKey oauth_config].
    by rewrite str_of_length, sum_length.
Qed.
End Configured.
