(* ===== verification/Process.v ===== *)
(** * The life of the broker's process ([runBroker] of [internal/cli/broker.go])

    The server, the manager of the listeners and the sweeper as goroutines, and
    [runBroker] itself, which waits for a signal or a failure of the server and
    takes everything down.  What a sweep or a request does is in [System.v];
    here sweeps begin and end, and connections open and close. *)

From S2P Require Import Prelude.

Open Scope Z_scope.

(** ** The life of the process

    [runBroker] starts three goroutines and waits.  The calls it makes are in
    order; what the goroutines, the clients and the operating system do comes
    in between in any way. *)

Inductive ServerState : Type :=
| Starting                  (** [ListenAndServe] has not bound its address *)
| Listening
| ServingFailed             (** returned an error, which is on its way to [errCh] or there *)
| ServerDone.               (** returned [ErrServerClosed] *)

Inductive Sweeping : Type := SweepWaits | Sweeps | SweepEnded.

(** Where [runBroker] is. *)
Inductive Main : Type :=
| Selecting                       (** in the [select] *)
| LoggedFailure (e : error)       (** ["component failed"] *)
| ShuttingDown                    (** before [stop] *)
| ClosingHub
| StartingShutdown                (** before [srv.Shutdown] *)
| InShutdown (deadline : Time)
| ClosingStore (r : option error) (** in the deferred calls, with the result *)
| Returned (r : option error)
| Killed.                         (** by a signal that is no longer caught *)

Record BrokerProcess : Type := MkProcess {
  prMain : Main;
  prCtx : bool;            (** [ctx] is done: a signal came, or [stop] was called *)
  prCatches : bool;        (** signals go to [ctx] and do not end the process *)
  prServer : ServerState;
  prConns : nat;        (** connections of the server, hijacked ones apart *)
  prErrCh : list error;
  prManager : bool;        (** the goroutine of [manager.Run] *)
  prSweeper : Sweeping;
  prHub : bool;            (** the hub is open *)
  prStore : bool;          (** the store is open *)
  prNow : Time
}.

Definition launched (now : Time) : BrokerProcess :=
  MkProcess Selecting false true Starting 0 [] true SweepWaits true true now.

Definition set_prMain v p := MkProcess v (prCtx p) (prCatches p) (prServer p) (prConns p) (prErrCh p) (prManager p) (prSweeper p) (prHub p) (prStore p) (prNow p).
Definition set_prCtx v p := MkProcess (prMain p) v (prCatches p) (prServer p) (prConns p) (prErrCh p) (prManager p) (prSweeper p) (prHub p) (prStore p) (prNow p).
Definition set_prCatches v p := MkProcess (prMain p) (prCtx p) v (prServer p) (prConns p) (prErrCh p) (prManager p) (prSweeper p) (prHub p) (prStore p) (prNow p).
Definition set_prServer v p := MkProcess (prMain p) (prCtx p) (prCatches p) v (prConns p) (prErrCh p) (prManager p) (prSweeper p) (prHub p) (prStore p) (prNow p).
Definition set_prConns v p := MkProcess (prMain p) (prCtx p) (prCatches p) (prServer p) v (prErrCh p) (prManager p) (prSweeper p) (prHub p) (prStore p) (prNow p).
Definition set_prErrCh v p := MkProcess (prMain p) (prCtx p) (prCatches p) (prServer p) (prConns p) v (prManager p) (prSweeper p) (prHub p) (prStore p) (prNow p).
Definition set_prManager v p := MkProcess (prMain p) (prCtx p) (prCatches p) (prServer p) (prConns p) (prErrCh p) v (prSweeper p) (prHub p) (prStore p) (prNow p).
Definition set_prSweeper v p := MkProcess (prMain p) (prCtx p) (prCatches p) (prServer p) (prConns p) (prErrCh p) (prManager p) v (prHub p) (prStore p) (prNow p).
Definition set_prHub v p := MkProcess (prMain p) (prCtx p) (prCatches p) (prServer p) (prConns p) (prErrCh p) (prManager p) (prSweeper p) v (prStore p) (prNow p).
Definition set_prStore v p := MkProcess (prMain p) (prCtx p) (prCatches p) (prServer p) (prConns p) (prErrCh p) (prManager p) (prSweeper p) (prHub p) v (prNow p).
Definition set_prNow v p := MkProcess (prMain p) (prCtx p) (prCatches p) (prServer p) (prConns p) (prErrCh p) (prManager p) (prSweeper p) (prHub p) (prStore p) v.

Definition ShutdownGrace : Duration := 5 * second.
Definition DeadlineExceeded : error := ErrOther "context deadline exceeded".

(** [srv.Shutdown] closes the listener; no connection is accepted any more. *)
Definition accepting (m : Main) : bool :=
  match m with
  | Selecting | LoggedFailure _ | ShuttingDown | ClosingHub | StartingShutdown => true
  | _ => false
  end.
Definition is_over (m : Main) : bool := match m with Returned _ | Killed => true | _ => false end.

(** What [runBroker] does by itself.  Signals are caught until [stop]. *)
Inductive main_step : BrokerProcess -> BrokerProcess -> Prop :=
| select_done p :
    prMain p = Selecting -> prCtx p = true -> main_step p (set_prMain ShuttingDown p)
| select_error p e rest :
    prMain p = Selecting -> prErrCh p = e :: rest ->
    main_step p (set_prMain (LoggedFailure e) (set_prErrCh rest p))
| log_failure p e :
    prMain p = LoggedFailure e -> main_step p (set_prMain ShuttingDown p)
| stop_signals p :
    prMain p = ShuttingDown ->
    main_step p (set_prMain ClosingHub (set_prCtx true (set_prCatches false p)))
| close_hub p :
    prMain p = ClosingHub -> main_step p (set_prMain StartingShutdown (set_prHub false p))
| begin_shutdown p :
    prMain p = StartingShutdown ->
    main_step p (set_prMain (InShutdown (prNow p + ShutdownGrace)) p)
| shutdown_ends p t :
    prMain p = InShutdown t -> prConns p = 0%nat -> main_step p (set_prMain (ClosingStore None) p)
| shutdown_gives_up p t :
    prMain p = InShutdown t -> t <= prNow p ->
    main_step p (set_prMain (ClosingStore (Some DeadlineExceeded)) p)
| close_store p r :
    prMain p = ClosingStore r -> main_step p (set_prMain (Returned r) (set_prStore false p)).

(** What happens around it. *)
Inductive outer_step : BrokerProcess -> BrokerProcess -> Prop :=
| signal p :
    prCatches p = true -> outer_step p (set_prCtx true p)
| second_signal p :       (** after [stop] *)
    prCatches p = false -> outer_step p (set_prMain Killed p)
| bound p :
    prServer p = Starting -> accepting (prMain p) = true -> outer_step p (set_prServer Listening p)
| serving_fails p e :     (** the address is taken, or [Accept] fails for good *)
    prServer p = Starting \/ prServer p = Listening -> accepting (prMain p) = true ->
    outer_step p (set_prServer ServingFailed (set_prErrCh (prErrCh p ++ [e]) p))
| serving_ends p :        (** [ErrServerClosed] *)
    prServer p = Starting \/ prServer p = Listening -> accepting (prMain p) = false ->
    outer_step p (set_prServer ServerDone p)
| conn_accepted p :
    prServer p = Listening -> accepting (prMain p) = true -> outer_step p (set_prConns (S (prConns p)) p)
| conn_closes p n :
    prConns p = S n -> outer_step p (set_prConns n p)
| manager_ends p :
    prManager p = true -> prCtx p = true -> outer_step p (set_prManager false p)
| sweep_begins p :        (** a tick; [select] takes any case that is ready *)
    prSweeper p = SweepWaits -> outer_step p (set_prSweeper Sweeps p)
| sweep_returns p :
    prSweeper p = Sweeps -> outer_step p (set_prSweeper SweepWaits p)
| sweeper_ends p :
    prSweeper p = SweepWaits -> prCtx p = true -> outer_step p (set_prSweeper SweepEnded p)
| time_passes p t :       (** a timer that is due fires before time goes on *)
    prNow p <= t -> (forall d, prMain p = InShutdown d -> t <= Z.max d (prNow p)) ->
    outer_step p (set_prNow t p).

(** Nothing runs on once [runBroker] has returned: the process exits. *)
Definition life_step (p p' : BrokerProcess) : Prop :=
  is_over (prMain p) = false /\ (main_step p p' \/ outer_step p p').

(** [main]: the error is printed and the status is 1. *)
Definition exit_status (r : option error) : Z := match r with Some _ => 1 | None => 0 end.

(** [mhb harness run] once [h.Run] has returned: an error after a signal is
    the end that was asked for. *)
Definition harness_run_result (interrupted : bool) (r : option error) : option error :=
  if interrupted then None else r.

(** ** The end of the process *)

(** What holds at each point of the way down. *)
Definition stopped (p : BrokerProcess) : Prop := prCtx p = true /\ prCatches p = false.
Definition shut (p : BrokerProcess) : Prop := stopped p /\ prHub p = false.

Definition life_ok (p : BrokerProcess) : Prop :=
  match prMain p with
  | Selecting | LoggedFailure _ | ShuttingDown => prCatches p = true /\ prHub p = true /\ prStore p = true
  | ClosingHub => stopped p /\ prHub p = true /\ prStore p = true
  | StartingShutdown => shut p /\ prStore p = true
  | InShutdown t => shut p /\ prStore p = true /\ prNow p <= t
  | ClosingStore r => shut p /\ prStore p = true
      /\ (r = None /\ prConns p = 0%nat \/ r = Some DeadlineExceeded)
  | Returned r => shut p /\ prStore p = false
      /\ (r = None /\ prConns p = 0%nat \/ r = Some DeadlineExceeded)
  | Killed => stopped p /\ prStore p = true
  end.

Lemma launched_ok now : life_ok (launched now).
Proof. by cbn. Qed.

Lemma main_step_ok p p' : main_step p p' -> life_ok p -> life_ok p'.
Proof.
  unfold life_ok, shut, stopped. intros Hs.
  assert (0 <= ShutdownGrace) by done.
  destruct Hs; rewrite H0; cbn -[Z.mul]; try naive_solver.
  intros (Hshut & Hst). split; [done|]. split; [done|]. lia.
Qed.

Lemma outer_step_ok p p' : outer_step p p' -> is_over (prMain p) = false -> life_ok p -> life_ok p'.
Proof.
  unfold life_ok, shut, stopped. intros Hs Hover Hok.
  destruct (prMain p) eqn:Hm; try done; destruct Hs; cbn; rewrite ?Hm in *; cbn in *; try done; try naive_solver congruence.
  destruct Hok as (? & ? & ?). split; [done|]. split; [done|]. specialize (H0 _ eq_refl). lia.
Qed.

Lemma life_steps_ok p p' : rtc life_step p p' -> life_ok p -> life_ok p'.
Proof.
  induction 1 as [p|p p1 p2 (Ho & [Hs|Hs]) _ IH]; [done|..]; intros Hok; apply IH.
  - by eapply main_step_ok.
  - by eapply outer_step_ok.
Qed.

(** How many steps [runBroker] has left. *)
Definition main_left (m : Main) : nat :=
  match m with
  | Selecting => 7 | LoggedFailure _ => 6 | ShuttingDown => 5 | ClosingHub => 4 | StartingShutdown => 3
  | InShutdown _ => 2 | ClosingStore _ => 1 | Returned _ | Killed => 0
  end.

Lemma main_step_left p p' : main_step p p' -> (main_left (prMain p') < main_left (prMain p))%nat.
Proof. intros Hs. destruct Hs; rewrite H; cbn; lia. Qed.
Lemma outer_step_left p p' : outer_step p p' -> (main_left (prMain p') <= main_left (prMain p))%nat.
Proof. intros Hs. destruct Hs; cbn; lia. Qed.

(** A run with [n] steps of [runBroker] in it. *)
Inductive life_run : nat -> BrokerProcess -> BrokerProcess -> Prop :=
| run_nil p : life_run 0 p p
| run_main n p p1 p2 : is_over (prMain p) = false -> main_step p p1 -> life_run n p1 p2 -> life_run (S n) p p2
| run_outer n p p1 p2 : is_over (prMain p) = false -> outer_step p p1 -> life_run n p1 p2 -> life_run n p p2.

Lemma life_run_steps n p p' : life_run n p p' -> rtc life_step p p'.
Proof.
  induction 1 as [p|n p p1 p2 Ho Hs _ IH|n p p1 p2 Ho Hs _ IH]; [constructor|..];
    (eapply rtc_l; [|exact IH]); (split; [done|]); auto.
Qed.
Lemma life_run_left n p p' : life_run n p p' -> (n + main_left (prMain p') <= main_left (prMain p))%nat.
Proof.
  induction 1 as [p|n p p1 p2 Ho Hs _ IH|n p p1 p2 Ho Hs _ IH]; [lia|..].
  - apply main_step_left in Hs. lia.
  - apply outer_step_left in Hs. lia.
Qed.

(** A signal has come, a component has failed, or it is on its way out. *)
Definition wants_out (p : BrokerProcess) : Prop :=
  prMain p <> Selecting \/ prCtx p = true \/ prErrCh p <> [].

(** [srv.Shutdown] closes the connections that are idle and waits for the
    others. *)
Definition waits_for_conns (p : BrokerProcess) : Prop :=
  exists t, prMain p = InShutdown t /\ prConns p <> 0%nat /\ prNow p < t.

Lemma main_moves p :
  wants_out p -> is_over (prMain p) = false -> (exists p', main_step p p') \/ waits_for_conns p.
Proof.
  unfold wants_out, waits_for_conns. intros Hw Ho. destruct (prMain p) eqn:Hm; try done.
  - left. destruct Hw as [|[Hc|He]]; [done|eexists; by apply select_done|].
    destruct (prErrCh p) as [|e rest] eqn:Hp; [done|]. eexists. by eapply select_error.
  - left. eexists. by eapply log_failure.
  - left. eexists. by apply stop_signals.
  - left. eexists. by apply close_hub.
  - left. eexists. by apply begin_shutdown.
  - destruct (decide (prConns p = 0%nat)); [left; eexists; by eapply shutdown_ends|].
    destruct (Z.le_gt_cases deadline (prNow p)); [left; eexists; by eapply shutdown_gives_up|].
    right. exists deadline. auto.
  - left. eexists. by eapply close_store.
Qed.

Lemma wants_out_stays p p' : main_step p p' -> wants_out p'.
Proof. intros Hs. left. by destruct Hs. Qed.

(** Left to itself it comes to its end: it waits at most until the deadline. *)
Lemma main_ends p : wants_out p -> exists p', rtc life_step p p' /\ is_over (prMain p') = true.
Proof.
  remember (main_left (prMain p)) as n eqn:Hn. revert p Hn.
  induction n as [n IH] using lt_wf_ind. intros p -> Hw.
  destruct (is_over (prMain p)) eqn:Ho; [by exists p|].
  assert (forall q q', main_left (prMain q) = main_left (prMain p) -> is_over (prMain q) = false ->
            main_step q q' -> exists p', rtc life_step q p' /\ is_over (prMain p') = true) as Hmove.
  { intros q q' Hl Hq Hs. destruct (IH (main_left (prMain q')) ltac:(rewrite <- Hl; by apply main_step_left) q' eq_refl)
      as (p' & Hr & Hend); [by eapply wants_out_stays|].
    exists p'. split; [|done]. eapply rtc_l; [|exact Hr]. split; auto. }
  destruct (main_moves p Hw Ho) as [[p' Hs]|(t & Hm & Hreq & Ht)]; [by eapply Hmove|].
  set (q := set_prNow t p).
  assert (life_step p q) as Hpq.
  { split; [done|]. right. apply time_passes; [lia|]. intros d Hd. rewrite Hm in Hd. injection Hd as <-. lia. }
  destruct (Hmove q (set_prMain (ClosingStore (Some DeadlineExceeded)) q)) as (p' & Hr & Hend); [done|done| |].
  { apply (shutdown_gives_up q t); [done|]. cbn. lia. }
  exists p'. split; [by eapply rtc_l | done].
Qed.

(** The deadline of a shutdown stays what it was when the shutdown began. *)
Lemma shutdown_deadline q p t :
  rtc life_step q p -> prMain q = InShutdown t ->
  (main_left (prMain p) <= 2)%nat /\ forall t', prMain p = InShutdown t' -> t' = t.
Proof.
  intros Hr Hq.
  assert ((main_left (prMain q) <= 2)%nat /\ forall t', prMain q = InShutdown t' -> t' = t) as H0.
  { rewrite Hq. split; [done|]. by intros t' [= ->]. }
  clear Hq. induction Hr as [p|p p1 p2 (Ho & Hs) _ IH]; [done|]. apply IH. clear IH. destruct H0 as [Hl Ht].
  destruct Hs as [Hs|Hs].
  - pose proof (main_step_left _ _ Hs) as Hlt. split; [lia|]. intros t' Ht'. rewrite Ht' in Hlt. cbn in Hlt. lia.
  - pose proof (outer_step_left _ _ Hs) as Hle. split; [lia|]. intros t' Ht'. apply Ht. by destruct Hs.
Qed.

(** C34. The broker stops.  Once a signal has come or a component has failed,
    [runBroker] always has a next step, unless it waits for connections that
    are not idle, for no more than 5,000,000,000 nanoseconds from the moment its
    shutdown began, and it gives up no earlier; it makes no more than seven
    steps, whatever the rest of the process does, and its end is reached.
    The store is closed only after the context is cancelled, the hub is closed
    and no connection is accepted; and the process fails only when connections
    were left after the five seconds: whatever component failed, its error is
    never the result. *)
Theorem broker_stops now n p :
  life_run n (launched now) p ->
  (n <= 7)%nat
  /\ (wants_out p ->
       (is_over (prMain p) = true \/ (exists p', main_step p p') \/ waits_for_conns p)
       /\ exists p', rtc life_step p p' /\ is_over (prMain p') = true)
  /\ (forall q q', prMain q = StartingShutdown -> main_step q q' -> rtc life_step q' p ->
       forall t, prMain p = InShutdown t ->
         t = prNow q + 5000000000 /\ prNow p <= prNow q + 5000000000
         /\ forall p', main_step p p' -> prMain p' = ClosingStore (Some DeadlineExceeded) -> prNow p = prNow q + 5000000000)
  /\ (prStore p = false -> prCtx p = true /\ prHub p = false /\ accepting (prMain p) = false)
  /\ (forall r, prMain p = Returned r ->
       prStore p = false /\ prHub p = false
       /\ (exit_status r = 0 /\ prConns p = 0%nat \/ exit_status r = 1 /\ r = Some DeadlineExceeded)).
Proof.
  intros Hrun. pose proof (life_run_left _ _ _ Hrun) as Hn. cbn in Hn.
  assert (life_ok p) as Hok by (eapply life_steps_ok; [by eapply life_run_steps | apply launched_ok]).
  split; [lia|]. split.
  { intros Hw. split; [|by apply main_ends]. destruct (is_over (prMain p)) eqn:Ho; [by left|right].
    by apply main_moves. }
  unfold life_ok, shut, stopped in Hok. split_and!.
  - intros q q' Hq Hs Hr t Hm. rewrite Hm in Hok. destruct Hok as (_ & _ & Hle).
    assert (prMain q' = InShutdown (prNow q + 5000000000)) as Hq' by (destruct Hs; try congruence; reflexivity).
    destruct (shutdown_deadline _ _ _ Hr Hq') as [_ Ht]. specialize (Ht t Hm). subst t.
    split; [done|]. split; [done|]. intros p' Hs' Hend. destruct Hs'; cbn in Hend; try congruence.
    rewrite Hm in H. injection H as <-. lia.
  - intros Hs. destruct (prMain p); cbn; try naive_solver congruence.
  - intros r Hm. rewrite Hm in Hok. destruct Hok as ((_ & Hh) & Hs & [[-> Hr]|Hr]); [by auto|].
    split; [done|]. split; [done|]. right. by rewrite Hr.
Qed.

(** A run in which the address is taken: the process ends with status 0. *)
Lemma listen_failure_exits_zero now e :
  let failed := set_prServer ServingFailed (set_prErrCh [e] (launched now)) in
  outer_step (launched now) failed
  /\ exists p, rtc life_step failed p /\ prMain p = Returned None /\ exit_status None = 0.
Proof.
  intros failed. split; [apply (serving_fails (launched now) e); [by left | done]|].
  assert (forall p p', is_over (prMain p) = false -> main_step p p' -> life_step p p') as go by (split; auto).
  eexists. split.
  { eapply rtc_l; [apply go; [done | by eapply select_error]|].
    eapply rtc_l; [apply go; [done | by eapply log_failure]|].
    eapply rtc_l; [apply go; [done | by apply stop_signals]|].
    eapply rtc_l; [apply go; [done | by apply close_hub]|].
    eapply rtc_l; [apply go; [done | by apply begin_shutdown]|].
    eapply rtc_l; [apply go; [done | by eapply shutdown_ends]|].
    eapply rtc_l; [apply go; [done | by eapply close_store]|]. constructor. }
  by split.
Qed.

Lemma broker_stops_witness :
  exists p', rtc life_step (set_prCtx true (launched 0)) p' /\ is_over (prMain p') = true.
Proof.
  destruct (broker_stops 0 0 (set_prCtx true (launched 0))) as (_ & Hw & _).
  - apply (run_outer 0 _ (set_prCtx true (launched 0))); [done | by apply signal | constructor].
  - apply Hw. right. by left.
Defined.
