(* ===== verification/Routes.v ===== *)
(** * The routes of the broker's server ([runBroker], [oauth.Register]) *)

From S2P Require Import Prelude GoText Json Protocol.

Open Scope Z_scope.

(** ** The patterns

    The patterns given to [http.ServeMux], with their methods.  A request comes
    with its clean path; a wildcard stands for one segment that is not empty,
    GET also takes HEAD.  The mux panics when two patterns are registered that
    match one request and neither is the more specific. *)

Inductive endpoint : Type :=
| OAuthStart | OAuthCallback | RootRedirect | OutgoingHook | Healthz | HubEndpoint
| StartInitEndpoint | PollInitEndpoint | SlashCommand | ApprovalCallback.

(** [auth.Register] *)
Definition Register : list (string * string * endpoint) := [
  ("GET", "/oauth/start", OAuthStart);
  ("GET", "/oauth/callback", OAuthCallback)].

Definition routes : list (string * string * endpoint) := Register ++ [
  ("GET", "/{$}", RootRedirect);
  ("POST", "/webhooks/mattermost/{botID}", OutgoingHook);
  ("GET", "/healthz", Healthz);
  ("GET", Path, HubEndpoint);
  ("POST", "/init", StartInitEndpoint);
  ("GET", "/init/{code}", PollInitEndpoint);
  ("POST", "/commands/harness", SlashCommand);
  ("POST", "/callback/approval", ApprovalCallback)].

Definition path_segments (p : string) : list string := tail (split_at (ascii_of 47) p).

(** A segment of a pattern against one of a path; the value of a wildcard. *)
Definition match_segment (pat seg : string) : option (list string) :=
  if String.eqb pat "{$}" then if String.eqb seg "" then Some [] else None
  else if HasPrefix pat "{" then if String.eqb seg "" then None else Some [seg]
  else if String.eqb pat seg then Some [] else None.

Fixpoint match_path (pat path : list string) : option (list string) :=
  match pat, path with
  | [], [] => Some []
  | x :: pat, y :: path =>
      match match_segment x y, match_path pat path with
      | Some v, Some vs => Some (v ++ vs)
      | _, _ => None
      end
  | _, _ => None
  end.

Definition method_matches (pat method : string) : bool :=
  String.eqb pat method || (String.eqb pat "GET" && String.eqb method "HEAD").

Definition route_matches (method path : string) (r : string * string * endpoint) : option (endpoint * list string) :=
  if method_matches r.1.1 method
  then (fun vs => (r.2, vs)) <$> match_path (path_segments r.1.2) (path_segments path)
  else None.

Definition NotFound : Z := 404.
Definition MethodNotAllowed : Z := 405.

(** What the mux does with a request. *)
Definition serve_mux (method path : string) : endpoint * list string + Z :=
  match omap (route_matches method path) routes with
  | r :: _ => inl r
  | [] => inr (if existsb (fun r => bool_decide (is_Some (match_path (path_segments r.1.2) (path_segments path)))) routes
               then MethodNotAllowed else NotFound)
  end.

Example route_poll : serve_mux "GET" "/init/ABCDEF" = inl (PollInitEndpoint, ["ABCDEF"]). Proof. reflexivity. Qed.
Example route_hook : serve_mux "POST" "/webhooks/mattermost/bot1" = inl (OutgoingHook, ["bot1"]). Proof. reflexivity. Qed.
Example route_root : serve_mux "HEAD" "/" = inl (RootRedirect, []). Proof. reflexivity. Qed.
Example route_pair : serve_mux "POST" "/pair" = inr NotFound. Proof. reflexivity. Qed.
Example route_method : serve_mux "GET" "/callback/approval" = inr MethodNotAllowed. Proof. reflexivity. Qed.

(** Whether two patterns can match one path: at some segment they differ. *)
Definition apart_segment (x y : string) : bool :=
  match HasPrefix x "{", HasPrefix y "{" with
  | false, false => negb (String.eqb x y)
  | true, false => if String.eqb x "{$}" then negb (String.eqb y "") else String.eqb y ""
  | false, true => if String.eqb y "{$}" then negb (String.eqb x "") else String.eqb x ""
  | true, true => negb (Bool.eqb (String.eqb x "{$}") (String.eqb y "{$}"))
  end.
Fixpoint apart (p q : list string) : bool :=
  match p, q with
  | [], [] => false
  | x :: p, y :: q => apart_segment x y || apart p q
  | _, _ => true
  end.

Lemma dollar_prefix x : String.eqb x "{$}" = true -> HasPrefix x "{" = true.
Proof. intros ->%String.eqb_eq. reflexivity. Qed.

Lemma apart_segment_sound x y seg :
  apart_segment x y = true -> is_Some (match_segment x seg) -> is_Some (match_segment y seg) -> False.
Proof.
  unfold apart_segment, match_segment. intros Ha Hx Hy.
  destruct (String.eqb x "{$}") eqn:Ex; [rewrite (dollar_prefix x Ex) in Ha|];
    (destruct (String.eqb y "{$}") eqn:Ey; [rewrite (dollar_prefix y Ey) in Ha|]);
    destruct (HasPrefix x "{"), (HasPrefix y "{"); cbn in Ha; try done;
    destruct (String.eqb_spec seg ""); try (by destruct Hx); try (by destruct Hy); subst;
    repeat match goal with H : context [String.eqb ?a ?b] |- _ => destruct (String.eqb_spec a b); subst; cbn in *; try done end;
    try (by destruct Hx); by destruct Hy.
Qed.

Lemma apart_sound p q path :
  apart p q = true -> is_Some (match_path p path) -> is_Some (match_path q path) -> False.
Proof.
  revert q path. induction p as [|x p IH]; intros [|y q] [|seg path]; cbn; try done; try (by intros _ [? ?]); try (by intros _ _ [? ?]).
  intros Ha Hp Hq.
  destruct (match_segment x seg) eqn:Ex; [|by destruct Hp]. destruct (match_path p path) eqn:Ep; [|by destruct Hp].
  destruct (match_segment y seg) eqn:Ey; [|by destruct Hq]. destruct (match_path q path) eqn:Eq; [|by destruct Hq].
  apply orb_true_iff in Ha as [Ha|Ha].
  - eapply (apart_segment_sound x y seg); [done|by rewrite Ex|by rewrite Ey].
  - eapply (IH q path); [done|by rewrite Ep|by rewrite Eq].
Qed.

(** Every request has at most one route: the mux accepts the patterns, and the
    order in which they are registered does not matter. *)
Definition disjoint_routes (r s : string * string * endpoint) : bool :=
  negb (String.eqb r.1.1 s.1.1) || apart (path_segments r.1.2) (path_segments s.1.2).

Theorem routes_disjoint method path i j r s :
  routes !! i = Some r -> routes !! j = Some s ->
  is_Some (route_matches method path r) -> is_Some (route_matches method path s) -> i = j.
Proof.
  assert (forallb (fun i => forallb (fun j => (i =? j)%nat ||
    match routes !! i, routes !! j with Some r, Some s => disjoint_routes r s | _, _ => true end)
    (seq 0 (length routes))) (seq 0 (length routes)) = true) as Hall by reflexivity.
  intros Hi Hj Hr Hs. destruct (decide (i = j)) as [|Hne]; [done|exfalso].
  pose proof (lookup_lt_Some _ _ _ Hi) as Hli. pose proof (lookup_lt_Some _ _ _ Hj) as Hlj.
  rewrite forallb_forall in Hall. specialize (Hall i ltac:(apply in_seq; lia)). rewrite forallb_forall in Hall.
  specialize (Hall j ltac:(apply in_seq; lia)). rewrite Hi, Hj, (proj2 (Nat.eqb_neq i j) Hne) in Hall. cbn in Hall.
  unfold route_matches in Hr, Hs. destruct (method_matches r.1.1 method) eqn:Er; [|by destruct Hr].
  destruct (method_matches s.1.1 method) eqn:Es; [|by destruct Hs].
  rewrite fmap_is_Some in Hr, Hs. apply orb_true_iff in Hall as [Hm|Ha]; [|by eapply apart_sound].
  assert (Forall (fun p => p = "GET" \/ p = "POST") (routes.*1.*1)) as Hms
    by (repeat (constructor; [first [left; reflexivity | right; reflexivity]|]); constructor).
  rewrite Forall_forall in Hms.
  assert (forall k t, routes !! k = Some t -> t.1.1 ∈ routes.*1.*1) as Hin.
  { intros k t Hk. apply list_elem_of_fmap. exists t.1. split; [done|]. apply list_elem_of_fmap.
    exists t. split; [done|]. by eapply list_elem_of_lookup_2. }
  unfold method_matches in Er, Es.
  destruct (Hms _ (Hin _ _ Hi)) as [E1|E1], (Hms _ (Hin _ _ Hj)) as [E2|E2];
    rewrite E1 in Hm, Er; rewrite E2 in Hm, Es; cbn in Hm; try discriminate Hm;
    apply orb_true_iff in Er as [Er|Er], Es as [Es|Es]; try discriminate;
    repeat match goal with H : String.eqb _ _ = true |- _ => apply String.eqb_eq in H end; subst; discriminate.
Qed.
