(* ===== verification/Demo.v ===== *)
(** * A concrete broker

    One environment, one configuration and one database on which the
    definitions compute.  The theorems are applied to it in [Witnesses.v], and
    the race at the end is a run of it. *)

From S2P Require Import Prelude Resume GoText Codec Json Protocol Store Tables World Sqlite Integrity StoreFacts CoreText Sender Hub HubFacts Posts Core CoreGuards CoreFacts.

Open Scope Z_scope.
Open Scope prog_scope.

(** ** The outside *)

Definition epoch : Time := 1700000000 * second.

(** A clock that advances by a second per tick, a Mattermost that accepts
    everything, a working database file. *)
#[export] Instance demo_env : Env := {|
  clock t := epoch + Z.of_nat t * second;
  ulid_make t := "U" +:+ pretty t;
  rand_read t n := repeat (Z.of_nat t mod 256) n;
  db_fault _ := None;
  mm_create_post t _ p :=
    Ok (MkPost ("post" +:+ pretty t) (poUserId p) (poChannelId p) (poRootId p) (poMessage p) (poType p)
          (poCreateAt p) (poDeleteAt p) (poFileIds p) (poFromBot p) (poAttachments p));
  mm_update_post _ _ _ _ := Ok tt;
  mm_get_user _ _ id := Ok (MkUser id ("name-" +:+ id));
  mm_get_thread _ _ _ := Ok [];
  mm_direct_channel _ _ _ u := Ok ("dm-" +:+ u);
  mm_upload_file t _ _ name data := Ok (MkFileInfo ("file" +:+ pretty t) (Z.of_nat (length data)) name "text/plain");
  mm_download_file _ _ _ := Ok [];
  mm_get_file_info _ _ id := Ok (MkFileInfo id 0 "name" "text/plain");
  ws_write _ _ _ := Ok tt;
  decode_error_text _ := "cannot unmarshal";
  local_rfc822 _ := "14 Nov 23 22:13 UTC";
  local_kitchen _ := "10:13PM";
  MaxMessageLen := 16383;
  provisioner_for _ team := String.eqb team "team1";
  pv_get_channel _ team _ := Ok (Some (MkChannel team "O"));
  pv_get_user _ _ id := Ok (Some (MkUser id ("name-" +:+ id)));
  pv_create_bot t _ _ _ _ := Ok (Some ("newbot" +:+ pretty t));
  pv_create_bot_token _ _ _ _ := Ok "bottoken";
  pv_add_team_member _ _ _ _ := Ok tt;
  pv_add_channel_member _ _ _ _ := Ok tt;
  pv_create_incoming t _ h := (Some (MkIncomingWebhook ("in" +:+ pretty t) (iwUserId h) (iwTeamId h) (iwChannelId h) (iwUsername h)), None);
  pv_create_outgoing _ _ _ := (None, Some (ErrOther "forbidden"));
  pv_delete_outgoing _ _ _ := Ok tt;
  pv_delete_incoming _ _ _ := Ok tt;
  pv_disable_bot _ _ _ := Ok tt
|}.

#[export] Instance demo_no_faults : NoFaults demo_env.
Proof. intros t. reflexivity. Defined.

#[export] Instance demo_config : Config := {|
  BotUserID := "brokerbot"; BotUsername := "harness"; PublicURL := "https://mhb.example";
  CallbackSecret := "callback"; QueueTTL := 5 * minute; GracePeriod := 10 * minute;
  ApprovalTTL := 30 * minute; JobTimeout := 30 * minute; DefaultMaxTurns := 40;
  EditInterval := 1200 * millisecond; OutboxRetention := 24 * hour;
  mm_set := true; admin_set := false; provisioner_set := true; newPoster := Some (fun _ => true)
|}.

Definition demo_hub : HubConfig := MkHubConfig (20 * second) "0.2.0".

(** ** The database *)

Definition demo_harness : Harness :=
  MkHarness "hrn_1" "alice" "laptop" (tokenHash "secret") "0.3.0" epoch None.
Definition demo_bot : Bot :=
  MkBot "bot1" "alice" "alice-bot" "tok1" epoch "hrn_1" "team1" "chan1" "in1" "out1" "outtok".
Definition demo_free_bot : Bot :=
  MkBot "bot2" "alice" "alice-two" "tok2" epoch "" "team1" "chan1" "in2" "out2" "outtok2".

Definition demo_job (id trigger : string) (s : JobState) : Job :=
  MkJob id "hrn_1" "alice" "chan1" ("root-" +:+ id) trigger ("status-" +:+ id) "bot1" "" "do it" s 3
    "" "" epoch epoch (match s with JobQueued => Some (epoch + 5 * minute) | _ => None end) None.
Definition job_queued := demo_job "job_q" "post_q" JobQueued.
Definition job_dispatched := demo_job "job_d" "post_d" JobDispatched.
Definition job_running := demo_job "job_r" "post_r" JobRunning.
Definition job_waiting := demo_job "job_a" "post_a" JobAwaitingApproval.
Definition job_lost := demo_job "job_l" "post_l" JobLost.

Definition demo_approval : Approval :=
  MkApproval "apr_1" "job_a" "Bash" "rm -rf build" None "nonce" epoch (epoch + 30 * minute) "" "" None.

Definition demo_dispatch : OutboxMessage :=
  MkOutboxMessage "msg_q" "hrn_1" "job_q" TypeJobDispatch (Some JNull) epoch None.

Definition demo_init : InitRequest :=
  MkInitRequest (hashCode "OPENCODE") "" "workstation" epoch (epoch + 10 * minute) None "" "" None ""
    (tokenHash "poll").
Definition demo_claimed_init : InitRequest :=
  MkInitRequest (hashCode "DONECODE") "" "laptop" epoch (epoch + 10 * minute) (Some epoch) "hrn_1" "secret" None
    "bot1" (tokenHash "poll").

Definition demo_db : DB :=
  MkDB {[ "hrn_1" := demo_harness ]}
    {[ "bot1" := bot_row demo_bot; "bot2" := bot_row demo_free_bot ]}
    ∅
    {[ hashCode "OPENCODE" := demo_init; hashCode "DONECODE" := demo_claimed_init ]}
    {[ hashCode "PAIRCODE" := MkPairing "alice" (epoch + 10 * minute) None ]}
    {[ "job_q" := job_queued; "job_d" := job_dispatched; "job_r" := job_running; "job_a" := job_waiting;
       "job_l" := job_lost ]}
    {[ "apr_1" := approval_row demo_approval ]}
    {[ "msg_q" := demo_dispatch ]}
    [].

Definition demo_world : World := set_conns {[ "hrn_1" := 7%nat ]} (set_db demo_db empty_world).
Definition offline_world : World := set_db demo_db empty_world.

(** *** It is well-formed *)

Lemma unique_by_pairs {A} (same : A -> A -> bool) (t : gmap string A) :
  map_Forall (fun k1 x1 => map_Forall (fun k2 x2 => same x1 x2 = true -> k1 = k2) t) t -> unique same t.
Proof. intros H k1 k2 x1 x2 H1 H2. exact (H k1 x1 H1 k2 x2 H2). Qed.

Lemma references_by_rows {A B} (ref : A -> option string) (t : gmap string A) (u : gmap string B) :
  map_Forall (fun _ x => match ref x with Some r => bool_decide (is_Some (u !! r)) | None => true end = true) t ->
  references ref t u.
Proof.
  intros H k x r Hk Hr. specialize (H k x Hk). cbn in H. rewrite Hr in H. by apply bool_decide_eq_true in H.
Qed.

Ltac by_rows := eapply bool_decide_unpack; vm_compute; exact I.

Lemma demo_db_wf : db_wf demo_db.
Proof.
  split.
  1-6: change (map_Forall (fun k x => _ x = k) (t_harnesses demo_db))
    || lazymatch goal with |- keyed ?id ?t => change (map_Forall (fun k x => id x = k) t) end; by_rows.
  1-3: apply unique_by_pairs; by_rows.
  all: apply references_by_rows; by_rows.
Qed.

Lemma demo_fresh w : w_db w = demo_db -> fresh_messages w.
Proof.
  intros Hw t _. rewrite Hw. apply lookup_singleton_ne. unfold NewID. simpl. intros H. discriminate H.
Qed.

(** *** A broker that has sent messages

    At tick 100, the dispatch of the waiting job, whose id was drawn at tick
    3, was delivered, acknowledged and is still stored. *)
Definition sent_dispatch : OutboxMessage :=
  MkOutboxMessage (NewID "msg" (ulid_make 3)) "hrn_1" "job_a" TypeJobDispatch (Some JNull) epoch (Some epoch).
Definition busy_db : DB := set_outbox (<[mID sent_dispatch := sent_dispatch]> (t_outbox demo_db)) demo_db.
Definition busy_world : World := set_tick 100 (set_db busy_db demo_world).

Lemma busy_db_wf : db_wf busy_db.
Proof.
  apply wf_set_outbox; [exact demo_db_wf|].
  change (map_Forall (fun k x => mID x = k) (t_outbox busy_db)). by_rows.
Qed.

Lemma NewID_inj p a b : NewID p a = NewID p b -> a = b.
Proof. unfold NewID. by intros H%(inj (String.append p)) %(inj (String.append "_")). Qed.

(** The ids drawn from tick 100 on are new to that outbox. *)
Lemma busy_fresh : fresh_messages busy_world.
Proof.
  intros t Ht. cbn in Ht. change (t_outbox (w_db busy_world)) with (<[mID sent_dispatch := sent_dispatch]> (t_outbox demo_db)).
  rewrite lookup_insert_ne; [apply (demo_fresh demo_world eq_refl), Nat.le_0_l|].
  cbn. intros H%NewID_inj. apply (inj (String.append "U")), (inj pretty) in H. lia.
Qed.

(** ** The race of a debounced edit with the final one

    [time.Timer.Stop] does not wait for a function that has started, and
    [edit]'s function calls Mattermost after it has left the editor's
    mutex. *)

Definition racing_world : World :=
  set_edits {[ "job_r" := 0%nat ]}
    (set_editors [MkEditor "half way" (Some 0%nat) epoch]
      (set_timers [MkTimer 0 job_running epoch true] demo_world)).

(** The timer's function takes the pending text and the bot's credentials;
    then the final edit runs; then the function posts. *)
Definition stale_schedule : list nat := [0; 0; 0; 1; 1; 1; 1; 0]%nat.

(** The status post of a finished job can end with a progress text: there
    is an interleaving of the debouncer's function with the final edit of the
    same job, both of which end, in which the older text is written last. *)
Theorem stale_edit_after_final :
  let final := exec_schedule stale_schedule [fire_timer 0; finalEdit job_running "done"] racing_world in
  final.1 = [Ret tt; Ret tt]
  /\ w_trace final.2 = [EvUpdatePost (AsBot "tok1") "status-job_r" "done" true;
                        EvUpdatePost (AsBot "tok1") "status-job_r" "half way" true].
Proof. vm_compute. split; reflexivity. Qed.
