(* ===== verification/Conformance.v ===== *)
(** * The conformance suite of the store ([internal/store/storetest/suite.go])

    Every implementation of [store.Store] must pass this suite.  Here it is a list
    of programs over the store's methods, one per test, that stop at the first
    check that fails, with its message; the model of the sqlite store is run on it
    from an empty database. *)

From S2P Require Import Prelude Resume GoText Json Protocol Store Tables World Sqlite Demo.

Open Scope Z_scope.
Open Scope prog_scope.

Section Suite.
Context {E : Env}.

(** A test: [Ok] or what [t.Fatal] was given. *)
Definition testing : Type := prog World (res unit).
Definition passes : testing := Ret (Ok tt).
Definition check (good : bool) (msg : string) (rest : testing) : testing :=
  if good then rest else Ret (Err (ErrOther msg)).
Definition must {A} (m : prog World (res A)) (rest : A -> testing) : testing :=
  r <- m ;; match r with Ok a => rest a | Err e => Ret (Err e) end.

Definition conflicts {A} (r : res A) : bool := match r with Err ErrConflict => true | _ => false end.
Definition not_found {A} (r : res A) : bool := match r with Err ErrNotFound => true | _ => false end.
Definition gives {A} (p : A -> bool) (r : res A) : bool := match r with Ok a => p a | Err _ => false end.
Definition set {A} (o : option A) : bool := match o with Some _ => true | None => false end.
Definition has_ids {A} (id : A -> string) (ids : list string) (l : list A) : bool := bool_decide (map id l = ids).
Definition in_state (s : JobState) (j : Job) : bool := bool_decide (jState j = s).

Definition now : prog World Time := t <- time_now ;; Ret (col_time t).

Definition seedHarness (rest : Harness -> testing) : testing :=
  t <- now ;;
  let h := MkHarness "hrn_1" "user_1" "mbp" "hash_1" "0.1.0" t None in
  must (CreateHarness h) (fun _ => rest h).
Definition suite_job (id root trigger bot prompt : string) (state : JobState) (created updated : Time) (expires : option Time) : Job :=
  MkJob id "hrn_1" "user_1" "ch" root trigger "" bot "ws" prompt state 0 "" "" created updated expires None.
Definition seedJob (id : string) (state : JobState) (rest : testing) : testing :=
  created <- now ;; updated <- now ;;
  must (CreateJob (suite_job id ("root_" +:+ id) "trig" "" "do it" state created updated None)) (fun _ => rest).

Definition testHarnessCRUD : testing :=
  seedHarness (fun h =>
  dup <- CreateHarness h ;;
  check (conflicts dup) "duplicate harness: want ErrConflict" (
  got <- HarnessByTokenHash "hash_1" ;;
  check (gives (fun g => String.eqb (hID g) (hID h) && negb (set (hLastSeenAt g))) got) "by token" (
  seen <- now ;;
  must (TouchHarness (hID h) seen "0.2.0") (fun _ =>
  got <- HarnessByID (hID h) ;;
  check (gives (fun g => String.eqb (hVersion g) "0.2.0" && bool_decide (hLastSeenAt g = Some seen)) got) "touch not applied" (
  list <- HarnessesByUser "user_1" ;;
  check (gives (fun l => (length l =? 1)%nat) list) "by user" (
  must (DeleteHarness (hID h)) (fun _ =>
  gone <- HarnessByID (hID h) ;;
  check (not_found gone) "after delete" (
  nope <- TouchHarness "nope" seen "" ;;
  check (not_found nope) "touch unknown" passes)))))))).

Definition testPairingConsumeOnce : testing :=
  t <- now ;;
  must (CreatePairing "code" "user_1" (t + minute)) (fun _ =>
  t1 <- now ;; uid <- ConsumePairing "code" t1 ;;
  check (gives (String.eqb "user_1") uid) "first consume" (
  t2 <- now ;; again <- ConsumePairing "code" t2 ;;
  check (not_found again) "second consume" (
  t3 <- now ;; unknown <- ConsumePairing "unknown" t3 ;;
  check (not_found unknown) "unknown consume" passes))).

Definition testPairingExpired : testing :=
  t <- now ;;
  must (CreatePairing "code" "user_1" (t - second)) (fun _ =>
  t1 <- now ;; r <- ConsumePairing "code" t1 ;;
  check (not_found r) "expired consume" passes).

Definition testJobTransitionCAS : testing :=
  seedHarness (fun _ => seedJob "job_1" JobDispatched (
  j <- TransitionJob "job_1" [JobDispatched] JobRunning (MkJobPatch (Some "post_1") None None) ;;
  check (gives (fun j => in_state JobRunning j && String.eqb (jStatusPostID j) "post_1" && negb (set (jFinishedAt j))) j)
    "dispatched->running" (
  wrong <- TransitionJob "job_1" [JobQueued] JobRunning no_patch ;;
  check (conflicts wrong) "wrong from: want ErrConflict" (
  missing <- TransitionJob "missing" [JobRunning] JobFailed no_patch ;;
  check (not_found missing) "missing job: want ErrNotFound" (
  j <- TransitionJob "job_1" ActiveStates JobSucceeded (MkJobPatch None (Some "done") None) ;;
  check (gives (fun j => in_state JobSucceeded j && set (jFinishedAt j) && String.eqb (jResultText j) "done"
                         && String.eqb (jStatusPostID j) "post_1") j) "running->succeeded" (
  again <- TransitionJob "job_1" ActiveStates JobCancelled no_patch ;;
  check (conflicts again) "terminal re-transition" passes)))))).

Definition testJobProgressMonotonic : testing :=
  seedHarness (fun _ => seedJob "job_1" JobRunning (
  ok <- RecordProgress "job_1" 5 ;;
  check (gives id ok) "seq 5" (
  ok <- RecordProgress "job_1" 3 ;;
  check (negb (gives id ok)) "older seq must not apply" (
  ok <- RecordProgress "job_1" 5 ;;
  check (negb (gives id ok)) "same seq must not apply" (
  ok <- RecordProgress "job_1" 6 ;;
  check (gives id ok) "newer seq must apply" (
  j <- JobByID "job_1" ;;
  check (gives (fun j => jLastSeq j =? 6) j) "last_seq" (
  seedJob "job_2" JobSucceeded (
  ok <- RecordProgress "job_2" 1 ;;
  check (negb (gives id ok)) "progress on terminal job must not apply" passes)))))))).

Definition testJobExpireQueued : testing :=
  seedHarness (fun _ =>
  t1 <- now ;; t2 <- now ;;
  let past := t1 - minute in
  let future := t2 + minute in
  seedJob "job_old" JobQueued (
  created <- now ;; updated <- now ;;
  let old := suite_job "job_exp" "r" "t" "" "p" JobQueued created updated (Some past) in
  let fresh := suite_job "job_fresh" "r" "t" "" "p" JobQueued created updated (Some future) in
  must (CreateJob old) (fun _ => must (CreateJob fresh) (fun _ =>
  t <- now ;;
  must (ExpireQueuedJobs t) (fun expired =>
  check (has_ids jID ["job_exp"] expired && forallb (fun j => in_state JobExpired j && set (jFinishedAt j)) expired) "expired" (
  j <- JobByID "job_fresh" ;;
  check (gives (in_state JobQueued) j) "fresh job touched" passes)))))).

Definition testJobActiveByHarness : testing :=
  seedHarness (fun _ =>
  seedJob "job_a" JobRunning (seedJob "job_b" JobAwaitingApproval (seedJob "job_c" JobSucceeded (
  active <- ActiveJobsByHarness "hrn_1" ;;
  check (gives (fun l => (length l =? 2)%nat) active) "active" (
  byThread <- ListJobs (MkJobFilter "" "" "" "" "root_job_a" [] 0) ;;
  check (gives (has_ids jID ["job_a"]) byThread) "by thread" passes))))).

Definition suite_input : json := JObj [("command", JStr "rm -rf x")].
Definition is_suite_input (j : option json) : bool :=
  match j with Some (JObj [(k, JStr v)]) => String.eqb k "command" && String.eqb v "rm -rf x" | _ => false end.
Definition seedApproval (id : string) (expires : Time) (rest : Approval -> testing) : testing :=
  t <- now ;;
  let a := MkApproval id "job_1" "Bash" "rm -rf x" (Some suite_input) "n" t expires "" "" None in
  must (CreateApproval a) (fun _ => rest a).

Definition testApprovalDecideOnce : testing :=
  seedHarness (fun _ => seedJob "job_1" JobAwaitingApproval (
  t <- now ;;
  seedApproval "apr_1" (t + hour) (fun _ =>
  pending <- PendingApprovalsByJob "job_1" ;;
  check (gives (fun l => match l with [a] => Pending a && is_suite_input (aInput a) | _ => false end) pending) "pending" (
  t1 <- now ;; a <- DecideApproval "apr_1" Allow "user_1" t1 ;;
  check (gives (fun a => String.eqb (aDecision a) Allow && String.eqb (aDecidedBy a) "user_1" && set (aDecidedAt a)) a) "decide" (
  t2 <- now ;; again <- DecideApproval "apr_1" Deny "user_2" t2 ;;
  check (conflicts again) "second decide: want ErrConflict" (
  t3 <- now ;; unknown <- DecideApproval "apr_x" Deny "user_2" t3 ;;
  check (not_found unknown) "unknown decide" (
  pending <- PendingApprovalsByJob "job_1" ;;
  check (gives is_empty_list pending) "still pending" passes))))))).

Definition testApprovalExpired : testing :=
  seedHarness (fun _ => seedJob "job_1" JobAwaitingApproval (
  t <- now ;;
  seedApproval "apr_1" (t - second) (fun _ =>
  t1 <- now ;; r <- DecideApproval "apr_1" Allow "user_1" t1 ;;
  check (conflicts r) "expired decide: want ErrConflict" passes))).

Definition testApprovalDuplicateID : testing :=
  seedHarness (fun _ => seedJob "job_1" JobAwaitingApproval (
  t <- now ;;
  seedApproval "apr_1" (t + hour) (fun a =>
  dup <- CreateApproval a ;;
  check (conflicts dup) "duplicate approval" passes))).

Definition testOutboxPendingAckPurge : testing :=
  t0 <- now ;;
  let m1 := MkOutboxMessage "m1" "hrn_1" "job_1" "job.dispatch" (Some (JObj [("a", JInt 1)])) t0 None in
  let m2 := MkOutboxMessage "m2" "hrn_1" "job_1" "job.cancel" (Some (JObj [])) (t0 + millisecond) None in
  let m3 := MkOutboxMessage "m3" "hrn_2" "" "job.dispatch" (Some (JObj [])) t0 None in
  must (Enqueue m1) (fun _ => must (Enqueue m2) (fun _ => must (Enqueue m3) (fun _ =>
  dup <- Enqueue m1 ;;
  check (conflicts dup) "duplicate enqueue" (
  pending <- PendingOutbox "hrn_1" ;;
  check (gives (fun l => has_ids mID ["m1"; "m2"] l
      && match mPayload <$> head l with Some (Some (JObj [(k, JInt n)])) => String.eqb k "a" && (n =? 1) | _ => false end) pending)
    "pending" (
  t1 <- now ;; must (AckOutbox "m1" t1) (fun _ =>
  t2 <- now ;; must (AckOutbox "m1" t2) (fun _ =>
  pending <- PendingOutbox "hrn_1" ;;
  check (gives (has_ids mID ["m2"]) pending) "after ack" (
  t3 <- now ;; n <- PurgeOutbox (t3 + second) ;;
  check (gives (Z.eqb 1) n) "purge" (
  pending <- PendingOutbox "hrn_2" ;;
  check (gives (has_ids mID ["m3"]) pending) "other harness affected" passes))))))))).

Definition testAuditAppend : testing :=
  must (Append (MkAuditEntry zero_time "system" "test" "job_1" (Some (JObj [("k", JStr "v")])))) (fun _ =>
  t <- now ;; must (Append (MkAuditEntry t "user_1" "test.nodetails" "" None)) (fun _ => passes)).

Definition suite_bot (id owner name token : string) (created : Time) : Bot := MkBot id owner name token created "" "" "" "" "" "".
Definition testBotsPerOwner : testing :=
  t1 <- now ;; must (CreateBot (suite_bot "bot_1" "user_1" "harness-manuel" "tok" t1)) (fun _ =>
  t2 <- now ;; must (CreateBot (suite_bot "bot_2" "user_1" "other" "t" t2)) (fun _ =>
  t3 <- now ;; dup <- CreateBot (suite_bot "bot_3" "user_2" "harness-manuel" "t" t3) ;;
  check (conflicts dup) "duplicate username" (
  got <- BotByOwner "user_1" ;;
  check (gives (fun b => String.eqb (bUserID b) "bot_1" && String.eqb (bToken b) "tok") got) "by owner" (
  unknown <- BotByUserID "bot_x" ;;
  check (not_found unknown) "unknown bot" (
  list <- ListBots ;;
  check (gives (fun l => (length l =? 2)%nat) list) "list" passes))))).

Definition suite_init (code bot name : string) (created expires : Time) : InitRequest :=
  MkInitRequest code bot name created expires None "" "" None "" "".
Definition testInitDeviceFlow : testing :=
  t <- now ;;
  let exp := t + 10 * minute in
  t1 <- now ;; must (CreateInit (suite_init "c1" "custom" "mbp" t1 exp)) (fun _ =>
  t2 <- now ;; dup <- CreateInit (suite_init "c1" "" "" t2 exp) ;;
  check (conflicts dup) "duplicate code" (
  t3 <- now ;; r <- FetchInit "c1" t3 ;;
  check (gives (fun r => negb (Claimed r) && String.eqb (iBotName r) "custom" && String.eqb (iHarnessName r) "mbp") r) "pending fetch" (
  t4 <- now ;; must (ClaimInit "c1" t4 "hrn_1" "hrt_secret") (fun _ =>
  t5 <- now ;; again <- ClaimInit "c1" t5 "hrn_2" "x" ;;
  check (conflicts again) "second claim" (
  t6 <- now ;; nope <- ClaimInit "nope" t6 "hrn_2" "x" ;;
  check (not_found nope) "unknown claim" (
  t7 <- now ;; r <- FetchInit "c1" t7 ;;
  check (gives (fun r => Claimed r && String.eqb (iHarnessID r) "hrn_1" && String.eqb (iHarnessToken r) "hrt_secret"
                         && set (iFetchedAt r)) r) "claimed fetch" (
  t8 <- now ;; twice <- FetchInit "c1" t8 ;;
  check (conflicts twice) "second fetch must not hand out the token again" (
  wiped <- InitByHarness "hrn_1" ;;
  check (match wiped with Ok r => String.eqb (iHarnessToken r) "" | Err _ => true end) "token must be wiped after fetch" (
  t9 <- now ;; t10 <- now ;; CreateInit (suite_init "old" "" "" t9 (t10 - second)) ;;
  t11 <- now ;; expired <- FetchInit "old" t11 ;;
  check (not_found expired) "expired fetch" (
  t12 <- now ;; late <- ClaimInit "old" t12 "h" "t" ;;
  check (not_found late) "expired claim" passes)))))))))).

Definition testJobKeepsBot : testing :=
  seedHarness (fun _ =>
  created <- now ;; updated <- now ;;
  must (CreateJob (suite_job "job_b" "r" "t" "bot_1" "p" JobRunning created updated None)) (fun _ =>
  got <- JobByID "job_b" ;;
  check (gives (fun j => String.eqb (jBotUserID j) "bot_1") got) "bot lost" passes)).

Definition suite : list (string * testing) := [
  ("HarnessCRUD", testHarnessCRUD); ("PairingConsumeOnce", testPairingConsumeOnce); ("PairingExpired", testPairingExpired);
  ("JobTransitionCAS", testJobTransitionCAS); ("JobProgressMonotonic", testJobProgressMonotonic);
  ("JobExpireQueued", testJobExpireQueued); ("JobActiveByHarness", testJobActiveByHarness);
  ("ApprovalDecideOnce", testApprovalDecideOnce); ("ApprovalExpired", testApprovalExpired);
  ("ApprovalDuplicateID", testApprovalDuplicateID); ("OutboxPendingAckPurge", testOutboxPendingAckPurge);
  ("BotsPerOwner", testBotsPerOwner); ("InitDeviceFlow", testInitDeviceFlow); ("JobKeepsBot", testJobKeepsBot);
  ("AuditAppend", testAuditAppend)].

(** The names of the tests that fail on a fresh database, with the reason. *)
Definition Run (w : World) : list (string * option error) :=
  omap (fun '(name, fn) => match run fn w with
                           | Some (Ok _, _) => None
                           | Some (Err e, _) => Some (name, Some e)
                           | None => Some (name, None)
                           end) suite.
End Suite.

(** ** The model passes *)

(** The demo's environment with a clock that advances by [rate] per tick. *)
Definition at_rate (rate : Duration) : Env :=
  {| clock t := epoch + Z.of_nat t * rate;
     ulid_make := @ulid_make demo_env; rand_read := @rand_read demo_env; db_fault := @db_fault demo_env;
     mm_create_post := @mm_create_post demo_env; mm_update_post := @mm_update_post demo_env;
     mm_get_user := @mm_get_user demo_env; mm_get_thread := @mm_get_thread demo_env;
     mm_direct_channel := @mm_direct_channel demo_env; mm_upload_file := @mm_upload_file demo_env;
     mm_download_file := @mm_download_file demo_env; mm_get_file_info := @mm_get_file_info demo_env;
     ws_write := @ws_write demo_env; decode_error_text := @decode_error_text demo_env;
     local_rfc822 := @local_rfc822 demo_env; local_kitchen := @local_kitchen demo_env;
     MaxMessageLen := @MaxMessageLen demo_env; provisioner_for := @provisioner_for demo_env;
     pv_get_channel := @pv_get_channel demo_env; pv_get_user := @pv_get_user demo_env;
     pv_create_bot := @pv_create_bot demo_env; pv_create_bot_token := @pv_create_bot_token demo_env;
     pv_add_team_member := @pv_add_team_member demo_env; pv_add_channel_member := @pv_add_channel_member demo_env;
     pv_create_incoming := @pv_create_incoming demo_env; pv_create_outgoing := @pv_create_outgoing demo_env;
     pv_delete_outgoing := @pv_delete_outgoing demo_env; pv_delete_incoming := @pv_delete_incoming demo_env;
     pv_disable_bot := @pv_disable_bot demo_env |}.

(** The model of the sqlite store passes the suite: on a fresh database no
    test fails, whether the clock stands still between two calls, moves by less
    than a column can hold, by a millisecond, or by more than a second. *)
Theorem sqlite_conforms :
  Forall (fun rate => Run (E := at_rate rate) empty_world = []) [0; nanosecond; 999999; millisecond; 1500 * millisecond].
Proof. repeat (apply Forall_cons_2; [vm_compute; reflexivity|]). apply Forall_nil_2. Qed.
