(* ===== verification/Witnesses.v ===== *)
(** * The theorems at concrete inputs

    Each theorem that has hypotheses is applied to the broker of [Demo.v],
    where the hypotheses hold. *)

From S2P Require Import Prelude Resume GoText Codec Json Protocol Store Tables World Sqlite Integrity StoreFacts CoreText Sender Hub HubFacts Posts Core CoreGuards CoreFacts JobFacts HelloFacts PostFacts Onboarding OnboardingFacts System Tokens Demo.
From S2P Require Import Linear Contract ContractFacts.

Open Scope Z_scope.
Open Scope prog_scope.

(** Replace a lookup of the demo database by its value. *)
Ltac known e v H := replace e with v in H by (vm_compute; reflexivity).
(** Prove something about a run from what a theorem says of it. *)
Ltac from_spec thm :=
  let H := fresh in pose proof thm as H; cbv zeta in H; eapply wp_mono; [|exact H]; clear H; cbv beta.

(** ** The store *)

Lemma TransitionJob_cas_witness :
  wp (TransitionJob "job_r" [JobRunning] JobFailed no_patch)
     (fun r w' => only_db demo_world w') demo_world.
Proof.
  from_spec (TransitionJob_cas "job_r" [JobRunning] JobFailed no_patch demo_world).
  by intros r w' [_ H].
Defined.

Lemma RecordProgress_monotone_witness :
  wp (RecordProgress "job_r" 4) (fun r w' => r = Ok true) demo_world.
Proof.
  from_spec (RecordProgress_monotone "job_r" 4 demo_world). intros r w' (b & -> & _ & H).
  known (t_jobs (w_db demo_world) !! "job_r") (Some job_running) H. cbn in H. by destruct H as [-> _].
Defined.

Lemma ExpireQueuedJobs_exact_witness :
  wp (ExpireQueuedJobs (epoch + hour)) (fun r w' =>
    exists j', t_jobs (w_db w') !! "job_q" = Some j' /\ jState j' = JobExpired) demo_world.
Proof.
  from_spec (ExpireQueuedJobs_exact (epoch + hour) demo_world). intros r w' (l & _ & _ & _ & H & _).
  destruct (H "job_q" job_queued ltac:(vm_compute; reflexivity)) as [[Hj _]|[_ Hj]].
  - eexists. split; [exact Hj | done].
  - specialize (Hj eq_refl (epoch + 5 * minute) eq_refl). by vm_compute in Hj.
Defined.

Lemma ListJobs_spec_witness :
  wp (ListJobs (job_filter "bot1" "" "" "" "" [JobLost] 1)) (fun r w' =>
    exists l, r = Ok l /\ Z.of_nat (length l) <= 1) demo_world.
Proof.
  from_spec (ListJobs_spec (job_filter "bot1" "" "" "" "" [JobLost] 1) demo_world).
  intros r w' (l & -> & _ & _ & _ & H & _). by exists l.
Defined.

Lemma ConsumePairing_once_witness :
  wp (ConsumePairing (hashCode "PAIRCODE") epoch) (fun r w' =>
    forall user, r = Ok user ->
      wp (ConsumePairing (hashCode "PAIRCODE") epoch) (fun r2 _ => r2 = Err ErrNotFound) w') demo_world.
Proof.
  from_spec (ConsumePairing_once (hashCode "PAIRCODE") epoch demo_world).
  intros r w' H user ->. destruct H as [_ H]. specialize (H w' epoch ltac:(reflexivity)).
  eapply wp_mono; [|exact H]. by intros r2 w3 [? _].
Defined.

Lemma DecideApproval_first_wins_witness :
  wp (DecideApproval "apr_1" Allow "alice" epoch) (fun r w' =>
    forall a, r = Ok a ->
      wp (DecideApproval "apr_1" Deny "bob" epoch) (fun r2 _ => r2 = Err ErrConflict) w') demo_world.
Proof.
  from_spec (DecideApproval_first_wins "apr_1" Allow "alice" epoch demo_world).
  intros r w' H a ->. destruct H as [_ H]. specialize (H w' Deny "bob" epoch ltac:(reflexivity)).
  eapply wp_mono; [|exact H]. by intros r2 w3 [? _].
Defined.

Lemma PendingOutbox_spec_witness :
  wp (PendingOutbox "hrn_1") (fun r w' => exists l, r = Ok l /\ demo_dispatch ∈ l) demo_world.
Proof.
  from_spec (PendingOutbox_spec "hrn_1" demo_world). intros r w' (l & -> & _ & H & _).
  exists l. split; [done|]. apply H. split; [|done]. exists "msg_q". vm_compute. reflexivity.
Defined.

Lemma FetchInit_once_witness :
  wp (FetchInit (hashCode "DONECODE") epoch) (fun r w' =>
    forall i, r = Ok i -> Claimed i = true ->
      wp (FetchInit (hashCode "DONECODE") epoch) (fun r2 _ => is_ok r2 = false) w') demo_world.
Proof.
  from_spec (FetchInit_once (hashCode "DONECODE") epoch demo_world).
  intros r w' H i -> Hc. destruct H as [_ H]. by destruct (H Hc w' epoch i ltac:(reflexivity)) as (_ & H2 & _).
Defined.

(** ** The hub *)

Definition demo_envelope : Envelope := MkEnvelope "msg_new" TypeJobCancel "job_r" "" 0 (Some JNull).

Lemma SendReliable_durable_witness :
  wp (hub_SendReliable "hrn_1" demo_envelope) (fun _ w' =>
    exists m, t_outbox (w_db w') !! "msg_new" = Some m /\ mAckedAt m = None) demo_world.
Proof.
  from_spec (SendReliable_durable "hrn_1" demo_envelope demo_world ltac:(vm_compute; reflexivity)).
  intros r w' ((m & Hm & Hnew & _) & _). exists m. split; [exact Hm|].
  by apply Hnew.
Defined.

Lemma flushOutbox_spec_witness :
  wp (flushOutbox "hrn_1" 7) (fun _ w' => w_db w' = demo_db) demo_world.
Proof.
  from_spec (flushOutbox_spec "hrn_1" 7 demo_world). by intros r w' (l & evs & k & _ & H & _).
Defined.

Definition demo_ping : Envelope := MkEnvelope "msg_p" TypePing "" "" 0 None.

Lemma ping_touches_harness_witness :
  wp (handle demo_harness 7 demo_ping) (fun _ w' =>
    exists h, t_harnesses (w_db w') !! "hrn_1" = Some h /\ hVersion h = "") demo_world.
Proof.
  from_spec (ping_touches_harness demo_harness 7 demo_ping demo_world demo_harness
               ltac:(reflexivity) ltac:(vm_compute; reflexivity)).
  intros _ w' (rep & ok & H & _). rewrite H. eexists. split; [apply lookup_insert_eq | done].
Defined.

Lemma serve_owns_its_entry_witness :
  wp (serve demo_hub demo_harness 9 [demo_ping]) (fun _ w' => w_conns w' !! "hrn_2" = None) demo_world.
Proof.
  unfold wp. destruct (run _ demo_world) as [[u w']|] eqn:Hr; [|by vm_compute in Hr].
  rewrite (proj2 (serve_owns_its_entry demo_hub demo_harness 9 [demo_ping]) _ _ _ "hrn_2" Hr) by done.
  reflexivity.
Defined.

Lemma newer_connection_wins_witness :
  w_conns (register_conn "hrn_1" 9 demo_world) !! "hrn_1" = Some 9%nat.
Proof.
  apply (newer_connection_wins demo_harness 7 9 [] demo_world ltac:(vm_compute; reflexivity) ltac:(lia)).
Defined.

Lemma authenticate_sound_witness :
  wp (authenticate "Bearer secret") (fun r w' =>
    forall h, r = Ok h -> hTokenHash h = TokenHash "secret") demo_world.
Proof.
  from_spec (authenticate_sound "Bearer secret" demo_world). intros r w' [_ H] h Hr.
  destruct (H h Hr) as (_ & Ht & _). exact Ht.
Defined.

(** ** The core *)

Definition demo_result : JobResult := MkJobResult StatusSucceeded "done" None [] (MkUsage 1 1000 0).

Lemma OnResult_spec_witness :
  wp (core_OnResult demo_harness "job_r" demo_result) (fun ack w' => ack = MkAck true "" "" /\
    exists j', t_jobs (w_db w') !! "job_r" = Some j' /\ jState j' = JobSucceeded) demo_world.
Proof.
  from_spec (OnResult_spec demo_harness "job_r" demo_result demo_world). intros ack w' H.
  known (t_jobs (w_db demo_world) !! "job_r") (Some job_running) H.
  destruct H as [-> (j' & (l & Hd) & _ & _ & _ & Hs & _)]. split; [done|]. rewrite Hd. exists j'.
  split; [apply lookup_insert_eq | exact Hs].
Defined.

Lemma OnAck_spec_witness :
  wp (core_OnAck demo_harness "msg" "job_d" (MkAck true "" "")) (fun _ w' =>
    exists j', t_jobs (w_db w') !! "job_d" = Some j' /\ jState j' = JobRunning) demo_world.
Proof.
  from_spec (OnAck_spec demo_harness "msg" "job_d" (MkAck true "" "") demo_world
               (fun j => wf_job_id _ demo_db_wf "job_d" j)).
  intros _ w' [t H]. known (t_jobs (w_db demo_world) !! "job_d") (Some job_dispatched) H.
  rewrite H. eexists. split; [apply lookup_insert_eq | done].
Defined.

Definition demo_progress : JobProgress := MkJobProgress 4 PhaseRunning "half way" "Bash" 2.
Definition other_harness : Harness := MkHarness "hrn_2" "bob" "tower" "hash" "" epoch None.

Lemma OnProgress_spec_witness :
  wp (core_OnProgress other_harness "job_r" demo_progress) (fun _ w' => w_edits w' = ∅) demo_world.
Proof.
  from_spec (OnProgress_spec other_harness "job_r" demo_progress demo_world). intros _ w' [_ H].
  by destruct (H job_running ltac:(vm_compute; reflexivity) ltac:(done)) as [-> _].
Defined.

Definition demo_request : ApprovalRequest := MkApprovalRequest "apr_2" "Bash" "make" (Some JNull) "/repo" 0.

Lemma OnApprovalRequest_spec_witness :
  wp (core_OnApprovalRequest demo_harness "job_r" demo_request) (fun ack w' => ack = MkAck true "" "" /\
    exists a, t_approvals (w_db w') !! "apr_2" = Some a /\ undecided a = true) demo_world.
Proof.
  from_spec (OnApprovalRequest_spec demo_harness "job_r" demo_request demo_world). intros ack w' H.
  known (t_jobs (w_db demo_world) !! "job_r") (Some job_running) H.
  change (aq_ApprovalID demo_request) with "apr_2" in H.
  known (t_approvals (w_db demo_world) !! "apr_2") (@None ApprovalRow) H.
  destruct H as [-> (nonce & now & t & l & Hd)]. split; [done|]. rewrite Hd.
  eexists. split; [apply lookup_insert_eq | done].
Defined.

Definition demo_click (user : string) : CallbackRequest :=
  MkCallbackRequest user ("name-" +:+ user) "post" [("approval_id", JStr "apr_1"); ("decision", JStr Allow);
    ("sig", JStr (sign "apr_1" Allow "nonce"))].


Definition demo_post (user : string) : Post :=
  MkPost "post_new" user "chan1" "" "@alice-bot build it" "" 0 0 [] false None.
Definition demo_mention : mention := MkMention "bot1" "alice-bot" "alice" "name-alice" "hrn_1" true.


(** The post that started the running job, delivered again. *)
Definition acted_post : Post := MkPost "post_r" "alice" "chan1" "" "@alice-bot build it" "" 0 0 [] false None.


Lemma cancelJob_queued_witness :
  wp (cancelJob job_queued "cancelled by owner") (fun r w' => r = Ok tt /\
    exists l, select_pending_outbox "hrn_1" (w_db w') = SqlOk l /\ demo_dispatch ∈ l) offline_world.
Proof.
  from_spec (cancelJob_queued job_queued "cancelled by owner" offline_world demo_dispatch
    ltac:(vm_compute; reflexivity) ltac:(reflexivity) ltac:(vm_compute; reflexivity) ltac:(reflexivity)).
  by intros r w' (-> & _ & _ & H).
Defined.

Lemma cancelJob_running_witness :
  wp (cancelJob job_running "cancelled by owner") (fun r _ => r = Ok tt) offline_world.
Proof.
  from_spec (cancelJob_running job_running "cancelled by owner" offline_world ltac:(done) (demo_fresh offline_world eq_refl)).
  intros r w' (env & sent & _ & _ & _ & _ & H). by apply H.
Defined.

Lemma sweep_job_spec_witness :
  wp (sweep_job (epoch + hour) job_running) (fun _ w' =>
    exists j', t_jobs (w_db w') !! "job_r" = Some j' /\ jState j' = JobLost) offline_world.
Proof.
  from_spec (sweep_job_spec (epoch + hour) job_running offline_world ltac:(vm_compute; reflexivity)).
  intros _ w' H. change (is_online (jHarnessID job_running) offline_world) with false in H. cbv iota in H.
  known (t_harnesses (w_db offline_world) !! jHarnessID job_running) (Some demo_harness) H.
  change (_ && _) with true in H. destruct H as (msg & t & Hd). rewrite Hd.
  eexists. split; [apply lookup_insert_eq | done].
Defined.

Definition demo_hello : Hello := MkHello "0.3.0" "laptop" [] 2 [MkHelloJob "job_d" "running" 0 []].

Lemma OnHello_spec_witness :
  wp (core_OnHello demo_harness demo_hello) (fun out w' =>
    out = [MkWelcomeJob "job_d" ActionResume ""] /\ job_state (w_db w') "job_r" = Some JobFailed) demo_world.
Proof.
  from_spec (OnHello_spec demo_harness demo_hello demo_world demo_db_wf ltac:(done) ltac:(vm_compute; lia)).
  intros out w' [-> H]. split; [by vm_compute|]. rewrite H. by vm_compute.
Defined.

(** ** Posts *)

Lemma edit_debounced_witness :
  wp (edit job_running "half way") (fun _ w' => exists e ed, w_edits w' !! "job_r" = Some e
    /\ w_editors w' !! e = Some ed /\ edPending ed = "half way") demo_world.
Proof.
  from_spec (edit_debounced job_running "half way" demo_world ltac:(done)
               ltac:(intros k e He; change (w_edits demo_world) with (∅ : gmap string nat) in He; by rewrite lookup_empty in He)).
  intros _ w' (_ & e & ed & t & H1 & H2 & H3 & _). by exists e, ed.
Defined.

Lemma finalEdit_drops_scheduled_witness :
  wp (finalEdit job_running "done") (fun _ w' => start_timer 0 w' = None) racing_world.
Proof.
  from_spec (finalEdit_drops_scheduled job_running "done" racing_world 0 (MkEditor "half way" (Some 0%nat) epoch) 0
    ltac:(vm_compute; reflexivity) ltac:(reflexivity) ltac:(reflexivity)).
  by intros _ w' [_ H].
Defined.

Definition job_of_deleted_bot : Job :=
  MkJob "job_x" "hrn_1" "alice" "chan1" "root" "post_x" "status-x" "bot9" "" "do it" JobRunning 0 "" ""
    epoch epoch None None.

Lemma postResult_identity_witness :
  wp (postResult job_of_deleted_bot demo_harness demo_result) (fun _ w' => w_trace w' = []) demo_world.
Proof.
  from_spec (postResult_identity job_of_deleted_bot demo_harness demo_result demo_world).
  intros _ w' (evs & Ht & _ & H). rewrite Ht, H; [done..|by vm_compute].
Defined.

(** ** Onboarding *)

Lemma PollInit_authenticated_witness :
  wp (PollInit "DONECODE" "guess") (fun r w' => r = Err ErrInitUnknown /\ w_db w' = demo_db) demo_world.
Proof.
  from_spec (PollInit_authenticated "DONECODE" "guess" demo_world). intros r w' H. cbv zeta in H.
  known (t_inits (w_db demo_world) !! hashCode "DONECODE") (Some demo_claimed_init) H.
  known (String.eqb (tokenHash "guess") (iPollTokenHash demo_claimed_init)) false H. exact H.
Defined.

Lemma demo_tokens_backed : tokens_backed demo_db.
Proof.
  intros code r Hr [Hc _]. cbn in Hr. apply lookup_insert_Some in Hr as [[_ <-]|[_ Hr]]; [done|].
  apply lookup_singleton_Some in Hr as [_ <-]. exists demo_harness. by split.
Qed.

Definition demo_command : CommandRequest := MkCommandRequest "cmd" "alice" "alice" "chan1" "team1" "" "".

Lemma claimInit_spec_witness :
  wp (claimInit demo_command "OPENCODE" "alice-new") (fun r w' =>
    is_ok r = false -> exists evs, none_kept "team1" evs demo_db (w_db w')) demo_world.
Proof.
  from_spec (claimInit_spec demo_command "OPENCODE" "alice-new" demo_world ltac:(apply not_elem_of_nil)).
  intros [text|e] w' [_ H] Hr; [done|]. destruct H as (evs & _ & _ & Hd). by exists evs.
Defined.

Lemma HandlePair_spec_witness :
  wp (HandlePair (MkPairRequest "paircode" "" "tower" "0.3.0")) (fun r w' =>
    forall resp, r = Ok resp -> exists h, ps_HarnessID resp = hID h /\ hMMUserID h = "alice" /\ hName h = "tower") demo_world.
Proof.
  from_spec (HandlePair_spec (MkPairRequest "paircode" "" "tower" "0.3.0") demo_world). intros r w' H resp ->.
  cbv zeta in H. change (pr_Code _) with "paircode" in H.
  known (t_pairings (w_db demo_world) !! hashCode "paircode") (Some (MkPairing "alice" (epoch + 10 * minute) None)) H.
  known (pairing_usable (clock (w_tick demo_world)) (MkPairing "alice" (epoch + 10 * minute) None)) true H.
  destruct H as (h & H1 & _ & H2 & H3 & _). by exists h.
Defined.

(** ** The broker *)

Definition one_callback : list (prog World unit) * World := ([forget (HandleCallback (demo_click "alice"))], demo_world).
Definition after_steps (sched : list nat) : list (prog World unit) * World :=
  exec_schedule sched one_callback.1 one_callback.2.

Lemma starts_callback : reach (broker_entry demo_hub) ([], demo_world) one_callback.
Proof. apply rtc_once. apply (cs_spawn _ [] demo_world). apply entry_callback. Qed.
Lemma callback_steps sched : reach (broker_entry demo_hub) one_callback (after_steps sched).
Proof. apply exec_schedule_reach. Qed.
Lemma reach_parts entry (c c' : list (prog World unit) * World) : reach entry c c' -> reach entry c (c'.1, c'.2).
Proof. by destruct c'. Qed.

Lemma broker_integrity_witness : db_wf (w_db (after_steps [0; 0; 0]%nat).2).
Proof.
  exact (broker_integrity demo_hub demo_world _ _ demo_db_wf
           (reach_parts _ _ _ (transitivity starts_callback (callback_steps [0; 0; 0]%nat)))).
Defined.

Lemma job_lifecycle_witness :
  exists j', t_jobs (w_db (after_steps [0; 0; 0]%nat).2) !! "job_a" = Some j'
    /\ same_job job_waiting j' /\ next_states JobAwaitingApproval (jState j') = true.
Proof.
  destruct (job_lifecycle demo_hub demo_world one_callback (after_steps [0; 0; 0]%nat) "job_a" job_waiting
              starts_callback (callback_steps _) ltac:(vm_compute; reflexivity)) as (j' & H1 & H2 & _ & H3).
  exact (ex_intro _ j' (conj H1 (conj H2 H3))).
Defined.

Lemma decisions_are_final_witness :
  exists l, t_audit (w_db (after_steps [0; 0; 0]%nat).2) = t_audit demo_db ++ l.
Proof.
  pose proof (decisions_are_final demo_hub demo_world one_callback (after_steps [0; 0; 0]%nat)
                starts_callback (callback_steps _)) as H.
  cbv zeta in H. destruct H as (_ & _ & _ & _ & H). exact H.
Defined.

(** Two sweepers that are both about to expire queued jobs; the second goes
    first. *)
Definition two_sweeps : list (prog World unit) * World := exec_schedule [0; 0; 1; 1]%nat [Sweep; Sweep] demo_world.
Definition sweep_time : Time := clock (w_tick demo_world).
Definition after_expiry (expired : res (list Job)) : prog World unit :=
  for_each (rows_or_nil expired) (fun j =>
    finalEdit j ("💤 Expired: the harness did not come online within " +:+ duration_text QueueTTL +:+ ".")) ;;
  jobs <- ListJobs (job_filter "" "" "" "" "" [JobDispatched; JobRunning; JobAwaitingApproval] 1000) ;;
  for_each (rows_or_nil jobs) (sweep_job sweep_time).

Lemma starts_sweeps : reach (broker_entry demo_hub) ([], demo_world) two_sweeps.
Proof.
  eapply rtc_l; [apply (cs_spawn _ [] demo_world), entry_sweep|].
  eapply rtc_l; [apply (cs_spawn _ [Sweep] demo_world), entry_sweep|]. apply exec_schedule_reach.
Qed.

Lemma store_linearizable_witness :
  exists l, lrun (broker_entry demo_hub) two_sweeps l (exec_schedule [1; 0; 0]%nat two_sweeps.1 two_sweeps.2)
  /\ call_in_run w_db (broker_entry demo_hub) 0 (store_call (on_jobs (call_ExpireQueuedJobs sweep_time)))
       after_expiry l two_sweeps (exec_schedule [1; 0; 0]%nat two_sweeps.1 two_sweeps.2)
       (fun h m _ => at_most_one h
          /\ forall r, m = Ret r -> at_one_point (outcome (on_jobs (call_ExpireQueuedJobs sweep_time)))
                                        (refused (on_jobs (call_ExpireQueuedJobs sweep_time))) h r).
Proof.
  destruct (reach_lrun (broker_entry demo_hub) two_sweeps (exec_schedule [1; 0; 0]%nat two_sweeps.1 two_sweeps.2))
    as (l & Hl); [apply exec_schedule_reach|].
  exact (ex_intro _ l (conj Hl (store_linearizable demo_hub demo_world two_sweeps 0
    (on_jobs (call_ExpireQueuedJobs sweep_time)) after_expiry l _ starts_sweeps eq_refl Hl))).
Defined.
