(* ===== verification/ServiceWitnesses.v ===== *)
(** * The HTTP side at concrete inputs

    A Mattermost for the OAuth service, on the broker of [Demo.v]: an
    administrator installs the integration in a team from start to end, and the
    theorems of [OAuthFacts] and [Server] are applied. *)

From S2P Require Import Prelude Resume GoText Codec Aes Json Protocol Store Tables World MMClient MMClientFacts Sqlite Integrity StoreFacts CoreText Sender Hub HubFacts Posts Core CoreGuards CoreFacts JobFacts Onboarding OnboardingFacts System Demo Lift OAuth OAuthFacts Server.

Open Scope Z_scope.
Open Scope prog_scope.

(** The grants this Mattermost gives: the second is the first, refreshed. *)
Definition first_token : json :=
  JObj [("access_token", JStr "access1"); ("refresh_token", JStr "refresh1"); ("expires_in", JInt 3600); ("token_type", JStr "Bearer")].
Definition second_token : json := JObj [("access_token", JStr "access2"); ("expires_in", JInt 3600)].

(** The text of a grant: its fields, the times in nanoseconds. *)
Definition demo_cred_text (c : credentials) : string :=
  Join [crAccessToken c; crRefreshToken c; pretty (crExpiresAt c); pretty (crUpdatedAt c)] ",".
Definition demo_cred_parse (s : string) : option credentials :=
  match split_at (ascii_of 44) s with
  | [a; r; e; u] => Some (MkCredentials a r (atoi e) (atoi u))
  | _ => None
  end.

#[export] Instance demo_oenv : OEnv := {|
  url_parse s := Some (MkURL "https" s false "" "");
  IsValidId s := String.eqb s "team1";
  IsValidTeamName _ := true;
  TeamNameMaxLength := 64;
  CommandMethodPost := "P";
  cred_text c := Some (demo_cred_text c);
  cred_parse := demo_cred_parse;
  token_endpoint _ f :=
    match f with
    | ("grant_type", "authorization_code") :: _ => Answered 200 (Some first_token)
    | _ => Answered 200 (Some second_token)
    end;
  get_me _ _ := Ok (Some (MkOUser "admin1" true 0));
  get_team _ _ id := (Ok (Some (MkOTeam id 0)), Some 200);
  get_team_by_name _ _ _ := Ok (Some (MkOTeam "team1" 0));
  get_team_member _ _ _ _ := Ok (Some 0);
  list_commands _ _ _ := Ok [];
  get_command _ _ _ := Ok None;
  create_command _ _ c := Ok (Some (MkCommand "cmd1" "cmdtoken" (cmTeamId c) (cmTrigger c) (cmMethod c) (cmURL c) 0));
  delete_command _ _ _ := Ok tt
|}.

Definition demo_oauth : OAuthConfig :=
  MkOAuthConfig "https://mm" "https://broker" "client" "secret" "0123456789abcdef0123456789abcdef".

Definition service_world : OWorld := fresh_service demo_world.

(** What [start] sent the browser away with. *)
Definition start_request : OAuthRequest := MkOAuthRequest [("team_id", "my-team")] None.
Definition after {X} (m : prog OWorld X) (v : OWorld) : OWorld := match run m v with Some (_, v') => v' | None => v end.
Definition result {X} (m : prog OWorld X) (v : OWorld) : option X := fst <$> run m v.

Definition started : OWorld := after (start demo_oauth start_request) service_world.
Definition the_state : string := default "" (head (map_to_list (ow_states started)).*1).
Definition the_cookie : string :=
  match result (start demo_oauth start_request) service_world with
  | Some resp => default "" (ckValue <$> head (rsCookies resp))
  | None => ""
  end.
Definition callback_request : OAuthRequest := MkOAuthRequest [("state", the_state); ("code", "code1")] (Some the_cookie).
Definition installed_world : OWorld := after (callback demo_oauth callback_request) started.

(** The whole way through: the page, the row, and its grant opened. *)
Example installs :
  rsPage <$> result (callback demo_oauth callback_request) started = Some InstalledPage
  /\ (fun i => (nUserID i, nCommandToken i)) <$> t_installations (odb installed_world) !! "team1" = Some ("admin1", "cmdtoken").
Proof. vm_compute. split; reflexivity. Qed.

(** A second use of the same session is refused. *)
Example no_replay :
  rsPage <$> result (callback demo_oauth callback_request) installed_world = Some (rsPage (invalid_session)).
Proof. vm_compute. reflexivity. Qed.

Lemma keyed_by_rows d : map_Forall (fun k i => nTeamID i = k) (t_installations d) -> keyed_rows d.
Proof. intros H k i Hi. exact (H k i Hi). Qed.

(** A grant that no longer lasts a minute is refreshed. *)
Definition late_env : Env := {|
  clock t := epoch + 2 * hour + Z.of_nat t * second;
  ulid_make := ulid_make; rand_read := rand_read; db_fault := db_fault; mm_create_post := mm_create_post;
  mm_update_post := mm_update_post; mm_get_user := mm_get_user; mm_get_thread := mm_get_thread;
  mm_direct_channel := mm_direct_channel; mm_upload_file := mm_upload_file; mm_download_file := mm_download_file;
  mm_get_file_info := mm_get_file_info; ws_write := ws_write; decode_error_text := decode_error_text;
  local_rfc822 := local_rfc822; local_kitchen := local_kitchen; MaxMessageLen := MaxMessageLen;
  provisioner_for := provisioner_for; pv_get_channel := pv_get_channel; pv_get_user := pv_get_user;
  pv_create_bot := pv_create_bot; pv_create_bot_token := pv_create_bot_token; pv_add_team_member := pv_add_team_member;
  pv_add_channel_member := pv_add_channel_member; pv_create_incoming := pv_create_incoming;
  pv_create_outgoing := pv_create_outgoing; pv_delete_outgoing := pv_delete_outgoing;
  pv_delete_incoming := pv_delete_incoming; pv_disable_bot := pv_disable_bot
|}.
Example uses_the_grant : result (oauth_Client demo_oauth "team1") installed_world = Some (Ok "access1").
Proof. vm_compute. reflexivity. Qed.
Example refreshes_the_grant :
  result (oauth_Client (E := late_env) demo_oauth "team1") installed_world = Some (Ok "access2").
Proof. vm_compute. reflexivity. Qed.

(** ** The theorems *)

Lemma callback_authorized_witness :
  wp (callback demo_oauth callback_request) (fun resp v' => ow_mu v' = false /\
    (resp = invalid_session \/ ow_states v' = delete the_state (ow_states started))) started.
Proof.
  eapply wp_mono; [|apply (callback_authorized demo_oauth callback_request started)].
  - intros resp v' [Hm [(Hr & _)|(p & cookie & _ & Hs & _)]]; (split; [exact Hm|]); [by left | by right].
  - vm_compute. reflexivity.
  - apply keyed_by_rows. by_rows.
Defined.

Lemma Client_current_witness :
  wp (oauth_Client demo_oauth "team1") (fun r v' => ow_mu v' = false /\ ow_states v' = ow_states installed_world)
    installed_world.
Proof.
  eapply wp_mono; [|apply (Client_current demo_oauth "team1" installed_world)].
  - intros r v' (Hm & Hs & _). split; [exact Hm | exact Hs].
  - vm_compute. reflexivity.
  - apply keyed_by_rows. by_rows.
Defined.

Definition browser_threads : list (prog OWorld unit) :=
  [(_ <- start demo_oauth start_request ;; Ret tt); (_ <- callback demo_oauth callback_request ;; Ret tt);
   (_ <- callback demo_oauth callback_request ;; Ret tt)].
(** Two tabs come back with the same session. *)
Definition two_tabs : list (prog OWorld unit) * OWorld :=
  exec_schedule ([0; 0; 0; 1; 2; 1; 2] ++ repeat 1%nat 20)%nat browser_threads service_world.

Lemma two_tabs_reached : reach (service_entry demo_oauth demo_hub) ([], service_world) (two_tabs.1, two_tabs.2).
Proof.
  rewrite <- surjective_pairing.
  eapply rtc_l; [apply cs_spawn, (service_start _ _ start_request)|].
  do 2 (eapply rtc_l; [apply cs_spawn, (service_callback _ _ callback_request)|]).
  apply exec_schedule_reach.
Qed.

Lemma sessions_are_single_use_witness :
  (count (consumes the_state) (ow_trace two_tabs.2) <= count (issues the_state) (ow_trace two_tabs.2))%nat.
Proof.
  exact (proj2 (proj2 (sessions_are_single_use demo_oauth demo_hub demo_world two_tabs.1 two_tabs.2 two_tabs_reached)) the_state).
Defined.

Example used_once : count (consumes the_state) (ow_trace two_tabs.2) = 1%nat.
Proof. vm_compute. reflexivity. Qed.

(** *** The webhook *)

#[export] Instance demo_webhooks : WebhookAPI := {|
  api_get_post _ _ id := Ok (Some (MkPost id "alice" "chan1" "" "@alice-bot build it" "" 0 0 [] false None));
  api_get_channel _ _ _ := Ok (Some (MkChannel "team1" "O"))
|}.
Definition demo_webhook (token : string) : WebhookRequest :=
  MkWebhookRequest "bot1" "application/json"
    (Some (JObj [("token", JStr token); ("post_id", JStr "post9"); ("team_id", JStr "team1");
                 ("channel_id", JStr "chan1"); ("user_id", JStr "alice")])) None.
(** A handler that only notes which bot got the post. *)
Definition noting (bot : string) (ev : PostedEvent) : prog World unit := modify (record [EvBotCreated "seen" bot]).

Example webhook_passes : (fst <$> run (outgoingHandler noting (demo_webhook "outtok")) demo_world) = Some (Body (JObj [])).
Proof. vm_compute. reflexivity. Qed.

Lemma webhook_authentic_witness :
  wp (outgoingHandler noting (demo_webhook "outtok")) (fun a w' => w_db w' = demo_db) demo_world.
Proof.
  eapply wp_mono; [|apply (webhook_authentic noting (fun w' => w_db w' = demo_db) (demo_webhook "outtok") demo_world)].
  - intros a w' [(msg & status & _ & _ & Hd & _)|(_ & _ & Hd)]; [exact Hd | exact Hd].
  - intros b post ch w1 _ [Hd _]. apply wp_modify. exact Hd.
Defined.

Definition demo_command (token : string) : form := [("team_id", "team1"); ("token", token); ("text", "")].

Lemma command_authentic_witness :
  wp (post_command (Some (demo_command "cmdtoken"))) (fun a v' => odb v' = odb installed_world) installed_world.
Proof.
  eapply wp_mono; [|apply (command_authentic (fun _ w' => w_db w' = odb installed_world) (Some (demo_command "cmdtoken")) installed_world)].
  - intros a v' [(msg & _ & Hd & _)|(f & text & _ & _ & _ & Hd)]; [exact Hd | exact Hd].
  - intros f w1 [= <-] _ Hd. unfold HandleCommand. cbn. apply wp_ret. exact Hd.
Defined.

(** ** The listener of Mattermost *)

#[local] Instance demo_stream : Stream := {|
  ws_clock t := Z.of_nat t * second;
  NewWebSocketClient4 _ _ _ := Ok tt;
  decode_post s := if String.eqb s "" then None else Some (MkPost s "alice" "chan1" "" "hi" "" 0 0 [] false None);
  document _ := Some (JArr [JStr "bot1"]);
  Int64N _ _ := 0
|}.

Definition demo_signal (post : string) : StreamSignal :=
  StreamEvent "posted" {["post" := JStr post; "channel_type" := JStr "O"; "mentions" := JStr "[bot1]"]}.

(** Connected, two posts and something else read, the first of them handled. *)
Definition demo_listening : Listener :=
  let l := with_reader (Reading 0) (with_reader (Dialling 0) (Listen 0)) in
  let l := receive_signal 0 (demo_signal "p1") l in
  let l := receive_signal 0 (StreamEvent "typing" ∅) l in
  let l := receive_signal 0 (demo_signal "p2") l in
  worker_to (tail (lnQueue l)) (match lnQueue l with ev :: _ => Handling ev | [] => Idle end) l.

Lemma demo_listening_reached : rtc (listen_step "https://mm" "tok") (Listen 0) demo_listening.
Proof.
  eapply rtc_l; [by apply step_start|]. eapply rtc_l; [by apply (step_dial _ _ _ 0)|].
  eapply rtc_l; [by apply (step_signal _ _ _ 0 (demo_signal "p1"))|].
  eapply rtc_l; [by apply (step_signal _ _ _ 0 (StreamEvent "typing" ∅))|].
  eapply rtc_l; [by apply (step_signal _ _ _ 0 (demo_signal "p2"))|].
  apply rtc_once. by eapply step_take.
Qed.

Lemma listener_in_order_witness :
  length (lnHandled demo_listening) = 1%nat /\ length (lnQueue demo_listening) = 1%nat
  /\ lnHandled demo_listening ++ lnQueue demo_listening ++ pending demo_listening = lnRead demo_listening.
Proof.
  destruct (listener_in_order "https://mm" "tok" 0 demo_listening demo_listening_reached) as (_ & _ & H & _).
  split; [reflexivity|]. split; [reflexivity|]. apply H. reflexivity.
Defined.

Lemma listener_stops_witness :
  exists l', rtc (listen_step "https://mm" "tok") (cancelled demo_listening) l' /\ lnReader l' = Returned
    /\ lnRead l' ≡ₚ lnHandled l' ++ lnDropped l'.
Proof.
  destruct (listener_stops "https://mm" "tok" 0 (cancelled demo_listening)) as (l' & H & Hr & _ & Hp).
  - eapply rtc_r; [exact demo_listening_reached|]. apply step_cancel.
  - reflexivity.
  - exists l'. repeat (split; [assumption|]). exact Hp.
Defined.
