(* ===== verification/Bots.v ===== *)
(** * One listener per bot ([internal/broker/bots/manager.go])

    Every second the manager compares the bots of the database with the
    connections it has, and starts, replaces and cancels listeners.  A listener
    is a child context with the token it listens with; cancelling it is the
    only way it stops. *)

From S2P Require Import Prelude GoText Store.

Open Scope Z_scope.

Record connection : Type := MkConnection { cnToken : string; cnChild : nat }.

Record Child : Type := MkChild {
  chBotID : string;
  chToken : string;
  chCancelled : bool
}.

Record Manager : Type := MkManager {
  mgActive : gmap string connection;
  mgChildren : list Child    (** every listener started so far *)
}.
Definition new_manager : Manager := MkManager ∅ [].

Definition cancelled (c : Child) : Child := MkChild (chBotID c) (chToken c) true.
Definition cancel (c : connection) (m : Manager) : Manager :=
  MkManager (mgActive m) (alter cancelled (cnChild c) (mgChildren m)).

(** A bot without a harness or a token needs no connection. *)
Definition listens (b : Bot) : bool := negb (String.eqb (bHarnessID b) "") && negb (String.eqb (bToken b) "").

Definition listen (b : Bot) (m : Manager) : Manager :=
  MkManager (<[bUserID b := MkConnection (bToken b) (length (mgChildren m))]> (mgActive m))
    (mgChildren m ++ [MkChild (bUserID b) (bToken b) false]).

(** The body of the loop over the bots. *)
Definition visit (m : Manager) (b : Bot) : Manager :=
  if listens b then
    match mgActive m !! bUserID b with
    | Some old => if String.eqb (cnToken old) (bToken b) then m else listen b (cancel old m)
    | None => listen b m
    end
  else m.

Definition desired (l : list Bot) : list string := map bUserID (List.filter listens l).

(** Connections of bots that are gone are cancelled and forgotten. *)
Definition drop_one (l : list Bot) (m : Manager) (id : string) : Manager :=
  if bool_decide (id ∈ desired l) then m
  else match mgActive m !! id with
       | Some c => MkManager (delete id (mgActive m)) (mgChildren (cancel c m))
       | None => m
       end.
Definition drop_stale (l : list Bot) (m : Manager) : Manager :=
  foldl (drop_one l) m (map_to_list (mgActive m)).*1.

(** One pass of [Run]; a failed query leaves everything as it is. *)
Definition pass (listed : res (list Bot)) (m : Manager) : Manager :=
  match listed with
  | Err _ => m
  | Ok l => drop_stale l (foldl visit m l)
  end.

(** The deferred function: when the context ends every connection is
    cancelled. *)
Definition shutdown (m : Manager) : Manager :=
  foldl (fun m c => cancel c m) m (map_to_list (mgActive m)).*2.

(** ** The manager keeps exactly one listener per connection *)

(** The listeners that run are those of the connections, with their tokens. *)
Definition manager_ok (m : Manager) : Prop :=
  (forall id c, mgActive m !! id = Some c -> mgChildren m !! cnChild c = Some (MkChild id (cnToken c) false))
  /\ (forall k ch, mgChildren m !! k = Some ch -> chCancelled ch = false ->
        mgActive m !! chBotID ch = Some (MkConnection (chToken ch) k)).

Lemma manager_new : manager_ok new_manager.
Proof. split; cbn; [intros id c H; by rewrite lookup_empty in H | intros k ch H; by rewrite lookup_nil in H]. Qed.

(** A connection and its listener go together. *)
Lemma drop_ok m id c :
  manager_ok m -> mgActive m !! id = Some c ->
  manager_ok (MkManager (delete id (mgActive m)) (mgChildren (cancel c m))).
Proof.
  intros [H1 H2] Hc. pose proof (H1 id c Hc) as Hch. split; cbn.
  - intros id' c' [Hne Hc']%lookup_delete_Some. pose proof (H1 id' c' Hc') as Hch'.
    rewrite list_lookup_alter_ne; [done|]. intros E. rewrite E, Hch' in Hch. by injection Hch as ->.
  - intros k ch Hk Hrun. destruct (decide (k = cnChild c)) as [->|Hne].
    + rewrite list_lookup_alter_eq, Hch in Hk. cbn in Hk. injection Hk as <-. done.
    + rewrite list_lookup_alter_ne in Hk by done. pose proof (H2 k ch Hk Hrun) as Ha.
      rewrite lookup_delete_ne; [done|]. intros E. rewrite <- E, Hc in Ha. injection Ha as ->. done.
Qed.

Lemma listen_ok m b : manager_ok m -> mgActive m !! bUserID b = None -> manager_ok (listen b m).
Proof.
  intros [H1 H2] Hn. split; cbn.
  - intros id c [[<- <-]|[Hne Hc]]%lookup_insert_Some; cbn.
    + by rewrite lookup_app_r, Nat.sub_diag by lia.
    + pose proof (H1 id c Hc) as Hch. rewrite lookup_app_l; [done|]. by eapply lookup_lt_Some.
  - intros k ch [Hk|[Hk Hs]]%lookup_app_Some Hrun.
    + pose proof (H2 k ch Hk Hrun) as Ha. rewrite lookup_insert_ne; [done|]. intros E. by rewrite <- E, Hn in Ha.
    + destruct (k - length (mgChildren m))%nat as [|j] eqn:Ej; [|by destruct j].
      injection Hs as <-. cbn. replace k with (length (mgChildren m)) by lia. by rewrite lookup_insert_eq.
Qed.

(** Replacing a connection is dropping it and listening again. *)
Lemma replace_eq m b old :
  listen b (cancel old m)
  = listen b (MkManager (delete (bUserID b) (mgActive m)) (mgChildren (cancel old m))).
Proof. unfold listen. cbn. by rewrite insert_delete_eq. Qed.

Lemma visit_ok m b : manager_ok m -> manager_ok (visit m b).
Proof.
  intros H. unfold visit. destruct (listens b); [|done].
  destruct (mgActive m !! bUserID b) as [old|] eqn:Ho; [|by apply listen_ok].
  destruct (String.eqb _ _); [done|]. rewrite replace_eq. apply listen_ok; [by apply drop_ok|]. cbn. by rewrite lookup_delete_eq.
Qed.

Lemma drop_one_ok l m id : manager_ok m -> manager_ok (drop_one l m id).
Proof.
  intros H. unfold drop_one. case_bool_decide; [done|]. destruct (mgActive m !! id) eqn:E; [by apply drop_ok|done].
Qed.

Lemma fold_ok {A} (f : Manager -> A -> Manager) (l : list A) m :
  (forall m x, manager_ok m -> manager_ok (f m x)) -> manager_ok m -> manager_ok (foldl f m l).
Proof. intros Hf. revert m. induction l as [|x l IH]; intros m H; [done|]. by apply IH, Hf. Qed.

Lemma pass_ok listed m : manager_ok m -> manager_ok (pass listed m).
Proof.
  intros H. destruct listed as [l|e]; [|done]. apply fold_ok; [intros; by apply drop_one_ok|].
  apply fold_ok; [intros; by apply visit_ok | done].
Qed.

(** *** What a pass makes of the list *)

Lemma visit_active m b id :
  mgActive (visit m b) !! id
  = if listens b && String.eqb (bUserID b) id then
      match mgActive m !! id with
      | Some old => if String.eqb (cnToken old) (bToken b) then Some old
                    else Some (MkConnection (bToken b) (length (mgChildren m)))
      | None => Some (MkConnection (bToken b) (length (mgChildren m)))
      end
    else mgActive m !! id.
Proof.
  unfold visit. destruct (listens b); [|done]. cbn [andb]. destruct (String.eqb_spec (bUserID b) id) as [<-|Hne].
  - destruct (mgActive m !! bUserID b) as [old|] eqn:Ho; [|cbn; by rewrite lookup_insert_eq].
    destruct (String.eqb _ _); [done|]. cbn. by rewrite lookup_insert_eq, length_alter.
  - destruct (mgActive m !! bUserID b) as [old|]; [|cbn; by rewrite lookup_insert_ne].
    destruct (String.eqb _ _); [done|]. cbn. by rewrite lookup_insert_ne.
Qed.

Lemma drop_one_active l m i id :
  mgActive (drop_one l m i) !! id
  = if bool_decide (id = i) && negb (bool_decide (id ∈ desired l)) then None else mgActive m !! id.
Proof.
  unfold drop_one. destruct (decide (id = i)) as [->|Hne].
  - rewrite (bool_decide_true (i = i)) by done. destruct (bool_decide (i ∈ desired l)); cbn [andb negb]; [done|].
    destruct (mgActive m !! i) as [c|] eqn:E; [|exact E]. cbn [mgActive]. apply lookup_delete_eq.
  - rewrite (bool_decide_false (id = i)) by done. cbn [andb]. destruct (bool_decide (i ∈ desired l)); [done|].
    destruct (mgActive m !! i); [|done]. cbn [mgActive]. by apply lookup_delete_ne.
Qed.

Lemma drop_stale_active l m id :
  mgActive (drop_stale l m) !! id = if bool_decide (id ∈ desired l) then mgActive m !! id else None.
Proof.
  unfold drop_stale.
  assert (Hgen : forall ids m0, mgActive (foldl (drop_one l) m0 ids) !! id
    = if bool_decide (id ∈ ids) && negb (bool_decide (id ∈ desired l)) then None else mgActive m0 !! id).
  { induction ids as [|i ids IH]; intros m0; cbn [foldl]; [by rewrite bool_decide_false by apply not_elem_of_nil|].
    rewrite IH. pose proof (drop_one_active l m0 i id) as Hone.
    rewrite Hone. destruct (decide (id ∈ ids)), (decide (id = i));
      rewrite ?(bool_decide_true (id ∈ ids)), ?(bool_decide_false (id ∈ ids)), ?(bool_decide_true (id = i)),
        ?(bool_decide_false (id = i)), ?(bool_decide_true (id ∈ i :: ids)), ?(bool_decide_false (id ∈ i :: ids)) by set_solver;
      cbn; by repeat case_match. }
  rewrite Hgen. destruct (decide (id ∈ desired l)).
  - rewrite (bool_decide_true (id ∈ desired l)) by done. by rewrite andb_false_r.
  - rewrite (bool_decide_false (id ∈ desired l)) by done. rewrite andb_true_r.
    destruct (bool_decide (id ∈ (map_to_list (mgActive m)).*1)) eqn:Hin; [done|]. apply bool_decide_eq_false in Hin.
    apply eq_None_not_Some. intros [c Hc]. apply Hin.
    apply list_elem_of_fmap. exists (id, c). split; [done|]. by apply elem_of_map_to_list.
Qed.


(** A bot that listens has, after the visits, a connection with its token;
    and if it had one with that token before, it is the same. *)
Lemma visits_bot l m b :
  NoDup (map bUserID l) -> b ∈ l -> listens b = true ->
  exists c, mgActive (foldl visit m l) !! bUserID b = Some c /\ cnToken c = bToken b
    /\ (forall old, mgActive m !! bUserID b = Some old -> cnToken old = bToken b -> c = old).
Proof.
  intros Hnd Hin Hl. revert m.
  assert (Hother : forall l m, bUserID b ∉ map bUserID l -> mgActive (foldl visit m l) !! bUserID b = mgActive m !! bUserID b).
  { clear. induction l as [|x l IH]; intros m Hn; [done|]. cbn [foldl]. rewrite IH by set_solver. rewrite visit_active.
    destruct (String.eqb_spec (bUserID x) (bUserID b)) as [E|E]; [|by rewrite andb_false_r]. destruct Hn. rewrite <- E. by left. }
  induction l as [|x l IH]; intros m; [by apply elem_of_nil in Hin|]. cbn [map] in Hnd. apply NoDup_cons in Hnd as [Hx Hnd].
  cbn [foldl]. apply elem_of_cons in Hin as [<-|Hin].
  - rewrite Hother by done. rewrite visit_active, Hl, String.eqb_refl. cbn [andb].
    destruct (mgActive m !! bUserID b) as [old|].
    + destruct (String.eqb_spec (cnToken old) (bToken b)) as [E|E].
      * exists old. split; [done|]. split; [done|]. by intros ? [= <-].
      * eexists. split; [done|]. split; [done|]. intros ? [= <-] Ht. by destruct E.
    + eexists. split; [done|]. done.
  - destruct (IH Hnd Hin (visit m x)) as (c & Hc & Ht & Hsame). exists c. split; [done|]. split; [done|].
    intros old Ho Hto. apply Hsame; [|done]. rewrite visit_active.
    destruct (String.eqb_spec (bUserID x) (bUserID b)) as [E|E]; [|by rewrite andb_false_r].
    destruct Hx. rewrite E. apply list_elem_of_fmap. by exists b.
Qed.

(** ** The contract *)

(** The managers that passes can lead to, failed ones included. *)
Inductive manager_reach : Manager -> Prop :=
| reach_new : manager_reach new_manager
| reach_pass listed m : manager_reach m -> manager_reach (pass listed m).

Lemma manager_reach_ok m : manager_reach m -> manager_ok m.
Proof. induction 1; [apply manager_new | by apply pass_ok]. Qed.

(** The listener [k] runs for the bot [id] with [token]. *)
Definition runs (m : Manager) (k : nat) (id token : string) : Prop :=
  mgChildren m !! k = Some (MkChild id token false).

Lemma runs_active m k id token :
  manager_ok m -> runs m k id token <-> mgActive m !! id = Some (MkConnection token k).
Proof. intros [H1 H2]. split; [intros H; by apply (H2 k _ H) | intros H; exact (H1 id _ H)]. Qed.

Lemma cancel_all_ok cs m k id token :
  runs (foldl (fun m c => cancel c m) m cs) k id token -> runs m k id token /\ Forall (fun c => cnChild c <> k) cs.
Proof.
  revert m. induction cs as [|c cs IH]; intros m H; [done|]. cbn [foldl] in H. apply IH in H as [H Hcs].
  unfold runs, cancel in H. cbn in H. destruct (decide (k = cnChild c)) as [->|Hne].
  - rewrite list_lookup_alter_eq in H. by destruct (mgChildren m !! cnChild c).
  - rewrite list_lookup_alter_ne in H by done. split; [done|]. by constructor.
Qed.


(** Two bots, one token changed, one bot gone. *)
Definition listed_bot (id harness token : string) : Bot := MkBot id "u" id token 0 harness "" "" "" "" "".
