(* ===== verification/Rely.v ===== *)
(** * Rely and guarantee: what a thread knows while others run

    [guards R] (file [Resume]) asks every step to stay within [R] from any
    state, so a step may not rely on what an earlier step of its own thread
    found.  [rg I R m Q w0] does: the thread [m], started in [w0], may meet at
    each of its steps any state the others have led to by [R], which satisfies
    the invariant [I]; its step must keep [I] and stay within [R]; where it
    ends, [Q] holds.  [pool_rg] lifts this to the interleaving semantics. *)

From S2P Require Import Prelude Resume.

Section Rely.
Context {W : Type} (I : W -> Prop) (R : W -> W -> Prop) `{!PreOrder R}.
Implicit Types w : W.

Fixpoint rg {A} (m : prog W A) (Q : A -> W -> Prop) w0 : Prop :=
  match m with
  | Ret a => Q a w0
  | Step f k =>
      forall w x w', R w0 w -> I w -> f w = Some (x, w') -> I w' /\ R w w' /\ rg (k x) Q w'
  end.

Lemma rg_ret {A} (a : A) (Q : A -> W -> Prop) w : Q a w -> rg (Ret a) Q w.
Proof. done. Qed.

Lemma rg_mono {A} (m : prog W A) (P Q : A -> W -> Prop) w :
  (forall a w', P a w' -> Q a w') -> rg m P w -> rg m Q w.
Proof.
  intros H. revert w. induction m as [a|X f k IH]; simpl; intros w Hm; [auto|].
  intros w1 x w2 Hr Hi Hf. destruct (Hm w1 x w2 Hr Hi Hf) as (? & ? & ?). eauto.
Qed.

Lemma rg_bind {A B} (m : prog W A) (g : A -> prog W B) Q w :
  rg m (fun a w' => rg (g a) Q w') w -> rg (bind m g) Q w.
Proof.
  revert w. induction m as [a|X f k IH]; simpl; intros w Hm; [done|].
  intros w1 x w2 Hr Hi Hf. destruct (Hm w1 x w2 Hr Hi Hf) as (? & ? & ?). auto.
Qed.

(** What a thread relies on survives the steps of the others. *)
Lemma rg_later {A} (m : prog W A) Q w w' :
  (forall a w1 w2, R w1 w2 -> Q a w1 -> Q a w2) -> R w w' -> rg m Q w -> rg m Q w'.
Proof.
  intros HQ Hr. destruct m as [a|X f k]; simpl; [by apply HQ|].
  intros Hm w1 x w2 Hr' Hi Hf. apply (Hm w1 x w2); [by trans w' | done..].
Qed.

(** One step: what holds of the state it meets, and what it leaves. *)
Lemma rg_step {X A} (f : W -> option (X * W)) (k : X -> prog W A) Q w0 :
  (forall w x w', R w0 w -> I w -> f w = Some (x, w') -> I w' /\ R w w' /\ rg (k x) Q w') ->
  rg (Step f k) Q w0.
Proof. done. Qed.

(** A program whose steps are within [R] and keep [I] from any state. *)
Definition closed_step (w w' : W) : Prop := I w -> I w' /\ R w w'.

Lemma rg_guards {A} (m : prog W A) w :
  guards closed_step m -> rg m (fun _ _ => True) w.
Proof.
  revert w. unfold guards. induction m as [a|X f k IH]; simpl; intros w; [done|].
  intros [Hf Hk] w1 x w2 Hr Hi Hs. destruct (Hf w1 x w2 Hs Hi) as [? ?].
  split; [done|]. split; [done|]. apply IH, Hk.
Qed.

(** What a program returns, whatever its steps find. *)
Fixpoint yields {A} (P : A -> Prop) (m : prog W A) : Prop :=
  match m with Ret a => P a | Step _ k => forall x, yields P (k x) end.

Lemma yields_bind {A B} (P : B -> Prop) (m : prog W A) (g : A -> prog W B) :
  yields (fun a => yields P (g a)) m -> yields P (bind m g).
Proof. unfold bind. induction m as [a|X f k IH]; cbn; [done|]. intros H x. by apply IH. Qed.

Lemma yields_any {A B} (P : B -> Prop) (m : prog W A) (g : A -> prog W B) :
  (forall a, yields P (g a)) -> yields P (bind m g).
Proof. intros H. apply yields_bind. induction m as [a|X f k IH]; cbn; [done|]. intros x. apply IH. Qed.

Lemma rg_yields {A} (P : A -> Prop) (m : prog W A) w :
  guards closed_step m -> yields P m -> rg m (fun a _ => P a) w.
Proof.
  revert w. unfold guards. induction m as [a|X f k IH]; cbn; intros w; [done|].
  intros [Hf Hk] Hy w1 x w2 Hr Hi Hs. destruct (Hf w1 x w2 Hs Hi) as [? ?].
  split; [done|]. split; [done|]. apply IH; [apply Hk | apply Hy].
Qed.

(** The state only moves by [R] while a program runs. *)
Lemma rg_within {A} (m : prog W A) Q w :
  rg m Q w -> rg m (fun a w' => R w w' /\ Q a w') w.
Proof.
  intros H. assert (forall w1, R w w1 -> rg m Q w1 -> rg m (fun a w' => R w w' /\ Q a w') w1) as Hgen;
    [|apply Hgen; [reflexivity | done]].
  clear H. induction m as [a|X f k IH]; simpl; intros w1 Hr Hm; [done|].
  intros w2 x w3 Hr2 Hi Hf. destruct (Hm w2 x w3 Hr2 Hi Hf) as (Hi3 & Hr3 & Hk).
  split; [done|]. split; [done|]. apply IH; [|done]. by trans w1; [|trans w2].
Qed.

Lemma rg_for_each {X} (l : list X) body w :
  (forall x w', x ∈ l -> R w w' -> rg (body x) (fun _ _ => True) w') ->
  rg (for_each l body) (fun _ _ => True) w.
Proof.
  revert w. induction l as [|x l IH]; intros w H; simpl; [done|].
  apply rg_bind. eapply rg_mono; [|apply rg_within, H; [left | reflexivity]].
  intros _ w1 [Hr _]. apply IH. intros y w2 Hy Hr2. apply H; [by right | by trans w1].
Qed.

(** Every thread of a pool, and every thread that may be added. *)
Definition thread_ok (w : W) (p : prog W unit) : Prop := rg p (fun _ _ => True) w.

Lemma pool_rg entry c c' :
  (forall p w, entry p -> thread_ok w p) ->
  I c.2 -> Forall (thread_ok c.2) c.1 -> reach entry c c' ->
  I c'.2 /\ R c.2 c'.2 /\ Forall (thread_ok c'.2) c'.1.
Proof.
  intros He Hi Hp Hr. revert Hi Hp.
  induction Hr as [c|c1 c2 c3 Hs _ IH]; intros Hi Hp; [done|].
  destruct Hs as [i ps w X f k x w' Hl Hf | ps w p Hentry]; simpl in *.
  - pose proof (proj1 (Forall_lookup _ _) Hp i _ Hl) as Hthread.
    destruct (Hthread w x w' ltac:(reflexivity) Hi Hf) as (Hi' & Hr' & Hk).
    destruct IH as (Hi3 & Hr3 & Hp3); [done| |].
    { apply Forall_insert; [|done]. eapply Forall_impl; [exact Hp|].
      intros q Hq. by eapply rg_later; [|exact Hr'|]. }
    split; [done|]. split; [by trans w'|done].
  - apply IH; [done|]. apply Forall_app. split; [done|]. constructor; [by apply He | constructor].
Qed.
End Rely.

#[global] Arguments rg : simpl never.
#[global] Arguments yields : simpl never.

(** ** A program cut short

    [cut n m w]: the state when the process dies after [n] steps of [m], which
    runs alone. *)
Section Cut.
Context {W : Type}.

Fixpoint cut {A} (n : nat) (m : prog W A) (w : W) : W :=
  match n, m with
  | S n', Step f k => match f w with Some (x, w') => cut n' (k x) w' | None => w end
  | _, _ => w
  end.

(** [P] holds in every state on the way, [Q] at the end. *)
Fixpoint throughout {A} (P : W -> Prop) (m : prog W A) (Q : A -> W -> Prop) (w : W) : Prop :=
  P w /\ match m with
         | Ret a => Q a w
         | Step f k => match f w with Some (x, w') => throughout P (k x) Q w' | None => True end
         end.

Lemma throughout_cut {A} P (m : prog W A) Q w n : throughout P m Q w -> P (cut n m w).
Proof.
  revert n w. induction m as [a|X f k IH]; intros [|n] w; simpl; intros [HP Hm]; auto.
  destruct (f w) as [[x w']|]; auto.
Qed.

Lemma throughout_bind {A B} P (m : prog W A) (g : A -> prog W B) Q w :
  throughout P m (fun a => throughout P (g a) Q) w -> throughout P (bind m g) Q w.
Proof.
  revert w. induction m as [a|X f k IH]; intros w; cbn; [by intros [_ ?]|]. intros [HP Hm]. split; [done|].
  destruct (f w) as [[x w']|]; [|done]. by apply IH.
Qed.

Lemma throughout_ret {A} (P : W -> Prop) (a : A) (Q : A -> W -> Prop) w :
  P w -> Q a w -> throughout P (Ret a) Q w.
Proof. done. Qed.

Lemma throughout_step {A X} (P : W -> Prop) (f : W -> option (X * W)) (k : X -> prog W A) Q w :
  P w -> (forall x w', f w = Some (x, w') -> throughout P (k x) Q w') -> throughout P (Step f k) Q w.
Proof. intros HP H. split; [done|]. destruct (f w) as [[x w']|]; auto. Qed.

Lemma throughout_run {A} P (m : prog W A) Q w a w' :
  throughout P m Q w -> run m w = Some (a, w') -> Q a w'.
Proof.
  revert w. induction m as [b|X f k IH]; intros w; cbn; intros [HP Hm] Hr; [by simplify_eq|].
  destruct (f w) as [[x w1]|]; [by eapply IH | done].
Qed.

Lemma throughout_post {A} P (m : prog W A) (Q Q' : A -> W -> Prop) w :
  (forall a w', Q a w' -> Q' a w') -> throughout P m Q w -> throughout P m Q' w.
Proof.
  intros H. revert w. induction m as [a|X f k IH]; intros w; cbn; intros [HP Hm]; split; auto.
  destruct (f w) as [[x w']|]; [by apply IH | done].
Qed.

Lemma throughout_wp {A} P (m : prog W A) (Q T : A -> W -> Prop) w :
  throughout P m Q w -> wp m T w -> wp m (fun a w' => T a w' /\ Q a w') w.
Proof.
  unfold wp. destruct (run m w) as [[a w']|] eqn:E; [|done]. intros Hm HT. split; [done|]. by eapply throughout_run.
Qed.
End Cut.

#[global] Arguments throughout : simpl never.
