(* ===== verification/Migrate.v ===== *)
(** * Opening the database ([internal/store/sqlite/store.go])

    [Open] applies the embedded migrations in the order of their names, each in
    a transaction of its own together with the note that it was applied.  The
    file may come from an older version, and the process may die at any moment. *)

From S2P Require Import Prelude Resume Rely.

Open Scope Z_scope.
Open Scope prog_scope.

(** The database file, as far as [migrate] looks at it. *)
Record DBFile : Type := MkDBFile {
  flMigrations : option (gmap string Z);   (** [schema_migrations]: name, [applied_at] *)
  flScripts : list string;                 (** the scripts whose transactions were committed *)
  flTick : nat
}.

(** The embedded directory, the clock, and what goes wrong with a statement, a
    transaction or the file system. *)
Class MigrationEnv : Type := {
  entries : list string;
  unix_millis : nat -> Z;
  open_fault : nat -> option string;
  read_dir_fault : nat -> option string;
  statement_fault : nat -> option string
}.

Section Migrate.
Context {M : MigrationEnv}.

Definition file_step {X} (f : DBFile -> X * DBFile) : prog DBFile X :=
  atomic (fun w => let '(x, w') := f w in (x, MkDBFile (flMigrations w') (flScripts w') (1 + flTick w'))).
Definition statement {X} (f : DBFile -> res X * DBFile) : prog DBFile (res X) :=
  file_step (fun w => match statement_fault (flTick w) with Some msg => (Err (ErrOther msg), w) | None => f w end).

Definition create_migrations_table : prog DBFile (res unit) :=
  statement (fun w => (Ok tt, MkDBFile (Some (default ∅ (flMigrations w))) (flScripts w) (flTick w))).
Definition count_applied (name : string) : prog DBFile (res nat) :=
  statement (fun w => (match flMigrations w with
                       | None => Err (ErrOther "no such table: schema_migrations")
                       | Some m => Ok (if m !! name then 1%nat else 0%nat)
                       end, w)).
(** The transaction: the script, the note, the commit; or nothing of it. *)
Definition apply_migration (name : string) : prog DBFile (res unit) :=
  statement (fun w => match flMigrations w with
                      | None => (Err (ErrOther "no such table: schema_migrations"), w)
                      | Some m =>
                          if m !! name then (Err (ErrOther "UNIQUE constraint failed: schema_migrations.name"), w)
                          else (Ok tt, MkDBFile (Some (<[name := unix_millis (flTick w)]> m)) (flScripts w ++ [name]) (flTick w))
                      end).

Fixpoint apply_all (names : list string) : prog DBFile (res unit) :=
  match names with
  | [] => Ret (Ok tt)
  | name :: rest =>
      n <- count_applied name ;;
      match n with
      | Err e => Ret (Err e)
      | Ok (Datatypes.S _) => apply_all rest
      | Ok O =>
          body <- file_step (fun w => (read_dir_fault (flTick w), w)) ;;
          match body with
          | Some msg => Ret (Err (ErrOther msg))
          | None =>
              r <- apply_migration name ;;
              match r with Err e => Ret (Err e) | Ok _ => apply_all rest end
          end
      end
  end.

Definition migrate : prog DBFile (res unit) :=
  r <- create_migrations_table ;;
  match r with
  | Err e => Ret (Err e)
  | Ok _ =>
      dir <- file_step (fun w => (read_dir_fault (flTick w), w)) ;;
      match dir with
      | Some msg => Ret (Err (ErrOther msg))
      | None => apply_all (order_by_text id entries)
      end
  end.

Definition Open : prog DBFile (res unit) :=
  opened <- file_step (fun w => (open_fault (flTick w), w)) ;;
  match opened with
  | Some msg => Ret (Err (ErrOther msg))
  | None =>
      r <- migrate ;;
      Ret (match r with Ok _ => Ok tt | Err e => Err (ErrOther ("sqlite: migrate: " +:+ error_text e)) end)
  end.

(** ** What is noted is what was run *)

Definition noted (w : DBFile) : gmap string Z := default ∅ (flMigrations w).
Record file_inv (w : DBFile) : Prop := {
  fi_once : NoDup (flScripts w);
  fi_noted : forall name, is_Some (noted w !! name) <-> name ∈ flScripts w
}.

(** What is still to be run, in order. *)
Definition missing (done : list string) : list string := filter (fun n => n ∉ done) (order_by_text id entries).

(** The file after some of the missing scripts. *)
Definition advanced (done : list string) (w : DBFile) : Prop :=
  file_inv w /\ exists ran, ran `prefix_of` missing done /\ flScripts w = done ++ ran.

Lemma missing_nodup done : NoDup entries -> NoDup (missing done).
Proof.
  intros H. apply NoDup_filter. unfold order_by_text. rewrite merge_sort_Permutation. exact H.
Qed.

(** Time passes: nothing else. *)
Lemma tick_advanced done w n : advanced done w -> advanced done (MkDBFile (flMigrations w) (flScripts w) n).
Proof. intros [[H1 H2] H3]. split; [by split|done]. Qed.

Lemma throughout_file {X} (P : DBFile -> Prop) (f : DBFile -> X * DBFile) Q w :
  P w -> (forall x w1, f w = (x, w1) -> let w' := MkDBFile (flMigrations w1) (flScripts w1) (1 + flTick w1) in P w' /\ Q x w') ->
  throughout P (file_step f) Q w.
Proof.
  intros Hp H. unfold file_step, atomic. apply throughout_step; [done|]. intros x w' E. destruct (f w) as [y w1] eqn:Ef.
  cbn in E. injection E as <- <-. destruct (H y w1 eq_refl) as [H1 H2]. apply throughout_ret; [exact H1|exact H2].
Qed.

(** A fault of the outside leaves the file alone. *)
Lemma throughout_outside {X} (f : nat -> X) done Q w :
  advanced done w -> (forall w', flMigrations w' = flMigrations w -> flScripts w' = flScripts w -> advanced done w' -> Q (f (flTick w)) w') ->
  throughout (advanced done) (file_step (fun w => (f (flTick w), w))) Q w.
Proof.
  intros Hw H. apply throughout_file; [done|]. intros x w1 [= <- <-]. pose proof (tick_advanced _ _ (1 + flTick w) Hw) as H'.
  split; [done|]. by apply H.
Qed.

Lemma throughout_statement {X} (f : DBFile -> res X * DBFile) done Q w :
  advanced done w ->
  (forall e w', advanced done w' -> Q (Err e) w') ->
  (forall x w1, f w = (x, w1) -> let w' := MkDBFile (flMigrations w1) (flScripts w1) (1 + flTick w1) in advanced done w' /\ Q x w') ->
  throughout (advanced done) (statement f) Q w.
Proof.
  intros Hw He H. apply throughout_file; [done|]. intros x w1 E. destruct (statement_fault (flTick w)) as [msg|].
  - injection E as <- <-. pose proof (tick_advanced _ _ (1 + flTick w) Hw) as H'. split; [done|]. by apply He.
  - by apply H.
Qed.

(** The rest of the names, when those before have been dealt with. *)
Lemma apply_all_throughout names done ran w :
  NoDup entries -> is_Some (flMigrations w) -> file_inv w -> flScripts w = done ++ ran ->
  missing done = ran ++ filter (fun n => n ∉ done) names ->
  throughout (advanced done) (apply_all names)
    (fun r w' => advanced done w' /\ (r = Ok tt -> flScripts w' = done ++ missing done)) w.
Proof.
  intros Hnd. revert ran w. induction names as [|name names IH]; intros ran w Ht Hi Hr Hm.
  all: assert (advanced done w) as Hw by (split; [done|]; exists ran; split; [eexists; exact Hm|done]).
  { apply throughout_ret; [done|]. split; [done|]. intros _. by rewrite Hr, Hm, app_nil_r. }
  assert (forall e w', advanced done w' -> advanced done w' /\ (Err e = Ok tt -> flScripts w' = done ++ missing done)) as Hno by (intros e w' ?; by split).
  cbn [apply_all]. apply throughout_bind, throughout_statement; [done|intros; apply throughout_ret; [done|by apply Hno]|].
  destruct Ht as [m Hmig]. rewrite Hmig. intros n w1 [= <- <-]. cbv zeta. rewrite Hmig. cbn [flMigrations flScripts flTick].
  assert (forall k, is_Some (m !! k) <-> k ∈ flScripts w) as Hm' by (intros k; rewrite <- (fi_noted _ Hi); unfold noted; by rewrite Hmig).
  set (w' := MkDBFile (Some m) (flScripts w) (1 + flTick w)).
  assert (file_inv w') as Hi' by (split; [apply Hi|exact Hm']).
  assert (advanced done w') as Hw' by (split; [done|apply Hw]). split; [done|].
  destruct (m !! name) as [at_|] eqn:Hl.
  - assert (name ∈ done) as Hd.
    { assert (name ∈ flScripts w) as Hs by (apply Hm'; by eexists). rewrite Hr in Hs. apply elem_of_app in Hs as [?|Hran]; [done|].
      destruct (decide (name ∈ done)) as [|Hnot]; [done|]. exfalso. pose proof (missing_nodup done Hnd) as Hmn.
      rewrite Hm, filter_cons_True in Hmn by done. apply NoDup_app in Hmn as (_ & Hmn & _). apply (Hmn name Hran). left. }
    apply (IH ran); [by eexists|done|done|]. rewrite Hm, filter_cons_False; [done|]. by intros H.
  - assert (name ∉ done ++ ran) as Hn by (rewrite <- Hr, <- Hm', Hl; by intros []).
    rewrite elem_of_app in Hn. assert (missing done = (ran ++ [name]) ++ filter (fun n => n ∉ done) names) as Hm2.
    { rewrite Hm, filter_cons_True, <- app_assoc by tauto. done. }
    apply throughout_bind, throughout_outside; [done|]. intros w2 E1 E2 Hw2. destruct (read_dir_fault _); [by apply throughout_ret; [|apply Hno]|].
    apply throughout_bind, throughout_statement; [done|intros; apply throughout_ret; [done|by apply Hno]|].
    rewrite E1, E2. cbn [w' flMigrations flScripts]. rewrite Hl. intros x w3 [= <- <-]. cbn [flMigrations flScripts flTick].
    set (w4 := MkDBFile _ _ _). assert (file_inv w4) as Hi4.
    { split; cbn.
      - apply NoDup_app. split; [apply Hi|]. split; [|apply NoDup_singleton]. intros y Hy Hy'. apply list_elem_of_singleton in Hy' as ->.
        rewrite Hr in Hy. apply elem_of_app in Hy. tauto.
      - intros k. unfold noted. cbn. rewrite lookup_insert_is_Some, elem_of_app, list_elem_of_singleton, Hm'.
        destruct (decide (name = k)) as [->|]; naive_solver. }
    assert (flScripts w4 = done ++ ran ++ [name]) as Hr4 by (cbn; by rewrite Hr, <- app_assoc).
    split; [|apply (IH (ran ++ [name])); [by eexists|done|done|done]].
    split; [done|]. exists (ran ++ [name]). split; [eexists; exact Hm2|done].
Qed.

(** C20. Whatever version the file comes from and however often [Open] fails or
    dies, no migration's script is ever committed twice, and what is noted as
    applied is exactly what was committed.  Wherever one [Open] stops, the scripts
    it committed are the first of those that were missing, in the order of their
    names; and when it reports success, none is missing. *)
Theorem migrations_apply_once w :
  NoDup entries -> file_inv w ->
  (forall n, advanced (flScripts w) (cut n Open w))
  /\ (forall w', run Open w = Some (Ok tt, w') -> advanced (flScripts w) w' /\ flScripts w' = flScripts w ++ missing (flScripts w)
        /\ missing (flScripts w') = []).
Proof.
  intros Hnd Hi. set (done := flScripts w).
  assert (throughout (advanced done) Open
    (fun r w' => advanced done w' /\ (r = Ok tt -> flScripts w' = done ++ missing done)) w) as H.
  { assert (advanced done w) as Hw by (split; [done|]; exists []; split; [apply prefix_nil|by rewrite app_nil_r]).
    unfold Open, migrate. apply throughout_bind, throughout_outside; [done|]. intros w1 E1 E2 Hw1.
    destruct (open_fault _); [by apply throughout_ret|]. apply throughout_bind, throughout_bind, throughout_statement; [done| |].
    { intros e w2 Hw2. by apply throughout_ret; [|apply throughout_ret]. }
    intros x w2 [= <- <-]. cbn [flMigrations flScripts flTick]. set (w2 := MkDBFile _ _ _).
    assert (file_inv w2) as Hi2 by (destruct Hw1 as [[N1 N2] _]; by split).
    assert (flScripts w2 = done) as E3 by by cbn. assert (advanced done w2) as Hw2.
    { split; [done|]. exists []. split; [apply prefix_nil|by rewrite app_nil_r]. }
    split; [done|]. apply throughout_bind, throughout_outside; [done|]. intros w3 E4 E5 Hw3.
    destruct (read_dir_fault _); [by apply throughout_ret; [|apply throughout_ret]|].
    eapply throughout_post; [|apply (apply_all_throughout _ done []); [done|rewrite E4; by eexists|apply Hw3| |done]].
    - intros r w4 [Hw4 Hr]. apply throughout_ret; [done|]. split; [done|]. destruct r as [[]|e]; [by intros _; apply Hr|done].
    - by rewrite E5, E3, app_nil_r. }
  split; [intros n; by apply (throughout_cut _ _ _ _ n) in H|]. intros w' Hr.
  destruct (throughout_run _ _ _ _ _ _ H Hr) as [Ha Hs]. specialize (Hs eq_refl). split; [done|]. split; [done|].
  apply elem_of_nil_inv. intros x Hx. unfold missing in Hx. rewrite Hs in Hx. apply list_elem_of_filter in Hx as [Hn Hx].
  apply Hn, elem_of_app. destruct (decide (x ∈ done)) as [|Hd]; [by left|right]. by apply list_elem_of_filter.
Qed.
End Migrate.

(** ** An upgrade *)

Definition demo_migrations : MigrationEnv := {|
  entries := ["0002_bots.sql"; "0001_init.sql"; "0003_audit.sql"];
  unix_millis t := Z.of_nat t;
  open_fault _ := None;
  read_dir_fault _ := None;
  statement_fault t := if (t =? 9)%nat then Some "disk I/O error" else None
|}.
Definition old_file : DBFile := MkDBFile (Some {["0001_init.sql" := 5]}) ["0001_init.sql"] 0.

(** A first [Open] fails on the way, a second one ends the upgrade. *)
Lemma migrations_apply_once_witness :
  let w1 := @cut DBFile (res unit) 20 (@Open demo_migrations) old_file in
  flScripts w1 = ["0001_init.sql"; "0002_bots.sql"]
  /\ exists w2, run (@Open demo_migrations) w1 = Some (Ok tt, w2)
       /\ flScripts w2 = flScripts w1 ++ @missing demo_migrations (flScripts w1).
Proof.
  assert (NoDup (@entries demo_migrations)) as Hnd by (repeat constructor; vm_compute; intros H; repeat (apply elem_of_cons in H as [H|H]; [discriminate|]); by apply elem_of_nil in H).
  assert (file_inv old_file) as Hi.
  { split; [apply NoDup_singleton|]. intros k.
    change (is_Some (({["0001_init.sql" := 5]} : gmap string Z) !! k) <-> k ∈ ["0001_init.sql"]).
    rewrite list_elem_of_singleton. destruct (decide (k = "0001_init.sql")) as [->|Hk].
    - rewrite lookup_singleton_eq. split; [done|by eexists].
    - rewrite lookup_singleton_ne by done. split; [by intros []|done]. }
  destruct (@migrations_apply_once demo_migrations old_file Hnd Hi) as [Hcut _]. specialize (Hcut 20%nat).
  split; [vm_compute; reflexivity|].
  set (w1 := cut 20 Open old_file) in *. destruct Hcut as [Hi1 _].
  assert (match run (@Open demo_migrations) w1 with Some (Ok _, _) => true | _ => false end = true) as Hok by (vm_compute; reflexivity).
  destruct (run (@Open demo_migrations) w1) as [[[[]|e] w2]|] eqn:E; [|discriminate..].
  exists w2. split; [reflexivity|]. exact (proj1 (proj2 (proj2 (@migrations_apply_once demo_migrations w1 Hnd Hi1) w2 E))).
Defined.
