(* ===== verification/Provenance.v ===== *)
(** * Where the broker's orders come from

    A harness acts on two kinds of messages: dispatches, and answers to
    approvals.  Here: in every state any interleaving of the broker's handlers
    can reach, every such message that is stored or was ever sent stands for
    something in the database, a job with this prompt or a decision of the
    job's owner.

    Most programs never make such a message ([tame]); the few that do rely on
    what they read before ([rg]). *)

From S2P Require Import Prelude Resume GoText Codec Json Protocol Store Tables World Sqlite Integrity StoreFacts CoreText Sender Hub HubFacts Posts Core CoreGuards Onboarding OnboardingFacts System Rely.

Open Scope Z_scope.
Open Scope prog_scope.

(** ** What a message stands for *)

(** A decision to allow, by the owner of the job. *)
Definition allowed_by_owner (d : DB) (approvalID jobID : string) : Prop :=
  exists a j, t_approvals d !! approvalID = Some a /\ aJobID (ar_approval a) = jobID
    /\ ar_decision a = Some DecisionAllow
    /\ t_jobs d !! jobID = Some j /\ ar_decided_by a = Some (jMMUserID j).

(** A job with this prompt. *)
Definition dispatched_as (d : DB) (x : JobDispatch) (jobID : string) : Prop :=
  exists j, t_jobs d !! jobID = Some j
    /\ jBotUserID j = jd_BotUserID x /\ jWorkspace j = jd_Workspace x /\ jPrompt j = jd_Prompt x
    /\ jRootPostID j = th_RootPostID (jd_Thread x).

Definition stands_for (d : DB) (typ jobID : string) (payload : option json) : Prop :=
  (typ = TypeApprovalResponse ->
     exists r, payload = Some (wire_enc r) /\ (ap_Decision r = DecisionAllow \/ ap_Decision r = DecisionDeny)
       /\ (ap_Decision r = DecisionAllow -> allowed_by_owner d (ap_ApprovalID r) jobID))
  /\ (typ = TypeJobDispatch -> exists x, payload = Some (wire_enc x) /\ dispatched_as d x jobID).

(** The two types of messages. *)
Definition order (typ : string) : Prop := typ = TypeApprovalResponse \/ typ = TypeJobDispatch.
#[export] Instance order_dec typ : Decision (order typ).
Proof. unfold order. apply _. Defined.

Definition env_stands (d : DB) (env : Envelope) : Prop := stands_for d (en_Type env) (en_JobID env) (en_Payload env).
Definition row_stands (d : DB) (m : OutboxMessage) : Prop := stands_for d (mType m) (mJobID m) (mPayload m).

Record authentic (w : World) : Prop := {
  auth_wf : db_wf (w_db w);
  auth_outbox : map_Forall (fun _ m => row_stands (w_db w) m) (t_outbox (w_db w));
  auth_sent : forall c env ok, EvSend c env ok ∈ w_trace w -> env_stands (w_db w) env
}.

Lemma stands_other d typ jobID payload : ~ order typ -> stands_for d typ jobID payload.
Proof. unfold order. split; intros ->; naive_solver. Qed.

(** A decision and a job stay what they are. *)
Lemma allowed_evolves d d' approvalID jobID :
  db_evolves d d' -> allowed_by_owner d approvalID jobID -> allowed_by_owner d' approvalID jobID.
Proof.
  intros He (a & j & Ha & Hj & Hd & Hjob & Hby).
  destruct (ev_approvals _ _ He _ _ Ha) as (a' & Ha' & (_ & Hj' & _) & Hfin).
  destruct (Hfin ltac:(by rewrite Hd)) as (Hd' & Hby' & _).
  destruct (ev_jobs _ _ He _ _ Hjob) as (j' & Hjob' & (_ & _ & Hmm & _) & _).
  exists a', j'. rewrite Hj', Hd', Hby', Hmm. done.
Qed.

Lemma dispatched_evolves d d' x jobID : db_evolves d d' -> dispatched_as d x jobID -> dispatched_as d' x jobID.
Proof.
  intros He (j & Hj & H1 & H2 & H3 & H4). destruct (ev_jobs _ _ He _ _ Hj) as (j' & Hj' & Hs & _).
  unfold same_job in Hs. exists j'. split; [done|]. destruct_and!. repeat split; congruence.
Qed.

Lemma stands_evolves d d' typ jobID payload :
  db_evolves d d' -> stands_for d typ jobID payload -> stands_for d' typ jobID payload.
Proof.
  intros He [Ha Hd]. split.
  - intros Ht. destruct (Ha Ht) as (r & Hp & Hv & Hr). exists r. split; [done|]. split; [done|].
    intros Hal. by eapply allowed_evolves, Hr.
  - intros Ht. destruct (Hd Ht) as (x & Hp & Hx). exists x. split; [done|]. by eapply dispatched_evolves.
Qed.

(** ** Programs that give no orders *)

(** Orders in the outbox were there before, and no order is sent. *)
Definition outbox_tame (d d' : DB) : Prop :=
  forall id m', t_outbox d' !! id = Some m' -> order (mType m') ->
    exists m, t_outbox d !! id = Some m /\ same_outbox m m'.
Definition no_order (ev : Event) : Prop := match ev with EvSend _ env _ => ~ order (en_Type env) | _ => True end.
Definition tame (w w' : World) : Prop := on_db outbox_tame w w' /\ emits no_order w w'.

#[export] Instance outbox_tame_preorder : PreOrder outbox_tame.
Proof.
  split.
  - intros d id m Hm _. by exists m.
  - intros d1 d2 d3 H12 H23 id m3 Hm3 Ho. destruct (H23 id m3 Hm3 Ho) as (m2 & Hm2 & S2).
    assert (mType m3 = mType m2) as Ht by apply S2. rewrite Ht in Ho.
    destruct (H12 id m2 Hm2 Ho) as (m1 & Hm1 & S1). exists m1. split; [done|]. by trans m2.
Qed.

#[export] Instance tame_mild : Mild tame.
Proof.
  split; [split|].
  - split; [intros w; by split | intros x y z [] []; split; by etrans].
  - intros w w' Hd _ Ht _. split; [unfold on_db; by rewrite Hd | exists []; by rewrite Ht, app_nil_r].
  - intros w w' evs Hd _ Ht _ He. split; [unfold on_db; by rewrite Hd|]. exists evs. split; [done|].
    eapply Forall_impl; [exact He|]. by intros [].
Qed.

Lemma outbox_untouched d d' : t_outbox d' = t_outbox d -> outbox_tame d d'.
Proof. intros H id m Hm _. rewrite H in Hm. by exists m. Qed.

Section Tame.
Context {E : Env}.

Lemma tame_exec {X} (s : DB -> sres X * DB) : (forall d, outbox_tame d (s d).2) -> guards tame (exec s).
Proof.
  intros H. apply guards_atomic. intros w. destruct (db_fault (w_tick w)); [by apply quiet_step; [done..|later_tick]|].
  specialize (H (w_db w)). destruct (s (w_db w)) as [r d]. split; [exact H|]. exists []. cbn. by rewrite app_nil_r.
Qed.

Lemma tame_send c env : ~ order (en_Type env) -> guards tame (wire_send c env).
Proof.
  intros H. apply guards_atomic. intros w. split; [unfold on_db; cbn; reflexivity|].
  eexists. split; [done|]. by constructor.
Qed.

(** A statement that does not concern the outbox. *)
Ltac elsewhere := apply tame_exec; intros ?; apply outbox_untouched;
  lazymatch goal with |- t_outbox (?s _).2 = _ => let h := head_of s in unfold h end; repeat case_match; done.

Lemma x_insert_harness h : guards tame (exec (insert_harness h)). Proof. elsewhere. Qed.
Lemma x_update_touch i t v : guards tame (exec (update_touch i t v)). Proof. elsewhere. Qed.
Lemma x_insert_pairing c u t : guards tame (exec (insert_pairing c u t)). Proof. elsewhere. Qed.
Lemma x_update_consume c t : guards tame (exec (update_consume c t)). Proof. elsewhere. Qed.
Lemma x_insert_job j : guards tame (exec (insert_job j)). Proof. elsewhere. Qed.
Lemma x_update_transition i f t p n : guards tame (exec (update_transition i f t p n)). Proof. elsewhere. Qed.
Lemma x_update_progress i n t : guards tame (exec (update_progress i n t)). Proof. elsewhere. Qed.
Lemma x_update_expire t : guards tame (exec (update_expire t)). Proof. elsewhere. Qed.
Lemma x_insert_approval a : guards tame (exec (insert_approval a)). Proof. elsewhere. Qed.
Lemma x_update_decide i d b t : guards tame (exec (update_decide i d b t)). Proof. elsewhere. Qed.
Lemma x_insert_bot b : guards tame (exec (insert_bot b)). Proof. elsewhere. Qed.
Lemma x_delete_bot i : guards tame (exec (delete_bot i)). Proof. elsewhere. Qed.
Lemma x_insert_init r : guards tame (exec (insert_init r)). Proof. elsewhere. Qed.
Lemma x_update_fetch c t : guards tame (exec (update_fetch c t)). Proof. elsewhere. Qed.
Lemma x_insert_audit e : guards tame (exec (insert_audit e)). Proof. elsewhere. Qed.
Lemma x_update_ack i t : guards tame (exec (update_ack i t)).
Proof.
  apply tame_exec. intros d id m' Hm Ho. cbn in Hm. unfold update_key in Hm.
  destruct (t_outbox d !! i) as [m|] eqn:Hi; [|by exists m']. destruct (unacked m); [|by exists m'].
  apply lookup_insert_Some in Hm as [[<- <-]|[_ Hm]]; [by exists m | by exists m'].
Qed.
Lemma x_delete_purged t : guards tame (exec (delete_purged t)).
Proof.
  apply tame_exec. intros d id m' Hm Ho. apply map_lookup_filter_Some in Hm as [Hm _]. by exists m'.
Qed.
Lemma x_complete_init c t h b k :
  guards tame (exec (fun d => let '(r, d') := complete_init_tx c t h b k d in (SqlOk r, d'))).
Proof.
  apply tame_exec. intros d. apply outbox_untouched. unfold complete_init_tx, insert_harness. by repeat case_match; simplify_eq.
Qed.
Lemma x_insert_outbox m : ~ order (mType m) -> guards tame (exec (insert_outbox m)).
Proof.
  intros Hn. apply tame_exec. intros d id m' Hm Ho. unfold insert_outbox in Hm. case_bool_decide; [by exists m'|].
  cbn in Hm. apply lookup_insert_Some in Hm as [[_ <-]|[_ Hm]]; [done | by exists m'].
Qed.
#[local] Hint Resolve x_insert_harness x_update_touch x_insert_pairing x_update_consume x_insert_job
  x_update_transition x_update_progress x_update_expire x_insert_approval x_update_decide x_insert_bot x_delete_bot
  x_insert_init x_update_fetch x_insert_audit x_update_ack x_delete_purged x_complete_init : guards.

(** *** The store *)

Ltac method := lazymatch goal with |- guards _ ?m => let h := head_of m in unfold h end; secure.

Lemma t_TouchHarness i t v : guards tame (TouchHarness i t v). Proof. method. Qed.
Lemma t_CreateHarness h : guards tame (CreateHarness h). Proof. method. Qed.
Lemma t_CreatePairing c u t : guards tame (CreatePairing c u t). Proof. method. Qed.
Lemma t_ConsumePairing c t : guards tame (ConsumePairing c t). Proof. method. Qed.
Lemma t_CreateJob j : guards tame (CreateJob j). Proof. method. Qed.
Lemma t_TransitionJob i f t p : guards tame (TransitionJob i f t p). Proof. method. Qed.
Lemma t_RecordProgress i n : guards tame (RecordProgress i n). Proof. method. Qed.
Lemma t_ExpireQueuedJobs t : guards tame (ExpireQueuedJobs t). Proof. method. Qed.
Lemma t_CreateApproval a : guards tame (CreateApproval a). Proof. method. Qed.
Lemma t_AckOutbox i t : guards tame (AckOutbox i t). Proof. method. Qed.
Lemma t_PurgeOutbox t : guards tame (PurgeOutbox t). Proof. method. Qed.
Lemma t_CreateBot b : guards tame (CreateBot b).
Proof. unfold CreateBot, checkBotHarness. secure. Qed.
Lemma t_DeleteBot i : guards tame (DeleteBot i). Proof. method. Qed.
Lemma t_CreateInit r : guards tame (CreateInit r). Proof. method. Qed.
Lemma t_FetchInit c t : guards tame (FetchInit c t).
Proof. unfold FetchInit, fetch_read, InitByCode. secure. Qed.
Lemma t_CompleteInit c t h b k : guards tame (CompleteInit c t h b k). Proof. method. Qed.
Lemma t_audit a b c d : guards tame (audit a b c d).
Proof. unfold audit, Append. secure. Qed.
End Tame.

#[local] Hint Resolve t_TouchHarness t_CreateHarness t_CreatePairing t_ConsumePairing t_CreateJob t_TransitionJob
  t_RecordProgress t_ExpireQueuedJobs t_CreateApproval t_AckOutbox t_PurgeOutbox t_CreateBot t_DeleteBot
  t_CreateInit t_FetchInit t_CompleteInit t_audit : guards.

(** *** The handlers *)

Section Handlers.
Context {E : Env} {C : Config}.

Ltac open_prog := lazymatch goal with |- guards _ ?m => let h := head_of m in unfold h end.
Ltac gentle := open_prog; secure.

(** A message has the type it was made with. *)
Lemma guards_made R `{!Quiet R} {T} `{!Wire T} {A} typ job (x : T) (k : Envelope -> prog World A) :
  (forall id now, guards R (k (new_envelope id now typ job x))) -> guards R (bind (New typ job x) k).
Proof.
  intros H. change (guards R (bind new_ulid (fun id => bind time_now (fun ts => k (new_envelope (NewID "msg" id) ts typ job x))))).
  apply guards_bind; [by apply guards_new_ulid | intros id]. apply guards_bind; [by apply guards_time_now | intros; apply H].
Qed.

Lemma t_hub_SendReliable h env : ~ order (en_Type env) -> guards tame (hub_SendReliable h env).
Proof.
  intros Hn. unfold hub_SendReliable, Enqueue. destruct (negb _); [apply guards_ret|].
  apply guards_bind; [by apply guards_time_now; apply _|]. intros now. apply guards_bind.
  - apply guards_bind; [by apply x_insert_outbox | intros; apply guards_ret].
  - intros r. assert (guards tame (cn <- gets (fun w => w_conns w !! h) ;;
      match cn with None => Ret (Ok tt) | Some c => wire_send c env end)) as Hs.
    { apply guards_bind; [by apply guards_gets; apply _|]. intros [c|]; [by apply tame_send | apply guards_ret]. }
    destruct r as [?|[]]; [exact Hs | apply guards_ret | exact Hs | apply guards_ret].
Qed.

Ltac ordinary_type := let H := fresh in unfold order; intros [H|H]; discriminate H.

Lemma t_cancelJob j r : guards tame (cancelJob j r).
Proof.
  unfold cancelJob. destruct (bool_decide _); [secure|]. apply guards_made; [apply _|]. intros id now.
  apply guards_bind; [auto with guards|]. intros _. apply t_hub_SendReliable. ordinary_type.
Qed.
#[local] Hint Resolve t_cancelJob : guards.
Lemma t_handleCancel p m : guards tame (handleCancel p m).
Proof. gentle. Qed.
Lemma t_fail j r : guards tame (fail j r).
Proof. gentle. Qed.
Lemma t_newPairingCode u : guards tame (newPairingCode u).
Proof. gentle; apply g_randomCode, _. Qed.
Lemma t_statusText u : guards tame (statusText u).
Proof. gentle. Qed.
#[local] Hint Resolve t_handleCancel t_fail t_newPairingCode t_statusText : guards.
Lemma t_handleDM p : guards tame (handleDM p).
Proof. gentle. Qed.

Lemma t_OnHello h hello : guards tame (core_OnHello h hello).
Proof. unfold core_OnHello, hello_job, unreported_job. secure. Qed.
Lemma t_OnAck h ref j a : guards tame (core_OnAck h ref j a).
Proof. gentle. Qed.
Lemma t_OnProgress h j p : guards tame (core_OnProgress h j p).
Proof. gentle. Qed.
Lemma t_OnApprovalRequest h j r : guards tame (core_OnApprovalRequest h j r).
Proof. gentle; apply g_randomToken, _. Qed.
Lemma t_OnResult h j r : guards tame (core_OnResult h j r).
Proof. gentle. apply g_postResult, _. Qed.
Lemma t_OnDisconnect h : guards tame (core_OnDisconnect h).
Proof. gentle. Qed.
Lemma t_resume_job j : guards tame (resume_job j).
Proof. gentle. Qed.
Lemma t_HandlePair req : guards tame (HandlePair req).
Proof. gentle; try apply g_randomToken; try apply g_announce_pairing; apply _. Qed.
Lemma t_Sweep : guards tame Sweep.
Proof. unfold Sweep, sweep_job. secure. Qed.

(** *** Onboarding *)

#[local] Hint Extern 1 (guards _ (call _ _)) =>
  apply guards_call_mild; [apply _ | intros ?; unfold hook_made; repeat case_match; by repeat constructor] : guards.

#[local] Hint Resolve c_BotByUsername c_BotsByOwner c_InitByCode c_checkBotHarness g_randomToken g_randomCode
  g_installation g_choose_bot_name g_init_names g_onboardingStatusText : guards.

Lemma t_StartInit b h : guards tame (StartInit b h).
Proof. gentle. Qed.
Lemma t_PollInit c t : guards tame (PollInit c t).
Proof. gentle. Qed.
Lemma t_member_call t k a b f : guards tame (member_call t k a b f).
Proof. gentle. Qed.
Lemma t_rollbackBot t b : guards tame (rollbackBot t b).
Proof. gentle. Qed.
#[local] Hint Resolve t_member_call t_rollbackBot : guards.
Lemma t_furnish_bot t c b : guards tame (furnish_bot t c b).
Proof. gentle. Qed.
#[local] Hint Resolve t_furnish_bot : guards.
Lemma t_provisionBot a r h : guards tame (provisionBot a r h).
Proof. gentle. Qed.
#[local] Hint Resolve t_provisionBot : guards.
Lemma t_HandleCommand a : guards tame (HandleCommand a).
Proof.
  unfold HandleCommand, claimInit, claim_init, createBoundBot, create_bound_bot, joinChannel.
  secure.
Qed.

(** *** Connections *)

Lemma t_send_reply {T} `{!Wire T} c typ to (x : T) : ~ order typ -> guards tame (send_reply c typ to x).
Proof.
  intros Hn. unfold send_reply. apply guards_bind; [by apply guards_new_ulid; apply _|]. intros id.
  apply guards_bind; [by apply guards_time_now; apply _|]. intros now.
  apply guards_bind; [by apply tame_send | intros; apply guards_ret].
Qed.

Lemma t_handle harness c env : guards tame (handle harness c env).
Proof.
  unfold handle. secure;
    first [ apply t_send_reply; ordinary_type | apply t_OnAck | apply t_OnProgress | apply t_OnResult | apply t_OnApprovalRequest ].
Qed.

Lemma t_read_loop harness c incoming : guards tame (read_loop harness c incoming).
Proof. induction incoming as [|env rest IH]; cbn [read_loop]; secure. apply t_handle. Qed.

Lemma t_disconnect harness c : guards tame (disconnect harness c).
Proof.
  unfold disconnect. secure; [|apply t_OnDisconnect]. apply guards_atomic. intros w. unfold unregister_conn.
  case_bool_decide; (split; [unfold on_db; cbn; reflexivity | exists []; cbn; by rewrite app_nil_r]).
Qed.
End Handlers.

(** ** Programs that rely on what they read *)

Section Speaks.
Context {E : Env} {C : Config}.

Abbreviation speaks := (rg authentic w_step).

Definition both (w w' : World) : Prop := w_step w w' /\ tame w w'.
#[export] Instance both_mild : Mild both.
Proof.
  split; [split|].
  - split; [intros w; by split | intros x y z [] []; split; by etrans].
  - intros w w' H1 H2 H3 H4. split; by apply quiet_step.
  - intros w w' evs H1 H2 H3 H4 H5. split; by eapply mild_step.
Qed.

Lemma guards_both {A} (m : prog World A) : guards w_step m -> guards tame m -> guards both m.
Proof.
  unfold guards. induction m as [a|X f k IH]; simpl; [done|]. intros [H1 K1] [H2 K2].
  split; [|intros x; apply IH; [apply K1 | apply K2]]. intros w x w' Hf. split; [by eapply H1 | by eapply H2].
Qed.

Lemma both_closed w w' : both w w' -> closed_step authentic w_step w w'.
Proof.
  intros [Hs [Ho (evs & Ht & He)]] [Hwf Hout Hsent]. destruct Hs as [Hk Hev]. split; [|by split]. split.
  - by apply Hk.
  - intros id m' Hm. destruct (decide (order (mType m'))) as [Hor|Hno]; [|by apply stands_other].
    destruct (Ho id m' Hm Hor) as (m & Hm0 & _ & _ & Hj & Hty & Hp & _). unfold row_stands. rewrite Hj, Hty, Hp.
    eapply stands_evolves; [exact Hev | by eapply Hout].
  - intros c env ok Hin. rewrite Ht in Hin. apply elem_of_app in Hin as [Hin|Hin].
    + eapply stands_evolves; [exact Hev | by eapply Hsent].
    + apply stands_other. by apply (proj1 (Forall_forall _ _) He _ Hin).
Qed.

Lemma speaks_both {A} (m : prog World A) w : guards both m -> speaks m (fun _ _ => True) w.
Proof. intros H. apply rg_guards. eapply guards_mono; [apply both_closed | exact H]. Qed.

Lemma speaks_skip {A B} (m : prog World A) (g : A -> prog World B) Q w :
  guards both m -> (forall a w', w_step w w' -> speaks (g a) Q w') -> speaks (bind m g) Q w.
Proof.
  intros Hm Hg. apply rg_bind. eapply rg_mono; [|apply rg_within; [apply _ | by apply speaks_both]].
  intros a w' [Hr _]. by apply Hg.
Qed.
(** *** Single steps *)

Lemma quiet_keeps w w' : w_db w = w_db w' -> w_conns w = w_conns w' -> w_trace w = w_trace w' ->
  (w_tick w <= w_tick w')%nat -> authentic w -> authentic w' /\ w_step w w'.
Proof. intros H1 H2 H3 H4 Hi. apply both_closed; [by apply quiet_step | done]. Qed.

Lemma speaks_atomic {X} (f : World -> X * World) (Q : X -> World -> Prop) w0 :
  (forall w, w_step w0 w -> authentic w -> (authentic (f w).2 /\ w_step w (f w).2) /\ Q (f w).1 (f w).2) ->
  speaks (atomic f) Q w0.
Proof.
  intros H. apply rg_step. intros w x w' Hr Hi [= Hf]. destruct (H w Hr Hi) as [[? ?] ?]. rewrite Hf in *. done.
Qed.

(** A query that fails says nothing. *)
Lemma speaks_query {X} (q : DB -> sres X) (Q : sres X -> World -> Prop) w0 :
  (forall e w, Q (SqlErr e) w) ->
  (forall w, w_step w0 w -> authentic w -> Q (q (w_db w)) (bump w)) -> speaks (query q) Q w0.
Proof.
  intros He Hq. apply speaks_atomic. intros w Hr Hi. split; [apply quiet_keeps; first [done|later_tick]|]. cbn.
  destruct (db_fault (w_tick w)); [apply He | by apply Hq].
Qed.

(** A statement that keeps the invariant, and what it leaves. *)
Lemma speaks_exec {X} (s : DB -> sres X * DB) (Q : sres X -> World -> Prop) w0 :
  (forall msg w, Q (SqlErr (SqlFault msg)) w) ->
  (forall w, w_step w0 w -> authentic w ->
     (authentic (set_db (s (w_db w)).2 w) /\ db_step (w_db w) (s (w_db w)).2)
     /\ Q (s (w_db w)).1 (bump (set_db (s (w_db w)).2 w))) ->
  speaks (exec s) Q w0.
Proof.
  intros He Hs. apply speaks_atomic. intros w Hr Hi. destruct (Hs w Hr Hi) as [[Ha Hd] HQ].
  destruct (db_fault (w_tick w)); [split; [apply quiet_keeps; first [done|later_tick] | apply He]|].
  destruct (s (w_db w)) as [r d]. cbn in *. split; [|exact HQ].
  destruct (quiet_keeps (set_db d w) (bump (set_db d w))) as [? _]; first [done|later_tick].
Qed.

Lemma speaks_made {T} `{!Wire T} {A} typ job (x : T) (k : Envelope -> prog World A) Q w0 :
  (forall id ts w, w_step w0 w -> speaks (k (new_envelope id ts typ job x)) Q w) -> speaks (bind (New typ job x) k) Q w0.
Proof.
  intros H. change (speaks (bind new_ulid (fun id => bind time_now (fun ts => k (new_envelope (NewID "msg" id) ts typ job x)))) Q w0).
  apply speaks_skip; [by apply guards_new_ulid; apply _|]. intros id w1 H1.
  apply speaks_skip; [by apply guards_time_now; apply _|]. intros ts w2 H2. apply H. by etrans.
Qed.

(** *** Sending an order *)

Lemma enqueue_keeps m w :
  row_stands (w_db w) m -> authentic w -> authentic (set_db (insert_outbox m (w_db w)).2 w).
Proof.
  intros Hm [Hwf Hout Hsent]. destruct (step_insert_outbox m (w_db w)) as [Hk Hev]. split.
  - by apply Hk.
  - intros id m' Hl. cbn in Hl |- *. eapply stands_evolves; [exact Hev|]. unfold insert_outbox in Hl.
    case_bool_decide; [by eapply Hout|]. cbn in Hl. apply lookup_insert_Some in Hl as [[_ <-]|[_ Hl]]; [exact Hm | by eapply Hout].
  - intros c env ok Hin. eapply stands_evolves; [exact Hev | by eapply Hsent].
Qed.

Lemma speaks_wire_send c env w0 : env_stands (w_db w0) env -> speaks (wire_send c env) (fun _ _ => True) w0.
Proof.
  intros He. apply speaks_atomic. intros w Hr [Hwf Hout Hsent]. split; [|done].
  assert (env_stands (w_db w) env) as He' by by eapply stands_evolves; [apply Hr|].
  split; [|unfold on_db; cbn; reflexivity]. split; [done..|].
  intros c' env' ok Hin. cbn in Hin. apply elem_of_app in Hin as [Hin|Hin%list_elem_of_singleton]; [by eapply Hsent|].
  by simplify_eq.
Qed.

Lemma speaks_SendReliable h env w0 :
  env_stands (w_db w0) env -> speaks (SendReliable h env) (fun _ _ => True) w0.
Proof.
  intros He. change (SendReliable h env) with (hub_SendReliable h env). unfold hub_SendReliable.
  destruct (negb _); [done|]. apply speaks_skip; [by apply guards_time_now; apply _|]. intros now w1 H1.
  assert (forall w2, w_step w1 w2 -> env_stands (w_db w2) env) as Hlater.
  { intros w2 H2. eapply stands_evolves; [|exact He]. by trans (w_db w1); [apply H1 | apply H2]. }
  apply rg_bind, rg_bind. eapply rg_mono; [|apply rg_within; [apply _|]; apply (speaks_exec _ (fun _ _ => True)); [done|]].
  - intros r w2 [H2 _]. apply rg_ret.
    assert (speaks (cn <- gets (fun w => w_conns w !! h) ;;
      match cn with None => Ret (Ok tt) | Some c => wire_send c env end) (fun _ _ => True) w2) as Hs.
    { apply speaks_skip; [by apply guards_gets; apply _|]. intros [c|] w3 H3; [|done].
      apply speaks_wire_send, Hlater. by etrans. }
    destruct (inserted r) as [?|[]]; [exact Hs | done | exact Hs | done].
  - intros w H2 Hi. split; [split|done]; [|apply step_insert_outbox].
    apply enqueue_keeps; [|done]. by apply Hlater.
Qed.

(** *** A click *)

#[local] Hint Extern 2 (guards both (audit _ _ _ _)) => apply guards_both; [apply guards_audit_step | apply t_audit] : guards.

(** What a successful decision leaves. *)
Definition decided (id dec by_ : string) (d : DB) : Prop :=
  exists a, t_approvals d !! id = Some a /\ ar_decision a = Some dec /\ ar_decided_by a = Some by_.

Lemma speaks_DecideApproval id dec by_ at_ w0 :
  speaks (DecideApproval id dec by_ at_) (fun r w => forall a, r = Ok a -> decided id dec by_ (w_db w)) w0.
Proof.
  apply rg_bind. apply speaks_exec; [done|]. intros w H1 Hi.
  assert (both w (set_db (update_decide id dec by_ at_ (w_db w)).2 w)) as Hb.
  { split; [apply step_update_decide|]. split; [by apply outbox_untouched | exists []; by rewrite app_nil_r]. }
  destruct (both_closed _ _ Hb Hi) as [Ha Hs]. split; [split; [exact Ha | apply Hs]|].
  cbn. unfold affected_key. destruct (t_approvals (w_db w) !! id) as [r|] eqn:Hr.
  2: { apply speaks_skip; [by apply r_ApprovalByID; apply _|]. intros [a|e] w2 _; by apply rg_ret. }
  destruct (decidable_at at_ r) eqn:Hd.
  2: { apply speaks_skip; [by apply r_ApprovalByID; apply _|]. intros [a|e] w2 _; by apply rg_ret. }
  cbn. eapply rg_mono; [|apply rg_within; [apply _ | apply speaks_both; by apply r_ApprovalByID; apply _]].
  intros x w2 [[_ Hev] _] a _. cbn in Hev. unfold update_key in Hev. rewrite Hr, Hd in Hev.
  destruct (ev_approvals _ _ Hev id (decide_row dec by_ at_ r)) as (a' & Ha' & _ & Hfin); [apply lookup_insert_eq|].
  destruct (Hfin ltac:(by eexists)) as (Hd' & Hby' & _). exists a'. by rewrite Hd', Hby'.
Qed.

Lemma speaks_announce req j a approvalID decision now w0 :
  decision = DecisionAllow \/ decision = DecisionDeny ->
  (decision = DecisionAllow -> allowed_by_owner (w_db w0) approvalID (jID j)) ->
  speaks (announce_decision req j a approvalID decision now) (fun _ _ => True) w0.
Proof.
  intros Hdec Hal. apply speaks_made. intros id ts w1 H1. apply rg_bind. eapply rg_mono; [|apply speaks_SendReliable].
  - intros _ w2 _. apply speaks_skip; [apply guards_both; [unfold resume_job; secure | apply t_resume_job]|].
    intros _ w3 _. apply speaks_skip; [auto with guards | done].
  - split; [|intros Ht; discriminate Ht]. intros _. eexists. split; [reflexivity|]. split; [exact Hdec|].
    intros E1. eapply allowed_evolves; [apply H1 | by apply Hal].
Qed.

Lemma speaks_HandleCallback req w0 : speaks (HandleCallback req) (fun _ _ => True) w0.
Proof.
  unfold HandleCallback. set (approvalID := context_text _ "approval_id"). set (decision := context_text _ "decision").
  destruct (_ || _) eqn:Hbad; [done|].
  assert (decision = DecisionAllow \/ decision = DecisionDeny) as Hdec by (boolprop; naive_solver).
  clear Hbad.
  apply rg_bind, rg_bind. apply speaks_query; [intros [] w; apply rg_ret, rg_ret; done|]. intros w1 H1 Hi1. apply rg_ret.
  unfold select_approval. destruct (t_approvals (w_db w1) !! approvalID) as [row|] eqn:Hrow; [|done].
  cbn [sql_row fmap option_fmap option_map scan].
  destruct (negb _).
  { apply speaks_skip; [auto with guards | done]. }
  apply rg_bind, rg_bind. apply speaks_query; [intros [] w; apply rg_ret, rg_ret; done|]. intros w2 H2 Hi2. apply rg_ret.
  unfold select_job, sql_row.
  destruct (t_jobs (w_db w2) !! aJobID (scanApproval row)) as [j|] eqn:Hj; [|done].
  cbn [scan].
  destruct (negb (String.eqb (cb_UserId req) (jMMUserID j))) eqn:Hown.
  { apply speaks_skip; [auto with guards | done]. }
  destruct (Terminal (jState j)); [done|]. apply speaks_skip; [by apply guards_time_now; apply _|]. intros now w3 H3.
  apply rg_bind. eapply rg_mono; [|apply rg_within; [apply _ | apply speaks_DecideApproval]].
  intros [a|[]] w4 [H4 Hd]; [|done..]. apply speaks_announce; [exact Hdec|]. intros Eal.
  destruct (Hd a eq_refl) as (row' & Hrow' & Hdr & Hby).
  assert (db_evolves (w_db w1) (w_db w4)) as Ev14.
  { trans (w_db w2); [apply H2|]. trans (w_db w3); [apply H3 | apply H4]. }
  destruct (ev_approvals _ _ Ev14 _ _ Hrow) as (row'' & Hrow'' & (_ & Hjob & _) & _). simplify_eq.
  assert (db_evolves (w_db w2) (w_db w4)) as Ev24 by (trans (w_db w3); [apply H3 | apply H4]).
  destruct (ev_jobs _ _ Ev24 _ _ Hj) as (j' & Hj' & (_ & _ & Hmm & _) & _).
  assert (jID j = aJobID (scanApproval row)) as HID by by apply (wf_job_id _ (auth_wf _ Hi2)) in Hj.
  boolprop. exists row', j'. rewrite HID. split; [done|]. split; [by rewrite Hjob|].
  split; [by rewrite Hdr, Eal|]. split; [done|]. by rewrite Hby, Hmm, Hown.
Qed.

(** *** A mention *)

#[local] Hint Extern 2 (guards both (fail _ _)) => apply guards_both; [apply guards_fail | apply t_fail] : guards.
#[local] Hint Extern 2 (guards both (handleCancel _ _)) => apply guards_both; [apply k_handleCancel | apply t_handleCancel] : guards.
#[local] Hint Extern 2 (guards both (handleDM _)) => apply guards_both; [apply k_handleDM | apply t_handleDM] : guards.
#[local] Hint Resolve g_threadHistory g_downloadAttachments g_target_harness g_continues_thread g_mentionedBot : guards.

(** The next operation gives no orders. *)
Ltac skip x w H := apply speaks_skip; [solve [secure] | intros x w H].
Ltac quietly := apply speaks_both; solve [secure].

Lemma speaks_CreateJob j w0 :
  speaks (CreateJob j) (fun r w => forall u, r = Ok u -> exists j', t_jobs (w_db w) !! jID j = Some j' /\ j' = job_row j) w0.
Proof.
  apply rg_bind. apply speaks_exec; [intros msg w u Hu; unfold inserted in Hu; by case_match|]. intros w H1 Hi.
  assert (both w (set_db (insert_job j (w_db w)).2 w)) as Hb.
  { split; [apply step_insert_job|]. split; [|exists []; by rewrite app_nil_r]. apply outbox_untouched.
    unfold insert_job; by repeat case_match. }
  destruct (both_closed _ _ Hb Hi) as [Ha Hs]. split; [split; [exact Ha | apply Hs]|].
  intros u Hu. cbn. unfold insert_job in *. repeat case_match; try discriminate Hu. cbn.
  eexists. split; [apply lookup_insert_eq | done].
Qed.

Lemma speaks_dispatch_job p job agentName user atts hist online w0 :
  speaks (dispatch_job p job agentName user atts hist online) (fun _ _ => True) w0.
Proof.
  apply rg_bind. eapply rg_mono; [|apply speaks_CreateJob]. intros [u|e] w1 Hj; [|done].
  destruct (Hj u eq_refl) as (j' & Hj' & ->). apply speaks_made. intros id ts w2 H2.
  apply rg_bind. eapply rg_mono; [|apply speaks_SendReliable].
  - intros [x|e] w3 _; quietly.
  - split; [intros Ht; discriminate Ht|]. intros _. eexists. split; [reflexivity|].
    eapply dispatched_evolves; [apply H2|]. exists (job_row job). done.
Qed.

Lemma speaks_createJob p text target w0 : speaks (createJob p text target) (fun _ _ => True) w0.
Proof.
  unfold createJob. skip h w1 H1. destruct h as [h|]; [|quietly]. skip active w2 H2.
  destruct (negb _); [quietly|]. destruct (splitWorkspace text) as [workspace prompt].
  destruct (splitAgent prompt) as [agentName prompt2]. destruct (String.eqb _ ""); [quietly|].
  skip poster w3 H3. skip user w4 H4. destruct user as [user|e]; [|done].
  skip atts w5 H5. skip hist w6 H6. skip online w7 H7. skip now w8 H8. skip post w9 H9.
  destruct post as [post|e]; [|done]. skip jobID w10 H10. apply speaks_dispatch_job.
Qed.

Lemma speaks_run_command p text target w0 : speaks (run_command p text target) (fun _ _ => True) w0.
Proof. unfold run_command. destruct (command_of text); [quietly | quietly | apply speaks_createJob]. Qed.

Lemma speaks_route b ev p w0 : speaks (route_bot_post b ev p) (fun _ _ => True) w0.
Proof.
  unfold route_bot_post. skip bot w1 H1. destruct bot as [bot|e]; [|done]. destruct newPoster; [|done].
  skip author w2 H2. destruct (is_ok author); [done|]. apply speaks_skip; [secure|]. intros go_on w3 H3.
  destruct (negb go_on); [done|]. destruct (negb _); [quietly|]. skip prior w4 H4.
  destruct prior as [[|j l]|e]; [apply speaks_run_command | done..].
Qed.

Lemma speaks_HandleBotPost b ev w0 : speaks (HandleBotPost b ev) (fun _ _ => True) w0.
Proof.
  unfold HandleBotPost. destruct (evPost ev) as [p|]; [|done]. destruct (ignored_bot_post b p); [done|].
  apply speaks_skip; [by apply guards_acquire; apply _|]. intros _ w1 H1.
  apply rg_bind. eapply rg_mono; [|apply speaks_route]. intros x w2 _.
  apply speaks_skip; [by apply guards_release; apply _ | done].
Qed.

Lemma speaks_HandlePost ev w0 : speaks (HandlePost ev) (fun _ _ => True) w0.
Proof.
  unfold HandlePost. destruct (evPost ev) as [p|]; [|done]. destruct (_ || _); [done|].
  destruct (String.eqb _ ChannelTypeDirect); [quietly|]. skip m w1 H1. destruct m as [target|]; [|done].
  destruct (_ && _); [quietly | apply speaks_run_command].
Qed.

(** *** A connection *)

Context (cfg : HubConfig).

Lemma speaks_flush_messages c l w0 :
  Forall (row_stands (w_db w0)) l -> speaks (flush_messages c l) (fun _ _ => True) w0.
Proof.
  revert w0. induction l as [|m l IH]; intros w0 Hl; cbn; [done|]. inv Hl. skip now w1 H1'.
  apply rg_bind. eapply rg_mono; [|apply rg_within; [apply _|]; apply speaks_wire_send].
  - intros [[]|e] w2 [H2' _]; [|done]. apply IH. eapply Forall_impl; [eassumption|]. intros x Hx.
    eapply stands_evolves; [|exact Hx]. by trans (w_db w1); [apply H1' | apply H2'].
  - eapply stands_evolves; [apply H1' | eassumption].
Qed.

Lemma speaks_flushOutbox h c w0 : speaks (flushOutbox h c) (fun _ _ => True) w0.
Proof.
  apply rg_bind, rg_bind. apply speaks_query; [intros [] w; apply rg_ret; done|]. intros w1 H1 Hi. apply rg_ret.
  cbn. apply speaks_flush_messages. apply Forall_forall. intros m Hm. unfold order_by_id in Hm.
  rewrite merge_sort_Permutation in Hm. unfold select in Hm. apply list_elem_of_In, filter_In in Hm as [Hm _].
  apply list_elem_of_In, list_elem_of_fmap in Hm as ([id m'] & -> & Hm). apply elem_of_map_to_list in Hm.
  by apply (auth_outbox _ Hi id m').
Qed.

Lemma b_handle harness c env : guards both (handle harness c env).
Proof. apply guards_both; [apply guards_handle | apply t_handle]. Qed.
Lemma b_read_loop harness c incoming : guards both (read_loop harness c incoming).
Proof. apply guards_both; [apply guards_read_loop | apply t_read_loop]. Qed.
Lemma b_OnHello h hello : guards both (OnHello h hello).
Proof. apply guards_both; [apply k_OnHello | apply t_OnHello]. Qed.
Lemma b_TouchHarness id t v : guards both (TouchHarness id t v).
Proof. apply guards_both; [apply g_TouchHarness | apply t_TouchHarness]. Qed.
Lemma b_welcome c id ts x : guards both (wire_send c (new_envelope id ts TypeWelcome "" (x : Welcome))).
Proof. apply guards_both; [by apply guards_wire_send; apply _ | apply tame_send; intros [Ht|Ht]; discriminate Ht]. Qed.
#[local] Hint Resolve b_handle b_read_loop b_OnHello b_TouchHarness b_welcome : guards.

Lemma speaks_serve_connected harness c hello incoming w0 :
  speaks (serve_connected cfg harness c hello incoming) (fun _ _ => True) w0.
Proof.
  unfold serve_connected. skip now w1 H1. skip u w2 H2. skip jobs w3 H3. skip now2 w4 H4. skip welcome w5 H5.
  skip ts w6 H6. skip r w7 H7. destruct r as [[]|e]; [|done].
  apply rg_bind. eapply rg_mono; [|apply speaks_flushOutbox]. intros [[]|e] w8 _; [quietly | done].
Qed.

Lemma b_register h c : guards both (modify (register_conn h c)).
Proof.
  apply guards_modify. intros w. unfold register_conn. destruct (w_conns w !! h).
  - split; [unfold on_db; cbn; reflexivity|]. split; [unfold on_db; cbn; reflexivity|].
    eexists. split; [done|]. by repeat constructor.
  - by split; [unfold on_db; cbn; reflexivity|]; split; [unfold on_db; cbn; reflexivity|]; exists []; rewrite app_nil_r.
Qed.

Lemma speaks_serve harness c incoming w0 : speaks (serve cfg harness c incoming) (fun _ _ => True) w0.
Proof.
  unfold serve. destruct incoming as [|env rest]; [quietly|]. destruct (negb _); [quietly|].
  destruct (Decode env) as [hello []]; [|quietly]. destruct (_ && _); [quietly|].
  apply speaks_skip; [apply b_register|]. intros _ w1 _. apply rg_bind. eapply rg_mono; [|apply speaks_serve_connected].
  intros _ w2 _. apply speaks_both, guards_both; [|apply t_disconnect].
  unfold disconnect. secure; [|apply guards_OnDisconnect].
  apply guards_atomic. intros w. unfold on_db. by rewrite unregister_conn_db.
Qed.

(** ** All of them *)

Lemma speaks_forget {A} (m : prog World A) w0 : speaks m (fun _ _ => True) w0 -> speaks (forget m) (fun _ _ => True) w0.
Proof. intros H. apply rg_bind. eapply rg_mono; [|exact H]. by intros a w _. Qed.

Lemma entry_speaks p w0 : broker_entry cfg p -> speaks p (fun _ _ => True) w0.
Proof.
  intros He. destruct He; try apply speaks_forget.
  - apply speaks_HandleBotPost.
  - apply speaks_HandlePost.
  - apply speaks_HandleCallback.
  - apply speaks_both, guards_both; [apply k_HandlePair | apply t_HandlePair].
  - apply speaks_both, guards_both; [apply k_StartInit | apply t_StartInit].
  - apply speaks_both, guards_both; [apply k_PollInit | apply t_PollInit].
  - apply speaks_both, guards_both; [apply k_HandleCommand | apply t_HandleCommand].
  - unfold ServeHTTP. apply speaks_skip; [unfold authenticate; secure; by apply guards_read; apply _|].
    intros [h|e] w1 _; [apply speaks_serve | done].
  - apply speaks_both, guards_both; [apply k_Sweep | apply t_Sweep].
  - apply speaks_both, guards_fire_timer, _.
  - apply speaks_both, guards_modify. intros w. split; [unfold on_db; cbn; reflexivity|].
    split; [unfold on_db; cbn; reflexivity|]. eexists. split; [done|]. apply Forall_forall.
    by intros ev ([k c] & -> & _)%list_elem_of_fmap.
Qed.
End Speaks.

Lemma reachable_authentic {E : Env} {C : Config} (cfg : HubConfig) w0 ps w :
  authentic w0 -> reach (broker_entry cfg) ([], w0) (ps, w) -> authentic w.
Proof.
  intros Ha Hr. apply (pool_rg authentic w_step (broker_entry cfg)) in Hr as [Hw _];
    [exact Hw|intros p w1; apply entry_speaks|done|constructor].
Qed.

