(* ===== verification/HarnessWorld.v ===== *)
(** * The harness's world: state, surroundings and atomic operations

    The daemon of [internal/harness] on a developer's machine.  Its goroutines
    are programs ([Resume]) over [HWorld]: the job table with the jobs and
    channels it points to (both on a heap, since goroutines keep pointers to
    jobs that left the table), the outbox and the sessions in memory and on
    disk, the connection to the broker, goroutines that were started and have
    not begun to run, and a trace of what leaves the process.

    [HEnv] is the outside: clock, ULIDs, the frames the broker sends, faults
    of disk and sockets, the agents, and the choice Go leaves open when
    several cases of a [select] are ready. *)

From S2P Require Import Prelude Resume GoText Json Protocol HarnessText.

Open Scope Z_scope.
Open Scope prog_scope.

(** ** Data *)

(** A file: a JSON document, the bytes of an attachment, or what a write that
    failed half way left. *)
Inductive FileBody : Type :=
| Doc (j : json)
| Bytes (data : list Z)
| Garbled.

(** [sessions.Entry] *)
Record Entry : Type := MkEntry {
  seSessionID : string;
  seWorkspace : string;
  seAgent : string;
  seUpdatedAt : Time
}.
Definition zero_entry : Entry := MkEntry "" "" "" zero_time.

(** [agent.Options], [agent.Event] and [agent.Result] *)
Record Options : Type := MkOptions {
  opDir : string;
  opPrompt : string;
  opResumeID : string;
  opMaxTurns : Z;
  opModel : string;
  opSystemPrompt : string;
  opPermissionMCPConfigPath : string;
  opPermissionTool : string;
  opAllowedTools : list string;
  opDisallowedTools : list string
}.

Record AgentEvent : Type := MkAgentEvent {
  aeSessionID : string;
  aeText : string;
  aeCurrentTool : string;
  aeTurns : Z
}.

Record Result : Type := MkResult {
  rsStatus : string;
  rsText : string;
  rsSessionID : string;
  rsTurns : Z;
  rsCostUSD : Q;
  rsDurationMS : Z;
  rsErrCode : string;
  rsErrMessage : string
}.

(** What happens while the agent runs: it shows a snapshot, the progress
    ticker ticks, it goes on only once its context has ended, or it
    never returns. *)
Inductive RunStep : Type :=
| Snapshot (e : AgentEvent)
| Tick
| AwaitContext
| Hang.
#[export] Instance RunStep_eq_dec : EqDecision RunStep.
Proof. intros x y. unfold Decision. decide equality. decide equality; (apply String.string_dec || apply Z.eq_dec). Defined.

(** [permission.Request] and [permission.Decision] *)
Record Request : Type := MkRequest {
  rqJobID : string;
  rqToolName : string;
  rqInput : Raw;
  rqToolUseID : string
}.

Record CallDecision : Type := MkCallDecision {
  cdBehavior : string;
  cdUpdatedInput : Raw;
  cdMessage : string
}.
Definition AllowCall (input : Raw) : CallDecision := MkCallDecision "allow" input "".
Definition DenyCall (msg : string) : CallDecision := MkCallDecision "deny" (MkRaw "" None) msg.

(** A channel of capacity one. *)
Record Chan : Type := MkChan { chBuf : option ApprovalResponse; chClosed : bool }.
Definition new_chan : Chan := MkChan None false.

(** [harness.job]; [hjDeadline] and [hjCancelled] are its context, the moment
    it ends by itself and whether [cancel] was called; [hjApprovals] maps
    approval ids to channels. *)
Record HJob : Type := MkHJob {
  hjId : string;
  hjRootPostID : string;
  hjBotUserID : string;
  hjWorkspace : string;
  hjDir : string;
  hjAgent : string;
  hjDeadline : option Time;
  hjCancelled : bool;
  hjSeq : Z;
  hjPhase : string;
  hjApprovals : gmap string nat
}.

Definition set_cancelled_job x j := MkHJob (hjId j) (hjRootPostID j) (hjBotUserID j) (hjWorkspace j) (hjDir j) (hjAgent j) (hjDeadline j) x (hjSeq j) (hjPhase j) (hjApprovals j).
Definition set_seq x j := MkHJob (hjId j) (hjRootPostID j) (hjBotUserID j) (hjWorkspace j) (hjDir j) (hjAgent j) (hjDeadline j) (hjCancelled j) x (hjPhase j) (hjApprovals j).
Definition set_job_phase x j := MkHJob (hjId j) (hjRootPostID j) (hjBotUserID j) (hjWorkspace j) (hjDir j) (hjAgent j) (hjDeadline j) (hjCancelled j) (hjSeq j) x (hjApprovals j).
Definition set_approvals_of x j := MkHJob (hjId j) (hjRootPostID j) (hjBotUserID j) (hjWorkspace j) (hjDir j) (hjAgent j) (hjDeadline j) (hjCancelled j) (hjSeq j) (hjPhase j) x.

(** The fields of [harness.Config] the daemon looks at. *)
Record HarnessConfig : Type := MkHarnessConfig {
  cfBrokerURL : string;
  cfOwnerMMUserID : string;
  cfWorkspaces : gmap string string;
  cfDefaultWorkspace : string;
  cfAgent : string;
  cfAllowedTools : list string;
  cfDisallowedTools : list string;
  cfMaxJobs : Z;
  cfDefaultMaxTurns : Z;
  cfApprovalTimeoutMin : Z;
  cfModel : string
}.

(** Started goroutines: a job's, and those of the client. *)
Inductive Goroutine : Type :=
| GoRun (j : nat) (d : JobDispatch)
| GoConnect (sleep : option (Time * Time)) (backoff : Duration)   (** asleep from, until *)
| GoHeartbeat (c : nat) (interval : Duration)
| GoRead (c : nat).

Inductive HMutex : Type := outboxMu | sessionsMu.
#[export] Instance HMutex_eq_dec : EqDecision HMutex.
Proof. solve_decision. Defined.

(** What can be seen of the daemon: frames, agents, answers to the CLI; and
    the moments a broker's message is accepted for a job or an approval. *)
Inductive HEvent : Type :=
| HvSend (c : nat) (env : Envelope) (ok : bool)
| HvRecv (c : nat) (env : Envelope)
| HvAccepted (jobID : string) (d : JobDispatch)
| HvAgent (jobID agent : string) (opt : Options)
| HvAsked (ch : nat) (approvalID : string) (req : Request)
| HvDelivered (jobID : string) (ch : nat) (r : ApprovalResponse)
| HvAnswer (req : Request) (dec : CallDecision)
| HvPanic (what : string).

(** ** The outside *)

Class HEnv : Type := {
  hclock : nat -> Time;
  hulid : nat -> string;
  pick_case : nat -> nat;
  dial : nat -> res unit;                              (** [websocket.Dial] *)
  frame_write : nat -> nat -> Envelope -> res unit;
  frame_read : nat -> nat -> option (res Envelope);    (** [None]: nothing arrived yet *)
  CloseStatus : error -> Z;
  jitter_below : nat -> Z -> Z;                        (** [rand.Int64N] *)
  mkdir_fault : nat -> option string;
  write_fault : nat -> option (string * bool);         (** with what is left torn *)
  rename_fault : nat -> option string;
  agent_approvals : string -> bool;                    (** [Agent.Approvals] *)
  agent_run : nat -> string -> Options -> list RunStep * res Result;   (** [Agent.Run], from the moment it is called *)
  decode_error : Envelope -> string;
  read_request : nat -> option Request;                (** one request on the permission socket *)
  hostname : nat -> string;
  state_dir : string;
  self_path : string;                                  (** [os.Executable] *)
  temp_dir : string;
  pid : Z;
  agent_check : string -> option string;               (** [Agent.Check] *)
  next_tick : nat -> Duration -> Time;                 (** a ticker's next tick *)
  harness_version : string
}.

(** ** The state *)

Record HWorld : Type := MkHWorld {
  hw_jobs : gmap string nat;              (** [Harness.jobs] *)
  hw_objs : list HJob;                    (** every job made so far *)
  hw_chans : list Chan;                   (** every channel made so far *)
  hw_outbox : gmap string Envelope;       (** [Outbox.m] *)
  hw_sessions : gmap string Entry;        (** [sessions.Map.m] *)
  hw_files : gmap string FileBody;        (** state files by path *)
  hw_locks : list HMutex;
  hw_conn : option nat;                   (** [Client.conn], set when [connected] *)
  hw_dialled : nat;                       (** connections made so far *)
  hw_stopped : list nat;                  (** connections whose session context ended *)
  hw_failed : list (nat * error);         (** [errCh] of each connection *)
  hw_pongs : list nat;                    (** connections with a value in [pongCh] *)
  hw_go : list Goroutine;
  hw_trace : list HEvent;
  hw_tick : nat;
  hw_dead : bool                          (** a goroutine panicked *)
}.

Definition set_hjobs x w := MkHWorld x (hw_objs w) (hw_chans w) (hw_outbox w) (hw_sessions w) (hw_files w) (hw_locks w) (hw_conn w) (hw_dialled w) (hw_stopped w) (hw_failed w) (hw_pongs w) (hw_go w) (hw_trace w) (hw_tick w) (hw_dead w).
Definition set_objs x w := MkHWorld (hw_jobs w) x (hw_chans w) (hw_outbox w) (hw_sessions w) (hw_files w) (hw_locks w) (hw_conn w) (hw_dialled w) (hw_stopped w) (hw_failed w) (hw_pongs w) (hw_go w) (hw_trace w) (hw_tick w) (hw_dead w).
Definition set_chans x w := MkHWorld (hw_jobs w) (hw_objs w) x (hw_outbox w) (hw_sessions w) (hw_files w) (hw_locks w) (hw_conn w) (hw_dialled w) (hw_stopped w) (hw_failed w) (hw_pongs w) (hw_go w) (hw_trace w) (hw_tick w) (hw_dead w).
Definition set_houtbox x w := MkHWorld (hw_jobs w) (hw_objs w) (hw_chans w) x (hw_sessions w) (hw_files w) (hw_locks w) (hw_conn w) (hw_dialled w) (hw_stopped w) (hw_failed w) (hw_pongs w) (hw_go w) (hw_trace w) (hw_tick w) (hw_dead w).
Definition set_sessions x w := MkHWorld (hw_jobs w) (hw_objs w) (hw_chans w) (hw_outbox w) x (hw_files w) (hw_locks w) (hw_conn w) (hw_dialled w) (hw_stopped w) (hw_failed w) (hw_pongs w) (hw_go w) (hw_trace w) (hw_tick w) (hw_dead w).
Definition set_files x w := MkHWorld (hw_jobs w) (hw_objs w) (hw_chans w) (hw_outbox w) (hw_sessions w) x (hw_locks w) (hw_conn w) (hw_dialled w) (hw_stopped w) (hw_failed w) (hw_pongs w) (hw_go w) (hw_trace w) (hw_tick w) (hw_dead w).
Definition set_hlocks x w := MkHWorld (hw_jobs w) (hw_objs w) (hw_chans w) (hw_outbox w) (hw_sessions w) (hw_files w) x (hw_conn w) (hw_dialled w) (hw_stopped w) (hw_failed w) (hw_pongs w) (hw_go w) (hw_trace w) (hw_tick w) (hw_dead w).
Definition set_conn x w := MkHWorld (hw_jobs w) (hw_objs w) (hw_chans w) (hw_outbox w) (hw_sessions w) (hw_files w) (hw_locks w) x (hw_dialled w) (hw_stopped w) (hw_failed w) (hw_pongs w) (hw_go w) (hw_trace w) (hw_tick w) (hw_dead w).
Definition set_dialled x w := MkHWorld (hw_jobs w) (hw_objs w) (hw_chans w) (hw_outbox w) (hw_sessions w) (hw_files w) (hw_locks w) (hw_conn w) x (hw_stopped w) (hw_failed w) (hw_pongs w) (hw_go w) (hw_trace w) (hw_tick w) (hw_dead w).
Definition set_stopped x w := MkHWorld (hw_jobs w) (hw_objs w) (hw_chans w) (hw_outbox w) (hw_sessions w) (hw_files w) (hw_locks w) (hw_conn w) (hw_dialled w) x (hw_failed w) (hw_pongs w) (hw_go w) (hw_trace w) (hw_tick w) (hw_dead w).
Definition set_failed x w := MkHWorld (hw_jobs w) (hw_objs w) (hw_chans w) (hw_outbox w) (hw_sessions w) (hw_files w) (hw_locks w) (hw_conn w) (hw_dialled w) (hw_stopped w) x (hw_pongs w) (hw_go w) (hw_trace w) (hw_tick w) (hw_dead w).
Definition set_pongs x w := MkHWorld (hw_jobs w) (hw_objs w) (hw_chans w) (hw_outbox w) (hw_sessions w) (hw_files w) (hw_locks w) (hw_conn w) (hw_dialled w) (hw_stopped w) (hw_failed w) x (hw_go w) (hw_trace w) (hw_tick w) (hw_dead w).
Definition set_go x w := MkHWorld (hw_jobs w) (hw_objs w) (hw_chans w) (hw_outbox w) (hw_sessions w) (hw_files w) (hw_locks w) (hw_conn w) (hw_dialled w) (hw_stopped w) (hw_failed w) (hw_pongs w) x (hw_trace w) (hw_tick w) (hw_dead w).
Definition set_htrace x w := MkHWorld (hw_jobs w) (hw_objs w) (hw_chans w) (hw_outbox w) (hw_sessions w) (hw_files w) (hw_locks w) (hw_conn w) (hw_dialled w) (hw_stopped w) (hw_failed w) (hw_pongs w) (hw_go w) x (hw_tick w) (hw_dead w).
Definition set_htick x w := MkHWorld (hw_jobs w) (hw_objs w) (hw_chans w) (hw_outbox w) (hw_sessions w) (hw_files w) (hw_locks w) (hw_conn w) (hw_dialled w) (hw_stopped w) (hw_failed w) (hw_pongs w) (hw_go w) (hw_trace w) x (hw_dead w).
Definition set_dead x w := MkHWorld (hw_jobs w) (hw_objs w) (hw_chans w) (hw_outbox w) (hw_sessions w) (hw_files w) (hw_locks w) (hw_conn w) (hw_dialled w) (hw_stopped w) (hw_failed w) (hw_pongs w) (hw_go w) (hw_trace w) (hw_tick w) x.

(** The daemon as [New] leaves it, with what it read from its state files. *)
Definition started_world (files : gmap string FileBody) (outbox : gmap string Envelope)
    (sessions : gmap string Entry) : HWorld :=
  MkHWorld ∅ [] [] outbox sessions files [] None 0 [] [] [] [] [] 0 false.

Definition htick (w : HWorld) : HWorld := set_htick (S (hw_tick w)) w.
Definition hrecord (evs : list HEvent) (w : HWorld) : HWorld := set_htrace (hw_trace w ++ evs) w.

(** ** Operations *)

Section Operations.
Context {E : HEnv}.

(** Nothing runs in a process that panicked. *)
Definition live {X} (f : HWorld -> option (X * HWorld)) : prog HWorld X :=
  Step (fun w => if hw_dead w then None else f w) Ret.

Definition act {X} (f : HWorld -> X * HWorld) : prog HWorld X := live (fun w => Some (f w)).
Definition look {X} (f : HWorld -> X) : prog HWorld X := act (fun w => (f w, w)).
Definition change (f : HWorld -> HWorld) : prog HWorld unit := act (fun w => (tt, f w)).
Definition consult {X} (f : nat -> X) : prog HWorld X := act (fun w => (f (hw_tick w), htick w)).

Definition now : prog HWorld Time := consult hclock.
Definition fresh_ulid : prog HWorld string := consult hulid.

Definition panic (what : string) (w : HWorld) : HWorld := set_dead true (hrecord [HvPanic what] w).

(** A [select] without a default: one of the cases that are ready, any. *)
Definition choose {X} (cases : list (HWorld -> option (X * HWorld))) : prog HWorld X :=
  live (fun w =>
    let ready := omap (fun c => c w) cases in
    match ready !! (pick_case (hw_tick w) mod length ready)%nat with
    | Some (x, w') => Some (x, htick w')
    | None => None
    end).

(** [<-time.After(_)], as a case. *)
Definition at_time {X} (due : Time) (x : X) (w : HWorld) : option (X * HWorld) :=
  if due <=? hclock (hw_tick w) then Some (x, w) else None.

Definition go (g : Goroutine) (w : HWorld) : HWorld := set_go (hw_go w ++ [g]) w.

(** *** Mutexes held over several operations *)

Definition held (m : HMutex) (w : HWorld) : bool := bool_decide (m ∈ hw_locks w).
Definition lock (m : HMutex) (w : HWorld) : HWorld := set_hlocks (m :: hw_locks w) w.
Definition unlock (m : HMutex) (w : HWorld) : HWorld :=
  set_hlocks (List.filter (fun x => negb (bool_decide (x = m))) (hw_locks w)) w.

(** [mu.Lock(); defer mu.Unlock()]: a first section, then the rest. *)
Definition locking {X Y} (m : HMutex) (first : HWorld -> X * HWorld) (body : X -> prog HWorld Y) : prog HWorld Y :=
  x <- live (fun w => if held m w then None else Some (first (lock m w))) ;;
  y <- body x ;; change (unlock m) ;; Ret y.

(** A section under [m] that calls nothing. *)
Definition under {X} (m : HMutex) (f : HWorld -> X * HWorld) : prog HWorld X :=
  live (fun w => if held m w then None else Some (f w)).

(** *** Files ([os]) *)

Definition os_MkdirAll : prog HWorld (res unit) :=
  consult (fun t => match mkdir_fault t with Some msg => Err (ErrOther msg) | None => Ok tt end).

(** A write that fails may leave a torn file. *)
Definition os_WriteFile (path : string) (body : FileBody) : prog HWorld (res unit) :=
  act (fun w =>
    match write_fault (hw_tick w) with
    | Some (msg, torn) =>
        (Err (ErrOther msg), htick (if torn : bool then set_files (<[path := Garbled]> (hw_files w)) w else w))
    | None => (Ok tt, htick (set_files (<[path := body]> (hw_files w)) w))
    end).

Definition os_Rename (from to : string) : prog HWorld (res unit) :=
  act (fun w =>
    match rename_fault (hw_tick w), hw_files w !! from with
    | Some msg, _ => (Err (ErrOther msg), htick w)
    | None, None => (Err (ErrOther "no such file or directory"), htick w)
    | None, Some body => (Ok tt, htick (set_files (<[to := body]> (delete from (hw_files w))) w))
    end).

Definition os_Remove (path : string) : prog HWorld unit :=
  change (fun w => set_files (delete path (hw_files w)) w).
(** [os.RemoveAll] of a directory of files. *)
Definition os_RemoveAll (dir : string) : prog HWorld unit :=
  change (fun w => set_files (filter (fun kv => HasPrefix kv.1 (dir +:+ "/") = false) (hw_files w)) w).

(** [flush] of the outbox and of the sessions: written aside, then renamed. *)
Definition flush_file (path : string) (doc : HWorld -> res json) : prog HWorld (res unit) :=
  r <- os_MkdirAll ;;
  match r with
  | Err e => Ret (Err e)
  | Ok _ =>
      doc <- look doc ;;
      match doc with
      | Err e => Ret (Err e)
      | Ok j =>
          r <- os_WriteFile (path +:+ ".tmp") (Doc j) ;;
          match r with
          | Err e => Ret (Err e)
          | Ok _ => os_Rename (path +:+ ".tmp") path
          end
      end
  end.

(** *** Frames ([wire.Conn]) *)

Definition frame_send (c : nat) (env : Envelope) : prog HWorld (res unit) :=
  act (fun w =>
    let r := frame_write (hw_tick w) c env in
    (r, htick (hrecord [HvSend c env (is_ok r)] w))).

Definition ErrStopped : error := ErrOther "context canceled".

(** [Recv(ctx)] with the session's context: waits for a frame; a binary
    frame, one that is not an envelope or one without id or type is an error
    of [frame_read]. *)
Definition recv_envelope (env : Envelope) : res Envelope :=
  if String.eqb (en_ID env) "" || String.eqb (en_Type env) ""
  then Err (ErrOther "wire: envelope without id or type") else Ok env.

Definition Recv (c : nat) : prog HWorld (res Envelope) :=
  live (fun w =>
    if bool_decide (c ∈ hw_stopped w) then Some (Err ErrStopped, htick w)
    else match frame_read (hw_tick w) c with
         | None => None
         | Some (Err e) => Some (Err e, htick w)
         | Some (Ok env) => Some (recv_envelope env, htick (hrecord [HvRecv c env] w))
         end).
End Operations.

(** Envelopes, built from a fresh identifier and the clock. *)
Section Envelopes.
Context {E : HEnv}.

Definition make_envelope {T} `{!Wire T} (typ jobID : string) (payload : T) : prog HWorld Envelope :=
  id <- fresh_ulid ;; t <- now ;; Ret (new_envelope (NewID "msg" id) t typ jobID payload).

Definition make_reply {T} `{!Wire T} (typ : string) (to : Envelope) (payload : T) : prog HWorld Envelope :=
  id <- fresh_ulid ;; t <- now ;; Ret (reply_envelope (NewID "msg" id) t typ to payload).
End Envelopes.

(** *** Rules *)

Section Rules.
Context {E : HEnv}.

Lemma wp_live {X} (f : HWorld -> option (X * HWorld)) (Q : X -> HWorld -> Prop) w x w' :
  hw_dead w = false -> f w = Some (x, w') -> Q x w' -> wp (live f) Q w.
Proof. intros Hd Hf HQ. unfold wp, live. simpl. by rewrite Hd, Hf. Qed.

Lemma wp_act {X} (f : HWorld -> X * HWorld) (Q : X -> HWorld -> Prop) w :
  hw_dead w = false -> Q (f w).1 (f w).2 -> wp (act f) Q w.
Proof. intros Hd HQ. apply (wp_live _ _ w (f w).1 (f w).2); [done | by destruct (f w) | done]. Qed.

Lemma wp_look {X} (f : HWorld -> X) (Q : X -> HWorld -> Prop) w :
  hw_dead w = false -> Q (f w) w -> wp (look f) Q w.
Proof. intros Hd HQ. by apply wp_act. Qed.

Lemma wp_change (f : HWorld -> HWorld) (Q : unit -> HWorld -> Prop) w :
  hw_dead w = false -> Q tt (f w) -> wp (change f) Q w.
Proof. intros Hd HQ. by apply wp_act. Qed.

Lemma wp_consult {X} (f : nat -> X) (Q : X -> HWorld -> Prop) w :
  hw_dead w = false -> Q (f (hw_tick w)) (htick w) -> wp (consult f) Q w.
Proof. intros Hd HQ. by apply wp_act. Qed.

Lemma wp_locking {X Y} m (first : HWorld -> X * HWorld) (body : X -> prog HWorld Y) (Q : Y -> HWorld -> Prop) w :
  hw_dead w = false -> held m w = false ->
  wp (body (first (lock m w)).1) (fun x w' => hw_dead w' = false /\ Q x (unlock m w')) (first (lock m w)).2 ->
  wp (locking m first body) Q w.
Proof.
  intros Hd Hm Hb. unfold locking. apply wp_bind.
  apply (wp_live _ _ w (first (lock m w)).1 (first (lock m w)).2); [done | rewrite Hm; by destruct (first _) |].
  apply wp_bind. eapply wp_mono; [|exact Hb]. intros x w' [Hd' HQ].
  apply wp_bind. by apply wp_change.
Qed.

Lemma wp_under {X} m (f : HWorld -> X * HWorld) (Q : X -> HWorld -> Prop) w :
  hw_dead w = false -> held m w = false -> Q (f w).1 (f w).2 -> wp (under m f) Q w.
Proof. intros Hd Hm HQ. apply (wp_live _ _ w (f w).1 (f w).2); [done | rewrite Hm; by destruct (f w) | done]. Qed.

Lemma wp_make_envelope {T} `{!Wire T} typ jobID (payload : T) (Q : Envelope -> HWorld -> Prop) w :
  hw_dead w = false ->
  Q (new_envelope (NewID "msg" (hulid (hw_tick w))) (hclock (S (hw_tick w))) typ jobID payload)
    (htick (htick w)) ->
  wp (make_envelope typ jobID payload) Q w.
Proof. intros Hd HQ. apply wp_bind, wp_consult; [done|]. apply wp_bind, wp_consult; [done|]. exact HQ. Qed.

Lemma wp_make_reply {T} `{!Wire T} typ to (payload : T) (Q : Envelope -> HWorld -> Prop) w :
  hw_dead w = false ->
  Q (reply_envelope (NewID "msg" (hulid (hw_tick w))) (hclock (S (hw_tick w))) typ to payload)
    (htick (htick w)) ->
  wp (make_reply typ to payload) Q w.
Proof. intros Hd HQ. apply wp_bind, wp_consult; [done|]. apply wp_bind, wp_consult; [done|]. exact HQ. Qed.

Lemma wp_frame_send c env (Q : res unit -> HWorld -> Prop) w :
  hw_dead w = false ->
  Q (frame_write (hw_tick w) c env)
    (htick (hrecord [HvSend c env (is_ok (frame_write (hw_tick w) c env))] w)) ->
  wp (frame_send c env) Q w.
Proof. intros Hd HQ. by apply wp_act. Qed.
End Rules.

#[global] Arguments live : simpl never.
#[global] Arguments act : simpl never.
#[global] Arguments look : simpl never.
#[global] Arguments change : simpl never.
#[global] Arguments consult : simpl never.
#[global] Arguments choose : simpl never.
#[global] Arguments under : simpl never.
#[global] Arguments locking : simpl never.
