(* ===== verification/AgentCli.v ===== *)
(** * The coding agents: [internal/harness/agent/claude], [codex]

    Each runs a CLI per job: the arguments it is started with, the stream of
    JSON lines it prints, turned into progress events and a result, and the
    signals that stop it.  The process is outside; what it prints, how it ends
    and what [ctx.Err] says then is a [Process].  What the two packages have in
    common, word for word, is here once. *)

From S2P Require Import Prelude GoText Json Protocol HarnessText HarnessWorld.

Open Scope Z_scope.

(** ** Standard error *)

(** [limitedWriter.Write]: what is left of the limit, the bytes it says it has
    written, the bytes that reach the buffer. *)
Definition lw_write (n : Z) (p : list Z) : Z * nat * list Z :=
  if n <=? 0 then (n, length p, [])
  else
    let kept := if n <? Z.of_nat (length p) then take (Z.to_nat n) p else p in
    (n - Z.of_nat (length kept), length kept, kept).

Definition ErrShortWrite : string := "short write".

(** [io.Copy] from the pipe, read by read: a write that took less than it was
    given ends it, and the pipe is closed. *)
Fixpoint io_Copy (n : Z) (reads : list (list Z)) : list Z * option string :=
  match reads with
  | [] => ([], None)
  | p :: rest =>
      let '(n', written, kept) := lw_write n p in
      if negb (written =? length p)%nat then (kept, Some ErrShortWrite)
      else let '(buf, e) := io_Copy n' rest in (kept ++ buf, e)
  end.

Definition stderr_limit : Z := 64 * 1024.

(** ** The process *)

Record Process : Type := MkProcess {
  prPipe : option string;        (** [StdoutPipe] fails *)
  prStart : option string;       (** [Start] fails *)
  prLines : list InputLine;      (** lines of standard output *)
  prReads : list (list Z);       (** reads of standard error *)
  prExit : option string;        (** [None]: status 0 *)
  prCtxErr : option string;      (** [ctx.Err()] when it has ended *)
  prMillis : Z                   (** how long it ran *)
}.

(** [cmd.Wait]: the exit status, or else what became of the copying. *)
Definition wait_err (p : Process) : option string :=
  match prExit p with Some e => Some e | None => (io_Copy stderr_limit (prReads p)).2 end.
Definition stderr_text (p : Process) : string := str_of (io_Copy stderr_limit (prReads p)).1.

Definition or_text (s : string) (alternatives : list (option string)) : string :=
  foldl (fun s o => if String.eqb s "" then default "" o else s) s alternatives.

Definition snapshot (texts : list string) : string := TrimSpace (Join texts (nl +:+ nl)).
Definition blank (s : string) : bool := String.eqb (TrimSpace s) "".

(** A line of output is decoded into a zero value; one that does not fit is
    skipped. *)
Definition decode_line {L} (zero : L) (fs : fields L) (doc : option json) : option L :=
  j ← doc;
  match dec_struct fs zero j with (l, true) => Some l | (_, false) => None end.

(** The buffer of the scanner of standard output, 32 MiB. *)
Definition stdout_limit : Z := 32 * 1024 * 1024.

(** [parse]: line by line, the state and the events so far. *)
Definition parse {S L} (zero : L) (fs : fields L) (step : S -> L -> S * list AgentEvent) (init : S)
    (lines : list InputLine) : S * list AgentEvent :=
  foldl (fun acc doc =>
    match decode_line zero fs doc with
    | None => acc
    | Some l => let '(s, evs) := step acc.1 l in (s, acc.2 ++ evs)
    end) (init, []) (scan_lines stdout_limit lines).

Definition opt_arg (flag value : string) : list string := if String.eqb value "" then [] else [flag; value].

(** ** Claude *)

Module Claude.

Definition Name : string := "claude".
Definition Approvals : bool := true.
Definition New (bin : string) : string := if String.eqb bin "" then "claude" else bin.

(** In the order of [Run]: what every run has, the turns and the session; the
    bridge to the owner; the tools; the instructions. *)
Definition base_args (opt : Options) : list string :=
  ["-p"; opPrompt opt; "--output-format"; "stream-json"; "--verbose"; "--permission-mode"; "default";
   "--permission-prompts"; "host"]
  ++ (if 0 <? opMaxTurns opt then ["--max-turns"; Itoa (opMaxTurns opt)] else [])
  ++ opt_arg "--resume" (opResumeID opt).
Definition bridge_args (opt : Options) : list string :=
  (if String.eqb (opPermissionMCPConfigPath opt) "" then []
   else ["--mcp-config"; opPermissionMCPConfigPath opt; "--strict-mcp-config"])
  ++ opt_arg "--permission-prompt-tool" (opPermissionTool opt).
Definition tool_args (opt : Options) : list string :=
  (if is_empty_list (opAllowedTools opt) then [] else ["--allowedTools"; Join (opAllowedTools opt) ","])
  ++ (if is_empty_list (opDisallowedTools opt) then [] else ["--disallowedTools"; Join (opDisallowedTools opt) ","]).
Definition args (opt : Options) : list string :=
  base_args opt ++ bridge_args opt ++ tool_args opt
  ++ opt_arg "--append-system-prompt" (opSystemPrompt opt) ++ opt_arg "--model" (opModel opt).

Definition environment : list string := ["CLAUDE_CODE_HARNESS_JOB=1"].

Record Content : Type := MkContent { cnType : string; cnText : string; cnName : string; cnInput : option json }.
Definition Content_fields : fields Content := [
  ("type", field cnType (fun v x => MkContent v (cnText x) (cnName x) (cnInput x)) dec_string);
  ("text", field cnText (fun v x => MkContent (cnType x) v (cnName x) (cnInput x)) dec_string);
  ("name", field cnName (fun v x => MkContent (cnType x) (cnText x) v (cnInput x)) dec_string);
  ("input", field cnInput (fun v x => MkContent (cnType x) (cnText x) (cnName x) v) dec_raw)
].
Definition Message_fields : fields (list Content) := [
  ("content", field (fun x => x) (fun v _ => v) (dec_list (MkContent "" "" "" None) (dec_struct Content_fields)))
].

Record line : Type := MkLine {
  lnType : string;
  lnSubtype : string;
  lnSession : string;
  lnContent : list Content;
  lnIsError : bool;
  lnResult : string;
  lnNumTurns : Z;
  lnCostUSD : Q;
  lnDurationMS : Z
}.
Definition zero_line : line := MkLine "" "" "" [] false "" 0 0%Q 0.
Definition line_fields : fields line := [
  ("type", field lnType (fun v x => MkLine v (lnSubtype x) (lnSession x) (lnContent x) (lnIsError x) (lnResult x) (lnNumTurns x) (lnCostUSD x) (lnDurationMS x)) dec_string);
  ("subtype", field lnSubtype (fun v x => MkLine (lnType x) v (lnSession x) (lnContent x) (lnIsError x) (lnResult x) (lnNumTurns x) (lnCostUSD x) (lnDurationMS x)) dec_string);
  ("session_id", field lnSession (fun v x => MkLine (lnType x) (lnSubtype x) v (lnContent x) (lnIsError x) (lnResult x) (lnNumTurns x) (lnCostUSD x) (lnDurationMS x)) dec_string);
  ("message", field lnContent (fun v x => MkLine (lnType x) (lnSubtype x) (lnSession x) v (lnIsError x) (lnResult x) (lnNumTurns x) (lnCostUSD x) (lnDurationMS x)) (dec_struct Message_fields));
  ("is_error", field lnIsError (fun v x => MkLine (lnType x) (lnSubtype x) (lnSession x) (lnContent x) v (lnResult x) (lnNumTurns x) (lnCostUSD x) (lnDurationMS x)) dec_bool);
  ("result", field lnResult (fun v x => MkLine (lnType x) (lnSubtype x) (lnSession x) (lnContent x) (lnIsError x) v (lnNumTurns x) (lnCostUSD x) (lnDurationMS x)) dec_string);
  ("num_turns", field lnNumTurns (fun v x => MkLine (lnType x) (lnSubtype x) (lnSession x) (lnContent x) (lnIsError x) (lnResult x) v (lnCostUSD x) (lnDurationMS x)) dec_int);
  ("total_cost_usd", field lnCostUSD (fun v x => MkLine (lnType x) (lnSubtype x) (lnSession x) (lnContent x) (lnIsError x) (lnResult x) (lnNumTurns x) v (lnDurationMS x)) dec_float);
  ("duration_ms", field lnDurationMS (fun v x => MkLine (lnType x) (lnSubtype x) (lnSession x) (lnContent x) (lnIsError x) (lnResult x) (lnNumTurns x) (lnCostUSD x) v) dec_int)
].

Record streamState : Type := MkStream {
  ssSessionID : string;
  ssTexts : list string;
  ssTool : string;
  ssTurns : Z;
  ssSawResult : bool;
  ssIsError : bool;
  ssSubtype : string;
  ssResultText : string;
  ssCost : Q;
  ssDurationMS : Z
}.
Definition zero_stream : streamState := MkStream "" [] "" 0 false false "" "" 0%Q 0.

Definition emit (s : streamState) : AgentEvent :=
  MkAgentEvent (ssSessionID s) (snapshot (ssTexts s)) (ssTool s) (ssTurns s).

Definition set_session (v : string) (s : streamState) : streamState :=
  MkStream v (ssTexts s) (ssTool s) (ssTurns s) (ssSawResult s) (ssIsError s) (ssSubtype s) (ssResultText s) (ssCost s) (ssDurationMS s).
Definition set_output (texts : list string) (tool : string) (turns : Z) (s : streamState) : streamState :=
  MkStream (ssSessionID s) texts tool turns (ssSawResult s) (ssIsError s) (ssSubtype s) (ssResultText s) (ssCost s) (ssDurationMS s).

Definition content_step (s : streamState) (c : Content) : streamState :=
  if String.eqb (cnType c) "text" then
    if blank (cnText c) then s else set_output (ssTexts s ++ [cnText c]) (ssTool s) (ssTurns s) s
  else if String.eqb (cnType c) "tool_use" then set_output (ssTexts s) (cnName c) (wrap64 (ssTurns s + 1)) s
  else s.

Definition step (s : streamState) (l : line) : streamState * list AgentEvent :=
  let s := if String.eqb (lnSession l) "" then s else set_session (lnSession l) s in
  if String.eqb (lnType l) "system" then (s, if String.eqb (lnSubtype l) "init" then [emit s] else [])
  else if String.eqb (lnType l) "assistant" then
    let s := foldl content_step (set_output (ssTexts s) "" (ssTurns s) s) (lnContent l) in (s, [emit s])
  else if String.eqb (lnType l) "result" then
    (MkStream (ssSessionID s) (ssTexts s) (ssTool s) (if 0 <? lnNumTurns l then lnNumTurns l else ssTurns s)
       true (lnIsError l) (lnSubtype l) (lnResult l) (lnCostUSD l) (lnDurationMS l), [])
  else (s, []).

Definition stream (lines : list InputLine) : streamState * list AgentEvent :=
  parse zero_line line_fields step zero_stream lines.

Definition finalText (s : streamState) : string :=
  if ssSawResult s && negb (String.eqb (ssResultText s) "") && negb (ssIsError s) then ssResultText s
  else snapshot (ssTexts s).

(** The outcome, by who has the last word: the job's context, the CLI's own
    result, or its exit. *)
Definition outcome (s : streamState) (p : Process) : Result :=
  let res status code msg :=
    MkResult status (finalText s) (ssSessionID s) (ssTurns s) (ssCost s) (ssDurationMS s) code msg in
  match prCtxErr p with
  | Some e => res StatusCancelled "cancelled" e
  | None =>
      if ssSawResult s then
        if ssIsError s then res StatusFailed (ssSubtype s) (ssResultText s) else res StatusSucceeded "" ""
      else res StatusFailed "claude_exit"
             (or_text (TrimSpace (stderr_text p)) [wait_err p; Some "claude exited without a result message"])
  end.

Definition Run (bin : string) (p : Process) : list AgentEvent * res Result :=
  match prPipe p with
  | Some e => ([], Err (ErrOther e))
  | None =>
      match prStart p with
      | Some e => ([], Err (ErrOther ("claude: start " +:+ bin +:+ ": " +:+ e)))
      | None => let '(s, evs) := stream (prLines p) in (evs, Ok (outcome s p))
      end
  end.
End Claude.

(** ** Codex *)

Module Codex.

Definition Name : string := "codex".
Definition Approvals : bool := false.
Definition SandboxReadOnly : string := "read-only".
Definition SandboxWorkspaceWrite : string := "workspace-write".

(** The binary and the sandbox. *)
Definition New (bin sandbox : string) : string * string :=
  (if String.eqb bin "" then "codex" else bin, if String.eqb sandbox "" then SandboxWorkspaceWrite else sandbox).

Definition prompt (opt : Options) : string :=
  if String.eqb (opSystemPrompt opt) "" then opPrompt opt
  else opSystemPrompt opt +:+ nl +:+ nl +:+ opPrompt opt.
Definition args (sandbox : string) (opt : Options) : list string :=
  ["exec"]
  ++ (if String.eqb (opResumeID opt) "" then [] else ["resume"; opResumeID opt])
  ++ ["--json"; "--skip-git-repo-check"; "--color"; "never"; "-C"; opDir opt; "-s"; sandbox]
  ++ opt_arg "-m" (opModel opt)
  ++ [prompt opt].

Definition environment : list string := ["MHB_JOB=1"].

Record Item : Type := MkItem {
  itType : string; itText : string; itCommand : string; itMessage : string; itStatus : string
}.
Definition Item_fields : fields Item := [
  ("type", field itType (fun v x => MkItem v (itText x) (itCommand x) (itMessage x) (itStatus x)) dec_string);
  ("text", field itText (fun v x => MkItem (itType x) v (itCommand x) (itMessage x) (itStatus x)) dec_string);
  ("command", field itCommand (fun v x => MkItem (itType x) (itText x) v (itMessage x) (itStatus x)) dec_string);
  ("message", field itMessage (fun v x => MkItem (itType x) (itText x) (itCommand x) v (itStatus x)) dec_string);
  ("status", field itStatus (fun v x => MkItem (itType x) (itText x) (itCommand x) (itMessage x) v) dec_string)
].
Record line : Type := MkLine { lnType : string; lnThreadID : string; lnItem : Item; lnError : string }.
Definition zero_line : line := MkLine "" "" (MkItem "" "" "" "" "") "".
Definition TurnError_fields : fields string := [("message", field (fun x => x) (fun v _ => v) dec_string)].
Definition line_fields : fields line := [
  ("type", field lnType (fun v x => MkLine v (lnThreadID x) (lnItem x) (lnError x)) dec_string);
  ("thread_id", field lnThreadID (fun v x => MkLine (lnType x) v (lnItem x) (lnError x)) dec_string);
  ("item", field lnItem (fun v x => MkLine (lnType x) (lnThreadID x) v (lnError x)) (dec_struct Item_fields));
  ("error", field lnError (fun v x => MkLine (lnType x) (lnThreadID x) (lnItem x) v) (dec_struct TurnError_fields))
].

Record streamState : Type := MkStream {
  ssThreadID : string;
  ssMessages : list string;
  ssTool : string;
  ssTurns : Z;
  ssCompleted : bool;
  ssFailed : string;
  ssErrors : list string
}.
Definition zero_stream : streamState := MkStream "" [] "" 0 false "" [].

Definition emit (s : streamState) : AgentEvent :=
  MkAgentEvent (ssThreadID s) (snapshot (ssMessages s)) (ssTool s) (ssTurns s).

Definition set_tool (tool : string) (turns : Z) (s : streamState) : streamState :=
  MkStream (ssThreadID s) (ssMessages s) tool turns (ssCompleted s) (ssFailed s) (ssErrors s).

Definition item_completed (s : streamState) (i : Item) : streamState * list AgentEvent :=
  if String.eqb (itType i) "agent_message" then
    let s := set_tool "" (ssTurns s) s in
    let s := if blank (itText i) then s
             else MkStream (ssThreadID s) (ssMessages s ++ [itText i]) (ssTool s) (ssTurns s) (ssCompleted s) (ssFailed s) (ssErrors s) in
    (s, [emit s])
  else if String.eqb (itType i) "command_execution" then (set_tool "" (ssTurns s) s, [])
  else if String.eqb (itType i) "error" then
    (MkStream (ssThreadID s) (ssMessages s) (ssTool s) (ssTurns s) (ssCompleted s) (ssFailed s) (ssErrors s ++ [itMessage i]), [])
  else (s, []).

Definition step (s : streamState) (l : line) : streamState * list AgentEvent :=
  if String.eqb (lnType l) "thread.started" then
    let s := MkStream (lnThreadID l) (ssMessages s) (ssTool s) (ssTurns s) (ssCompleted s) (ssFailed s) (ssErrors s) in
    (s, [emit s])
  else if String.eqb (lnType l) "item.started" then
    if String.eqb (itType (lnItem l)) "command_execution"
    then let s := set_tool "shell" (wrap64 (ssTurns s + 1)) s in (s, [emit s])
    else (s, [])
  else if String.eqb (lnType l) "item.completed" then item_completed s (lnItem l)
  else if String.eqb (lnType l) "turn.completed" then
    (MkStream (ssThreadID s) (ssMessages s) (ssTool s) (ssTurns s) true (ssFailed s) (ssErrors s), [])
  else if String.eqb (lnType l) "turn.failed" then
    (MkStream (ssThreadID s) (ssMessages s) (ssTool s) (ssTurns s) (ssCompleted s)
       (if String.eqb (lnError l) "" then "turn failed" else lnError l) (ssErrors s), [])
  else (s, []).

Definition stream (lines : list InputLine) : streamState * list AgentEvent :=
  parse zero_line line_fields step zero_stream lines.

Definition finalText (s : streamState) : string :=
  match last (ssMessages s) with Some m => TrimSpace m | None => "" end.

Definition outcome (s : streamState) (p : Process) : Result :=
  let res status code msg := MkResult status (finalText s) (ssThreadID s) (ssTurns s) 0%Q (prMillis p) code msg in
  match prCtxErr p with
  | Some e => res StatusCancelled "cancelled" e
  | None =>
      if negb (String.eqb (ssFailed s) "") then res StatusFailed "turn_failed" (ssFailed s)
      else if ssCompleted s && bool_decide (wait_err p = None) then res StatusSucceeded "" ""
      else res StatusFailed "codex_exit"
             (or_text (TrimSpace (stderr_text p))
                [Some (Join (ssErrors s) "; "); wait_err p; Some "codex exited without completing the turn"])
  end.

Definition Run (bin : string) (p : Process) : list AgentEvent * res Result :=
  match prPipe p with
  | Some e => ([], Err (ErrOther e))
  | None =>
      match prStart p with
      | Some e => ([], Err (ErrOther ("codex: start " +:+ bin +:+ ": " +:+ e)))
      | None => let '(s, evs) := stream (prLines p) in (evs, Ok (outcome s p))
      end
  end.
End Codex.

(** ** Stopping a CLI

    The goroutine that waits for the job's context, beside the one that reads
    the output, waits for the process and closes [killed]. *)

Inductive Signal : Type := SIGINT | SIGKILL.

Inductive Watcher : Type :=
| Waiting                        (** for the context or [killed] *)
| Interrupted (deadline : Time)  (** for [killed] or the end of the grace *)
| Gone.

Record Stop : Type := MkStop {
  stNow : Time;
  stCancelled : bool;                (** the context has ended *)
  stReaped : bool;                   (** [cmd.Wait] has returned *)
  stKilled : bool;                   (** [close(killed)] *)
  stWatcher : Watcher;
  stSignals : list (Signal * Time)   (** to the process group, oldest first *)
}.

Definition grace_period (KillGrace : Z) : Z := if KillGrace <=? 0 then 5 * second else KillGrace.

Definition with_watcher (x : Watcher) (s : Stop) : Stop :=
  MkStop (stNow s) (stCancelled s) (stReaped s) (stKilled s) x (stSignals s).
Definition send (sig : Signal) (s : Stop) : Stop :=
  MkStop (stNow s) (stCancelled s) (stReaped s) (stKilled s) (stWatcher s) (stSignals s ++ [(sig, stNow s)]).

Section Stopping.
Context (KillGrace : Z).

(** A [select] with several ready cases takes any. *)
Inductive stop_step : Stop -> Stop -> Prop :=
| time_passes s t : stNow s <= t ->
    stop_step s (MkStop t (stCancelled s) (stReaped s) (stKilled s) (stWatcher s) (stSignals s))
| context_ends s :
    stop_step s (MkStop (stNow s) true (stReaped s) (stKilled s) (stWatcher s) (stSignals s))
| wait_returns s :
    stop_step s (MkStop (stNow s) (stCancelled s) true (stKilled s) (stWatcher s) (stSignals s))
| close_killed s : stReaped s = true ->
    stop_step s (MkStop (stNow s) (stCancelled s) true true (stWatcher s) (stSignals s))
| sees_context s : stWatcher s = Waiting -> stCancelled s = true ->
    stop_step s (send SIGINT (with_watcher (Interrupted (stNow s + grace_period KillGrace)) s))
| sees_killed s : stWatcher s <> Gone -> stKilled s = true ->
    stop_step s (with_watcher Gone s)
| grace_ends s deadline : stWatcher s = Interrupted deadline -> deadline <= stNow s ->
    stop_step s (send SIGKILL (with_watcher Gone s)).

Definition running (now : Time) : Stop := MkStop now false false false Waiting [].
End Stopping.
