(* ===== verification/StateFiles.v ===== *)
(** * The harness's state files ([client/outbox.go], [sessions/sessions.go])

    The outbox and the sessions live in memory and are written to disk as a
    whole after every change: aside, and then renamed over the old file.  The
    mutex of each is held over the write. *)

From S2P Require Import Prelude Resume GoText Json Protocol Rely HarnessText HarnessWorld.

Open Scope Z_scope.
Open Scope prog_scope.

(** ** Documents *)

(** *** Envelopes *)

Definition Envelope_fields : fields Envelope :=
  [("id", field en_ID (fun v x => MkEnvelope v (en_Type x) (en_JobID x) (en_Ref x) (en_TS x) (en_Payload x)) dec_string);
   ("type", field en_Type (fun v x => MkEnvelope (en_ID x) v (en_JobID x) (en_Ref x) (en_TS x) (en_Payload x)) dec_string);
   ("job_id", field en_JobID (fun v x => MkEnvelope (en_ID x) (en_Type x) v (en_Ref x) (en_TS x) (en_Payload x)) dec_string);
   ("ref", field en_Ref (fun v x => MkEnvelope (en_ID x) (en_Type x) (en_JobID x) v (en_TS x) (en_Payload x)) dec_string);
   ("ts", field en_TS (fun v x => MkEnvelope (en_ID x) (en_Type x) (en_JobID x) (en_Ref x) v (en_Payload x)) dec_int);
   ("payload", field en_Payload (fun v x => MkEnvelope (en_ID x) (en_Type x) (en_JobID x) (en_Ref x) (en_TS x) v) dec_raw)].

Definition Envelope_json (x : Envelope) : json := enc_struct
  [member "id" (enc_string (en_ID x));
   member "type" (enc_string (en_Type x));
   omitempty (is_empty_string (en_JobID x)) "job_id" (enc_string (en_JobID x));
   omitempty (is_empty_string (en_Ref x)) "ref" (enc_string (en_Ref x));
   member "ts" (JInt (en_TS x));
   omitempty (negb (bool_decide (is_Some (en_Payload x)))) "payload" (default JNull (en_Payload x))].

#[export] Instance wire_Envelope : Wire Envelope := {|
  wire_zero := MkEnvelope "" "" "" "" 0 None;
  wire_enc := Envelope_json;
  wire_dec := dec_struct Envelope_fields;
  wire_ok x := valid_utf8 (en_ID x) /\ valid_utf8 (en_Type x) /\ valid_utf8 (en_JobID x) /\ valid_utf8 (en_Ref x) /\ int64 (en_TS x) |}.
#[export] Instance round_Envelope : WireRoundTrip Envelope.
Proof.
  wire_intro. cbv beta iota delta [Protocol.en_ID Protocol.en_Type Protocol.en_JobID Protocol.en_Ref Protocol.en_TS Protocol.en_Payload] in *. wire_solve.
Qed.

(** *** Maps from text *)

(** Marshal writes a map in the order of its keys. *)
Definition map_json {T} (enc : T -> json) (m : gmap string T) : json :=
  JObj (map (fun kv => (to_valid kv.1, enc kv.2)) (order_by_text fst (map_to_list m))).

(** Unmarshal into an empty map: later members replace earlier ones. *)
Fixpoint map_members {T} (zero : T) (d : decoder T) (m : gmap string T) (ms : list (string * json)) : gmap string T * bool :=
  match ms with
  | [] => (m, true)
  | (k, j) :: ms' =>
      let '(x, ok) := d zero j in
      let '(m', oks) := map_members zero d (<[k := x]> m) ms' in
      (m', ok && oks)
  end.

(** A document [null] makes the map nil, here [Ok None]. *)
Definition read_map {T} `{!Wire T} (body : FileBody) : res (option (gmap string T)) :=
  match body with
  | Doc (JObj ms) =>
      let '(m, ok) := map_members wire_zero wire_dec ∅ ms in
      if ok then Ok (Some m) else Err (ErrOther "json: cannot unmarshal")
  | Doc JNull => Ok None
  | Doc _ => Err (ErrOther "json: cannot unmarshal")
  | Bytes _ | Garbled => Err (ErrOther "invalid character")
  end.

Lemma map_members_round {T} `{!Wire T, !WireRoundTrip T} (l : list (string * T)) m :
  Forall (fun kv => valid_utf8 kv.1 /\ wire_ok kv.2) l ->
  map_members wire_zero wire_dec m (map (fun kv => (to_valid kv.1, wire_enc kv.2)) l)
    = (foldl (fun m kv => <[kv.1 := kv.2]> m) m l, true).
Proof.
  revert m. induction l as [|[k x] l IH]; intros m Hl; [done|]. inv Hl. destruct H1 as [Hk Hx]. simpl in *.
  rewrite wire_round by done. rewrite Hk, IH by done. done.
Qed.

Lemma foldl_insert_list {T} (l : list (string * T)) (m : gmap string T) :
  NoDup l.*1 -> (forall k x, (k, x) ∈ l -> m !! k = None) ->
  foldl (fun m kv => <[kv.1 := kv.2]> m) m l = list_to_map l ∪ m.
Proof.
  revert m. induction l as [|[k x] l IH]; intros m Hnd Hm; simpl.
  - by rewrite (left_id_L ∅ (∪)).
  - rewrite fmap_cons in Hnd. apply NoDup_cons in Hnd as [Hk Hnd]. rewrite IH.
    + rewrite <- (insert_union_l _ m). rewrite insert_union_r; [done|]. by apply not_elem_of_list_to_map_1.
    + done.
    + intros k' x' Hin. rewrite lookup_insert_ne; [apply (Hm k' x'); by right|].
      intros <-. apply Hk. apply list_elem_of_fmap. by exists (k, x').
Qed.

Lemma read_map_json {T} `{!Wire T, !WireRoundTrip T} (m : gmap string T) :
  map_Forall (fun k x => valid_utf8 k /\ wire_ok x) m -> read_map (Doc (map_json wire_enc m)) = Ok (Some m).
Proof.
  intros Hm. unfold read_map, map_json.
  assert (order_by_text fst (map_to_list m) ≡ₚ map_to_list m) as Hp by apply merge_sort_Permutation.
  rewrite map_members_round.
  - rewrite foldl_insert_list.
    + rewrite (right_id_L ∅ (∪)). f_equal. f_equal. rewrite <- (list_to_map_to_list m) at 2.
      apply list_to_map_proper; [|done]. rewrite Hp. apply NoDup_fst_map_to_list.
    + rewrite Hp. apply NoDup_fst_map_to_list.
    + intros k x _. apply lookup_empty.
  - apply Forall_forall. intros [k x] Hin. rewrite Hp in Hin. apply elem_of_map_to_list in Hin. by apply (Hm k x).
Qed.

(** *** Sessions *)

(** [time.Time] as RFC 3339, which has no years beyond 9999. *)
Definition time_text (t : Time) : option string :=
  let secs := t / second in
  let '(y, m, d) := civil_from_days (secs / 86400) in
  if (y <? 0) || (9999 <? y) then None
  else Some (pad_int 4 y +:+ "-" +:+ pad_int 2 m +:+ "-" +:+ pad_int 2 d +:+ "T"
    +:+ pad_int 2 (secs mod 86400 / 3600) +:+ ":" +:+ pad_int 2 (secs mod 3600 / 60) +:+ ":"
    +:+ pad_int 2 (secs mod 60) +:+ frac_text 9 (t mod second) +:+ "Z").

Example time_text_ex : time_text (from_unix_milli 1709208059990) = Some "2024-02-29T12:00:59.99Z".
Proof. vm_compute. reflexivity. Qed.

Definition Entry_json (e : Entry) : json := enc_struct
  [member "session_id" (enc_string (seSessionID e));
   member "workspace" (enc_string (seWorkspace e));
   member "agent" (enc_string (seAgent e));
   member "updated_at" (enc_string (default "" (time_text (seUpdatedAt e))))].

Definition sessions_json (m : gmap string Entry) : res json :=
  if forallb (fun kv => bool_decide (is_Some (time_text (seUpdatedAt kv.2)))) (map_to_list m)
  then Ok (map_json Entry_json m)
  else Err (ErrOther "Time.MarshalJSON: year outside of range [0,9999]").

Definition outbox_json (m : gmap string Envelope) : json := map_json wire_enc m.

#[export] Instance text_le_total {A} (id : A -> string) : Total (text_le id).
Proof. intros x y. apply (total String.le). Qed.
#[export] Instance text_le_trans {A} (id : A -> string) : Transitive (text_le id).
Proof. intros x y z. unfold text_le. apply transitivity. Qed.

(** ** Operations *)

Section Operations.
Context {E : HEnv}.

Definition outbox_path : string := state_dir +:+ "/outbox.json".
Definition sessions_path : string := state_dir +:+ "/sessions.json".

(** [OpenOutbox], on the file that is there. *)
Definition OpenOutbox (files : gmap string FileBody) : res (option (gmap string Envelope)) :=
  match files !! outbox_path with
  | None => Ok (Some ∅)
  | Some body => read_map body
  end.

Definition outbox_flush : prog HWorld (res unit) :=
  flush_file outbox_path (fun w => Ok (outbox_json (hw_outbox w))).

Definition Outbox_Add (env : Envelope) : prog HWorld (res unit) :=
  locking outboxMu (fun w => (tt, set_houtbox (<[en_ID env := env]> (hw_outbox w)) w)) (fun _ => outbox_flush).

Definition Outbox_Ack (id : string) : prog HWorld (res unit) :=
  locking outboxMu
    (fun w => match hw_outbox w !! id with
              | None => (false, w)
              | Some _ => (true, set_houtbox (delete id (hw_outbox w)) w)
              end)
    (fun present => if present : bool then outbox_flush else Ret (Ok tt)).

(** [Pending]: in send order, since ULIDs sort by time. *)
Definition pending_of (m : gmap string Envelope) : list Envelope :=
  order_by_text en_ID (map_to_list m).*2.
Definition Outbox_Pending : prog HWorld (list Envelope) :=
  under outboxMu (fun w => (pending_of (hw_outbox w), w)).

Definition sessions_flush : prog HWorld (res unit) :=
  flush_file sessions_path (fun w => sessions_json (hw_sessions w)).

Definition session_of (botUserID rootPostID : string) (w : HWorld) : Entry * bool :=
  match hw_sessions w !! session_key botUserID rootPostID with
  | Some e => (e, true)
  | None => (zero_entry, false)
  end.
Definition sessions_Get (botUserID rootPostID : string) : prog HWorld (Entry * bool) :=
  under sessionsMu (fun w => (session_of botUserID rootPostID w, w)).

Definition sessions_Put (botUserID rootPostID sessionID workspace agent : string) : prog HWorld (res unit) :=
  locking sessionsMu
    (fun w => (tt, htick (set_sessions
       (<[session_key botUserID rootPostID := MkEntry sessionID workspace agent (hclock (hw_tick w))]> (hw_sessions w)) w)))
    (fun _ => sessions_flush).

Definition sessions_Delete (botUserID rootPostID : string) : prog HWorld (res unit) :=
  locking sessionsMu
    (fun w => (tt, set_sessions (delete (session_key botUserID rootPostID) (hw_sessions w)) w))
    (fun _ => sessions_flush).
End Operations.

(** ** What survives a crash *)

Section Crash.
Context {E : HEnv}.

Lemma string_app_nil s : s +:+ "" = s.
Proof. induction s as [|a s IH]; [done|]. exact (f_equal (String.String a) IH). Qed.
Lemma string_app_assoc s t u : s +:+ (t +:+ u) = (s +:+ t) +:+ u.
Proof. induction s as [|a s IH]; [done|]. exact (f_equal (String.String a) IH). Qed.
Lemma length_append s t : String.length (s +:+ t) = (String.length s + String.length t)%nat.
Proof. induction s; simpl; [done|]. by rewrite IHs. Qed.

Lemma tmp_path_ne path : path +:+ ".tmp" <> path.
Proof. intros H. apply (f_equal String.length) in H. rewrite length_append in H. simpl in H. lia. Qed.

(** The file at [path] is the old one or the new document. *)
Definition old_or_new (path : string) (old : option FileBody) (j : json) (w : HWorld) : Prop :=
  hw_files w !! path = old \/ hw_files w !! path = Some (Doc j).

Lemma throughout_live {X} (P : HWorld -> Prop) (f : HWorld -> option (X * HWorld)) (Q : X -> HWorld -> Prop) w :
  P w -> (forall x w', f w = Some (x, w') -> P w' /\ Q x w') -> throughout P (live f) Q w.
Proof.
  intros HP H. apply throughout_step; [done|]. intros x w' Hf. destruct (hw_dead w); [done|].
  destruct (H x w' Hf). by apply throughout_ret.
Qed.

Lemma throughout_act {X} (P : HWorld -> Prop) (f : HWorld -> X * HWorld) (Q : X -> HWorld -> Prop) w :
  P w -> P (f w).2 -> Q (f w).1 (f w).2 -> throughout P (act f) Q w.
Proof.
  intros HP HP' HQ. apply throughout_live; [done|]. intros x w' Hf. injection Hf as Hf.
  by rewrite Hf in HP', HQ.
Qed.

(** All of the state but the files. *)
Definition apart_from_files (w : HWorld) : HWorld := set_files ∅ (set_htick 0 w).

Definition flushed (path : string) (j : json) (w : HWorld) (r : res unit) (w' : HWorld) : Prop :=
  apart_from_files w' = apart_from_files w /\ (r = Ok tt -> hw_files w' !! path = Some (Doc j)).

(** A flush writes [doc]; until the rename the old file is untouched, and when
    it reports success the new one is there. *)
Lemma flush_file_throughout path (doc : HWorld -> res json) old j w :
  (forall t files w', doc (set_files files (set_htick t w')) = doc w') ->
  hw_files w !! path = old -> doc w = Ok j ->
  throughout (old_or_new path old j) (flush_file path doc) (flushed path j w) w.
Proof.
  intros Hdoc Hold Hj. unfold flush_file. apply throughout_bind, throughout_act; [by left.. |].
  cbn [fst snd]. destruct (match mkdir_fault (hw_tick w) with Some _ => _ | None => _ end) as [[]|e];
    [|by apply throughout_ret; [left|]].
  apply throughout_bind, throughout_act; [by left..|]. cbn [fst snd].
  assert (doc (htick w) = Ok j) as ->.
  { rewrite <- Hj, <- (Hdoc (S (hw_tick w)) (hw_files w) w). by destruct w. }
  apply throughout_bind. unfold os_WriteFile. apply throughout_act; [by left| |].
  { left. destruct (write_fault _) as [[msg []]|]; cbn; rewrite ?lookup_insert_ne by apply tmp_path_ne; done. }
  destruct (write_fault _) as [[msg torn]|]; cbn [fst snd].
  { apply throughout_ret; [|by destruct torn].
    left; destruct torn; cbn; rewrite ?lookup_insert_ne by apply tmp_path_ne; done. }
  apply throughout_act.
  - left. cbn. by rewrite lookup_insert_ne by apply tmp_path_ne.
  - destruct (rename_fault _) as [msg|]; cbn; rewrite ?lookup_insert_eq; cbn.
    + left. cbn. by rewrite lookup_insert_ne by apply tmp_path_ne.
    + right. cbn. by rewrite lookup_insert_eq.
  - split; destruct (rename_fault _) as [msg|]; cbn; rewrite ?lookup_insert_eq; cbn; [done..|].
    intros _. by rewrite lookup_insert_eq.
Qed.

(** Envelopes that survive JSON, as all those of the harness do whose texts
    are UTF-8. *)
Definition storable (m : gmap string Envelope) : Prop :=
  map_Forall (fun id env => valid_utf8 id /\ wire_ok env) m.

Lemma open_old_or_new files old m w :
  files !! outbox_path = old -> storable m ->
  old_or_new outbox_path old (outbox_json m) w ->
OpenOutbox (hw_files w) = OpenOutbox files \/ OpenOutbox (hw_files w) = Ok (Some m).
Proof.
  intros Hf Hm [H|H]; unfold OpenOutbox; rewrite H.
  - left. by rewrite Hf.
  - right. by apply read_map_json.
Qed.

(** A section under a mutex, whose body has a first part and writes a file. *)
Lemma throughout_locking {X Y} (P : HWorld -> Prop) m (first : HWorld -> X * HWorld) (body : X -> prog HWorld Y)
    (Q : Y -> HWorld -> Prop) w :
  P w -> (forall w', P w' -> P (unlock m w')) ->
  throughout P (body (first (lock m w)).1) Q (first (lock m w)).2 ->
  throughout P (locking m first body) (fun y w' => exists w1, w' = unlock m w1 /\ Q y w1) w.
Proof.
  intros HP Hu Hb. assert (P (first (lock m w)).2) as HP'.
  { by apply (throughout_cut P _ Q _ 0) in Hb. }
  unfold locking. apply throughout_bind, throughout_live; [done|].
  intros x w' Hf. destruct (held m w); [done|]. injection Hf as Hf. rewrite Hf in Hb, HP'. split; [done|].
  apply throughout_bind. cbn [fst snd] in Hb. clear -Hb Hu. revert Hb. generalize (body x) as b. intros b. revert w'.
  induction b as [y|Z0 f k IH]; intros w'; cbn; intros [HP Hb]; (split; [done|]).
  - apply throughout_bind, throughout_act; [done | by apply Hu |]. apply throughout_ret; [by apply Hu | by exists w'].
  - destruct (f w') as [[z w1]|]; [|done]. by apply IH.
Qed.

Lemma flush_outbox_throughout w :
  throughout (old_or_new outbox_path (hw_files w !! outbox_path) (outbox_json (hw_outbox w))) outbox_flush
    (flushed outbox_path (outbox_json (hw_outbox w)) w) w.
Proof. by apply flush_file_throughout. Qed.

(** The outbox is [m] in memory and, when all went well, on disk. *)
Definition outbox_now (m : gmap string Envelope) (r : res unit) (w' : HWorld) : Prop :=
  hw_outbox w' = m /\ (r = Ok tt -> hw_files w' !! outbox_path = Some (Doc (outbox_json m))).

Lemma outbox_now_unlock w r w' :
  (exists w1, w' = unlock outboxMu w1 /\ flushed outbox_path (outbox_json (hw_outbox w)) w r w1) ->
  outbox_now (hw_outbox w) r w'.
Proof. intros (w1 & -> & Ha & Hf). split; [by apply (f_equal hw_outbox) in Ha | done]. Qed.

Lemma Add_throughout env w (m := <[en_ID env := env]> (hw_outbox w)) :
  throughout (old_or_new outbox_path (hw_files w !! outbox_path) (outbox_json m)) (Outbox_Add env) (outbox_now m) w.
Proof.
  pose (w1 := set_houtbox m (lock outboxMu w)).
  eapply throughout_post; [exact (outbox_now_unlock w1)|]. apply throughout_locking; [by left | done |].
  exact (flush_outbox_throughout w1).
Qed.

Lemma Ack_throughout id w (m := delete id (hw_outbox w)) :
  is_Some (hw_outbox w !! id) ->
  throughout (old_or_new outbox_path (hw_files w !! outbox_path) (outbox_json m)) (Outbox_Ack id) (outbox_now m) w.
Proof.
  intros [env Henv]. pose (w1 := set_houtbox m (lock outboxMu w)).
  eapply throughout_post; [exact (outbox_now_unlock w1)|]. apply throughout_locking; [by left | done |].
  cbn. rewrite Henv. exact (flush_outbox_throughout w1).
Qed.

(** Acknowledging what is not there. *)
Lemma Ack_absent_throughout id w :
  hw_outbox w !! id = None ->
  throughout (fun w' => hw_files w' = hw_files w /\ hw_outbox w' = hw_outbox w) (Outbox_Ack id)
    (fun r w' => r = Ok tt) w.
Proof.
  intros Hn. eapply throughout_post; [|apply (throughout_locking _ _ _ _ (fun r _ => r = Ok tt)); [done..|]].
  - by intros r w' (w1 & -> & ->).
  - cbn. rewrite Hn. by apply throughout_ret.
Qed.

(** C10. The outbox refines a durable set of messages, at every moment: when
    the daemon dies after any number of steps of [Add], the outbox a new
    daemon opens is the one from before or the one with the message, and once
    [Add] has reported success it is the one with the message.  The same for
    [Ack] and the removal of a message.  An [Ack] for a message that is not
    there changes nothing. *)
Theorem outbox_crash_safe env id w :
  storable (<[en_ID env := env]> (hw_outbox w)) -> storable (hw_outbox w) ->
  (forall n,
     let files' := hw_files (cut n (Outbox_Add env) w) in
     OpenOutbox files' = OpenOutbox (hw_files w)
     \/ OpenOutbox files' = Ok (Some (<[en_ID env := env]> (hw_outbox w))))
  /\ (forall w', run (Outbox_Add env) w = Some (Ok tt, w') ->
        OpenOutbox (hw_files w') = Ok (Some (<[en_ID env := env]> (hw_outbox w)))
        /\ hw_outbox w' = <[en_ID env := env]> (hw_outbox w))
  /\ (forall n,
        let files' := hw_files (cut n (Outbox_Ack id) w) in
        OpenOutbox files' = OpenOutbox (hw_files w)
        \/ OpenOutbox files' = Ok (Some (delete id (hw_outbox w))))
  /\ (forall w', run (Outbox_Ack id) w = Some (Ok tt, w') -> is_Some (hw_outbox w !! id) ->
        OpenOutbox (hw_files w') = Ok (Some (delete id (hw_outbox w))))
  /\ (hw_outbox w !! id = None ->
        forall n, let w' := cut n (Outbox_Ack id) w in hw_files w' = hw_files w /\ hw_outbox w' = hw_outbox w).
Proof.
  intros Ha Hs. pose proof (Add_throughout env w) as HA.
  assert (storable (delete id (hw_outbox w))) as Hd by by apply map_Forall_delete.
  destruct (hw_outbox w !! id) as [old|] eqn:Hid.
  - pose proof (Ack_throughout id w ltac:(by eexists)) as HK. split_and!; [..|done].
    + intros n. by eapply open_old_or_new, throughout_cut.
    + intros w' Hr. destruct (throughout_run _ _ _ _ _ _ HA Hr) as [Hm Hf].
      split; [|done]. unfold OpenOutbox. rewrite Hf by done. by apply read_map_json.
    + intros n. by eapply open_old_or_new, throughout_cut.
    + intros w' Hr _. destruct (throughout_run _ _ _ _ _ _ HK Hr) as [_ Hf].
      unfold OpenOutbox. rewrite Hf by done. by apply read_map_json.
  - pose proof (Ack_absent_throughout id w Hid) as HK. split_and!.
    + intros n. by eapply open_old_or_new, throughout_cut.
    + intros w' Hr. destruct (throughout_run _ _ _ _ _ _ HA Hr) as [Hm Hf].
      split; [|done]. unfold OpenOutbox. rewrite Hf by done. by apply read_map_json.
    + intros n. left. by destruct (throughout_cut _ _ _ _ n HK) as [-> _].
    + by intros w' _ [x Hx].
    + intros _ n. exact (throughout_cut _ _ _ _ n HK).
Qed.
End Crash.
