(* ===== verification/JsonTextFacts.v ===== *)
(** * Reading JSON back

    The reader consumes what it reads ([read_consumes]), its fuel never decides
    ([read_fuel]), and it inverts [json_text] ([json_text_round_trip]). *)

From S2P Require Import Prelude GoText Codec Json HarnessText JsonText.

Open Scope Z_scope.

(** ** Progress *)

Lemma drop_while_length {A} (p : A -> bool) l : (length (drop_while p l) <= length l)%nat.
Proof. induction l as [|x l IH]; simpl; [lia|]. destruct (p x); simpl; lia. Qed.

Lemma next_token_length l b rest : next_token l = Some (b, rest) -> (length rest < length l)%nat.
Proof.
  unfold next_token, skip_space. pose proof (drop_while_length is_json_space l) as H.
  destruct (drop_while is_json_space l); intros ?; simplify_eq. simpl in H. lia.
Qed.

Lemma expect_length c l rest : expect c l = Some rest -> (length rest < length l)%nat.
Proof.
  unfold expect. destruct (next_token l) as [[b l']|] eqn:E; simpl; [|done].
  apply next_token_length in E. case_match; intros; by simplify_eq.
Qed.

Lemma scan_string_length l raw rest : scan_string l = Some (raw, rest) -> (length rest < length l)%nat.
Proof.
  revert raw rest. induction l as [l IH] using list_len_ind. intros raw rest H.
  destruct l as [|b l1]; [done|]. cbn [scan_string] in H.
  repeat (case_match; simplify_option_eq); try (simpl; lia);
    match goal with E : scan_string ?k = Some _ |- _ => apply (IH k) in E; simpl in *; lia end.
Qed.

Lemma span_digits_length l ds rest :
  span_digits l = (ds, rest) -> length l = (length ds + length rest)%nat.
Proof.
  revert ds rest. induction l as [|b l IH]; simpl; intros ds rest; [by intros; simplify_eq|].
  destruct (is_digit b); [|by intros; simplify_eq].
  destruct (span_digits l) as [ds' rest']. intros. simplify_eq/=. by rewrite (IH _ _ eq_refl).
Qed.

Lemma is_prefix_length p l : is_prefix p l = true -> (length p <= length l)%nat.
Proof.
  revert l. induction p as [|x p IH]; intros [|y l]; simpl; try done; [lia|].
  intros [_ H]%andb_true_iff. apply IH in H. lia.
Qed.

Lemma minus_part_length l sign rest : minus_part l = (sign, rest) -> (length rest <= length l)%nat.
Proof. destruct l; simpl; [by intros; simplify_eq|]. case_match; intros; simplify_eq; simpl; lia. Qed.

Lemma exp_sign_length l sign rest : exp_sign l = (sign, rest) -> (length rest <= length l)%nat.
Proof. destruct l; simpl; [by intros; simplify_eq|]. case_match; intros; simplify_eq; simpl; lia. Qed.

Lemma int_part_length l ds rest : int_part l = Some (ds, rest) -> (length rest < length l)%nat.
Proof.
  destruct l as [|b l]; [done|]. cbn [int_part span_digits].
  destruct (b =? 48); [intros; simplify_eq; simpl; lia|]. destruct (is_digit b); [|done].
  destruct (span_digits l) as [ds' k] eqn:E. intros. simplify_eq. apply span_digits_length in E. simpl. lia.
Qed.

Lemma frac_part_length l fr rest : frac_part l = Some (fr, rest) -> (length rest <= length l)%nat.
Proof.
  destruct l as [|b l]; simpl; [by intros; simplify_eq|]. destruct (b =? 46); [|by intros; simplify_eq].
  destruct (span_digits l) as [[|d ds] k] eqn:E; intros; simplify_eq. apply span_digits_length in E. simpl in E. lia.
Qed.

Lemma exp_part_length l ex rest : exp_part l = Some (ex, rest) -> (length rest <= length l)%nat.
Proof.
  destruct l as [|b l]; cbn [exp_part]; [by intros; simplify_eq|]. destruct (_ || _); [|by intros; simplify_eq].
  destruct (exp_sign l) as [sign l1] eqn:E1. apply exp_sign_length in E1.
  destruct (span_digits l1) as [[|d ds] k] eqn:E; intros; simplify_eq. apply span_digits_length in E. simpl in *. lia.
Qed.

Section Reading.
Context {F : FloatText}.

Lemma scan_number_length l j rest : scan_number l = Some (j, rest) -> (length rest < length l)%nat.
Proof.
  unfold scan_number. destruct (minus_part l) as [sign l1] eqn:E1. apply minus_part_length in E1.
  destruct (int_part l1) as [[ds l2]|] eqn:E2; [|done]. apply int_part_length in E2.
  cbn. destruct (frac_part l2) as [[fr l3]|] eqn:E3; [|done]. apply frac_part_length in E3.
  cbn. destruct (exp_part l3) as [[ex l4]|] eqn:E4; [|done]. apply exp_part_length in E4.
  cbn. intros. simplify_eq. lia.
Qed.

Lemma scan_scalar_length l j rest : scan_scalar l = Some (j, rest) -> (length rest < length l)%nat.
Proof.
  unfold scan_scalar, scan_literal. repeat case_match; simplify_eq; intros; simplify_eq; try (by eapply scan_number_length);
    match goal with H : is_prefix ?p _ = true |- _ => apply is_prefix_length in H; simpl in H end;
    rewrite length_drop; lia.
Qed.

(** Whatever is read was there. *)
Definition shorter {A} (r : option (A * list Z)) (l : list Z) : Prop :=
  forall x rest, r = Some (x, rest) -> (length rest < length l)%nat.

Ltac read_step :=
  match goal with
  | H : next_token _ = Some _ |- _ => apply next_token_length in H
  | H : expect _ _ = Some _ |- _ => apply expect_length in H
  | H : scan_string _ = Some _ |- _ => apply scan_string_length in H
  | H : scan_scalar _ = Some _ |- _ => apply scan_scalar_length in H
  end.

Lemma read_consumes n :
  (forall d l, shorter (read_value n d l) l)
  /\ (forall d l, shorter (read_elements n d l) l)
  /\ (forall d l, shorter (read_members n d l) l).
Proof.
  induction n as [|n (IHv & IHe & IHm)]; [by repeat split|].
  repeat split; intros d l x rest; cbn [read_value read_elements read_members]; intros H;
    simplify_option_eq; repeat (case_match; simplify_option_eq);
    repeat match goal with
    | E : read_value _ _ _ = Some _ |- _ => apply IHv in E
    | E : read_elements _ _ _ = Some _ |- _ => apply IHe in E
    | E : read_members _ _ _ = Some _ |- _ => apply IHm in E
    end; repeat read_step; simpl in *; lia.
Qed.

Lemma read_value_consumes n d l : shorter (read_value n d l) l.
Proof. apply read_consumes. Qed.

(** Fuel for two calls per byte is enough: more changes nothing. *)
Lemma read_fuel n :
  (forall m d l, (2 * length l < n)%nat -> (2 * length l < m)%nat -> read_value n d l = read_value m d l)
  /\ (forall m d l, (2 * length l + 1 < n)%nat -> (2 * length l + 1 < m)%nat -> read_elements n d l = read_elements m d l)
  /\ (forall m d l, (2 * length l < n)%nat -> (2 * length l < m)%nat -> read_members n d l = read_members m d l).
Proof.
  induction n as [|n (IHv & IHe & IHm)]; [repeat split; intros; lia|].
  repeat split; intros m d l Hn Hm; (destruct m as [|m]; [lia|]); cbn [read_value read_elements read_members].
  - destruct (next_token l) as [[b l1]|] eqn:E; [|done]. apply next_token_length in E. cbn.
    destruct (b =? 34); [done|].
    rewrite (IHm m (d - 1) l1), (IHe m (d - 1) l1) by lia. done.
  - rewrite (IHv m d l) by lia. destruct (read_value m d l) as [[x l1]|] eqn:E; [|done].
    apply read_value_consumes in E. cbn. destruct (next_token l1) as [[b l2]|] eqn:E2; [|done].
    apply next_token_length in E2. cbn. by rewrite (IHe m d l2) by lia.
  - destruct (expect 34 l) as [l1|] eqn:E1; [|done]. apply expect_length in E1. cbn.
    destruct (scan_string l1) as [[raw l2]|] eqn:E2; [|done]. apply scan_string_length in E2. cbn.
    destruct (expect 58 l2) as [l3|] eqn:E3; [|done]. apply expect_length in E3. cbn.
    rewrite (IHv m d l3) by lia. destruct (read_value m d l3) as [[x l4]|] eqn:E4; [|done].
    apply read_value_consumes in E4. cbn. destruct (next_token l4) as [[b l5]|] eqn:E5; [|done].
    apply next_token_length in E5. cbn. by rewrite (IHm m d l5) by lia.
Qed.
End Reading.

(** ** Numbers *)

(** What may follow a value. *)
Definition follows (rest : list Z) : Prop :=
  match rest with [] => True | b :: _ => b = 44 \/ b = 93 \/ b = 125 end.

Lemma digits_value_snoc ds d : digits_value (ds ++ [d]) = digits_value ds * 10 + (d - 48).
Proof. unfold digits_value. by rewrite foldl_app. Qed.

Lemma pretty_N_char_byte x : (x < 10)%N -> byte_of (pretty_N_char x) = 48 + Z.of_N x.
Proof.
  intros H. assert (x = 0 \/ x = 1 \/ x = 2 \/ x = 3 \/ x = 4 \/ x = 5 \/ x = 6 \/ x = 7 \/ x = 8 \/ x = 9)%N as Hx by lia.
  by destruct_or! Hx; subst.
Qed.

(** The digits of a number, without leading zeros. *)
Lemma pretty_N_digits x : exists ds,
  (forall s, bytes_of (pretty_N_go x s) = ds ++ bytes_of s)
  /\ Forall (fun d => is_digit d = true) ds /\ digits_value ds = Z.of_N x
  /\ ((0 < x)%N -> exists d ds', ds = d :: ds' /\ d <> 48).
Proof.
  induction (N.lt_wf_0 x) as [x _ IH]. destruct (decide (x = 0)%N) as [->|Hx].
  { exists []. repeat split; [done|lia]. }
  destruct (IH (x `div` 10)%N) as (ds & Hs & Hd & Hv & Hh); [apply N.div_lt; lia|].
  assert (x `mod` 10 < 10)%N as Hm by (apply N.mod_lt; lia).
  exists (ds ++ [48 + Z.of_N (x `mod` 10)%N]). split; [|split; [|split]].
  - intros s. rewrite pretty_N_go_step, Hs by lia. cbn [bytes_of]. rewrite pretty_N_char_byte by done. by rewrite <- app_assoc.
  - apply Forall_app. split; [done|]. constructor; [|done]. unfold is_digit, in_range.
    apply andb_true_iff. rewrite !Z.leb_le. set (m := (x `mod` 10)%N) in *; clearbody m. split; lia.
  - rewrite digits_value_snoc, Hv. pose proof (N.div_mod x 10). lia.
  - intros _. destruct (decide (x < 10)%N) as [Hlt|Hge].
    + assert (ds = []) as ->.
      { specialize (Hs ""). rewrite (N.div_small x 10 Hlt), pretty_N_go_0 in Hs. cbn in Hs. by rewrite app_nil_r in Hs. }
      eexists _, []. split; [done|]. rewrite N.mod_small by done. lia.
    + destruct Hh as (d & ds' & -> & Hd48); [apply N.div_str_pos; lia|]. by eexists d, _.
Qed.

Lemma is_digit_not b c : is_digit b = true -> ~ (48 <= c <= 57) -> b <> c.
Proof. unfold is_digit, in_range. intros [??]%andb_true_iff ? ->. lia. Qed.

Lemma span_digits_app ds rest :
  Forall (fun d => is_digit d = true) ds -> (match rest with b :: _ => is_digit b = false | [] => True end) ->
  span_digits (ds ++ rest) = (ds, rest).
Proof.
  intros Hd Hr. induction Hd as [|d ds Hd _ IH]; simpl.
  - destruct rest as [|b rest]; [done|]. simpl. by rewrite Hr.
  - by rewrite Hd, IH.
Qed.

Lemma follows_parts rest : follows rest ->
  (match rest with b :: _ => is_digit b = false | [] => True end)
  /\ frac_part rest = Some ([], rest) /\ exp_part rest = Some ([], rest).
Proof. destruct rest as [|b rest]; [done|]. by intros [->|[->| ->]]. Qed.

Section Numbers.
Context {F : FloatText}.

Lemma scan_digits p rest : follows rest ->
  exists d ds, bytes_of (pretty (N.pos p)) = d :: ds /\ is_digit d = true
    /\ scan_number (bytes_of (pretty (N.pos p)) ++ rest) = Some (JInt (Z.pos p), rest)
    /\ scan_number (45 :: bytes_of (pretty (N.pos p)) ++ rest) = Some (JInt (Z.neg p), rest).
Proof.
  intros Hr. destruct (follows_parts rest Hr) as (Hd0 & Hf & He).
  destruct (pretty_N_digits (N.pos p)) as (ds & Hs & Hd & Hv & Hh).
  destruct Hh as (d & ds' & -> & Hne); [lia|].
  assert (bytes_of (pretty (N.pos p)) = d :: ds') as E.
  { specialize (Hs ""). by rewrite app_nil_r in Hs. }
  assert (is_digit d = true) as Hdd by (by inv Hd).
  assert (int_part ((d :: ds') ++ rest) = Some (d :: ds', rest)) as Hi.
  { cbn [int_part app]. rewrite (proj2 (Z.eqb_neq d 48)), Hdd by done.
    change (d :: ds' ++ rest) with ((d :: ds') ++ rest). by rewrite span_digits_app. }
  exists d, ds'. rewrite E. split_and!; [done|done| |]; unfold scan_number, minus_part.
  - cbn [app]. rewrite (proj2 (Z.eqb_neq d 45)) by (by eapply is_digit_not; [|lia]).
    change (d :: ds' ++ rest) with ((d :: ds') ++ rest). rewrite Hi. cbn -[digits_value]. rewrite Hf. cbn -[digits_value]. rewrite He. cbn -[digits_value]. by rewrite Hv.
  - rewrite Z.eqb_refl. rewrite Hi. cbn -[digits_value]. rewrite Hf. cbn -[digits_value]. rewrite He. cbn -[digits_value]. by rewrite Hv.
Qed.

Lemma scan_int n rest : follows rest ->
  exists b l, bytes_of (Itoa n) = b :: l /\ (b = 45 \/ is_digit b = true)
    /\ scan_number (bytes_of (Itoa n) ++ rest) = Some (JInt n, rest).
Proof.
  intros Hr. destruct n as [|p|p]; unfold Itoa, pretty, pretty_Z.
  - eexists _, _. split; [reflexivity|]. split; [by right|].
    destruct (follows_parts rest Hr) as (_ & Hf & He). 
    change (bytes_of "0" ++ rest) with (48 :: rest). unfold scan_number. cbn -[frac_part exp_part].
    rewrite Hf. cbn -[exp_part]. by rewrite He.
  - destruct (scan_digits p rest Hr) as (d & ds & E & Hd & Hs & _). eauto 10.
  - destruct (scan_digits p rest Hr) as (d & ds & E & Hd & _ & Hs).
    eexists _, _. split; [reflexivity|]. split; [by left|]. exact Hs.
Qed.
End Numbers.

(** ** Strings *)

Lemma hex_nibble_digit n : 0 <= n < 16 -> hex_nibble (hex_digit n) = Some n.
Proof.
  intros H. unfold hex_digit, hex_nibble, in_range.
  destruct (n <? 10) eqn:E; [apply Z.ltb_lt in E|apply Z.ltb_ge in E];
    repeat case_match; boolprop; first [f_equal; lia | lia].
Qed.

Definition plain_byte (b : Z) : Prop := 32 <= b /\ b <> 34 /\ b <> 92.

Lemma scan_plain bs l raw rest :
  Forall plain_byte bs -> scan_string l = Some (raw, rest) -> scan_string (bs ++ l) = Some (bs ++ raw, rest).
Proof.
  intros Hb Hl. induction Hb as [|b bs (H1 & H2 & H3) _ IH]; [done|]. cbn [app scan_string].
  by rewrite (proj2 (Z.eqb_neq b 34)), (proj2 (Z.ltb_ge b 32)), (proj2 (Z.eqb_neq b 92)), IH.
Qed.

Lemma encode_rune_plain r : valid_rune r = true -> 32 <= r -> r <> 34 -> r <> 92 -> Forall plain_byte (encode_rune r).
Proof.
  intros Hv H1 H2 H3. assert (0 <= r <= 55295 \/ 57344 <= r <= 1114111) as Hr by (unfold_utf8; boolprop; lia).
  unfold encode_rune. rewrite Hv. unfold plain_byte.
  repeat case_match; boolprop; repeat constructor; Z.to_euclidean_division_equations; lia.
Qed.

(** How a rune is written, case by case. *)
Lemma quote_rune_cases r : valid_rune r = true ->
  (exists c, quote_rune r = [92; c] /\ c <> 117 /\ unescape c = Some r)
  \/ (exists a b c d, quote_rune r = [92; 117; a; b; c; d] /\ hex4 a b c d = Some r
       /\ Forall (fun h => 0 <= h < 128) [a; b; c; d] /\ is_surrogate r = false)
  \/ (quote_rune r = encode_rune r /\ 32 <= r /\ r <> 34 /\ r <> 92).
Proof.
  intros Hv. assert (0 <= r) as H0 by (unfold_utf8; boolprop; lia). unfold quote_rune, quote_seg.
  destruct ((r =? 34) || (r =? 92)) eqn:E1.
  { left. exists r. boolprop. by destruct E1 as [-> | ->]. }
  destruct (Z.eqb_spec r 8) as [->|]; [left; by exists 98|].
  destruct (Z.eqb_spec r 12) as [->|]; [left; by exists 102|].
  destruct (Z.eqb_spec r 10) as [->|]; [left; by exists 110|].
  destruct (Z.eqb_spec r 13) as [->|]; [left; by exists 114|].
  destruct (Z.eqb_spec r 9) as [->|]; [left; by exists 116|].
  destruct ((r <? 32) || (r =? 60) || (r =? 62) || (r =? 38)) eqn:E2.
  { right; left. assert (0 <= r < 64) as Hr by (boolprop; lia).
    pose proof (Z.mod_pos_bound r 16 ltac:(done)) as Hm. pose proof (Z.div_mod r 16 ltac:(done)) as Hd.
    assert (0 <= r / 16 < 16) as Hq by lia.
    exists 48, 48, (hex_digit (r / 16)), (hex_digit (r mod 16)). split; [done|]. split.
    - unfold hex4. change (hex_nibble 48) with (Some 0). cbn. rewrite !hex_nibble_digit by done. cbn. f_equal. lia.
    - split; [|unfold is_surrogate, in_range; apply andb_false_iff; left; apply Z.leb_gt; lia].
      unfold hex_digit. repeat constructor; repeat case_match; boolprop; lia. }
  rewrite invalid_byte_not_rune by done.
  destruct ((r =? 8232) || (r =? 8233)) eqn:E3.
  { right; left. boolprop. destruct E3 as [-> | ->]; eexists 50, 48, 50, _; (split; [reflexivity|]); repeat split; by repeat constructor. }
  right; right. split; [done|]. boolprop. lia.
Qed.

Lemma segs_ascii l k : Forall (fun b => 0 <= b < 128) l -> (segs (l ++ k)).*1 = l ++ (segs k).*1.
Proof.
  induction 1 as [|b l Hb _ IH]; [done|]. cbn [app]. rewrite segs_cons. cbv zeta.
  rewrite (proj2 (Z.ltb_lt b 128)) by lia. rewrite fmap_cons. cbn [fst]. by rewrite IH.
Qed.

Lemma read_rune r l raw rest : valid_rune r = true -> scan_string l = Some (raw, rest) ->
  scan_string (quote_rune r ++ l) = Some (quote_rune r ++ raw, rest)
  /\ unquote (segs (quote_rune r ++ raw)).*1 = r :: unquote (segs raw).*1.
Proof.
  intros Hv Hl. destruct (quote_rune_cases r Hv) as [(c & -> & Hc & Hu)|[(a & b & c & d & -> & Hh & Hb & Hs)|(-> & H1 & H2 & H3)]].
  - assert (0 <= c < 128) as Hc' by (unfold unescape in Hu; repeat case_match; boolprop; simplify_eq; lia).
    split.
    + cbn [app scan_string]. cbn -[unescape scan_string]. rewrite (proj2 (Z.eqb_neq c 117) Hc), Hu. cbn -[scan_string]. by rewrite Hl.
    + rewrite segs_ascii by (repeat constructor; lia). cbn. by rewrite (proj2 (Z.eqb_neq c 117) Hc), Hu.
  - split.
    + cbn -[hex4 scan_string]. cbn [scan_string]. cbn -[hex4 scan_string]. rewrite Hh. cbn -[scan_string]. by rewrite Hl.
    + rewrite segs_ascii by (apply Forall_cons; split; [lia|apply Forall_cons; split; [lia|done]]).
      cbn -[hex4]. rewrite Hh. cbn. by rewrite Hs.
  - split; [by apply scan_plain, Hl; apply encode_rune_plain|].
    rewrite segs_encode_rune by done. rewrite fmap_cons. cbn. by rewrite (proj2 (Z.eqb_neq r 92) H3).
Qed.

Lemma read_runes rs rest : Forall (fun r => valid_rune r = true) rs ->
  scan_string (concat (map quote_rune rs) ++ 34 :: rest) = Some (concat (map quote_rune rs), rest)
  /\ unquote (segs (concat (map quote_rune rs))).*1 = rs.
Proof.
  induction 1 as [|r rs Hr _ (IHs & IHu)]; [done|]. cbn [map concat]. rewrite <- app_assoc.
  destruct (read_rune r _ _ _ Hr IHs) as [Hs Hu]. by rewrite Hs, Hu, IHu.
Qed.

Lemma read_string s rest : valid_utf8 s ->
  exists raw, scan_string (quote_body s ++ 34 :: rest) = Some (raw, rest) /\ unquoted raw = s.
Proof.
  intros Hs. rewrite quote_body_runes by done. destruct (read_runes (runes s) rest (runes_valid s)) as [Hsc Hu].
  eexists. split; [exact Hsc|]. unfold unquoted. by rewrite Hu.
Qed.

(** ** Documents *)

Section JsonInd.
Context (P : json -> Prop) (Hnull : P JNull) (Hbool : forall b, P (JBool b)) (Hint : forall n, P (JInt n))
  (Hfloat : forall q, P (JFloat q)) (Hstr : forall s, P (JStr s))
  (Harr : forall l, Forall P l -> P (JArr l)) (Hobj : forall ms, Forall (fun kv => P kv.2) ms -> P (JObj ms)).

Fixpoint json_nested_ind (j : json) : P j :=
  match j with
  | JNull => Hnull
  | JBool b => Hbool b
  | JInt n => Hint n
  | JFloat q => Hfloat q
  | JStr s => Hstr s
  | JArr l => Harr l ((fix all l : Forall P l :=
      match l with [] => Forall_nil_2 _ | x :: l' => Forall_cons_2 _ x l' (json_nested_ind x) (all l') end) l)
  | JObj ms => Hobj ms ((fix all ms : Forall (fun kv => P kv.2) ms :=
      match ms with
      | [] => Forall_nil_2 _
      | kv :: ms' => Forall_cons_2 _ kv ms' (json_nested_ind kv.2) (all ms')
      end) ms)
  end.
End JsonInd.

Section RoundTrip.
Context {F : FloatText}.

(** A number that is written and read as a float. *)
Definition float_reads (q : Q) : Prop :=
  (exists b l, format_float q = b :: l /\ (b = 45 \/ is_digit b = true))
  /\ forall rest, follows rest -> scan_number (format_float q ++ rest) = Some (JFloat q, rest).

(** The documents whose text reads back: texts are UTF-8 and the nesting is at
    most [depth]. *)
Inductive readable : Z -> json -> Prop :=
| readable_null d : readable d JNull
| readable_bool d b : readable d (JBool b)
| readable_int d n : readable d (JInt n)
| readable_float d q : float_reads q -> readable d (JFloat q)
| readable_str d s : valid_utf8 s -> readable d (JStr s)
| readable_arr d l : 0 < d -> Forall (readable (d - 1)) l -> readable d (JArr l)
| readable_obj d ms : 0 < d -> Forall (fun kv => valid_utf8 kv.1 /\ readable (d - 1) kv.2) ms -> readable d (JObj ms).

Lemma next_token_here b l : is_json_space b = false -> next_token (b :: l) = Some (b, l).
Proof. intros H. unfold next_token, skip_space. cbn [drop_while]. by rewrite H. Qed.
Lemma expect_here b l : is_json_space b = false -> expect b (b :: l) = Some l.
Proof. intros H. unfold expect. rewrite next_token_here by done. cbn. by rewrite Z.eqb_refl. Qed.
Lemma expect_other c b l : is_json_space b = false -> b <> c -> expect c (b :: l) = None.
Proof. intros H Hc. unfold expect. rewrite next_token_here by done. cbn. by rewrite (proj2 (Z.eqb_neq b c)). Qed.

Definition number_head (b : Z) : Prop := b = 45 \/ is_digit b = true.
Lemma number_head_range b : number_head b -> b = 45 \/ 48 <= b <= 57.
Proof. unfold number_head, is_digit, in_range. intros [->|H]; [by left|]. right. boolprop. lia. Qed.

(** How a text begins. *)
Lemma json_text_head d j : readable d j ->
  exists b l, json_text j = b :: l /\ is_json_space b = false /\ b <> 93.
Proof.
  intros H. assert (forall b l, number_head b -> exists b' l', b :: l = b' :: l' /\ is_json_space b' = false /\ b' <> 93) as Hn.
  { intros b l Hb%number_head_range. eexists _, _. split; [done|]. unfold is_json_space. destruct Hb as [->|Hb]; [done|].
    rewrite !orb_false_iff, !Z.eqb_neq. lia. }
  destruct H as [| d b | d n | d q [(b & l & E & Hb) _] | | |]; cbn [json_text];
    try (eexists _, _; split; [reflexivity|done]).
  - destruct b; eexists _, _; (split; [reflexivity|done]).
  - destruct (scan_int n [] I) as (b & l & E & Hb & _). rewrite E. by apply Hn.
  - rewrite E. by apply Hn.
Qed.

Lemma scan_scalar_number b l : number_head b -> scan_scalar (b :: l) = scan_number (b :: l).
Proof.
  intros Hb%number_head_range. unfold scan_scalar, scan_literal.
  change (bytes_of "null") with [110; 117; 108; 108]. change (bytes_of "true") with [116; 114; 117; 101].
  change (bytes_of "false") with [102; 97; 108; 115; 101]. cbn [is_prefix].
  by rewrite (proj2 (Z.eqb_neq 110 b)), (proj2 (Z.eqb_neq 116 b)), (proj2 (Z.eqb_neq 102 b)) by lia.
Qed.

Lemma read_number n d b l r : number_head b -> scan_number (b :: l) = r -> read_value (S n) d (b :: l) = r.
Proof.
  intros Hb <-. pose proof (number_head_range b Hb) as Hr. cbn [read_value].
  rewrite next_token_here by (unfold is_json_space; rewrite !orb_false_iff, !Z.eqb_neq; lia). cbn -[scan_scalar scan_number].
  rewrite (proj2 (Z.eqb_neq b 34)), (proj2 (Z.eqb_neq b 123)), (proj2 (Z.eqb_neq b 91)) by lia.
  by apply scan_scalar_number.
Qed.

(** Its text is read back, whatever follows. *)
Definition reads (j : json) : Prop := forall d n rest,
  readable d j -> follows rest -> (2 * length (json_text j ++ rest) < n)%nat ->
  read_value n d (json_text j ++ rest) = Some (j, rest).

Lemma separated_cons x l : separated (x :: l) = x ++ match l with [] => [] | _ => 44 :: separated l end.
Proof. destruct l; [by rewrite app_nil_r|done]. Qed.

Lemma read_list l : Forall reads l -> l <> [] -> forall d n rest,
  Forall (readable d) l -> (2 * length (separated (map json_text l) ++ 93%Z :: rest) + 1 < n)%nat ->
  read_elements n d (separated (map json_text l) ++ 93 :: rest) = Some (l, rest).
Proof.
  induction 1 as [|x l Hx Hl IH]; [done|]. intros _ d n rest Hd Hn. inv Hd.
  destruct n as [|n]; [lia|]. cbn [map] in *. rewrite separated_cons in *. rewrite <- app_assoc in *. cbn [read_elements].
  rewrite (Hx d n) by (done || lia || (destruct l; simpl; auto)). cbn [mbind option_bind].
  rewrite length_app in Hn. destruct l as [|y l].
  - by rewrite app_nil_l, next_token_here.
  - cbn [map] in *. rewrite <- app_comm_cons in *. rewrite next_token_here by done. cbn [mbind option_bind].
    rewrite Z.eqb_refl. destruct (json_text_head d x) as (b & k & Eb & _); [done|]. rewrite Eb in Hn.
    rewrite IH; [done|done|done|]. cbn [length] in *. lia.
Qed.

Definition member_text (kv : string * json) : list Z := string_text kv.1 ++ 58 :: json_text kv.2.

Lemma member_text_app k x t : member_text (k, x) ++ t = 34 :: quote_body k ++ 34 :: 58 :: json_text x ++ t.
Proof. unfold member_text, string_text. cbn [fst snd app]. by rewrite <- !app_assoc. Qed.

Lemma read_object ms : Forall (fun kv => reads kv.2) ms -> ms <> [] -> forall d n rest,
  Forall (fun kv => valid_utf8 kv.1 /\ readable d kv.2) ms ->
  (2 * length (separated (map member_text ms) ++ 125%Z :: rest) < n)%nat ->
  read_members n d (separated (map member_text ms) ++ 125 :: rest) = Some (ms, rest).
Proof.
  induction 1 as [|[k x] ms Hx Hl IH]; [done|]. intros _ d n rest Hd Hn. inv Hd.
  match goal with H : _ /\ _ |- _ => destruct H as [Hk Hr] end. cbn [fst snd] in *.
  destruct n as [|n]; [lia|]. cbn [map] in *. rewrite separated_cons in *.
  rewrite <- app_assoc, member_text_app in *. cbn [read_members]. rewrite expect_here by done. cbn [mbind option_bind].
  set (tail := match map member_text ms with [] => [] | _ => _ end ++ 125 :: rest) in *.
  destruct (read_string k (58 :: json_text x ++ tail) Hk) as (raw & Er & Eu).
  rewrite Er. cbn [mbind option_bind]. rewrite expect_here by done. cbn [mbind option_bind].
  cbn [length] in Hn. rewrite length_app in Hn. cbn [length] in Hn.
  rewrite (Hx d n) by (done || lia || (subst tail; destruct ms; simpl; auto)). cbn [mbind option_bind].
  rewrite length_app in Hn. subst tail. destruct ms as [|y ms]; cbn [map app] in *.
  - rewrite next_token_here by done. cbn. by rewrite Eu.
  - rewrite next_token_here by done. cbn [mbind option_bind]. rewrite Z.eqb_refl.
    rewrite IH; [|done|done|cbn [length] in *; lia]. cbn. by rewrite Eu.
Qed.

Lemma json_text_reads j : reads j.
Proof.
  induction j as [|b|m|q|s|l IH|ms IH] using json_nested_ind; intros d n rest Hr Hf Hn; (destruct n as [|n]; [lia|]).
  - done.
  - by destruct b.
  - destruct (scan_int m rest Hf) as (b & l & E & Hb & Hs). cbn [json_text] in *. rewrite E in *. by apply read_number.
  - inv Hr. match goal with H : float_reads q |- _ => destruct H as [(b & l & E & Hb) Hs] end.
    specialize (Hs rest Hf). cbn [json_text] in *. rewrite E in *. by apply read_number.
  - inv Hr. cbn [json_text read_value]. unfold string_text. cbn [app]. rewrite <- app_assoc. cbn [app].
    rewrite next_token_here by done. destruct (read_string s rest) as (raw & Er & <-); [done|].
    cbn -[scan_string]. by rewrite Er.
  - inv Hr. cbn [json_text] in *. rewrite <- app_comm_cons, <- app_assoc in *. cbn [app read_value] in *.
    rewrite next_token_here by done. cbn -[read_elements expect separated].
    rewrite (proj2 (Z.leb_gt d 0)) by done. destruct l as [|x l].
    + cbn [map separated app]. by rewrite expect_here.
    + destruct (json_text_head (d - 1) x) as (b & k & Eb & Hb & Hc); [match goal with H : Forall (readable _) _ |- _ => by inv H end|].
      assert (expect 93 (separated (map json_text (x :: l)) ++ 93 :: rest) = None) as ->.
      { cbn [map]. rewrite separated_cons, Eb. cbn [app]. by apply expect_other. }
      rewrite read_list; [done|done|done|done|]. cbn [length] in Hn. lia.
  - inv Hr. cbn [json_text] in *. change (fun kv => string_text kv.1 ++ 58 :: json_text kv.2) with member_text in *.
    rewrite <- app_comm_cons, <- app_assoc in *. cbn [app read_value] in *.
    rewrite next_token_here by done. cbn -[read_members expect separated].
    rewrite (proj2 (Z.leb_gt d 0)) by done. destruct ms as [|x ms].
    + cbn [map separated app]. by rewrite expect_here.
    + assert (expect 125 (separated (map member_text (x :: ms)) ++ 125 :: rest) = None) as ->.
      { cbn [map]. rewrite separated_cons. unfold member_text at 1, string_text. cbn [app]. by apply expect_other. }
      rewrite read_object; [done|done|done|done|]. cbn [length] in Hn. lia.
Qed.

(** Reading what was written gives the document back. *)
Theorem json_text_round_trip j : readable maxNestingDepth j -> read_json (json_text j) = Some j.
Proof.
  intros H. unfold read_json. pose proof (json_text_reads j maxNestingDepth (S (2 * length (json_text j))) [] H I) as E.
  rewrite app_nil_r in E. by rewrite E by lia.
Qed.
End RoundTrip.
