(* ===== verification/Frames.v ===== *)
(** * Frames ([internal/wire/conn.go])

    An envelope as the bytes of a WebSocket message.  [Module Conn] has the two
    operations of [wire.Conn]; the WebSocket library is the class [WebSocket],
    with its read limit as its law.  What is sent within the limit is received
    as it was, for every payload of the protocol ([frames_round_trip]); the limit
    that [downloadAttachments] keeps does not keep a dispatch within it
    ([attachments_exceed_frame]). *)

From S2P Require Import Prelude Resume GoText Codec Json Protocol Store World Core HarnessText HarnessWorld StateFiles.
From S2P Require Import JsonText JsonTextFacts.

Open Scope Z_scope.

(** ** The connection *)

Inductive FrameType : Type := MessageText | MessageBinary.

#[export] Instance FrameType_eq_dec : EqDecision FrameType.
Proof. solve_decision. Defined.

(** [Read] of the library, given the read limit and the message that arrives. *)
Class WebSocket : Type := {
  ws_Read : Z -> FrameType -> list Z -> res (FrameType * list Z)
}.

(** [SetReadLimit]: the number of bytes a single message may have. *)
Class WebSocketLaws `{WebSocket} : Prop := {
  read_within limit typ b : Z.of_nat (length b) <= limit -> ws_Read limit typ b = Ok (typ, b);
  read_beyond limit typ b : limit < Z.of_nat (length b) -> exists e, ws_Read limit typ b = Err e
}.

Definition MaxFrame : Z := Z.shiftl 12 20.

Module Conn.
Section Conn.
Context {F : FloatText} {W : WebSocket}.

Definition Send (env : Envelope) : FrameType * list Z := (MessageText, json_text (Envelope_json env)).

(** What the JSON library says of a bad envelope is left out. *)
Definition Recv (frame : FrameType * list Z) : res Envelope :=
  match ws_Read MaxFrame frame.1 frame.2 with
  | Err e => Err e
  | Ok (typ, b) =>
      if negb (bool_decide (typ = MessageText)) then Err (ErrOther "wire: binary frame")
      else
        match read_json b with
        | None => Err (ErrOther "wire: bad envelope")
        | Some j =>
            match dec_struct Envelope_fields (wire_zero (T := Envelope)) j with
            | (_, false) => Err (ErrOther "wire: bad envelope")
            | (env, true) => recv_envelope env
            end
        end
  end.
End Conn.
End Conn.

(** ** Documents of the protocol *)

Lemma to_valid_valid s : valid_utf8 (to_valid s).
Proof. unfold valid_utf8, to_valid. by rewrite runes_of_runes by apply runes_valid. Qed.

Section Documents.
Context {F : FloatText}.

Lemma readable_enc_string d s : readable d (enc_string s).
Proof. constructor. apply to_valid_valid. Qed.

Lemma readable_deeper d d' j : d <= d' -> readable d j -> readable d' j.
Proof.
  intros Hd H. revert d d' Hd H. induction j as [|b|n|q|s|l IH|ms IH] using json_nested_ind; intros d d' Hd H; inv H; constructor;
    try done; try lia.
  - rewrite Forall_forall in *. intros j Hj. eapply (IH j Hj (d - 1)); [lia|auto].
  - rewrite Forall_forall in *. intros kv Hkv. match goal with H : forall x, _ -> _ /\ _ |- _ => destruct (H kv Hkv) as [? ?] end.
    split; [done|]. eapply (IH kv Hkv (d - 1)); [lia|done].
Qed.

Definition members_ok (d : Z) (ms : list (string * json)) : Prop :=
  Forall (fun kv => valid_utf8 kv.1 /\ readable d kv.2) ms.

Lemma readable_struct d ms : 0 < d -> Forall (members_ok (d - 1)) ms -> readable d (enc_struct ms).
Proof.
  intros Hd H. constructor; [done|]. induction H; [constructor|]. cbn [concat]. by apply Forall_app.
Qed.
Lemma member_ok d name j : valid_utf8 name -> readable d j -> members_ok d (member name j).
Proof. intros. by repeat constructor. Qed.
Lemma omitempty_ok d b name j : valid_utf8 name -> (b = false -> readable d j) -> members_ok d (omitempty b name j).
Proof. intros ? H. destruct b; [constructor|]. constructor; [by split; [|apply H]|constructor]. Qed.
Lemma readable_list {T} d (enc : T -> json) l : 0 < d -> (forall x, x ∈ l -> readable (d - 1) (enc x)) -> readable d (JArr (map enc l)).
Proof.
  intros Hd H. constructor; [done|]. rewrite Forall_forall. intros j Hj. apply list_elem_of_fmap in Hj as (x & -> & Hx). auto.
Qed.
End Documents.

Create HintDb readable.
#[export] Hint Resolve readable_enc_string : readable.

(** Goes through the members of a struct. *)
Ltac readable_solve :=
  repeat first
    [ progress intros
    | apply readable_struct; [lia|]
    | apply member_ok; [reflexivity|]
    | apply omitempty_ok; [reflexivity|]
    | apply Forall_cons_2
    | apply Forall_nil_2
    | apply readable_list; [lia|]
    | solve [eauto with readable]
    | apply readable_int
    | apply readable_bool
    | lia ].

(** The payload types whose documents can be read back; [text_ok] is what this
    asks of numbers with a fraction and of documents in the payload. *)
Definition payload_depth : Z := maxNestingDepth - 1.

Class WireText (T : Type) `{!Wire T} `{FloatText} := {
  text_ok : T -> Prop;
  readable_payload x : text_ok x -> readable payload_depth (wire_enc x)
}.

Section Payloads.
Context {F : FloatText}.

Lemma readable_HelloJob d (x : HelloJob) : 2 <= d -> readable d (wire_enc x).
Proof. intros. cbn. unfold HelloJob_json. readable_solve. Qed.
Lemma readable_WelcomeJob d (x : WelcomeJob) : 1 <= d -> readable d (wire_enc x).
Proof. intros. cbn. unfold WelcomeJob_json. readable_solve. Qed.
Lemma readable_File d (x : File) : 1 <= d -> readable d (wire_enc x).
Proof. intros. cbn. unfold File_json. readable_solve. Qed.
Lemma readable_Thread d (x : Thread) : 1 <= d -> readable d (wire_enc x).
Proof. intros. cbn. unfold Thread_json. readable_solve. Qed.
Lemma readable_Requester d (x : Requester) : 1 <= d -> readable d (wire_enc x).
Proof. intros. cbn. unfold Requester_json. readable_solve. Qed.
Lemma readable_Limits d (x : Limits) : 1 <= d -> readable d (wire_enc x).
Proof. intros. cbn. unfold Limits_json. readable_solve. Qed.
Lemma readable_HistoryPost d (x : HistoryPost) : 1 <= d -> readable d (wire_enc x).
Proof. intros. cbn. unfold HistoryPost_json. readable_solve. Qed.
Lemma readable_JobError d (x : JobError) : 1 <= d -> readable d (wire_enc x).
Proof. intros. cbn. unfold JobError_json. readable_solve. Qed.
Lemma readable_Usage d (x : Usage) : 1 <= d ->
  (is_zero_float (us_CostUSD x) = false -> float_reads (us_CostUSD x)) -> readable d (wire_enc x).
Proof. intros. cbn. unfold Usage_json. readable_solve. apply readable_float. auto. Qed.
End Payloads.

#[export] Hint Resolve readable_HelloJob readable_WelcomeJob readable_File readable_Thread readable_Requester
  readable_Limits readable_HistoryPost readable_JobError readable_Usage : readable.
#[export] Hint Extern 1 (_ <= _) => lia : readable.

Ltac payload_text doc :=
  let x := fresh "x" in
  intros x ?; change (wire_enc x) with (doc x); unfold payload_depth, maxNestingDepth, doc; readable_solve.

#[export] Instance text_Hello `{FloatText} : WireText Hello.
Proof. refine {| text_ok _ := True |}. payload_text Hello_json. Defined.
#[export] Instance text_Welcome `{FloatText} : WireText Welcome.
Proof. refine {| text_ok _ := True |}. payload_text Welcome_json. Defined.
#[export] Instance text_Ping `{FloatText} : WireText Ping.
Proof. refine {| text_ok _ := True |}. payload_text Ping_json. Defined.
#[export] Instance text_Pong `{FloatText} : WireText Pong.
Proof. refine {| text_ok _ := True |}. payload_text Pong_json. Defined.
#[export] Instance text_Ack `{FloatText} : WireText Ack.
Proof. refine {| text_ok _ := True |}. payload_text Ack_json. Defined.
#[export] Instance text_Error `{FloatText} : WireText Error.
Proof. refine {| text_ok _ := True |}. payload_text Error_json. Defined.
#[export] Instance text_JobDispatch `{FloatText} : WireText JobDispatch.
Proof. refine {| text_ok _ := True |}. payload_text JobDispatch_json. Defined.
#[export] Instance text_JobCancel `{FloatText} : WireText JobCancel.
Proof. refine {| text_ok _ := True |}. payload_text JobCancel_json. Defined.
#[export] Instance text_JobProgress `{FloatText} : WireText JobProgress.
Proof. refine {| text_ok _ := True |}. payload_text JobProgress_json. Defined.
#[export] Instance text_ApprovalResponse `{FloatText} : WireText ApprovalResponse.
Proof. refine {| text_ok _ := True |}. payload_text ApprovalResponse_json. Defined.
#[export] Instance text_JobResult `{FloatText} : WireText JobResult.
Proof.
  refine {| text_ok x := is_zero_float (us_CostUSD (jr_Usage x)) = false -> float_reads (us_CostUSD (jr_Usage x)) |}.
  payload_text JobResult_json. - break_goal; [eauto with readable|constructor].
  - apply readable_float. auto.
Defined.
#[export] Instance text_ApprovalRequest `{FloatText} : WireText ApprovalRequest.
Proof.
  refine {| text_ok x := readable (payload_depth - 1) (default JNull (aq_Input x)) |}.
  payload_text ApprovalRequest_json.
Defined.

(** ** Across the connection *)

Section Crossing.
Context {F : FloatText} {W : WebSocket} {L : WebSocketLaws}.

Definition frame_size (env : Envelope) : Z := Z.of_nat (length (Conn.Send env).2).

(** What [protocol.New] and [protocol.Reply] give every envelope. *)
Definition envelope_ok (env : Envelope) : Prop := wire_ok env /\ en_ID env <> "" /\ en_Type env <> "".

Lemma Recv_Send env : envelope_ok env ->
  match en_Payload env with Some j => readable payload_depth j | None => True end ->
  frame_size env <= MaxFrame -> Conn.Recv (Conn.Send env) = Ok env.
Proof.
  intros (Hok & Hid & Htyp) Hp Hs. unfold Conn.Recv. cbn [fst snd Conn.Send]. rewrite read_within by exact Hs. cbn [bool_decide negb].
  rewrite json_text_round_trip.
  - change (Envelope_json env) with (wire_enc env). change (dec_struct Envelope_fields) with (wire_dec (T := Envelope)).
    rewrite wire_round by done. unfold recv_envelope.
    by rewrite (proj2 (String.eqb_neq _ _) Hid), (proj2 (String.eqb_neq _ _) Htyp).
  - unfold Envelope_json, payload_depth, maxNestingDepth in *. readable_solve. destruct (en_Payload env); [done|constructor].
Qed.

Lemma Recv_too_big env : MaxFrame < frame_size env -> exists e, Conn.Recv (Conn.Send env) = Err e.
Proof.
  intros Hs. unfold Conn.Recv. destruct (read_beyond MaxFrame MessageText (Conn.Send env).2 Hs) as [e He].
  exists e. cbn [fst snd Conn.Send] in *. by rewrite He.
Qed.

(** A payload put into an envelope is received, and decodes to itself, exactly
    when the frame is within the limit. *)
Definition crosses (T : Type) `{!Wire T} `{!WireText T} : Prop :=
  forall env (x : T), envelope_ok env -> en_Payload env = Some (wire_enc x) -> wire_ok x -> text_ok x ->
    (frame_size env <= MaxFrame -> Conn.Recv (Conn.Send env) = Ok env /\ Decode env = (x, true))
    /\ (MaxFrame < frame_size env -> exists e, Conn.Recv (Conn.Send env) = Err e).

Lemma crosses_round {T} `{!Wire T, !WireRoundTrip T, !WireText T} : crosses T.
Proof.
  intros env x Henv Hp Hok Ht. split; [|apply Recv_too_big]. intros Hs. split.
  - apply Recv_Send; [done| |done]. rewrite Hp. by apply readable_payload.
  - unfold Decode. rewrite Hp. by apply wire_round.
Qed.
End Crossing.

(** C5. The protocol survives the wire, down to the bytes: an envelope that
    [New] or [Reply] made of a payload is received as it was sent and decodes to
    the same payload, for every message type and for all payloads whose texts
    are UTF-8 and whose numbers fit, as long as its text is within [MaxFrame];
    a longer one is refused by the receiver.  A JSON document inside a payload
    has to keep to the nesting Go's reader allows. *)
Theorem frames_round_trip `{FloatText, WebSocketLaws} :
  (crosses Hello /\ crosses Welcome /\ crosses Ping /\ crosses Pong /\ crosses Ack /\ crosses Error)
  /\ (crosses JobDispatch /\ crosses JobCancel /\ crosses JobProgress /\ crosses JobResult)
  /\ (crosses ApprovalRequest /\ crosses ApprovalResponse).
Proof. repeat match goal with |- _ /\ _ => split end; apply crosses_round. Qed.

(** ** The size of a frame *)

Section Sizes.
Context {F : FloatText}.

Lemma separated_member x l : x ∈ l -> (length x <= length (separated l))%nat.
Proof.
  induction 1 as [x l|x y l Hx IH]; rewrite separated_cons, length_app; [lia|].
  destruct l; [by apply elem_of_nil in Hx|]. simpl in *. lia.
Qed.

Lemma separated_total l : (sum_list (map length l) <= length (separated l))%nat.
Proof.
  induction l as [|x l IH]; [done|]. rewrite separated_cons, length_app. cbn [map sum_list].
  destruct l; simpl in *; lia.
Qed.

Lemma segs_width l r bs : (r, bs) ∈ segs l -> (length bs <= 4)%nat.
Proof.
  segs_ind l IH; [by intros ?%elem_of_nil|..];
    (intros [E|Hin]%elem_of_cons; simplify_eq; [simpl; lia|eapply IH; [|exact Hin]; simpl; lia]).
Qed.

Lemma quote_body_length s : (String.length s <= length (quote_body s))%nat.
Proof.
  assert (forall s, String.length s = length (bytes_of s)) as -> by (clear; induction s; simpl; congruence).
  unfold quote_body.
  assert (forall r bs, (r, bs) ∈ segs (bytes_of s) -> (bs = [r] /\ 0 <= r < 128) \/ (128 <= r /\ (length bs <= 4)%nat)) as Hlow.
  { intros r bs Hin. pose proof (segs_width _ _ _ Hin). destruct (segs_low _ _ _ Hin (bytes_of_range s)); auto. }
  rewrite <- (segs_concat (bytes_of s)) at 1.
  induction (segs (bytes_of s)) as [|[r bs] l IH]; [done|]. rewrite fmap_cons. cbn [concat map snd]. rewrite !length_app.
  assert (length bs <= length (quote_seg (r, bs)))%nat; [|specialize (IH ltac:(intros; apply Hlow; by right)); lia].
  destruct (Hlow r bs) as [[-> Hr]|[Hr ?]]; [by left|unfold quote_seg; repeat case_match; simpl; lia|].
  unfold quote_seg. repeat case_match; boolprop; simpl; lia.
Qed.

Lemma struct_size mss ms kv :
  In ms mss -> In kv ms -> (length (json_text kv.2) <= length (json_text (enc_struct mss)))%nat.
Proof.
  intros Hms Hkv. unfold enc_struct. cbn [json_text length]. rewrite length_app.
  change (fun kv => string_text kv.1 ++ 58 :: json_text kv.2) with member_text.
  assert (length (json_text kv.2) <= length (member_text kv))%nat as Hj.
  { unfold member_text. rewrite length_app. cbn [length]. lia. }
  assert (length (member_text kv) <= length (separated (map member_text (concat mss))))%nat as H.
  { apply separated_member, list_elem_of_fmap. exists kv. split; [done|]. apply list_elem_of_In, in_concat. eauto. }
  lia.
Qed.

Lemma list_size {T} (enc : T -> json) (size : T -> nat) l :
  (forall x, x ∈ l -> (size x <= length (json_text (enc x)))%nat) ->
  (sum_list (map size l) <= length (json_text (JArr (map enc l))))%nat.
Proof.
  intros H. cbn [json_text length]. rewrite length_app, map_map.
  etrans; [|apply Nat.le_succ_r; left; apply Nat.le_add_r].
  etrans; [|apply separated_total]. rewrite map_map.
  induction l as [|x l IH]; [done|]. pose proof (H x ltac:(left)).
  specialize (IH ltac:(intros; apply H; by right)). simpl. lia.
Qed.

Lemma string_size s : (String.length s <= length (json_text (JStr s)))%nat.
Proof. cbn [json_text length]. unfold string_text. cbn [length]. rewrite length_app. pose proof (quote_body_length s). lia. Qed.

(** A dispatch is at least as long as the data of its attachments. *)
Definition data_size (fs : list File) : nat := sum_list (map (fun f => String.length (to_valid (fi_DataB64 f))) fs).

Lemma dispatch_size env (d : JobDispatch) :
  en_Payload env = Some (wire_enc d) -> Z.of_nat (data_size (jd_Attachments d)) <= frame_size env.
Proof.
  intros Hp. unfold frame_size. apply inj_le. cbn [Conn.Send snd].
  trans (length (json_text (wire_enc d))).
  - change (wire_enc d) with (JobDispatch_json d). unfold JobDispatch_json.
    destruct (jd_Attachments d) as [|f fs] eqn:E; [apply Nat.le_0_l|].
    etrans; [|eapply (struct_size _ (omitempty (is_empty_list (f :: fs)) "attachments" _) ("attachments", JArr (map wire_enc (f :: fs))));
      [do 6 right; left; reflexivity|by left]].
    apply list_size. intros x _. change (wire_enc x) with (File_json x). unfold File_json.
    etrans; [|eapply (struct_size _ (member "data_b64" _) ("data_b64", enc_string (fi_DataB64 x))); [do 2 right; left; reflexivity|by left]].
    apply string_size.
  - unfold Envelope_json. rewrite Hp.
    eapply (struct_size _ (omitempty _ "payload" _) ("payload", wire_enc d)); [do 5 right; left; reflexivity|by left].
Qed.
End Sizes.

(** Nor does anything bound the text of a result, the other way round. *)
Lemma result_exceeds_frame `{FloatText, WebSocketLaws} env (r : JobResult) :
  en_Payload env = Some (wire_enc r) -> MaxFrame < Z.of_nat (String.length (to_valid (jr_Text r))) ->
  exists e, Conn.Recv (Conn.Send env) = Err e.
Proof.
  intros Hp Hsize. apply Recv_too_big. eapply Z.lt_le_trans; [exact Hsize|]. unfold frame_size. apply inj_le. cbn [Conn.Send snd].
  trans (length (json_text (wire_enc r))).
  - change (wire_enc r) with (JobResult_json r). unfold JobResult_json.
    etrans; [|eapply (struct_size _ (member "text" _) ("text", enc_string (jr_Text r))); [right; left; reflexivity|by left]].
    apply string_size.
  - unfold Envelope_json. rewrite Hp.
    eapply (struct_size _ (omitempty _ "payload" _) ("payload", wire_enc r)); [do 5 right; left; reflexivity|by left].
Qed.

(** ** Attachments *)

Lemma b64_char_ascii v : 0 <= v < 64 -> 0 <= b64_char v < 128.
Proof. intros. unfold b64_char. repeat case_match; boolprop; lia. Qed.

Lemma b64_enc_ascii l : Forall is_byte l ->
  Forall (fun b => 0 <= b < 128) (b64_enc l) /\ (4 * length l <= 3 * length (b64_enc l))%nat.
Proof.
  unfold is_byte. induction l as [l IH] using list_len_ind. intros Hl.
  destruct l as [|a [|b [|c l']]]; repeat match goal with H : Forall _ (_ :: _) |- _ => apply Forall_cons in H as [? ?] end;
    cbn [b64_enc]; [split; [constructor|simpl; lia]|..].
  1,2: split; [repeat apply Forall_cons_2; try apply Forall_nil_2; first [lia | apply b64_char_ascii; Z.to_euclidean_division_equations; lia]|simpl; lia].
  destruct (IH l') as [H3 H4]; [simpl; lia|done|].
  split; [repeat apply Forall_cons_2; try done; apply b64_char_ascii; Z.to_euclidean_division_equations; lia|simpl in *; lia].
Qed.

Lemma to_valid_of_ascii s : Forall (fun b => 0 <= b < 128) (bytes_of s) -> to_valid s = s.
Proof.
  intros H. unfold to_valid, runes, of_runes. rewrite <- (app_nil_r (bytes_of s)), segs_ascii by done. rewrite app_nil_r.
  rewrite <- (str_of_bytes_of s) at 2. f_equal. unfold encode. induction H as [|b l Hb _ IH]; [done|].
  cbn [map concat]. by rewrite encode_rune_ascii, IH.
Qed.

Lemma base64_size data : Forall is_byte data ->
  (4 * length data <= 3 * String.length (to_valid (base64_encode data)))%nat.
Proof.
  intros H. destruct (b64_enc_ascii data H) as [Ha Hl]. unfold base64_encode.
  assert (bytes_of (str_of (b64_enc data)) = b64_enc data) as E.
  { apply bytes_of_str_of. eapply Forall_impl; [exact Ha|]. unfold is_byte. simpl. lia. }
  rewrite to_valid_of_ascii by (by rewrite E).
  assert (forall l, String.length (str_of l) = length l) as -> by (clear; induction l; simpl; congruence). done.
Qed.

(** The files of a post, as Mattermost hands them out to a poster of the
    program. *)
Section Attachments.
Context {E : Env} {F : FloatText} {W : WebSocket} {L : WebSocketLaws}.
Context (poster : Poster) (info : string -> FileInfo) (content : string -> list Z).

Definition file_available (id : string) : Prop :=
  (forall t, mm_get_file_info t poster id = Ok (info id)) /\ (forall t, mm_download_file t poster id = Ok (content id))
  /\ fiSize (info id) = Z.of_nat (length (content id)) /\ Forall is_byte (content id).

Definition file_of (id : string) : File :=
  MkFile (fiName (info id)) (fiMime (info id)) (base64_encode (content id)).

Definition total_size (ids : list string) : Z := foldr (fun id n => fiSize (info id) + n) 0 ids.

Lemma wp_download_one id out w (Q : list File -> World -> Prop) :
  poster <> UnavailableAPI -> file_available id /\ fiSize (info id) <= MaxFileBytes ->
  (forall w', Q (out ++ [file_of id]) w') -> wp (download_one poster out id) Q w.
Proof.
  intros Hp ((Hi & Hd & Hs & Hb) & Hle) HQ. unfold download_one, GetFileInfo, DownloadFile.
  assert (forall X (f : nat -> res X) evs, api_call poster f evs = call f evs) as Hcall by (by destruct poster).
  rewrite !Hcall, wp_bind, wp_call, Hi. cbn [is_ok]. rewrite (proj2 (Z.ltb_ge _ _)) by lia.
  rewrite wp_bind, wp_call, Hd, wp_ret. apply HQ.
Qed.

(** Every file that is not too large on its own is attached. *)
Lemma wp_downloadAttachments p w (Q : list File -> World -> Prop) :
  poster <> UnavailableAPI ->
  (forall id, id ∈ poFileIds p -> file_available id /\ fiSize (info id) <= MaxFileBytes) ->
  (forall w', Q (map file_of (poFileIds p)) w') -> wp (downloadAttachments poster p) Q w.
Proof.
  intros Hp Hf HQ. unfold downloadAttachments. change (map file_of (poFileIds p)) with ([] ++ map file_of (poFileIds p)) in HQ.
  revert HQ. generalize (@nil File) as out. revert w. induction (poFileIds p) as [|id ids IH]; intros w out HQ; cbn [for_fold].
  - specialize (HQ w). by rewrite app_nil_r in HQ.
  - rewrite wp_bind. apply wp_download_one; [done|apply Hf; left|]. intros w'. apply IH; [intros; apply Hf; by right|].
    intros w''. rewrite <- app_assoc. apply HQ.
Qed.

(** The limit on the size of a single attachment does not keep a dispatch
    within the limit of a frame: when the files of a post, each of them small
    enough to be attached, have more than nine MiB together, every envelope with
    a dispatch that carries them is refused by the receiving side.  (The dispatch
    stays in the outbox and is sent first after every reconnect, so the harness
    is cut off by it.) *)
Theorem attachments_exceed_frame p w :
  poster <> UnavailableAPI ->
  (forall id, id ∈ poFileIds p -> file_available id /\ fiSize (info id) <= MaxFileBytes) ->
  9 * 1024 * 1024 < total_size (poFileIds p) ->
  wp (downloadAttachments poster p) (fun files _ =>
    forall env (d : JobDispatch), en_Payload env = Some (wire_enc d) -> jd_Attachments d = files ->
      exists e, Conn.Recv (Conn.Send env) = Err e) w.
Proof.
  intros Hp Hf Hsum. apply wp_downloadAttachments; [done|done|]. intros _ env d Hpay Hatt.
  apply Recv_too_big. pose proof (dispatch_size env d Hpay) as Hsize. rewrite Hatt in Hsize.
  assert (4 * total_size (poFileIds p)
          <= 3 * Z.of_nat (data_size (map file_of (poFileIds p)))) as H; [|unfold MaxFrame; change (Z.shiftl 12 20) with (12 * 1024 * 1024); lia].
  clear -Hf. induction (poFileIds p) as [|id ids IH]; [done|].
  destruct (Hf id) as ((_ & _ & Hs & Hb) & _); [left|]. specialize (IH ltac:(intros; apply Hf; by right)).
  pose proof (base64_size (content id) Hb). unfold data_size in *. simpl. lia.
Qed.
End Attachments.
