(* ===== verification/Blocked.v ===== *)
(** * A dispatch above the limit of a frame

    What becomes of it: the outbox keeps it until the harness acknowledges it,
    sends it first after every reconnect, and the harness cannot read it. *)

From S2P Require Import Prelude Resume Json Protocol Store Tables World Sqlite StoreFacts Sender Hub HubFacts StateFiles.
From S2P Require Import JsonText Frames.

Open Scope Z_scope.

Section Blocked.
Context {E : Env} {F : FloatText} {W : WebSocket} {L : WebSocketLaws}.

(** The message is pending for the harness, and none was made before it. *)
Definition oldest_pending (harness : string) (m : OutboxMessage) (d : DB) : Prop :=
  (exists id, t_outbox d !! id = Some m) /\ mHarnessID m = harness /\ mAckedAt m = None
  /\ forall id m', t_outbox d !! id = Some m' -> mHarnessID m' = harness -> mAckedAt m' = None ->
       m' = m \/ mCreatedAt m < mCreatedAt m' \/ (mCreatedAt m = mCreatedAt m' /\ ~ String.le (mID m') (mID m)).

Lemma pending_head harness m d l :
  oldest_pending harness m d -> select_pending_outbox harness d = SqlOk l -> exists rest, l = m :: rest.
Proof.
  intros (Hrow & Hh & Ha & Hfirst) Hl. unfold select_pending_outbox in Hl. simplify_eq.
  set (P := fun r => String.eqb (mHarnessID r) (mHarnessID m) && unacked r).
  assert (forall x, x ∈ order_by_id mCreatedAt mID (select P (t_outbox d)) <->
    (exists id, t_outbox d !! id = Some x) /\ mHarnessID x = mHarnessID m /\ mAckedAt x = None) as Hin.
  { intros x. rewrite elem_of_order_by_id, elem_of_select. unfold P. rewrite andb_true_iff, String.eqb_eq.
    unfold unacked. rewrite negb_true_iff, bool_decide_eq_false, <- eq_None_not_Some. naive_solver. }
  pose proof (order_by_id_sorted mCreatedAt mID (select P (t_outbox d))) as Hs.
  destruct (order_by_id mCreatedAt mID (select P (t_outbox d))) as [|x rest] eqn:El.
  { assert (m ∈ @nil OutboxMessage) as Hm by (apply Hin; eauto). by apply elem_of_nil in Hm. }
  destruct (proj1 (Hin x) ltac:(left)) as ((id & Hid) & Hhx & Hax).
  destruct (Hfirst id x Hid ltac:(congruence) Hax) as [->|Hc]; [by exists rest|exfalso].
  assert (m ∈ x :: rest) as Hm by (apply Hin; eauto).
  apply elem_of_cons in Hm as [->|Hm]; [destruct Hc as [?|[_ Hc]]; [lia|by apply Hc]|].
  apply StronglySorted_inv in Hs as [_ Hs]. rewrite Forall_forall in Hs.
  destruct (Hs m Hm) as [?|[? Hle]]; destruct Hc as [?|[? Hc]]; try lia. by apply Hc.
Qed.

(** Every flush to the harness begins with the dispatch, in a frame the harness
    refuses, and leaves it where it is. *)
Theorem oversized_dispatch_blocks `{!NoFaults E} harness c m (d : JobDispatch) w :
  oldest_pending harness m (w_db w) -> mPayload m = Some (wire_enc d) ->
  MaxFrame < Z.of_nat (data_size (jd_Attachments d)) ->
  wp (flushOutbox harness c) (fun r w' =>
    oldest_pending harness m (w_db w')
    /\ exists evs, w_trace w' = w_trace w ++ evs
       /\ (is_ok r = true -> evs <> [])
       /\ match evs with
          | [] => True
          | EvSend c' env _ :: _ => c' = c /\ en_ID env = mID m /\ exists e, Conn.Recv (Conn.Send env) = Err e
          | _ => False
          end) w.
Proof.
  intros Hold Hp Hsize. eapply wp_mono; [|apply flushOutbox_spec].
  intros r w' (l & evs & k & Hl & Hdb & Htr & Hf & Hok). rewrite Hdb. split; [done|]. exists evs. split; [done|].
  destruct (pending_head harness m (w_db w) l Hold Hl) as [rest ->]. split.
  - intros Hr. destruct (Hok Hr) as [Hk _]. destruct k as [|k]; [simpl in Hk; lia|]. simpl in Hf. by inv Hf.
  - destruct k as [|k]; simpl in Hf; inv Hf; [done|].
    match goal with H : exists now ok, _ |- _ => destruct H as (now & ok & ->) end.
    split; [done|]. split; [done|]. apply Recv_too_big. eapply Z.lt_le_trans; [exact Hsize|].
    apply dispatch_size. exact Hp.
Qed.
End Blocked.
