(* ===== verification/FrameWitnesses.v ===== *)
(** * The theorems on frames, applied

    A WebSocket library that keeps its read limit, a result that crosses it, and
    a post with two files of five MiB. *)

From S2P Require Import Prelude Resume GoText Codec Json Protocol Store World Core HarnessText StateFiles JsonText JsonTextFacts Frames Demo.

Open Scope Z_scope.

#[export] Instance demo_socket : WebSocket := {|
  ws_Read limit typ b :=
    if limit <? Z.of_nat (length b) then Err (ErrOther "read limited at 12582912 bytes") else Ok (typ, b)
|}.
#[export] Instance demo_socket_laws : WebSocketLaws.
Proof.
  split; intros limit typ b H; cbn.
  - by rewrite (proj2 (Z.ltb_ge _ _)) by lia.
  - rewrite (proj2 (Z.ltb_lt _ _)) by lia. eauto.
Qed.
#[export] Instance demo_floats : FloatText := {|
  format_float _ := bytes_of "0.5";
  parse_float _ := (1 # 2)%Q
|}.

(** Apostrophes stand for quotation marks. *)
Definition quoted_text (s : string) : string := str_of (map (fun b => if b =? 39 then 34 else b) (bytes_of s)).

Definition sent_result : JobResult :=
  MkJobResult StatusSucceeded (quoted_text "a <b> & 'quoted'" +:+ nl +:+ "é😀") None
    [MkFile "a.txt" "text/plain" "YQ=="] (MkUsage 3 1200 0).
Definition result_envelope : Envelope := new_envelope "msg_1" epoch TypeJobResult "job_1" sent_result.

Lemma sent_result_ok : wire_ok sent_result.
Proof.
  unfold sent_result. cbn [wire_ok wire_JobResult jr_Status jr_Text jr_Error jr_Files jr_Usage].
  split; [vm_compute; reflexivity|]. split; [vm_compute; reflexivity|]. split; [exact I|]. split.
  - apply Forall_cons_2; [|apply Forall_nil_2]. cbn [wire_ok wire_File fi_Name fi_Mime fi_DataB64].
    split; [vm_compute; reflexivity|]. split; vm_compute; reflexivity.
  - cbn [wire_ok wire_Usage us_Turns us_DurationMS us_CostUSD].
    split; [vm_compute; split; [discriminate|reflexivity]|].
    split; [vm_compute; split; [discriminate|reflexivity]|]. intros _. reflexivity.
Qed.

Lemma result_envelope_ok : envelope_ok result_envelope.
Proof.
  split; [|split; discriminate]. unfold result_envelope, new_envelope.
  cbn [wire_ok wire_Envelope en_ID en_Type en_JobID en_Ref en_TS].
  repeat (split; [vm_compute; reflexivity|]). vm_compute. split; [discriminate|reflexivity].
Qed.

Lemma frames_round_trip_witness :
  Conn.Recv (Conn.Send result_envelope) = Ok result_envelope /\ Decode result_envelope = (sent_result, true).
Proof.
  destruct frames_round_trip as (_ & (_ & _ & _ & H) & _).
  apply (H result_envelope sent_result result_envelope_ok); [reflexivity|exact sent_result_ok| |].
  - intros E. vm_compute in E. discriminate E.
  - vm_compute. discriminate.
Defined.

(** Frames, computed. *)
Example sent_text : str_of (Conn.Send (MkEnvelope "m" "ping" "" "" 7 (Some (wire_enc (MkPing 2))))).2
  = quoted_text "{'id':'m','type':'ping','ts':7,'payload':{'jobs':2}}".
Proof. vm_compute. reflexivity. Qed.
Example received_text :
  Conn.Recv (MessageText, bytes_of (quoted_text "{'ID': 'm', 'type': 'ping', 'payload': null, 'other': [1.5e3]}"))
  = Ok (MkEnvelope "m" "ping" "" "" 0 (Some JNull))
  /\ Conn.Recv (MessageBinary, bytes_of "{}") = Err (ErrOther "wire: binary frame")
  /\ Conn.Recv (MessageText, bytes_of (quoted_text "{'id':'m'}")) = Err (ErrOther "wire: envelope without id or type")
  /\ Conn.Recv (MessageText, bytes_of (quoted_text "{'id':1}")) = Err (ErrOther "wire: bad envelope").
Proof. vm_compute. done. Qed.

(** ** Two photos *)

Definition photo_size : Z := 5 * 1024 * 1024.
Definition photo : list Z := repeat 255 (Z.to_nat photo_size).
Definition photo_info (id : string) : FileInfo := MkFileInfo id photo_size "photo.jpg" "image/jpeg".

Definition photo_env : Env := {|
  mm_download_file _ _ _ := Ok photo;
  mm_get_file_info _ _ id := Ok (photo_info id);
  clock := clock;
  ulid_make := ulid_make; rand_read := rand_read; db_fault := db_fault; mm_create_post := mm_create_post;
  mm_update_post := mm_update_post; mm_get_user := mm_get_user; mm_get_thread := mm_get_thread;
  mm_direct_channel := mm_direct_channel; mm_upload_file := mm_upload_file;
  ws_write := ws_write; decode_error_text := decode_error_text;
  local_rfc822 := local_rfc822; local_kitchen := local_kitchen; MaxMessageLen := MaxMessageLen;
  provisioner_for := provisioner_for; pv_get_channel := pv_get_channel; pv_get_user := pv_get_user;
  pv_create_bot := pv_create_bot; pv_create_bot_token := pv_create_bot_token; pv_add_team_member := pv_add_team_member;
  pv_add_channel_member := pv_add_channel_member; pv_create_incoming := pv_create_incoming;
  pv_create_outgoing := pv_create_outgoing; pv_delete_outgoing := pv_delete_outgoing;
  pv_delete_incoming := pv_delete_incoming; pv_disable_bot := pv_disable_bot
|}.

Definition photo_post : Post := MkPost "p1" "alice" "chan1" "" "@alice-bot look at these" "" 0 0 ["photo1"; "photo2"] false None.

Lemma attachments_exceed_frame_witness :
  wp (downloadAttachments (E := photo_env) Shared photo_post) (fun files _ =>
    forall env (d : JobDispatch), en_Payload env = Some (wire_enc d) -> jd_Attachments d = files ->
      exists e, Conn.Recv (Conn.Send env) = Err e) demo_world.
Proof.
  apply (attachments_exceed_frame (E := photo_env) Shared photo_info (fun _ => photo) photo_post demo_world); [done| |done].
  intros id _. split; [|done]. split; [done|]. split; [done|]. split.
  - unfold photo. rewrite repeat_length. unfold photo_info, photo_size. cbn [fiSize]. lia.
  - unfold photo. generalize (Z.to_nat photo_size) as n. intros n. unfold is_byte. induction n; constructor; [lia|done].
Defined.
