(* ===== verification/HarnessClient.v ===== *)
(** * The harness's connection ([internal/harness/client])

    Reconnecting with backoff, the handshake, heartbeat and read loop, and
    sending through the outbox.  The client calls the daemon through
    [MessageHandler]; [Daemon] is its instance.  A loop is a goroutine that
    starts itself again: one turn of [Run], of the heartbeat and of the read
    loop is one program.  The context of [Run] is the process's: it does not
    end in this model. *)

From S2P Require Import Prelude Resume GoText Json Protocol Rely HarnessText HarnessWorld StateFiles.

Open Scope Z_scope.
Open Scope prog_scope.

(** ** Sending *)

Section Sending.
Context {E : HEnv}.

Definition ErrDisconnected : error := ErrOther "client: not connected".

Definition client_Send (env : Envelope) : prog HWorld (res unit) :=
  conn <- look hw_conn ;;
  match conn with
  | None => Ret (Err ErrDisconnected)
  | Some c => frame_send c env
  end.

(** Stored, then sent when connected: [ErrDisconnected] is no error. *)
Definition client_SendReliable (env : Envelope) : prog HWorld (res unit) :=
  if negb (NeedsAck (en_Type env))
  then Ret (Err (ErrOther ("client: SendReliable on fire-and-forget type " +:+ en_Type env)))
  else
    r <- Outbox_Add env ;;
    match r with
    | Err e => Ret (Err e)
    | Ok _ =>
        conn <- look hw_conn ;;
        match conn with
        | None => Ret (Ok tt)
        | Some c => frame_send c env
        end
    end.

Definition client_Connected : prog HWorld bool :=
  look (fun w => bool_decide (is_Some (hw_conn w))).
End Sending.

(** ** What the client asks of the daemon *)

Class MessageHandler : Type := {
  HelloMessage : prog HWorld Hello;
  OnWelcome : Welcome -> prog HWorld unit;
  OnDispatch : string -> JobDispatch -> prog HWorld Ack;
  OnCancel : string -> JobCancel -> prog HWorld Ack;
  OnApprovalResponse : string -> ApprovalResponse -> prog HWorld Ack
}.

Section Client.
Context {E : HEnv} {H : MessageHandler}.

Definition PongTimeout : Duration := 10 * second.
Definition MaxBackoff : Duration := 60 * second.
Definition healthyConnection : Duration := minute.
Definition DefaultHeartbeat : Duration := 15 * second.

(** [errCh <- err] *)
Definition report (c : nat) (e : error) : prog HWorld unit :=
  change (fun w => set_failed (hw_failed w ++ [(c, e)]) w).

(** *** Messages *)

Definition bad_payload_ack (env : Envelope) : Ack := MkAck false NackBadPayload (decode_error env).

Definition answer_ack (c : nat) (env : Envelope) (ack : Ack) : prog HWorld unit :=
  reply <- make_reply TypeAck env ack ;;
  _ <- frame_send c reply ;; Ret tt.

(** [pongCh] has room for one value. *)
Definition put_pong (c : nat) (w : HWorld) : HWorld :=
  if bool_decide (c ∈ hw_pongs w) then w else set_pongs (c :: hw_pongs w) w.

Definition client_handle (c : nat) (env : Envelope) : prog HWorld unit :=
  let typ := en_Type env in
  if String.eqb typ TypePong then change (put_pong c)
  else if String.eqb typ TypeAck then _ <- Outbox_Ack (en_Ref env) ;; Ret tt
  else if String.eqb typ TypeError then Ret tt
  else if String.eqb typ TypeJobDispatch then
    ack <- match Decode (T := JobDispatch) env with
           | (d, true) => OnDispatch (en_JobID env) d
           | (_, false) => Ret (bad_payload_ack env)
           end ;;
    answer_ack c env ack
  else if String.eqb typ TypeJobCancel then
    ack <- match Decode (T := JobCancel) env with
           | (jc, true) => OnCancel (en_JobID env) jc
           | (_, false) => Ret (bad_payload_ack env)
           end ;;
    answer_ack c env ack
  else if String.eqb typ TypeApprovalResponse then
    ack <- match Decode (T := ApprovalResponse) env with
           | (r, true) => OnApprovalResponse (en_JobID env) r
           | (_, false) => Ret (bad_payload_ack env)
           end ;;
    answer_ack c env ack
  else
    e <- make_reply TypeError env (MkError ErrUnknownType typ) ;;
    _ <- frame_send c e ;; Ret tt.

(** *** Loops *)

(** One turn of [readLoop]. *)
Definition readLoop (c : nat) : prog HWorld unit :=
  r <- Recv c ;;
  match r with
  | Err e => report c e
  | Ok env => client_handle c env ;; change (go (GoRead c))
  end.

Definition when_stopped {X} (c : nat) (x : X) (w : HWorld) : option (X * HWorld) :=
  if bool_decide (c ∈ hw_stopped w) then Some (x, w) else None.
Definition take_pong {X} (c : nat) (x : X) (w : HWorld) : option (X * HWorld) :=
  if bool_decide (c ∈ hw_pongs w)
  then Some (x, set_pongs (List.filter (fun y => negb (Nat.eqb y c)) (hw_pongs w)) w) else None.

Inductive BeatEvent : Type := BeatStopped | BeatGo | BeatLate.

(** One turn of [heartbeatLoop]. *)
Definition heartbeatLoop (c : nat) (interval : Duration) : prog HWorld unit :=
  due <- consult (fun t => next_tick t interval) ;;
  ev <- choose [when_stopped c BeatStopped; at_time due BeatGo] ;;
  match ev with
  | BeatStopped | BeatLate => report c ErrStopped
  | BeatGo =>
      h <- HelloMessage ;;
      ping <- make_envelope TypePing "" (MkPing (Z.of_nat (length (he_Jobs h)))) ;;
      r <- frame_send c ping ;;
      match r with
      | Err e => report c e
      | Ok _ =>
          t <- now ;;
          ev <- choose [when_stopped c BeatStopped; take_pong c BeatGo; at_time (t + PongTimeout) BeatLate] ;;
          match ev with
          | BeatStopped => report c ErrStopped
          | BeatGo => change (go (GoHeartbeat c interval))
          | BeatLate => report c (ErrOther "client: pong timeout")
          end
      end
  end.

(** *** A session *)

Fixpoint send_pending (c : nat) (pending : list Envelope) : prog HWorld (res unit) :=
  match pending with
  | [] => Ret (Ok tt)
  | env :: rest =>
      r <- frame_send c env ;;
      match r with
      | Err e => Ret (Err e)
      | Ok _ => send_pending c rest
      end
  end.

(** [err = <-errCh] *)
Definition first_error (c : nat) : prog HWorld error :=
  live (fun w =>
    match List.find (fun ce => Nat.eqb ce.1 c) (hw_failed w) with
    | Some ce => Some (ce.2, w)
    | None => None
    end).

Definition stop (c : nat) (w : HWorld) : HWorld := set_stopped (c :: hw_stopped w) w.

Definition heartbeat_of (w : Welcome) : Duration :=
  let d := wrap64 (we_HeartbeatIntervalMS w * millisecond) in
  if d <=? 0 then DefaultHeartbeat else d.

(** From the welcome on; the deferred section clears the connection. *)
Definition session_connected (c : nat) (welcome : Welcome) : prog HWorld error :=
  change (set_conn (Some c)) ;;
  OnWelcome welcome ;;
  pending <- Outbox_Pending ;;
  r <- send_pending c pending ;;
  e <- match r with
       | Err e => Ret e
       | Ok _ =>
           change (go (GoHeartbeat c (heartbeat_of welcome))) ;;
           change (go (GoRead c)) ;;
           e <- first_error c ;;
           change (stop c) ;; Ret e
       end ;;
  change (set_conn None) ;; Ret e.

(** The handshake: what the broker says first. *)
Definition expect_welcome (r : res Envelope) : res Welcome :=
  match r with
  | Err e => Err e
  | Ok env =>
      if negb (String.eqb (en_Type env) TypeWelcome)
      then Err (ErrOther ("client: expected welcome, got " +:+ en_Type env))
      else match Decode (T := Welcome) env with
           | (w, true) => Ok w
           | (_, false) => Err (ErrOther (decode_error env))
           end
  end.

Definition session_on (c : nat) : prog HWorld error :=
  h <- HelloMessage ;;
  hello <- make_envelope TypeHello "" h ;;
  r <- frame_send c hello ;;
  match r with
  | Err e => Ret e
  | Ok _ =>
      r <- Recv c ;;
      match expect_welcome r with
      | Err e => Ret e
      | Ok welcome => session_connected c welcome
      end
  end.

Definition new_conn (w : HWorld) : nat * HWorld := (hw_dialled w, set_dialled (S (hw_dialled w)) w).

Definition session : prog HWorld error :=
  r <- consult dial ;;
  match r with
  | Err e => Ret e
  | Ok _ =>
      c <- act new_conn ;;
      e <- session_on c ;;
      change (stop c) ;; Ret e
  end.

(** *** Reconnecting *)

(** A close code after which [Run] gives up. *)
Definition permanent (e : error) : bool :=
  (CloseStatus e =? CloseUnauthorized) || (CloseStatus e =? CloseVersionTooOld).

(** The delay before the next attempt: after a connection that stood long
    enough the minimum again. *)
Definition retry_delay (backoff started ended : Time) : Duration :=
  if healthyConnection <? ended - started then second else backoff.
Definition next_backoff (backoff : Duration) : Duration := Z.min (backoff * 2) MaxBackoff.

(** One turn of [Run], up to the wait: the goroutine goes to sleep for the
    backoff and the jitter, and takes its next turn when that is over. *)
Definition Run (backoff : Duration) : prog HWorld unit :=
  started <- now ;;
  e <- session ;;
  if permanent e then Ret tt
  else
    t <- now ;;
    let backoff := retry_delay backoff started t in
    jitter <- consult (fun t => jitter_below t (Z.quot backoff 4)) ;;
    t <- now ;;
    change (go (GoConnect (Some (t, t + (backoff + jitter))) (next_backoff backoff))).
End Client.
