(* ===== verification/Daemon.v ===== *)
(** * The harness ([internal/harness/harness.go], [permission/permission.go])

    Accepting dispatches, running a job on an agent, progress, cancelling, and
    the approval of tool calls.  A job is an index into the heap of jobs, as
    the goroutines that keep a pointer to it see it.  Sections under
    [Harness.mu] are single steps, since none of them calls out; the one of
    [OnDispatch] also reads the sessions and waits for their mutex. *)

From S2P Require Import Prelude Resume GoText Codec Json Protocol Rely HarnessText HarnessWorld StateFiles HarnessClient.

Open Scope Z_scope.
Open Scope prog_scope.

(** ** The registry of agents ([agent.Registry], [buildAgents]) *)

Definition AgentClaude : string := "claude".
Definition AgentCodex : string := "codex".
Definition candidates : list string := [AgentClaude; AgentCodex].

Section Registry.
Context {E : HEnv}.

(** The agents whose binary is there; the default one has to be. *)
Fixpoint build_agents (default_agent : string) (names : list string) : res (list string) :=
  match names with
  | [] => Ok []
  | a :: rest =>
      match agent_check a with
      | Some msg =>
          if String.eqb a default_agent
          then Err (ErrOther ("default agent " +:+ a +:+ ": " +:+ msg))
          else build_agents default_agent rest
      | None => res_map (cons a) (build_agents default_agent rest)
      end
  end.
Definition buildAgents (cfg : HarnessConfig) : res (list string) := build_agents (cfAgent cfg) candidates.

(** [socketPath]: the path of a Unix socket has to stay short. *)
Definition socketPath : string :=
  let p := state_dir +:+ "/permission.sock" in
  if (String.length p <? 100)%nat then p
  else temp_dir +:+ "/mhb-" +:+ Itoa pid +:+ ".sock".
End Registry.

(** [permission.FullName] *)
Definition FullName : string := "mcp__harness__approve".

(** [permission.MCPConfig] *)
Definition MCPConfig (bin socket jobID : string) : json :=
  JObj [("mcpServers", JObj [("harness", JObj
    [("args", JArr (map enc_string ["harness"; "mcp-permissions"; "--socket"; socket; "--job"; jobID]));
     ("command", enc_string bin)])])].

Definition DefaultWorkspaceName : string := "_default".
Definition ProgressInterval : Duration := 700 * millisecond.

(** ** Choosing the workspace and the agent *)

Definition resolveWorkspace (cfg : HarnessConfig) (d : JobDispatch) (session : Entry) (hasSession : bool)
    : string * string * bool :=
  if negb (String.eqb (jd_Workspace d) "") then
    match cfWorkspaces cfg !! jd_Workspace d with
    | Some dir => (jd_Workspace d, dir, true)
    | None => (jd_Workspace d, "", false)
    end
  else
    let fallback := (DefaultWorkspaceName, cfDefaultWorkspace cfg, true) in
    if hasSession then
      if String.eqb (seWorkspace session) DefaultWorkspaceName then fallback
      else match cfWorkspaces cfg !! seWorkspace session with
           | Some dir => (seWorkspace session, dir, true)
           | None => fallback
           end
    else fallback.

Definition resolveAgent (cfg : HarnessConfig) (d : JobDispatch) (session : Entry) (hasSession : bool) : string :=
  if negb (String.eqb (jd_Agent d) "") then jd_Agent d
  else if hasSession && negb (String.eqb (seAgent session) "") then seAgent session
  else cfAgent cfg.

(** The names of a Go map come in no particular order. *)
Definition WorkspaceNames (cfg : HarnessConfig) : list string := (map_to_list (cfWorkspaces cfg)).*1.
Definition sort_strings (l : list string) : list string := order_by_text id l.

(** [%q], on texts whose characters beyond ASCII are printable. *)
Definition quote_go_seg (seg : Z * list Z) : list Z :=
  let '(r, bs) := seg in
  if (r =? 34) || (r =? 92) then [92; r]
  else if in_range 7 r 13 then 92 :: [nth (Z.to_nat (r - 7)) [97; 98; 116; 110; 118; 102; 114] 0]
  else if (r <? 32) || (r =? 127) then 92 :: 120 :: hex_byte r
  else if (r =? RuneError) && (length bs =? 1)%nat then 92 :: 120 :: concat (map hex_byte bs)
  else bs.
Definition quoted (s : string) : string := str_of (34 :: concat (map quote_go_seg (segs (bytes_of s))) ++ [34]).

Example quoted_ex : quoted ("a" +:+ nl +:+ "b\") = dquote +:+ "a\nb\\" +:+ dquote.
Proof. vm_compute. reflexivity. Qed.

Section Daemon.
Context {E : HEnv} (cfg : HarnessConfig) (registry : list string).

Definition get_agent (name : string) : res unit :=
  if bool_decide (name ∈ registry) then Ok tt
  else Err (ErrOther ("agent: unknown agent: " +:+ quoted name)).

(** ** Access to jobs and channels *)

Definition with_job (j : nat) (f : HJob -> HJob) (w : HWorld) : HWorld := set_objs (alter f j (hw_objs w)) w.
Definition job_at (j : nat) (w : HWorld) : option HJob := hw_objs w !! j.
Definition find_job (jobID : string) (w : HWorld) : option nat := hw_jobs w !! jobID.

Definition cancel (j : nat) : prog HWorld unit := change (with_job j (set_cancelled_job true)).
Definition setPhase (j : nat) (phase : string) : prog HWorld unit := change (with_job j (set_job_phase phase)).

(** [close(ch)]; closing twice panics. *)
Definition close_chan (ch : nat) (w : HWorld) : HWorld :=
  match hw_chans w !! ch with
  | Some c =>
      if chClosed c then panic "close of closed channel" w
      else set_chans (<[ch := MkChan (chBuf c) true]> (hw_chans w)) w
  | None => w
  end.

(** ** Hello and progress *)

Definition hello_job_of (j : HJob) : HelloJob :=
  MkHelloJob (hjId j) (hjPhase j) (hjSeq j) (map_to_list (hjApprovals j)).*1.
Definition hello_of (host : string) (w : HWorld) : Hello :=
  MkHello harness_version host (sort_strings (WorkspaceNames cfg)) (cfMaxJobs cfg)
    (map hello_job_of (omap (fun j => job_at j w) (map_to_list (hw_jobs w)).*2)).

Definition hello : prog HWorld Hello :=
  host <- consult hostname ;; look (hello_of host).

Definition waiting_text : string := "_(reconnected, waiting for the next update)_".

(** The section of [sendProgress]: the next number, with the phase. *)
Definition next_progress (j : nat) (text tool : string) (turns : Z) (w : HWorld) : (string * JobProgress) * HWorld :=
  let w' := with_job j (fun o => set_seq (hjSeq o + 1) o) w in
  match job_at j w' with
  | Some o => ((hjId o, MkJobProgress (hjSeq o) (hjPhase o) text tool turns), w')
  | None => (("", MkJobProgress 0 "" text tool turns), w')
  end.

Definition sendProgress (j : nat) (text tool : string) (turns : Z) (refresh : bool) : prog HWorld unit :=
  jp <- act (next_progress j text tool turns) ;;
  let '(jobID, p) := jp in
  let p := if refresh && String.eqb text ""
           then MkJobProgress (jp_Seq p) (jp_Phase p) waiting_text (jp_CurrentTool p) (jp_Turns p) else p in
  env <- make_envelope TypeJobProgress jobID p ;;
  _ <- client_Send env ;; Ret tt.

Definition harness_OnWelcome (welcome : Welcome) : prog HWorld unit :=
  for_each (we_Jobs welcome) (fun wj =>
    if negb (String.eqb (wj_Action wj) ActionAbort) then Ret tt
    else
      j <- look (find_job (wj_JobID wj)) ;;
      match j with Some j => cancel j | None => Ret tt end) ;;
  jobs <- look (fun w => (map_to_list (hw_jobs w)).*2) ;;
  for_each jobs (fun j => sendProgress j "" "" 0 true).

(** ** Dispatch *)

Definition dispatched_job (jobID : string) (d : JobDispatch) (workspace dir agent : string) (deadline : option Time) : HJob :=
  MkHJob jobID (th_RootPostID (jd_Thread d)) (jd_BotUserID d) workspace dir agent deadline false 0 PhaseStarting ∅.

(** [context.WithTimeout], or a context without a deadline. *)
Definition deadline_of (d : JobDispatch) (w : HWorld) : option Time :=
  let ms := li_TimeoutMS (jd_Limits d) in
  if 0 <? ms then Some (hclock (hw_tick w) + wrap64 (ms * millisecond)) else None.

(** [ctx.Err() != nil] *)
Definition ctx_ended (o : HJob) (w : HWorld) : bool :=
  hjCancelled o || match hjDeadline o with Some t => t <=? hclock (hw_tick w) | None => false end.

(** The job is made, put into the table and its goroutine started. *)
Definition start_job (jobID : string) (d : JobDispatch) (workspace dir agent : string) (w : HWorld) : HWorld :=
  let j := length (hw_objs w) in
  let w := set_objs (hw_objs w ++ [dispatched_job jobID d workspace dir agent (deadline_of d w)]) w in
  let w := set_hjobs (<[jobID := j]> (hw_jobs w)) w in
  go (GoRun j d) (hrecord [HvAccepted jobID d] w).

Definition nack (code msg : string) : Ack := MkAck false code msg.
Definition ack_ok : Ack := MkAck true "" "".

Definition unknown_workspace (d : JobDispatch) : Ack :=
  nack NackWorkspaceUnknown ("workspace " +:+ quoted (jd_Workspace d) +:+ " not configured; known: "
    +:+ Join (WorkspaceNames cfg) ", ").
Definition unknown_agent (name : string) : Ack :=
  nack NackAgentUnknown ("agent " +:+ quoted name +:+ " not available on this harness; available: "
    +:+ Join (sort_strings registry) ", ").
Definition busy (n : nat) : Ack :=
  nack NackBusy ("already running " +:+ Itoa (Z.of_nat n) +:+ " job(s)").

(** The section under [mu], for a job that is not in the table. *)
Definition accept_dispatch (jobID : string) (d : JobDispatch) (w : HWorld) : Ack * HWorld :=
  let '(session, hasSession) := session_of (jd_BotUserID d) (th_RootPostID (jd_Thread d)) w in
  let '(wsName, wsDir, ok) := resolveWorkspace cfg d session hasSession in
  if negb ok then (unknown_workspace d, w)
  else
    let agentName := resolveAgent cfg d session hasSession in
    match get_agent agentName with
    | Err _ => (unknown_agent agentName, w)
    | Ok _ =>
        if cfMaxJobs cfg <=? Z.of_nat (size (hw_jobs w)) then (busy (size (hw_jobs w)), w)
        else (ack_ok, start_job jobID d wsName wsDir agentName w)
    end.

Definition harness_OnDispatch (jobID : string) (d : JobDispatch) : prog HWorld Ack :=
  if negb (String.eqb (rq_MMUserID (jd_Requester d)) (cfOwnerMMUserID cfg))
  then Ret (nack NackForbidden "requester is not the harness owner")
  else if String.eqb (jd_BotUserID d) "" || String.eqb (th_RootPostID (jd_Thread d)) ""
  then Ret (nack NackBadPayload "bot_user_id and root_post_id are required")
  else
    live (fun w =>
      match find_job jobID w with
      | Some _ => Some (ack_ok, w)
      | None => if held sessionsMu w then None else Some (accept_dispatch jobID d w)
      end).

(** ** Running a job *)

(** Everything that waits for an approval is told that the job ended. *)
Definition close_approvals (j : nat) (w : HWorld) : HWorld :=
  match job_at j w with
  | Some o =>
      with_job j (set_approvals_of ∅) (foldr close_chan w (map_to_list (hjApprovals o)).*2)
  | None => w
  end.

Definition result_of (res : Result) (duration : Z) : JobResult :=
  MkJobResult (rsStatus res) (rsText res)
    (if String.eqb (rsErrCode res) "" then None else Some (MkJobError (rsErrCode res) (rsErrMessage res)))
    [] (MkUsage (rsTurns res) duration (rsCostUSD res)).

Definition finish (j : nat) (jobID : string) (res : Result) (start : Time) : prog HWorld unit :=
  change (close_approvals j) ;;
  duration <- (if rsDurationMS res =? 0
               then t <- now ;; Ret (Z.quot (t - start) millisecond) else Ret (rsDurationMS res)) ;;
  env <- make_envelope TypeJobResult jobID (result_of res duration) ;;
  _ <- client_SendReliable env ;; Ret tt.

Definition harness_failure (msg : string) : Result := MkResult StatusFailed "" "" 0 0%Q 0 "harness" msg.

(** The progress goroutine, while the agent runs: the latest snapshot at every tick. *)
Definition progress_step (j : nat) (latest : option AgentEvent) (s : RunStep) : prog HWorld (option AgentEvent) :=
  match s, latest with
  | Snapshot e, _ => Ret (Some e)
  | Tick, None => Ret None
  | Tick, Some e =>
      setPhase j PhaseRunning ;;
      sendProgress j (aeText e) (aeCurrentTool e) (aeTurns e) false ;;
      Ret None
  | AwaitContext, _ =>
      live (fun w =>
        match job_at j w with
        | Some o => if ctx_ended o w then Some (latest, w) else None
        | None => Some (latest, w)
        end)
  | Hang, _ => live (fun _ => None)
  end.

(** [writeAttachments]: stops at the first file that cannot be written. *)
Definition attachment_name (f : File) : string :=
  let name := path_base (fi_Name f) in
  if String.eqb name "." || String.eqb name "/" || String.eqb name "" then "attachment" else name.

Fixpoint write_files (dir : string) (files : list File) (names : list string) : prog HWorld (res (list string)) :=
  match files with
  | [] => Ret (Ok names)
  | f :: rest =>
      match base64_decode (fi_DataB64 f) with
      | None => Ret (Err (ErrOther "illegal base64 data"))
      | Some data =>
          let p := dir +:+ "/" +:+ attachment_name f in
          r <- os_WriteFile p (Bytes data) ;;
          match r with
          | Err e => Ret (Err e)
          | Ok _ => write_files dir rest (names ++ [p])
          end
      end
  end.

Definition writeAttachments (dir : string) (files : list File) : prog HWorld (res (list string)) :=
  r <- os_MkdirAll ;;
  match r with
  | Err e => Ret (Err e)
  | Ok _ => write_files dir files []
  end.

Definition jobs_dir : string := state_dir +:+ "/jobs".
Definition mcp_path (jobID : string) : string := jobs_dir +:+ "/" +:+ jobID +:+ ".mcp.json".
Definition attachments_dir (jobID : string) : string := jobs_dir +:+ "/" +:+ jobID +:+ ".attachments".

(** The session of the thread is continued on the same agent in the same
    workspace only. *)
Definition resume_id (o : HJob) (session : Entry * bool) : string :=
  let '(e, ok) := session in
  if ok && String.eqb (seWorkspace e) (hjWorkspace o) && String.eqb (seAgent e) (hjAgent o)
  then seSessionID e else "".

Definition with_history (d : JobDispatch) (resume : string) : string :=
  if String.eqb resume "" && negb (is_empty_list (jd_History d))
  then renderHistory (jd_History d) MaxHistoryChars +:+ nl +:+ nl +:+ jd_Prompt d
  else jd_Prompt d.

Definition options_for (o : HJob) (d : JobDispatch) (resume prompt mcp tool : string) : Options :=
  let turns := li_MaxTurns (jd_Limits d) in
  MkOptions (hjDir o) prompt resume (if turns <=? 0 then cfDefaultMaxTurns cfg else turns) (cfModel cfg)
    (systemPrompt (rq_Username (jd_Requester d)) (agent_approvals (hjAgent o)))
    mcp tool (cfAllowedTools cfg) (cfDisallowedTools cfg).

(** The attachments next to the prompt; without them when one cannot be
    written.  The flag tells whether they are there, to be removed. *)
Definition attach_files (o : HJob) (d : JobDispatch) (prompt : string) : prog HWorld (string * bool) :=
  if is_empty_list (jd_Attachments d) then Ret (prompt, false)
  else
    r <- writeAttachments (attachments_dir (hjId o)) (jd_Attachments d) ;;
    match r with
    | Ok names =>
        Ret (prompt +:+ nl +:+ nl +:+ "Attached files from the chat message: " +:+ Join names ", ", true)
    | Err _ => Ret (prompt, false)
    end.

(** The agent runs, while progress is sent. *)
Definition run_agent (j : nat) (o : HJob) (opt : Options) : prog HWorld Result :=
  steps <- act (fun w => (agent_run (hw_tick w) (hjAgent o) opt,
                          htick (hrecord [HvAgent (hjId o) (hjAgent o) opt] w))) ;;
  let '(events, res) := steps in
  _ <- for_fold events None (progress_step j) ;;
  match res with
  | Ok r => Ret r
  | Err e => Ret (harness_failure (error_text e))
  end.

(** The agent's session is remembered for the thread. *)
Definition save_session (o : HJob) (res : Result) : prog HWorld unit :=
  when (negb (String.eqb (rsSessionID res) ""))
    (_ <- sessions_Put (hjBotUserID o) (hjRootPostID o) (rsSessionID res) (hjWorkspace o) (hjAgent o) ;; Ret tt).

Definition work (j : nat) (o : HJob) (d : JobDispatch) (start : Time) (mcp tool : string) : prog HWorld unit :=
  session <- sessions_Get (hjBotUserID o) (hjRootPostID o) ;;
  let resume := resume_id o session in
  pa <- attach_files o d (with_history d resume) ;;
  let '(prompt, attached) := pa in
  res <- run_agent j o (options_for o d resume prompt mcp tool) ;;
  save_session o res ;;
  finish j (hjId o) res start ;;
  when attached (os_RemoveAll (attachments_dir (hjId o))).

Definition run_job (j : nat) (o : HJob) (d : JobDispatch) (start : Time) : prog HWorld unit :=
  match get_agent (hjAgent o) with
  | Err e => finish j (hjId o) (harness_failure (error_text e)) start
  | Ok _ =>
      if agent_approvals (hjAgent o) then
        r <- os_WriteFile (mcp_path (hjId o)) (Doc (MCPConfig self_path socketPath (hjId o))) ;;
        match r with
        | Err e => finish j (hjId o) (harness_failure (error_text e)) start
        | Ok _ => work j o d start (mcp_path (hjId o)) FullName ;; os_Remove (mcp_path (hjId o))
        end
      else work j o d start "" ""
  end.

(** [run]: whatever happens, the job leaves the table and its context ends. *)
Definition run (j : nat) (d : JobDispatch) : prog HWorld unit :=
  o <- look (job_at j) ;;
  match o with
  | None => Ret tt
  | Some o =>
      start <- now ;;
      run_job j o d start ;;
      change (fun w => set_hjobs (delete (hjId o) (hw_jobs w)) w) ;;
      cancel j
  end.

(** ** Cancelling and approvals *)

Definition harness_OnCancel (jobID : string) (c : JobCancel) : prog HWorld Ack :=
  j <- look (find_job jobID) ;;
  match j with
  | None => Ret (nack NackUnknownJob "")
  | Some j => cancel j ;; Ret ack_ok
  end.

Definition approval_chan (jobID approvalID : string) (w : HWorld) : option nat :=
  j ← find_job jobID w; o ← job_at j w; hjApprovals o !! approvalID.

(** [select { case ch <- r: default: }], outside of any lock: a value on a
    closed channel panics, one for which there is no room is dropped. *)
Definition offer (jobID : string) (ch : nat) (r : ApprovalResponse) (w : HWorld) : HWorld :=
  match hw_chans w !! ch with
  | Some c =>
      if chClosed c then panic "send on closed channel" w
      else match chBuf c with
           | Some _ => w
           | None => hrecord [HvDelivered jobID ch r] (set_chans (<[ch := MkChan (Some r) false]> (hw_chans w)) w)
           end
  | None => w
  end.

Definition harness_OnApprovalResponse (jobID : string) (r : ApprovalResponse) : prog HWorld Ack :=
  ch <- look (approval_chan jobID (ap_ApprovalID r)) ;;
  match ch with
  | None => Ret (nack NackUnknownJob ("no pending approval " +:+ ap_ApprovalID r))
  | Some ch => change (offer jobID ch r) ;; Ret ack_ok
  end.

(** The first section of [decide]: a channel for the answer. *)
Definition ask_section (req : Request) (w : HWorld) : option (nat * HJob * string * nat) * HWorld :=
  match find_job (rqJobID req) w with
  | None => (None, w)
  | Some j =>
      match job_at j w with
      | None => (None, w)
      | Some o =>
          let approvalID := NewID "apr" (hulid (hw_tick w)) in
          let ch := length (hw_chans w) in
          let w := htick (set_chans (hw_chans w ++ [new_chan]) w) in
          let w := with_job j (fun o => set_job_phase PhaseAwaitingApproval
                                          (set_approvals_of (<[approvalID := ch]> (hjApprovals o)) o)) w in
          (Some (j, o, approvalID, ch), hrecord [HvAsked ch approvalID req] w)
      end
  end.

(** The deferred section. *)
Definition unask_job (approvalID : string) (o : HJob) : HJob :=
  let o := set_approvals_of (delete approvalID (hjApprovals o)) o in
  if bool_decide (hjApprovals o = ∅) && String.eqb (hjPhase o) PhaseAwaitingApproval
  then set_job_phase PhaseRunning o else o.

Definition approval_timeout : Duration :=
  let t := wrap64 (cfApprovalTimeoutMin cfg * minute) in
  if t <=? 0 then 30 * minute else t.

Definition approval_request (req : Request) (o : HJob) (approvalID : string) (expires : Time) : ApprovalRequest :=
  MkApprovalRequest approvalID (rqToolName req) (summarize (rqToolName req) (rqInput req))
    (rwDoc (truncateJSON (rqInput req) 4096)) (hjDir o) (unix_milli expires).

Inductive Verdict : Type :=
| Answered (r : ApprovalResponse)
| JobEnded
| TimedOut.

(** [<-ch]: a buffered value first, then the closing. *)
Definition receive (ch : nat) (w : HWorld) : option (Verdict * HWorld) :=
  match hw_chans w !! ch with
  | Some c =>
      match chBuf c with
      | Some r => Some (Answered r, set_chans (<[ch := MkChan None (chClosed c)]> (hw_chans w)) w)
      | None => if chClosed c then Some (JobEnded, w) else None
      end
  | None => None
  end.

(** What the CLI is told. *)
Definition verdict_decision (req : Request) (v : Verdict) : CallDecision :=
  match v with
  | JobEnded => DenyCall "job ended"
  | TimedOut => DenyCall "approval timed out"
  | Answered r =>
      if String.eqb (ap_Decision r) DecisionAllow then AllowCall (rqInput req)
      else DenyCall ("denied by " +:+ ap_DecidedBy r +:+ " in Mattermost")
  end.

(** From the request to the broker to the answer. *)
Definition ask_owner (req : Request) (j : nat) (o : HJob) (approvalID : string) (ch : nat) : prog HWorld CallDecision :=
  t <- now ;;
  let expires := t + approval_timeout in
  env <- make_envelope TypeApprovalRequest (rqJobID req) (approval_request req o approvalID expires) ;;
  r <- client_SendReliable env ;;
  match r with
  | Err e => Ret (DenyCall ("could not reach broker: " +:+ error_text e))
  | Ok _ =>
      sendProgress j "" (rqToolName req) 0 true ;;
      v <- choose [receive ch; at_time expires TimedOut] ;;
      Ret (verdict_decision req v)
  end.

(** [decide]; its context is the background context of [permission.handle],
    which never ends. *)
Definition decide_call (req : Request) : prog HWorld CallDecision :=
  asked <- act (ask_section req) ;;
  match asked with
  | None => Ret (DenyCall "unknown job")
  | Some (j, o, approvalID, ch) =>
      dec <- ask_owner req j o approvalID ch ;;
      change (with_job j (unask_job approvalID)) ;;
      Ret dec
  end.

(** [permission.Server.handle]: one request, one answer; bytes that are no
    request get none. *)
Definition permission_handle : prog HWorld unit :=
  req <- consult read_request ;;
  match req with
  | None => Ret tt
  | Some req =>
      dec <- decide_call req ;;
      change (hrecord [HvAnswer req dec])
  end.

#[export] Instance daemon_handler : MessageHandler := {|
  HelloMessage := hello;
  OnWelcome := harness_OnWelcome;
  OnDispatch := harness_OnDispatch;
  OnCancel := harness_OnCancel;
  OnApprovalResponse := harness_OnApprovalResponse
|}.

(** ** The process *)

(** A started goroutine begins to run. *)
Definition goroutine (g : Goroutine) : prog HWorld unit :=
  match g with
  | GoRun j d => run j d
  | GoConnect _ backoff => Run backoff
  | GoHeartbeat c interval => heartbeatLoop c interval
  | GoRead c => readLoop c
  end.

(** The scheduler picks any goroutine that was started and does not sleep. *)
Definition awake (g : Goroutine) (w : HWorld) : bool :=
  match g with GoConnect (Some (_, until)) _ => until <=? hclock (hw_tick w) | _ => true end.
Definition take_goroutine (n : nat) (w : HWorld) : option (Goroutine * HWorld) :=
  match hw_go w !! n with
  | Some g => if awake g w then Some (g, set_go (take n (hw_go w) ++ drop (S n) (hw_go w)) w) else None
  | None => None
  end.
Definition schedule_goroutine (n : nat) : prog HWorld unit :=
  g <- live (take_goroutine n) ;; goroutine g.

(** What may happen in the process at any time: a started goroutine runs, a
    request arrives on the permission socket, time passes. *)
Inductive daemon_entry : prog HWorld unit -> Prop :=
| entry_goroutine n : daemon_entry (schedule_goroutine n)
| entry_permission : daemon_entry permission_handle
| entry_time : daemon_entry (change htick).

(** [Harness.Run]: the client's loop. *)
Definition daemon_start (files : gmap string FileBody) (outbox : gmap string Envelope)
    (sessions : gmap string Entry) : HWorld :=
  go (GoConnect None second) (started_world files outbox sessions).
End Daemon.

(** ** The side of the CLI ([permission.Ask], [ServeStdio])

    Anything but a well-formed decision of the daemon is a refusal. *)
Definition Ask (reply : res CallDecision) : res CallDecision :=
  match reply with
  | Err e => Err e
  | Ok dec =>
      if negb (String.eqb (cdBehavior dec) "allow") && negb (String.eqb (cdBehavior dec) "deny")
      then Err (ErrOther "permission: invalid decision from daemon") else Ok dec
  end.
Definition told_cli (reply : res CallDecision) : CallDecision :=
  match Ask reply with
  | Ok dec => dec
  | Err e => DenyCall ("harness unreachable: " +:+ error_text e)
  end.
