(* ===== verification/Socket.v ===== *)
(** * The permission socket ([Server] of [permission/permission.go])

    The life of the socket the daemon listens on: the goroutine that accepts
    connections, one goroutine per connection ([permission_handle] of [Daemon]
    is what it does), the wait group that counts them all, and [Close].  When
    [Close] returns nothing of the server is left ([socket_closed]); it returns
    after every connection is answered and not before ([Close_waits],
    [Close_returns]). *)

From S2P Require Import Prelude.

Open Scope Z_scope.

Inductive Closing : Type :=
| NotClosed
| Draining    (** in [wg.Wait], within [once] *)
| IsClosed.

Record Server : Type := MkServer {
  svFile : bool;          (** the socket file *)
  svListening : bool;     (** [ln] is open *)
  svAcceptor : bool;      (** the goroutine of [accept] *)
  svHandlers : nat;       (** goroutines of [handle] *)
  svWait : Z;             (** the counter of [wg] *)
  svClosing : Closing
}.

(** [Start], given what [Listen] and [Chmod] answer; a listener that is closed
    removes its file. *)
Definition Start (path : string) (listen_err chmod_err : option string) : res unit * Server :=
  let idle := MkServer false false false 0 0 NotClosed in
  match listen_err with
  | Some e => (Err (ErrOther ("permission: listen " +:+ path +:+ ": " +:+ e)), idle)
  | None =>
      match chmod_err with
      | Some e => (Err (ErrOther e), idle)
      | None => (Ok tt, MkServer true true true 0 1 NotClosed)
      end
  end.

Inductive socket_step : Server -> Server -> Prop :=
| accept_conn file n wg c :
    socket_step (MkServer file true true n wg c) (MkServer file true true (S n) (wg + 1) c)
| accept_fails file open n wg c :   (** at any time; always once the listener is closed *)
    socket_step (MkServer file open true n wg c) (MkServer file open false n (wg - 1) c)
| handler_returns file open a n wg c :
    socket_step (MkServer file open a (S n) wg c) (MkServer file open a n (wg - 1) c)
| close_begins file open a n wg :   (** [ln.Close] *)
    socket_step (MkServer file open a n wg NotClosed) (MkServer false false a n wg Draining)
| close_returns file open a n :     (** [wg.Wait] returns *)
    socket_step (MkServer file open a n 0 Draining) (MkServer false open a n 0 IsClosed).

(** ** What is kept *)

Definition goroutines_left (s : Server) : Z := Z.b2z (svAcceptor s) + Z.of_nat (svHandlers s).

Definition socket_ok (s : Server) : Prop :=
  svWait s = goroutines_left s
  /\ match svClosing s with
     | NotClosed => True
     | Draining => svListening s = false
     | IsClosed => svListening s = false /\ svWait s = 0 /\ svFile s = false
     end.

Lemma Start_ok path s : (Start path None None) = (Ok tt, s) -> socket_ok s.
Proof. intros. by simplify_eq/=. Qed.

Lemma socket_step_ok s s' : socket_step s s' -> socket_ok s -> socket_ok s'.
Proof.
  unfold socket_ok, goroutines_left. intros Hstep [Hw Hc]. destruct Hstep; simpl in *.
  - split; [destruct c; lia|]. destruct c; [done|done|by destruct Hc].
  - split; [lia|]. destruct c; [done|done|]. destruct Hc as (? & ? & ?). lia.
  - split; [lia|]. destruct c; [done|done|]. destruct Hc as (? & ? & ?). destruct a; simpl in *; lia.
  - done.
  - by subst.
Qed.

Lemma socket_steps_ok s s' : rtc socket_step s s' -> socket_ok s -> socket_ok s'.
Proof. induction 1; eauto using socket_step_ok. Qed.

(** The server from a successful [Start] on: the counter of the wait group is
    never negative and, once [Close] has returned, no goroutine of the server
    is left, nor its file, and nothing can happen any more. *)
Theorem socket_closed path s0 s :
  Start path None None = (Ok tt, s0) -> rtc socket_step s0 s ->
  0 <= svWait s
  /\ (svClosing s = IsClosed ->
      svAcceptor s = false /\ svHandlers s = 0%nat /\ svFile s = false /\ forall s', ~ socket_step s s').
Proof.
  intros H0 Hs. pose proof (socket_steps_ok _ _ Hs (Start_ok _ _ H0)) as [Hw Hc]. unfold goroutines_left in Hw. split.
  - destruct (svAcceptor s); simpl in Hw; lia.
  - intros E. rewrite E in Hc. destruct Hc as (Hl & Hz & Hf). destruct s as [file open a n wg c]. simpl in *. subst.
    destruct a; simpl in Hz; [lia|]. assert (n = 0%nat) as -> by lia. split; [done|]. split; [done|]. split; [done|]. intros s' Hstep. inv Hstep.
Qed.

(** [Close] does not return while a connection waits for its answer. *)
Lemma Close_waits s s' : socket_ok s -> (0 < svHandlers s)%nat -> socket_step s s' -> svClosing s' <> IsClosed.
Proof.
  intros [Hw Hc] Hn Hstep. unfold goroutines_left in Hw. destruct Hstep; simpl in *; try done.
  1-3: destruct c; [done|done|]; destruct Hc as (_ & Hc & _); try destruct a; simpl in *; lia.
  destruct a; simpl in Hw; lia.
Qed.

(** What is left to do after [Close] has begun. *)
Definition left_to_do (s : Server) : nat :=
  (svHandlers s + (if svAcceptor s then 1 else 0) + match svClosing s with IsClosed => 0 | _ => 1 end)%nat.

(** Once [Close] has begun every step brings its end nearer, and some step is
    possible until it has returned: at the latest when the connections are
    answered, which [unanswered_call_is_denied] of [JobRunFacts] promises. *)
Theorem Close_returns s :
  socket_ok s -> svClosing s = Draining ->
  (forall s', socket_step s s' -> (left_to_do s' < left_to_do s)%nat /\ (svClosing s' = Draining \/ svClosing s' = IsClosed))
  /\ (exists s', socket_step s s').
Proof.
  intros [Hw Hc] E. destruct s as [file open a n wg c]. unfold goroutines_left, left_to_do in *. simpl in *. subst c. simpl in Hc. subst open. split.
  - intros s' Hstep. inv Hstep; simpl; split; auto; lia.
  - destruct a; [eexists; apply accept_fails|]. destruct n as [|n]; [|eexists; apply handler_returns].
    simpl in Hw. subst wg. eexists. apply close_returns.
Qed.
