(* ===== verification/DaemonSafety.v ===== *)
(** * Safety of the daemon, in every interleaving

    The invariant of the daemon's state: whom the jobs in the table belong to,
    where the channels of approvals come from, and why every event of the
    trace was allowed to happen.  Every step of every goroutine keeps it. *)

From S2P Require Import Prelude Resume GoText Codec Json Protocol Rely HarnessText HarnessWorld StateFiles HarnessClient Daemon.

Open Scope Z_scope.
Open Scope prog_scope.

(** ** Closing channels *)

Lemma close_chans_spec l w :
  NoDup l -> Forall (fun ch => exists c, hw_chans w !! ch = Some c /\ chClosed c = false) l ->
  let w' := foldr close_chan w l in
  w' = set_chans (hw_chans w') w
  /\ Forall (fun ch => exists c, hw_chans w' !! ch = Some c /\ chClosed c = true) l
  /\ Forall2 (fun c c' => chBuf c' = chBuf c) (hw_chans w) (hw_chans w')
  /\ (forall ch, ch ∉ l -> hw_chans w' !! ch = hw_chans w !! ch).
Proof.
  induction l as [|ch l IH]; intros Hnd Hop; cbn [foldr].
  { split; [by destruct w|]. split; [constructor|]. split; [|done].
    clear Hop. by induction (hw_chans w); constructor. }
  apply NoDup_cons in Hnd as [Hni Hnd]. inv Hop. destruct IH as (Hw & Hcl & Hbuf & Hot); [done..|].
  set (w1 := foldr close_chan w l) in *. destruct H1 as (c & Hc & Hcc).
  unfold close_chan. rewrite Hot, Hc, Hcc by done. split; [|split; [|split]].
  - rewrite Hw. done.
  - constructor.
    + eexists. cbn. rewrite list_lookup_insert_eq; [done|]. apply lookup_lt_Some with c. by rewrite Hot.
    + eapply Forall_impl; [exact Hcl|]. intros x (cx & Hx & Hxc). cbn. destruct (decide (x = ch)) as [->|Hne].
      * eexists. rewrite list_lookup_insert_eq by (by eapply lookup_lt_Some). done.
      * rewrite list_lookup_insert_ne by done. by exists cx.
  - cbn. rewrite <- (list_insert_id (hw_chans w) ch c Hc). by apply Forall2_insert.
  - intros x Hx. apply not_elem_of_cons in Hx as [? ?]. cbn. rewrite list_lookup_insert_ne by done. by apply Hot.
Qed.

Section Safety.
Context {E : HEnv} (cfg : HarnessConfig) (registry : list string).

(** ** The invariant *)

(** The broker sent this message. *)
Definition received {T} `{!Wire T} (typ jobID : string) (x : T) (tr : list HEvent) : Prop :=
  exists c env, HvRecv c env ∈ tr /\ en_Type env = typ /\ en_JobID env = jobID /\ Decode env = (x, true).

(** The directories jobs may run in. *)
Definition configured_dir (dir : string) : Prop :=
  dir = cfDefaultWorkspace cfg \/ exists name, cfWorkspaces cfg !! name = Some dir.

Definition accepted (jobID : string) (d : JobDispatch) (tr : list HEvent) : Prop :=
  rq_MMUserID (jd_Requester d) = cfOwnerMMUserID cfg /\ received TypeJobDispatch jobID d tr.

(** The dispatch a job runs on: one of the owner's, that was accepted; the
    job runs in a configured directory, on an agent of this machine, in the workspace
    and on the agent the dispatch names, if it names one. *)
Record authorised (jobID : string) (d : JobDispatch) (dir agent : string) (tr : list HEvent) : Prop := {
  au_accepted : HvAccepted jobID d ∈ tr /\ accepted jobID d tr;
  au_dir : configured_dir dir;
  au_agent : agent ∈ registry;
  au_workspace : jd_Workspace d <> "" -> cfWorkspaces cfg !! jd_Workspace d = Some dir;
  au_named : jd_Agent d <> "" -> agent = jd_Agent d
}.

(** The prompt of a run: the dispatch's, after the thread's history when no
    session is continued, before the names of the attachments when they could be written. *)
Definition thread_before (d : JobDispatch) (resume : string) : string :=
  match jd_History d with
  | [] => ""
  | h => if bool_decide (resume = "") then renderHistory h MaxHistoryChars +:+ nl +:+ nl else ""
  end.
Definition files_after (jobID : string) (d : JobDispatch) (after : string) : Prop :=
  after = "" \/ (jd_Attachments d <> [] /\ after = nl +:+ nl +:+ "Attached files from the chat message: "
    +:+ Join (map (fun f => attachments_dir jobID +:+ "/" +:+ attachment_name f) (jd_Attachments d)) ", ").
Definition prompted (jobID : string) (d : JobDispatch) (opt : Options) : Prop :=
  exists after, files_after jobID d after
    /\ opPrompt opt = thread_before d (opResumeID opt) +:+ jd_Prompt d +:+ after.

(** An agent that can ask is started with the bridge that asks, and every
    agent with the tools of the configuration. *)
Definition restrained (jobID agent : string) (opt : Options) : Prop :=
  (agent_approvals agent = true -> opPermissionTool opt = FullName /\ opPermissionMCPConfigPath opt = mcp_path jobID)
  /\ opAllowedTools opt = cfAllowedTools cfg /\ opDisallowedTools opt = cfDisallowedTools cfg.

(** The approval behind a decision to allow. *)
Definition licensed (req : Request) (dec : CallDecision) (tr : list HEvent) : Prop :=
  exists ch r, HvAsked ch (ap_ApprovalID r) req ∈ tr /\ HvDelivered (rqJobID req) ch r ∈ tr
    /\ ap_Decision r = DecisionAllow /\ cdUpdatedInput dec = rqInput req.

Definition justified (tr : list HEvent) (ev : HEvent) : Prop :=
  match ev with
  | HvAccepted jobID d => accepted jobID d tr
  | HvAgent jobID agent opt =>
      (exists d, authorised jobID d (opDir opt) agent tr /\ prompted jobID d opt) /\ restrained jobID agent opt
  | HvDelivered jobID ch r =>
      received TypeApprovalResponse jobID r tr
      /\ exists req, HvAsked ch (ap_ApprovalID r) req ∈ tr /\ rqJobID req = jobID
  | HvAnswer req dec => cdBehavior dec = "allow" -> licensed req dec tr
  | HvPanic what => what = "send on closed channel"
  | HvSend _ _ _ | HvRecv _ _ | HvAsked _ _ _ => True
  end.

Definition asked_unique (tr : list HEvent) : Prop :=
  forall ch id id' req req', HvAsked ch id req ∈ tr -> HvAsked ch id' req' ∈ tr -> id = id' /\ req = req'.

Definition job_ok (tr : list HEvent) (o : HJob) : Prop :=
  (exists d, authorised (hjId o) d (hjDir o) (hjAgent o) tr)
  /\ forall id ch, hjApprovals o !! id = Some ch -> exists req, HvAsked ch id req ∈ tr /\ rqJobID req = hjId o.

Definition table_ok (jobs : gmap string nat) (objs : list HJob) : Prop :=
  forall id j, jobs !! id = Some j -> exists o, objs !! j = Some o /\ hjId o = id.

Definition chans_ok (chans : list Chan) (tr : list HEvent) : Prop :=
  (forall ch id req, HvAsked ch id req ∈ tr -> (ch < length chans)%nat)
  /\ (forall ch c r, chans !! ch = Some c -> chBuf c = Some r -> exists jobID, HvDelivered jobID ch r ∈ tr).

(** The channels of the tables are there, open, and each in one place. *)
Definition waits_on (objs : list HJob) (j : nat) (id : string) (ch : nat) : Prop :=
  exists o, objs !! j = Some o /\ hjApprovals o !! id = Some ch.
Definition open_chan (chans : list Chan) (ch : nat) : Prop := exists c, chans !! ch = Some c /\ chClosed c = false.
Definition chans_open (objs : list HJob) (chans : list Chan) : Prop :=
  (forall j id ch, waits_on objs j id ch -> open_chan chans ch)
  /\ (forall j id j' id' ch, waits_on objs j id ch -> waits_on objs j' id' ch -> j = j' /\ id = id').

(** A sleeping client waits for the last backoff and the jitter drawn for it;
    a job's goroutine has its job, made by the dispatch it was started with. *)
Definition sleep_ok (since until : Time) : Prop :=
  exists b t, second <= b <= MaxBackoff /\ until - since = b + jitter_below t (Z.quot b 4).
Definition runs_on (o : HJob) (d : JobDispatch) (tr : list HEvent) : Prop :=
  authorised (hjId o) d (hjDir o) (hjAgent o) tr
  /\ (0 < li_TimeoutMS (jd_Limits d) <-> is_Some (hjDeadline o)).
Definition go_ok (tr : list HEvent) (objs : list HJob) (g : Goroutine) : Prop :=
  match g with
  | GoConnect sleep b =>
      second <= b <= MaxBackoff
      /\ match sleep with Some (since, until) => sleep_ok since until | None => True end
  | GoRun j d => exists o, objs !! j = Some o /\ runs_on o d tr
  | _ => True
  end.

Record daemon_inv (w : HWorld) : Prop := {
  inv_trace : Forall (justified (hw_trace w)) (hw_trace w);
  inv_asked : asked_unique (hw_trace w);
  inv_objs : Forall (job_ok (hw_trace w)) (hw_objs w);
  inv_table : table_ok (hw_jobs w) (hw_objs w);
  inv_chans : chans_ok (hw_chans w) (hw_trace w);
  inv_open : chans_open (hw_objs w) (hw_chans w);
  inv_count : Z.of_nat (size (hw_jobs w)) <= Z.max 0 (cfMaxJobs cfg);
  inv_go : Forall (go_ok (hw_trace w) (hw_objs w)) (hw_go w)
}.

(** What never changes of a job. *)
Definition same_identity (o o' : HJob) : Prop :=
  hjId o' = hjId o /\ hjDir o' = hjDir o /\ hjAgent o' = hjAgent o /\ hjDeadline o' = hjDeadline o.
#[export] Instance same_identity_preorder : PreOrder same_identity.
Proof. split; [by intros o | intros x y z; unfold same_identity; intros; destruct_and!; split_and!; congruence]. Qed.

Definition objs_kept (objs objs' : list HJob) : Prop :=
  forall j o, objs !! j = Some o -> exists o', objs' !! j = Some o' /\ same_identity o o'.
#[export] Instance objs_kept_preorder : PreOrder objs_kept.
Proof.
  split; [intros l j o Ho; by exists o|]. intros x y z Hxy Hyz j o Ho.
  destruct (Hxy j o Ho) as (o1 & Ho1 & S1). destruct (Hyz j o1 Ho1) as (o2 & Ho2 & S2).
  exists o2. split; [done|]. by trans o1.
Qed.

(** The trace only grows, and jobs stay who they are. *)
Definition later (w w' : HWorld) : Prop :=
  hw_trace w `prefix_of` hw_trace w' /\ objs_kept (hw_objs w) (hw_objs w').
#[export] Instance later_preorder : PreOrder later.
Proof. split; [intros w; split; reflexivity | intros x y z [] []; split; by etrans]. Qed.

(** ** What is known stays known *)

Lemma later_in w w' ev : later w w' -> ev ∈ hw_trace w -> ev ∈ hw_trace w'.
Proof. intros [[k Hk] _] H. rewrite Hk. apply elem_of_app. by left. Qed.

Lemma received_mono {T} `{!Wire T} typ jobID (x : T) tr tr' :
  tr `prefix_of` tr' -> received typ jobID x tr -> received typ jobID x tr'.
Proof. intros [k ->] (c & env & H & ?). exists c, env. split; [|done]. apply elem_of_app. by left. Qed.

Lemma accepted_mono jobID d tr tr' : tr `prefix_of` tr' -> accepted jobID d tr -> accepted jobID d tr'.
Proof. intros Hp [? ?]. split; [done|]. by eapply received_mono. Qed.

Lemma authorised_mono jobID d dir agent tr tr' :
  tr `prefix_of` tr' -> authorised jobID d dir agent tr -> authorised jobID d dir agent tr'.
Proof.
  intros Hp [[Hd Ha] ? ? ? ?]. split; [|done..]. split; [|by eapply accepted_mono].
  destruct Hp as [k ->]. apply elem_of_app. by left.
Qed.

Lemma runs_on_mono tr tr' o o' d :
  tr `prefix_of` tr' -> same_identity o o' -> runs_on o d tr -> runs_on o' d tr'.
Proof.
  intros Hp (Hi & Hdir & Ha & Hdl) [Hau Hd]. split; [rewrite Hi, Hdir, Ha; by eapply authorised_mono | by rewrite Hdl].
Qed.

Lemma go_ok_mono tr tr' objs objs' g :
  tr `prefix_of` tr' -> objs_kept objs objs' -> go_ok tr objs g -> go_ok tr' objs' g.
Proof.
  intros Hp Hk. destruct g; cbn; [|done..]. intros (o & Ho & Hr). destruct (Hk j o Ho) as (o' & Ho' & Hs).
  exists o'. split; [done|]. by eapply runs_on_mono.
Qed.

Lemma gos_mono tr tr' objs objs' gs :
  tr `prefix_of` tr' -> objs_kept objs objs' -> Forall (go_ok tr objs) gs -> Forall (go_ok tr' objs') gs.
Proof. intros Hp Hk H. eapply Forall_impl; [exact H|]. intros g. by apply go_ok_mono. Qed.

Lemma licensed_mono req dec tr tr' : tr `prefix_of` tr' -> licensed req dec tr -> licensed req dec tr'.
Proof.
  intros [k ->] (ch & r & ? & ? & ?). exists ch, r. rewrite !elem_of_app. naive_solver.
Qed.

Lemma justified_mono tr tr' ev : tr `prefix_of` tr' -> justified tr ev -> justified tr' ev.
Proof.
  intros Hp. destruct ev; simpl; auto.
  - by apply accepted_mono.
  - intros [(d & Ha & Hpr) Hr]. split; [|done]. exists d. split; [by eapply authorised_mono | done].
  - intros [Hr (q & Hq & He)]. split; [by eapply received_mono|]. exists q. split; [|done].
    destruct Hp as [k ->]. apply elem_of_app. by left.
  - intros Hd Ha. by eapply licensed_mono, Hd.
Qed.

Lemma job_ok_mono tr tr' o : tr `prefix_of` tr' -> job_ok tr o -> job_ok tr' o.
Proof.
  intros Hp [[d Ha] Hc]. split; [exists d; by eapply authorised_mono|]. intros id ch Hid.
  destruct (Hc id ch Hid) as (q & Hq & He). exists q. split; [|done].
  destruct Hp as [k ->]. apply elem_of_app. by left.
Qed.

(** ** Steps *)

  Abbreviation safe := (closed_step daemon_inv later).

(** Events that need no reason. *)
Definition plain (ev : HEvent) : Prop :=
  match ev with
  | HvSend _ _ _ | HvRecv _ _ => True
  | HvPanic what => what = "send on closed channel"
  | _ => False
  end.

Lemma justified_plain tr evs : Forall plain evs -> Forall (justified tr) evs.
Proof. intros H. eapply Forall_impl; [exact H|]. by intros []. Qed.

Lemma asked_plain tr evs ch id req : Forall plain evs -> HvAsked ch id req ∈ tr ++ evs -> HvAsked ch id req ∈ tr.
Proof.
  intros Hp [H|H]%elem_of_app; [done|]. by pose proof (proj1 (Forall_forall _ _) Hp _ H).
Qed.

(** A step that leaves the table alone, puts nothing into a channel, may change
    jobs in what the invariant says nothing about, and adds plain events. *)
Definition same_job (o o' : HJob) : Prop := same_identity o o' /\ hjApprovals o' ⊆ hjApprovals o.

Definition drained (c c' : Chan) : Prop := (chBuf c' = None \/ chBuf c' = chBuf c) /\ chClosed c' = chClosed c.

Record ordinary (w w' : HWorld) : Prop := {
  ord_jobs : hw_jobs w' = hw_jobs w;
  ord_objs : Forall2 same_job (hw_objs w) (hw_objs w');
  ord_chans : Forall2 drained (hw_chans w) (hw_chans w');
  ord_go : hw_go w' = hw_go w;
  ord_trace : exists evs, hw_trace w' = hw_trace w ++ evs /\ Forall plain evs
}.

Lemma job_ok_same tr o o' : same_job o o' -> job_ok tr o -> job_ok tr o'.
Proof.
  intros ((Hi & Hd & Ha & _) & Hs) [Hauth Hc]. split; [by rewrite Hi, Hd, Ha|].
  intros id ch Hid. rewrite Hi. apply (Hc id). by eapply lookup_weaken.
Qed.

Lemma table_ok_same jobs objs objs' :
  Forall2 (fun o o' => hjId o' = hjId o) objs objs' -> table_ok jobs objs -> table_ok jobs objs'.
Proof.
  intros Hf Ht id j Hj. destruct (Ht id j Hj) as (o & Ho & Hid).
  destruct (Forall2_lookup_l _ _ _ _ _ Hf Ho) as (o' & Ho' & Hi). exists o'. split; [done|]. by rewrite Hi.
Qed.

Lemma waits_on_same objs objs' j id ch :
  Forall2 same_job objs objs' -> waits_on objs' j id ch -> waits_on objs j id ch.
Proof.
  intros Hf (o' & Ho' & Hid). destruct (Forall2_lookup_r _ _ _ _ _ Hf Ho') as (o & Ho & _ & Hs).
  exists o. split; [done|]. by eapply lookup_weaken.
Qed.

Lemma same_jobs_kept objs objs' : Forall2 same_job objs objs' -> objs_kept objs objs'.
Proof. intros Hf j o Ho. destruct (Forall2_lookup_l _ _ _ _ _ Hf Ho) as (o' & Ho' & Hs & _). by exists o'. Qed.

(** Fewer waiting calls, and the channels of those that still wait as open as
    before. *)
Lemma chans_open_fewer objs chans objs' chans' :
  (forall j id ch, waits_on objs' j id ch -> waits_on objs j id ch) ->
  (forall j id ch, waits_on objs' j id ch -> open_chan chans ch -> open_chan chans' ch) ->
  chans_open objs chans -> chans_open objs' chans'.
Proof. intros Hw Hc [Ho Hi]. split; [eauto|]. intros j id j' id' ch H1 H2. apply (Hi j id j' id' ch); auto. Qed.

Lemma ordinary_safe w w' : ordinary w w' -> safe w w'.
Proof.
  intros [Hj Ho Hc Hg (evs & Ht & Hp)] [I1 I2 I3 I4 I5 Io I6 I7].
  assert (hw_trace w `prefix_of` hw_trace w') as Hpre by (by rewrite Ht; exists evs).
  pose proof (same_jobs_kept _ _ Ho) as Hk. split; [|done]. split.
  - rewrite Ht at 2. apply Forall_app. split; [|by apply justified_plain].
    eapply Forall_impl; [exact I1|]. intros ev. by apply justified_mono.
  - intros ch id id' q q'. rewrite Ht. intros H1%(asked_plain _ _ _ _ _ Hp) H2%(asked_plain _ _ _ _ _ Hp). by eapply I2.
  - apply Forall_forall. intros o' Hin. apply list_elem_of_lookup in Hin as [i Hi].
    destruct (Forall2_lookup_r _ _ _ _ _ Ho Hi) as (o & Hio & Hs).
    eapply job_ok_mono; [exact Hpre|]. eapply job_ok_same; [exact Hs|].
    by eapply (proj1 (Forall_lookup _ _) I3).
  - rewrite Hj. eapply table_ok_same; [|exact I4]. eapply Forall2_impl; [exact Ho|]. by intros x y [[? _] _].
  - destruct I5 as [Hb Hd]. split.
    + intros ch id q. rewrite Ht, <- (Forall2_length _ _ _ Hc). intros H1%(asked_plain _ _ _ _ _ Hp). by eapply Hb.
    + intros ch c' r H1 H2. destruct (Forall2_lookup_r _ _ _ _ _ Hc H1) as (c & Hch & [Hn|Hs] & _); [congruence|].
      destruct (Hd ch c r Hch) as [jobID H]; [congruence|]. exists jobID. rewrite Ht. apply elem_of_app. by left.
  - eapply chans_open_fewer; [| |exact Io]; [intros j id ch; by apply waits_on_same|].
    intros j id ch _ (c & Hch & Hop). destruct (Forall2_lookup_l _ _ _ _ _ Hc Hch) as (c' & Hch' & _ & Hcl).
    exists c'. by rewrite Hcl.
  - by rewrite Hj.
  - rewrite Hg. by eapply gos_mono.
Qed.

Lemma same_jobs_refl objs : Forall2 same_job objs objs.
Proof. apply Forall2_same_length_lookup. split; [done|]. intros i x y Hx Hy. simplify_eq. by repeat split. Qed.

Lemma same_chans_refl chans : Forall2 drained chans chans.
Proof. apply Forall2_same_length_lookup. split; [done|]. intros i x y Hx Hy. simplify_eq. split; [by right | done]. Qed.

Lemma alter_related (P : HJob -> HJob -> Prop) f j objs :
  (forall o, P o o) -> (forall o, P o (f o)) -> Forall2 P objs (alter f j objs).
Proof.
  intros Hr Hf. apply Forall2_same_length_lookup. split; [by rewrite length_alter|].
  intros i x y Hx Hy. rewrite list_lookup_alter in Hy.
  case_decide; [|simplify_eq; apply Hr]. subst i. rewrite Hx in Hy. simplify_eq/=. apply Hf.
Qed.

Lemma same_jobs_alter f j objs : (forall o, same_job o (f o)) -> Forall2 same_job objs (alter f j objs).
Proof. intros Hf. apply alter_related; [by intros o; repeat split | done]. Qed.

Lemma ordinary_quiet w w' evs :
  hw_jobs w' = hw_jobs w -> hw_objs w' = hw_objs w -> hw_chans w' = hw_chans w -> hw_go w' = hw_go w ->
  hw_trace w' = hw_trace w ++ evs -> Forall plain evs -> safe w w'.
Proof.
  intros ? Ho Hc ? ? ?. apply ordinary_safe. split; [done| | |done|by exists evs].
  - rewrite Ho. apply same_jobs_refl.
  - rewrite Hc. apply same_chans_refl.
Qed.

Lemma ordinary_silent w w' :
  hw_jobs w' = hw_jobs w -> hw_objs w' = hw_objs w -> hw_chans w' = hw_chans w -> hw_go w' = hw_go w ->
  hw_trace w' = hw_trace w -> safe w w'.
Proof. intros ? ? ? ? Ht. eapply (ordinary_quiet _ _ []); [done..| |constructor]. by rewrite Ht, app_nil_r. Qed.

(** ** Programs all of whose steps are safe *)

Lemma safe_live {X} (f : HWorld -> option (X * HWorld)) :
  (forall w x w', f w = Some (x, w') -> safe w w') -> guards safe (live f).
Proof. intros H. split; [|done]. intros w x w' Hf. destruct (hw_dead w); [done|]. by eapply H. Qed.

Lemma safe_act {X} (f : HWorld -> X * HWorld) : (forall w, safe w (f w).2) -> guards safe (act f).
Proof. intros H. apply safe_live. intros w x w' [= Hf]. specialize (H w). by rewrite Hf in H. Qed.

Lemma safe_refl w : safe w w.
Proof. intros Hi. by split. Qed.

Lemma safe_look {X} (f : HWorld -> X) : guards safe (look f).
Proof. apply safe_act. intros w. apply safe_refl. Qed.

Lemma safe_consult {X} (f : nat -> X) : guards safe (consult f).
Proof. apply safe_act. intros w. by apply ordinary_silent. Qed.

Lemma safe_change f : (forall w, safe w (f w)) -> guards safe (change f).
Proof. intros H. by apply safe_act. Qed.

Lemma safe_under {X} m (f : HWorld -> X * HWorld) : (forall w, safe w (f w).2) -> guards safe (under m f).
Proof. intros H. apply safe_live. intros w x w' Hf. destruct (held m w); [done|]. injection Hf as Hf. specialize (H w). by rewrite Hf in H. Qed.

Lemma safe_locking {X Y} m (first : HWorld -> X * HWorld) (body : X -> prog HWorld Y) :
  (forall w, safe w (first (lock m w)).2) -> (forall x, guards safe (body x)) -> guards safe (locking m first body).
Proof.
  intros Hf Hb. apply guards_bind; [|intros x; apply guards_bind; [done|intros y]].
  - apply safe_live. intros w x w' H. destruct (held m w); [done|]. injection H as H. specialize (Hf w). by rewrite H in Hf.
  - apply guards_bind; [|intros _; apply guards_ret]. apply safe_change. intros w. by apply ordinary_silent.
Qed.

Lemma safe_choose {X} (cases : list (HWorld -> option (X * HWorld))) :
  Forall (fun c => forall w x w', c w = Some (x, w') -> safe w w') cases -> guards safe (choose cases).
Proof.
  intros Hc. apply safe_live. intros w x w' Hf. cbv zeta in Hf.
  match type of Hf with context [?l !! ?n] => destruct (l !! n) as [[y w1]|] eqn:Hl end; [|done].
  injection Hf as -> <-.
  pose proof (list_elem_of_lookup_2 _ _ _ Hl) as (c & Hin & Hcw)%list_elem_of_omap.
  pose proof (proj1 (Forall_forall _ _) Hc c Hin w _ _ Hcw) as Hs.
  intros Hi. destruct (Hs Hi) as [Hi1 Hl1]. destruct (ordinary_silent w1 (htick w1)) as [? ?]; [done..|].
  split; [done|]. by etrans.
Qed.

(** *** The operations *)

Lemma safe_flush_file path doc : guards safe (flush_file path doc).
Proof.
  apply guards_bind; [apply safe_consult|]. intros [[]|e]; [|apply guards_ret].
  apply guards_bind; [apply safe_look|]. intros [j|e]; [|apply guards_ret].
  apply guards_bind.
  - apply safe_act. intros w. destruct (write_fault (hw_tick w)) as [[? []]|]; by apply ordinary_silent.
  - intros [[]|e]; [|apply guards_ret]. apply safe_act. intros w.
    unfold os_Rename; destruct (hw_files w !! (path +:+ ".tmp")), (rename_fault (hw_tick w)); by apply ordinary_silent.
Qed.

Lemma safe_Outbox_Add env : guards safe (Outbox_Add env).
Proof. apply safe_locking; [intros w; by apply ordinary_silent | intros []; apply safe_flush_file]. Qed.

Lemma safe_Outbox_Ack id : guards safe (Outbox_Ack id).
Proof.
  apply safe_locking.
  - intros w. cbn. destruct (hw_outbox w !! id); by apply ordinary_silent.
  - intros []; [apply safe_flush_file | apply guards_ret].
Qed.

Lemma safe_Outbox_Pending : guards safe Outbox_Pending.
Proof. apply safe_under. intros w. apply safe_refl. Qed.

Lemma safe_sessions_Get b r : guards safe (sessions_Get b r).
Proof. apply safe_under. intros w. apply safe_refl. Qed.

Lemma safe_sessions_Put b r s ws a : guards safe (sessions_Put b r s ws a).
Proof. apply safe_locking; [intros w; by apply ordinary_silent | intros []; apply safe_flush_file]. Qed.

Lemma safe_frame_send c env : guards safe (frame_send c env).
Proof. apply safe_act. intros w. eapply ordinary_quiet; [done..|by repeat constructor]. Qed.

Lemma safe_make_envelope {T} `{!Wire T} typ jobID (x : T) : guards safe (make_envelope typ jobID x).
Proof. apply guards_bind; [apply safe_consult|]. intros id. apply guards_bind; [apply safe_consult | intros t; apply guards_ret]. Qed.

Lemma safe_make_reply {T} `{!Wire T} typ to (x : T) : guards safe (make_reply typ to x).
Proof. apply guards_bind; [apply safe_consult|]. intros id. apply guards_bind; [apply safe_consult | intros t; apply guards_ret]. Qed.

Lemma safe_client_Send env : guards safe (client_Send env).
Proof. apply guards_bind; [apply safe_look|]. intros [c|]; [apply safe_frame_send | apply guards_ret]. Qed.

Lemma safe_SendReliable env : guards safe (client_SendReliable env).
Proof.
  unfold client_SendReliable. destruct (negb _); [apply guards_ret|].
  apply guards_bind; [apply safe_Outbox_Add|]. intros [[]|e]; [|apply guards_ret]. 
  apply guards_bind; [apply safe_look|]. intros [c|]; [apply safe_frame_send | apply guards_ret].
Qed.

Lemma with_job_safe j f w : (forall o, same_job o (f o)) -> safe w (with_job j f w).
Proof.
  intros Hf. apply ordinary_safe. split; [done| | |done|].
  - by apply same_jobs_alter.
  - apply same_chans_refl.
  - exists []. by rewrite app_nil_r.
Qed.

Lemma safe_trans w1 w2 w3 : safe w1 w2 -> safe w2 w3 -> safe w1 w3.
Proof.
  intros H12 H23 H1. destruct (H12 H1) as [H2 L12]. destruct (H23 H2) as [H3 L23]. split; [done|]. by etrans.
Qed.

Lemma drain_safe ch (f : Chan -> Chan) w c :
  hw_chans w !! ch = Some c -> drained c (f c) -> safe w (set_chans (<[ch := f c]> (hw_chans w)) w).
Proof.
  intros Hc Hd. apply ordinary_safe. split; [done|apply same_jobs_refl| |done|exists []; by rewrite app_nil_r].
  cbn. apply Forall2_same_length_lookup. split; [by rewrite length_insert|]. intros i x y Hx Hy.
  destruct (decide (i = ch)) as [->|Hne].
  - rewrite list_lookup_insert_eq in Hy by by eapply lookup_lt_Some. by simplify_eq.
  - rewrite list_lookup_insert_ne in Hy by done. simplify_eq. split; [by right | done].
Qed.

Lemma safe_cancel j : guards safe (cancel j).
Proof. apply safe_change. intros w. apply with_job_safe. by intros o. Qed.

Lemma safe_setPhase j phase : guards safe (setPhase j phase).
Proof. apply safe_change. intros w. apply with_job_safe. by intros o. Qed.

Lemma safe_sendProgress j text tool turns refresh : guards safe (sendProgress j text tool turns refresh).
Proof.
  apply guards_bind.
  - apply safe_act. intros w. unfold next_progress.
    destruct (job_at j _); apply with_job_safe; by intros o.
  - intros [jobID p]. apply guards_bind; [apply safe_make_envelope|]. intros env.
    apply guards_bind; [apply safe_client_Send | intros _; apply guards_ret].
Qed.

Lemma safe_hello : guards safe (hello cfg).
Proof. apply guards_bind; [apply safe_consult|]. intros host. apply safe_look. Qed.

Lemma safe_OnWelcome welcome : guards safe (harness_OnWelcome welcome).
Proof.
  apply guards_bind.
  - apply guards_for_each. intros wj _. destruct (negb _); [apply guards_ret|].
    apply guards_bind; [apply safe_look|]. intros [j|]; [apply safe_cancel | apply guards_ret].
  - intros _. apply guards_bind; [apply safe_look|]. intros jobs. apply guards_for_each. intros j _. apply safe_sendProgress.
Qed.

Lemma safe_OnCancel jobID c : guards safe (harness_OnCancel jobID c).
Proof.
  apply guards_bind; [apply safe_look|]. intros [j|]; [|apply guards_ret].
  apply guards_bind; [apply safe_cancel | intros _; apply guards_ret].
Qed.

(** Closing the channels nobody waits on any more. *)
Lemma close_free_safe w chans' :
  Forall2 (fun c c' => chBuf c' = chBuf c) (hw_chans w) chans' ->
  (forall j id ch, waits_on (hw_objs w) j id ch -> chans' !! ch = hw_chans w !! ch) ->
  safe w (set_chans chans' w).
Proof.
  intros Hf Hw [I1 I2 I3 I4 [Hb Hd] Io I6 I7]. split; [|by split]. split; try done; cbn.
  - split; [intros ch id q; rewrite <- (Forall2_length _ _ _ Hf); apply Hb|].
    intros ch c' r Hc' Hr. destruct (Forall2_lookup_r _ _ _ _ _ Hf Hc') as (c & Hc & Eb).
    apply (Hd ch c r Hc). congruence.
  - eapply chans_open_fewer; [done| |exact Io]. intros j id ch H (c & Hc & Ho). exists c. by rewrite (Hw j id ch H).
Qed.

(** The table of a job names each of its open channels once. *)
Lemma approvals_open w j o :
  daemon_inv w -> hw_objs w !! j = Some o ->
  NoDup (map_to_list (hjApprovals o)).*2 /\ Forall (open_chan (hw_chans w)) (map_to_list (hjApprovals o)).*2.
Proof.
  intros Hi Ho. destruct (inv_open w Hi) as [Hop Hinj]. split.
  - apply NoDup_fmap_2_strong; [|apply NoDup_map_to_list].
    intros [id ch] [id' ch'] H1%elem_of_map_to_list H2%elem_of_map_to_list Ech. cbn in Ech. subst ch'.
    destruct (Hinj j id j id' ch) as [_ ->]; [by exists o..|done].
  - apply Forall_forall. intros ch ([id ch'] & -> & H%elem_of_map_to_list)%list_elem_of_fmap. apply (Hop j id). by exists o.
Qed.

Lemma safe_close_approvals j : guards safe (change (close_approvals j)).
Proof.
  apply safe_change. intros w Hi. unfold close_approvals, job_at. destruct (hw_objs w !! j) as [o|] eqn:Ho; [|by apply safe_refl].
  destruct (approvals_open w j o Hi Ho) as [Hnd Hop].
  destruct (close_chans_spec _ w Hnd Hop) as (Hw & _ & Hbuf & Hot). set (w1 := foldr close_chan w _) in *.
  destruct (with_job_safe j (set_approvals_of ∅) w ltac:(intros o'; repeat split; apply map_empty_subseteq) Hi) as [Hi' Hl].
  replace (with_job j (set_approvals_of ∅) w1) with (set_chans (hw_chans w1) (with_job j (set_approvals_of ∅) w)) by by rewrite Hw.
  assert (forall j' id ch, waits_on (hw_objs (with_job j (set_approvals_of ∅) w)) j' id ch ->
            hw_chans w1 !! ch = hw_chans w !! ch) as Hother; [|
    destruct (close_free_safe (with_job j (set_approvals_of ∅) w) (hw_chans w1) Hbuf Hother Hi') as [? ?]].
  - intros j' id ch (o' & Ho' & Hid). cbn in Ho'. rewrite list_lookup_alter in Ho'. apply Hot.
    intros ([id' ch'] & -> & H%elem_of_map_to_list)%list_elem_of_fmap. case_decide as Ej.
    + subst j'. rewrite Ho in Ho'. simplify_eq/=. 
    + destruct (proj2 (inv_open w Hi) j id' j' id ch') as [? _]; [by exists o|by exists o'|done].
  - split; [done|]. by trans (with_job j (set_approvals_of ∅) w).
Qed.

Lemma safe_finish j jobID res start : guards safe (finish j jobID res start).
Proof.
  apply guards_bind; [apply safe_close_approvals|]. intros _. apply guards_bind.
  - destruct (_ =? _); [|apply guards_ret]. apply guards_bind; [apply safe_consult | intros t; apply guards_ret].
  - intros duration. apply guards_bind; [apply safe_make_envelope|]. intros env.
    apply guards_bind; [apply safe_SendReliable | intros _; apply guards_ret].
Qed.

Lemma safe_progress_step j latest s : guards safe (progress_step j latest s).
Proof.
  assert (guards safe (live (fun w => match job_at j w with
      | Some o => if ctx_ended o w then Some (latest, w) else None | None => Some (latest, w) end))) as Hctx.
  { apply safe_live. intros w x w' Hf. repeat case_match; simplify_eq; apply safe_refl. }
  destruct s; [destruct latest; apply guards_ret| |destruct latest; apply Hctx|destruct latest; by apply safe_live].
  destruct latest as [x|]; [|apply guards_ret]. apply guards_bind; [apply safe_setPhase|]. intros _.
  apply guards_bind; [apply safe_sendProgress | intros _; apply guards_ret].
Qed.

Lemma safe_write path body : guards safe (os_WriteFile path body).
Proof. apply safe_act. intros w. destruct (write_fault (hw_tick w)) as [[? []]|]; by apply ordinary_silent. Qed.

Lemma safe_write_files dir files names : guards safe (write_files dir files names).
Proof.
  revert names. induction files as [|f files IH]; intros names; simpl; [apply guards_ret|].
  destruct (base64_decode _); [|apply guards_ret].
  apply guards_bind; [apply safe_write|]. intros [[]|e]; [apply IH | apply guards_ret].
Qed.

Lemma safe_attach_files o d prompt : guards safe (attach_files o d prompt).
Proof.
  unfold attach_files. destruct (is_empty_list _); [apply guards_ret|]. apply guards_bind.
  - apply guards_bind; [apply safe_consult|]. intros [[]|e]; [apply safe_write_files | apply guards_ret].
  - intros [names|e]; apply guards_ret.
Qed.

Lemma safe_save_session o res : guards safe (save_session o res).
Proof. apply guards_when. intros _. apply guards_bind; [apply safe_sessions_Put | intros _; apply guards_ret]. Qed.

(** ** Threads that rely on what they saw *)

  Abbreviation thread := (rg daemon_inv later).

Lemma rg_skip {A B} (m : prog HWorld A) (g : A -> prog HWorld B) Q w :
  guards safe m -> (forall a w', later w w' -> thread (g a) Q w') -> thread (bind m g) Q w.
Proof.
  intros Hm Hg. apply rg_bind. eapply rg_mono; [|apply rg_within; [apply _ | by apply rg_guards]].
  intros a w' [Hl _]. by apply Hg.
Qed.

Lemma rg_safe {A} (m : prog HWorld A) w : guards safe m -> thread m (fun _ _ => True) w.
Proof. apply rg_guards. Qed.

Lemma rg_live {X} (f : HWorld -> option (X * HWorld)) (Q : X -> HWorld -> Prop) w0 :
  (forall w x w', later w0 w -> daemon_inv w -> f w = Some (x, w') -> (daemon_inv w' /\ later w w') /\ Q x w') ->
  thread (live f) Q w0.
Proof.
  intros H. apply rg_step. intros w x w' Hl Hi Hf. destruct (hw_dead w); [done|].
  destruct (H w x w' Hl Hi Hf) as [[? ?] ?]. done.
Qed.

Lemma rg_act {X} (f : HWorld -> X * HWorld) (Q : X -> HWorld -> Prop) w0 :
  (forall w, later w0 w -> daemon_inv w -> (daemon_inv (f w).2 /\ later w (f w).2) /\ Q (f w).1 (f w).2) ->
  thread (act f) Q w0.
Proof. intros H. apply rg_live. intros w x w' Hl Hi [= Hf]. specialize (H w Hl Hi). by rewrite Hf in H. Qed.

Lemma rg_look {X} (f : HWorld -> X) (Q : X -> HWorld -> Prop) w0 :
  (forall w, later w0 w -> daemon_inv w -> Q (f w) w) -> thread (look f) Q w0.
Proof. intros H. apply rg_act. intros w Hl Hi. split; [by apply safe_refl | by apply H]. Qed.

(** An event that is justified and asks nothing. *)
Definition no_question (ev : HEvent) : Prop := match ev with HvAsked _ _ _ => False | _ => True end.

Lemma record_inv ev w :
  daemon_inv w -> justified (hw_trace w) ev -> no_question ev ->
  daemon_inv (hrecord [ev] w) /\ later w (hrecord [ev] w).
Proof.
  intros [I1 I2 I3 I4 I5 Io I6 I7] Hj Hn.
  assert (hw_trace w `prefix_of` hw_trace w ++ [ev]) as Hp by by exists [ev].
  assert (forall ch id q, HvAsked ch id q ∈ hw_trace w ++ [ev] -> HvAsked ch id q ∈ hw_trace w) as Ha.
  { intros ch id q [H|H%list_elem_of_singleton]%elem_of_app; [done|]. by subst. }
  split; [|split; [done|reflexivity]]. split; cbn; try done.
  - apply Forall_app. split; [|constructor; [|constructor]; by eapply justified_mono].
    eapply Forall_impl; [exact I1|]. intros x. by apply justified_mono.
  - intros ch id id' q q' H1%Ha H2%Ha. by eapply I2.
  - eapply Forall_impl; [exact I3|]. intros o. by apply job_ok_mono.
  - destruct I5 as [Hb Hd]. split; [intros ch id q H%Ha; by eapply Hb|].
    intros ch c r Hc Hr. destruct (Hd ch c r Hc Hr) as [jobID H]. exists jobID. apply elem_of_app. by left.
  - by eapply gos_mono.
Qed.

Lemma stay_inv w : daemon_inv w -> daemon_inv w /\ later w w.
Proof. exact (safe_refl w). Qed.

(** *** Dispatch *)

Lemma objs_kept_snoc objs o : objs_kept objs (objs ++ [o]).
Proof. intros j x Hx. exists x. split; [by apply lookup_app_l_Some | reflexivity]. Qed.

Lemma objs_snoc_inv o w :
  daemon_inv w -> job_ok (hw_trace w) o -> hjApprovals o = ∅ -> daemon_inv (set_objs (hw_objs w ++ [o]) w).
Proof.
  intros [I1 I2 I3 I4 I5 Io I6 I7] Ho He. split; cbn; try done.
  - apply Forall_app. split; [done|]. by constructor.
  - intros id j Hj. destruct (I4 id j Hj) as (o' & Ho' & Hid). exists o'. split; [|done].
    by apply lookup_app_l_Some.
  - eapply chans_open_fewer; [|done|exact Io]. intros j id ch (o' & [Ho'|[_ Ho']]%lookup_app_Some & Hid); [by exists o'|].
    apply list_lookup_singleton_Some in Ho' as [_ <-]. by rewrite He, lookup_empty in Hid.
  - eapply gos_mono; [done|apply objs_kept_snoc|done].
Qed.

Lemma go_inv g w : go_ok (hw_trace w) (hw_objs w) g -> daemon_inv w -> daemon_inv (go g w) /\ later w (go g w).
Proof.
  intros Hg [I1 I2 I3 I4 I5 Io I6 I7]. split; [|by split]. split; try done. cbn.
  apply Forall_app. split; [done|]. by constructor.
Qed.

Lemma start_job_inv jobID d workspace dir agent w :
  daemon_inv w -> accepted jobID d (hw_trace w) -> configured_dir dir -> agent ∈ registry ->
  (jd_Workspace d <> "" -> cfWorkspaces cfg !! jd_Workspace d = Some dir) -> (jd_Agent d <> "" -> agent = jd_Agent d) ->
  hw_jobs w !! jobID = None -> Z.of_nat (size (hw_jobs w)) < cfMaxJobs cfg ->
  daemon_inv (start_job jobID d workspace dir agent w) /\ later w (start_job jobID d workspace dir agent w).
Proof.
  intros Hi Ha Hd Hag Hws Hnm Hn Hs. unfold start_job.
  destruct (record_inv (HvAccepted jobID d) w Hi Ha I) as [Hi1 Hl1].
  set (o := dispatched_job jobID d workspace dir agent (deadline_of d w)).
  assert (runs_on o d (hw_trace w ++ [HvAccepted jobID d])) as Hro.
  { split; [split; [|done..]|].
    - split; [apply elem_of_app; right; by left|]. eapply accepted_mono; [|done]. by exists [HvAccepted jobID d].
    - cbn. unfold deadline_of. destruct (Z.ltb_spec 0 (li_TimeoutMS (jd_Limits d))); [naive_solver|].
      split; [lia | by intros []]. }
  assert (job_ok (hw_trace w ++ [HvAccepted jobID d]) o) as Ho.
  { split; [|by intros id ch Hid; cbn in Hid; rewrite lookup_empty in Hid]. exists d. apply Hro. }
  pose proof (objs_snoc_inv _ _ Hi1 Ho eq_refl) as Hi2. clear Hi1. cbn in Hi2.
  match goal with |- daemon_inv (go ?g ?w2) /\ _ => cut (daemon_inv w2) end.
  { intros Hw2. split; [|split; [apply Hl1 | apply objs_kept_snoc]]. apply go_inv; [|done].
    exists o. split; [by apply list_lookup_middle | exact Hro]. }
  destruct Hi2 as [I1 I2 I3 I4 I5 Io I6 I7]. split; try done.
  - cbn. intros id j Hj. destruct (decide (id = jobID)) as [->|Hne].
    + rewrite lookup_insert_eq in Hj. simplify_eq. eexists. split; [apply list_lookup_middle; done | done].
    + rewrite lookup_insert_ne in Hj by done. by apply I4.
  - cbn. rewrite map_size_insert_None by done. cbn in I6. lia.
Qed.

Lemma resolve_configured d session has name dir :
  resolveWorkspace cfg d session has = (name, dir, true) ->
  configured_dir dir /\ (jd_Workspace d <> "" -> cfWorkspaces cfg !! jd_Workspace d = Some dir).
Proof.
  unfold resolveWorkspace, configured_dir. intros H. destruct (String.eqb_spec (jd_Workspace d) ""); cbn [negb] in H;
    repeat case_match; simplify_eq; naive_solver.
Qed.

Lemma resolve_named d session has : jd_Agent d <> "" -> resolveAgent cfg d session has = jd_Agent d.
Proof. intros H%String.eqb_neq. unfold resolveAgent. by rewrite H. Qed.

Lemma rg_OnDispatch jobID d w0 :
  received TypeJobDispatch jobID d (hw_trace w0) ->
  thread (harness_OnDispatch cfg registry jobID d) (fun _ _ => True) w0.
Proof.
  intros Hr. unfold harness_OnDispatch. destruct (negb _) eqn:Eo; [done|]. boolprop.
  destruct (_ || _); [done|]. apply rg_live. intros w x w' Hl Hi Hf. split; [|done].
  destruct (find_job jobID w) eqn:Hn; [simplify_eq/=; by apply stay_inv|].
  destruct (held sessionsMu w); [done|]. injection Hf as Hf. unfold accept_dispatch in Hf.
  destruct (session_of _ _ w) as [session has].
  destruct (resolveWorkspace cfg d session has) as [[name dir] ok] eqn:Ew.
  destruct ok; [|simplify_eq/=; by apply stay_inv]. cbn in Hf.
  unfold get_agent in Hf. case_bool_decide as Ha; [|simplify_eq/=; by apply stay_inv].
  destruct (Z.leb_spec (cfMaxJobs cfg) (Z.of_nat (size (hw_jobs w)))); simplify_eq/=; [by apply stay_inv|].
  destruct (resolve_configured _ _ _ _ _ Ew) as [Hdir Hws].
  apply start_job_inv; [done| |done|done|done|by apply resolve_named|done..].
  split; [done|]. eapply received_mono; [apply Hl|done].
Qed.

(** *** Approvals *)

Lemma asked_by_job w jobID id ch :
  daemon_inv w -> approval_chan jobID id w = Some ch ->
  exists req, HvAsked ch id req ∈ hw_trace w /\ rqJobID req = jobID.
Proof.
  intros Hi H. unfold approval_chan in H. destruct (find_job jobID w) as [j|] eqn:Hj; [|done]. cbn in H.
  destruct (inv_table w Hi jobID j Hj) as (o & Ho & <-). unfold job_at in H. rewrite Ho in H. cbn in H.
  pose proof (proj1 (Forall_lookup _ _) (inv_objs w Hi) j o Ho) as [_ Hc]. by apply Hc.
Qed.

Lemma chans_same_bound chans ch c tr :
  chans_ok chans tr -> (forall r, chBuf c = Some r -> exists jobID, HvDelivered jobID ch r ∈ tr) ->
  chans_ok (<[ch := c]> chans) tr.
Proof.
  intros [Hb Hd] Hc. split.
  - intros ch' id q. rewrite length_insert. apply Hb.
  - intros ch' c' r Hl Hr. apply list_lookup_insert_Some in Hl as [(-> & -> & _)|[_ Hl]]; [by apply Hc | by eapply Hd].
Qed.

Lemma open_chan_insert chans ch c c' x :
  chans !! ch = Some c -> chClosed c = false -> chClosed c' = false -> open_chan chans x -> open_chan (<[ch := c']> chans) x.
Proof.
  intros Hc Hcl Hcl' (cx & Hx & Ho). destruct (decide (x = ch)) as [->|Hne].
  - exists c'. rewrite list_lookup_insert_eq by by eapply lookup_lt_Some. done.
  - exists cx. by rewrite list_lookup_insert_ne.
Qed.

Lemma offer_inv jobID ch r w :
  daemon_inv w -> justified (hw_trace w) (HvDelivered jobID ch r) ->
  daemon_inv (offer jobID ch r w) /\ later w (offer jobID ch r w).
Proof.
  intros Hi Hj. unfold offer. destruct (hw_chans w !! ch) as [c|] eqn:Hc; [|by apply stay_inv].
  destruct (chClosed c) eqn:Hcl.
  { apply ordinary_quiet with [HvPanic "send on closed channel"]; try done. by repeat constructor. }
  destruct (chBuf c); [by apply stay_inv|].
  destruct (record_inv (HvDelivered jobID ch r) w Hi Hj I) as [[I1 I2 I3 I4 I5 Io I6 I7] Hl].
  split; [|done]. split; try done.
  - apply chans_same_bound; [done|]. intros r' [= <-]. exists jobID. apply elem_of_app. right. by left.
  - eapply chans_open_fewer; [done| |exact Io]. intros j id x _. cbn. by eapply open_chan_insert.
Qed.

Lemma rg_OnApprovalResponse jobID r w0 :
  received TypeApprovalResponse jobID r (hw_trace w0) ->
  thread (harness_OnApprovalResponse jobID r) (fun _ _ => True) w0.
Proof.
  intros Hr. apply rg_bind, rg_look. intros w1 Hl1 Hi1.
  destruct (approval_chan jobID (ap_ApprovalID r) w1) as [ch|] eqn:Hch; [|done].
  destruct (asked_by_job w1 _ _ _ Hi1 Hch) as (req & Ha & Hq).
  apply rg_bind, rg_act. intros w2 Hl2 Hi2. split; [|done]. apply offer_inv; [done|]. split.
  - eapply received_mono; [|exact Hr]. trans (hw_trace w1); [apply Hl1 | apply Hl2].
  - exists req. split; [by eapply later_in | done].
Qed.

(** A new call waits on a new channel. *)
Lemma chans_open_ask objs chans j id (f : HJob -> HJob) :
  (forall o, hjApprovals (f o) = <[id := length chans]> (hjApprovals o)) ->
  chans_open objs chans -> chans_open (alter f j objs) (chans ++ [new_chan]).
Proof.
  intros Hf [Hop Hinj].
  assert (forall j' id' ch, waits_on (alter f j objs) j' id' ch ->
            (j' = j /\ id' = id /\ ch = length chans) \/ (waits_on objs j' id' ch /\ (ch < length chans)%nat)) as Hw.
  { assert (forall j' id' ch, waits_on objs j' id' ch -> (ch < length chans)%nat) as Hlt.
    { intros j' id' ch H. destruct (Hop j' id' ch H) as (c & Hc & _). by eapply lookup_lt_Some. }
    intros j' id' ch (o & Ho & Hid). rewrite list_lookup_alter in Ho. case_decide as Ej.
    - subst j'. destruct (objs !! j) as [o'|] eqn:Ho'; [|done]. cbn in Ho. simplify_eq. rewrite Hf in Hid.
      apply lookup_insert_Some in Hid as [[<- <-]|[_ Hid]]; [by left | right].
      assert (waits_on objs j id' ch) as H by by exists o'. split; [done | by eapply Hlt].
    - right. assert (waits_on objs j' id' ch) as H by by exists o. split; [done | by eapply Hlt]. }
  split.
  - intros j' id' ch [(-> & -> & ->)|[H _]]%Hw; [exists new_chan; split; [apply list_lookup_middle|]; done|].
    destruct (Hop j' id' ch H) as (c & Hc & Ho). exists c. split; [by apply lookup_app_l_Some | done].
  - intros j1 id1 j2 id2 ch [(-> & -> & ->)|[H1 L1]]%Hw [(-> & -> & E2)|[H2 L2]]%Hw; [done|lia|lia|by eapply Hinj].
Qed.

(** A request is registered under a channel of its own. *)
Lemma ask_section_inv req w :
  daemon_inv w -> daemon_inv (ask_section req w).2 /\ later w (ask_section req w).2.
Proof.
  intros Hi. unfold ask_section. destruct (find_job (rqJobID req) w) as [j|] eqn:Hj; [|by apply stay_inv].
  destruct (inv_table w Hi _ j Hj) as (o & Ho & Hid). unfold job_at. rewrite Ho. cbn [snd].
  set (id := NewID "apr" (hulid (hw_tick w))). set (ch := length (hw_chans w)).
  set (ev := HvAsked ch id req). destruct Hi as [I1 I2 I3 I4 [Hb Hd] Io I6 I7].
  assert (hw_trace w `prefix_of` hw_trace w ++ [ev]) as Hp by by exists [ev].
  assert (forall ch' id' q, HvAsked ch' id' q ∈ hw_trace w ++ [ev] ->
            HvAsked ch' id' q ∈ hw_trace w \/ (ch' = ch /\ id' = id /\ q = req)) as Hnew.
  { intros ch' id' q [H|H%list_elem_of_singleton]%elem_of_app; [by left | right; by simplify_eq]. }
  set (f := fun o0 : HJob => set_job_phase PhaseAwaitingApproval (set_approvals_of (<[id := ch]> (hjApprovals o0)) o0)).
  assert (objs_kept (hw_objs w) (alter f j (hw_objs w))) as Hk.
  { intros i x Hx. rewrite list_lookup_alter. case_decide; [subst; rewrite Hx; by exists (f x) | by exists x]. }
  split; [|by split]. split; cbn.
  - apply Forall_app. split; [|by constructor]. eapply Forall_impl; [exact I1|]. intros x. by apply justified_mono.
  - intros ch' id1 id2 q1 q2 [H1|(-> & -> & ->)]%Hnew [H2|(Ech & -> & ->)]%Hnew; [by eapply I2| | |done].
    + subst. apply Hb in H1. unfold ch in H1. lia.
    + apply Hb in H2. unfold ch in H2. lia.
  - apply Forall_lookup. intros i x Hx. rewrite list_lookup_alter in Hx.
    case_decide as Eij; [subst i; rewrite Ho in Hx; simplify_eq/= | ].
    + pose proof (proj1 (Forall_lookup _ _) I3 j o Ho) as [[d0 Hau] Hc]. split; [exists d0; by eapply authorised_mono|]. cbn.
      intros id' ch' [[<- <-]|[_ Hin]]%lookup_insert_Some.
      * exists req. rewrite Hid. split; [|done]. apply elem_of_app. right. by left.
      * destruct (Hc id' ch' Hin) as (q & Hq & ?). exists q. split; [|done]. apply elem_of_app. by left.
    + eapply job_ok_mono; [exact Hp|]. by eapply (proj1 (Forall_lookup _ _) I3).
  - eapply table_ok_same; [|exact I4]. by apply alter_related.
  - split.
    + intros ch' id' q [H|(-> & _)]%Hnew; rewrite length_app; cbn; [apply Hb in H|unfold ch]; lia.
    + intros ch' c r Hc Hr. apply lookup_app_Some in Hc as [Hc|[_ Hc]].
      * destruct (Hd ch' c r Hc Hr) as [jobID H]. exists jobID. apply elem_of_app. by left.
      * apply list_lookup_singleton_Some in Hc as [_ <-]. done.
  - by apply (chans_open_ask _ _ j id).
  - done.
  - by eapply gos_mono.
Qed.

Lemma ask_section_asked req w j o id ch :
  (ask_section req w).1 = Some (j, o, id, ch) -> HvAsked ch id req ∈ hw_trace (ask_section req w).2.
Proof.
  unfold ask_section. intros H. destruct (find_job _ w) as [j'|]; [|done]. destruct (job_at j' w) as [o'|]; [|done].
  cbn in H. simplify_eq. cbn. apply elem_of_app. right. by left.
Qed.

(** What was received from the channel of a request answers this request. *)
Lemma answer_licensed req id ch c r w :
  daemon_inv w -> HvAsked ch id req ∈ hw_trace w -> hw_chans w !! ch = Some c -> chBuf c = Some r ->
  ap_Decision r = DecisionAllow -> licensed req (AllowCall (rqInput req)) (hw_trace w).
Proof.
  intros Hi Ha Hc Hr Hd. destruct (inv_chans w Hi) as [_ Hch]. destruct (Hch ch c r Hc Hr) as [jobID Hdel].
  pose proof (proj1 (Forall_forall _ _) (inv_trace w Hi) _ Hdel) as [_ (req' & Ha' & Hq)].
  destruct (inv_asked w Hi _ _ _ _ _ Ha Ha') as [-> <-]. exists ch, r. subst. done.
Qed.

Lemma receive_safe ch w v w' : receive ch w = Some (v, w') -> safe w w'.
Proof.
  unfold receive. destruct (hw_chans w !! ch) as [c|] eqn:Hc; [|done]. destruct (chBuf c) as [r|].
  - intros [= <- <-]. apply (drain_safe ch (fun c => MkChan None (chClosed c))); [done | split; [by left | done]].
  - destruct (chClosed c); [|done]. intros [= <- <-]. apply safe_refl.
Qed.

(** Waiting for the owner. *)
Lemma rg_wait req id ch expires w0 :
  HvAsked ch id req ∈ hw_trace w0 ->
  thread (v <- choose [receive ch; at_time expires TimedOut] ;; Ret (verdict_decision req v))
    (fun dec w => cdBehavior dec = "allow" -> licensed req dec (hw_trace w)) w0.
Proof.
  intros Ha. apply rg_bind, rg_live. intros w v w' Hl Hi Hf. cbv zeta in Hf.
  match type of Hf with context [?l !! ?n] => destruct (l !! n) as [[y w1]|] eqn:Hn end; [|done].
  injection Hf as -> <-. pose proof (list_elem_of_lookup_2 _ _ _ Hn) as (c & Hin & Hc)%list_elem_of_omap.
  assert ((daemon_inv w1 /\ later w w1) /\
    (cdBehavior (verdict_decision req v) = "allow" -> licensed req (verdict_decision req v) (hw_trace w1))) as [[Hi1 Hl1] Hq].
  { apply elem_of_cons in Hin as [->|Hin%list_elem_of_singleton].
    - pose proof (receive_safe _ _ _ _ Hc Hi) as Hs. split; [done|]. intros Hb.
      eapply licensed_mono; [apply Hs|]. unfold receive in Hc.
      destruct (hw_chans w !! ch) as [x|] eqn:Hx; [|done]. destruct (chBuf x) as [r|] eqn:Hr.
      + simplify_eq. cbn in *. destruct (String.eqb_spec (ap_Decision r) DecisionAllow) as [Hd|]; [|done].
        eapply answer_licensed; [done|by eapply later_in|done..].
      + destruct (chClosed x); [|done]. by simplify_eq.
    - subst c. unfold at_time in Hc. destruct (_ <=? _); [|done]. simplify_eq. split; [by apply stay_inv | done]. }
  destruct (ordinary_silent w1 (htick w1)) as [? ?]; [done..|]. split; [split; [done | by trans w1]|].
  intros Hb. by apply Hq.
Qed.

Lemma rg_ask_owner req j o id ch w0 :
  HvAsked ch id req ∈ hw_trace w0 ->
  thread (ask_owner cfg req j o id ch) (fun dec w => cdBehavior dec = "allow" -> licensed req dec (hw_trace w)) w0.
Proof.
  intros Ha. apply rg_skip; [apply safe_consult|]. intros t w1 H1. apply rg_skip; [apply safe_make_envelope|].
  intros env w2 H2. apply rg_skip; [apply safe_SendReliable|]. intros [[]|e] w3 H3; [|by apply rg_ret].
  apply rg_skip; [apply safe_sendProgress|]. intros _ w4 H4. eapply rg_wait, later_in; [|exact Ha].
  trans w1; [done|]. trans w2; [done|]. by trans w3.
Qed.

Lemma unask_same id o : same_job o (unask_job id o).
Proof.
  unfold unask_job. destruct (_ && _); repeat split; apply delete_subseteq.
Qed.

Lemma rg_decide req w0 :
  thread (decide_call cfg req) (fun dec w => cdBehavior dec = "allow" -> licensed req dec (hw_trace w)) w0.
Proof.
  apply rg_bind, rg_act. intros w Hl Hi. split; [by apply ask_section_inv|].
  destruct (ask_section req w).1 as [[[[j o] id] ch]|] eqn:Hs; [|by apply rg_ret].
  apply rg_bind. eapply rg_mono; [|eapply rg_ask_owner, ask_section_asked, Hs].
  intros dec w1 Hd. apply rg_skip; [apply safe_change; intros w2; apply with_job_safe, unask_same|].
  intros _ w2 Hl2. apply rg_ret. intros Hb. eapply licensed_mono; [apply Hl2 | by apply Hd].
Qed.

Lemma rg_permission w0 : thread (permission_handle cfg) (fun _ _ => True) w0.
Proof.
  apply rg_skip; [apply safe_consult|]. intros [req|] w1 _; [|done].
  apply rg_bind. eapply rg_mono; [|apply rg_decide]. intros dec w2 Hd.
  apply rg_act. intros w3 Hl Hi. split; [|done]. apply record_inv; [done| |done].
  intros Hb. eapply licensed_mono; [apply Hl | by apply Hd].
Qed.

(** *** Running a job *)

Lemma rg_run_agent j o d opt w0 :
  authorised (hjId o) d (opDir opt) (hjAgent o) (hw_trace w0) -> prompted (hjId o) d opt ->
  restrained (hjId o) (hjAgent o) opt ->
  thread (run_agent j o opt) (fun _ _ => True) w0.
Proof.
  intros Ha Hpr Hres. apply rg_bind, rg_act. intros w Hl Hi. cbn [fst snd]. split.
  - destruct (record_inv (HvAgent (hjId o) (hjAgent o) opt) w Hi) as [Hi1 Hl1];
      [split; [|done]; exists d; split; [eapply authorised_mono; [apply Hl|done]|done]|done|].
    destruct (ordinary_silent (hrecord [HvAgent (hjId o) (hjAgent o) opt] w)
                (htick (hrecord [HvAgent (hjId o) (hjAgent o) opt] w))) as [Hi2 Hl2]; [done..|].
    split; [exact Hi2|]. by etrans.
  - destruct (agent_run _ _ _) as [events res].
    apply rg_skip; [apply guards_for_fold; intros; apply safe_progress_step|].
    intros _ w1 _. by destruct res.
Qed.

(** The names of the attachments, all of them or none. *)
Lemma write_files_yields dir files names :
  yields (fun r => forall l, r = Ok l -> l = names ++ map (fun f => dir +:+ "/" +:+ attachment_name f) files)
    (write_files dir files names).
Proof.
  revert names. induction files as [|f files IH]; intros names; cbn [write_files map].
  { intros l [= <-]. by rewrite app_nil_r. }
  destruct (base64_decode _); [|done]. apply yields_any. intros [[]|e]; [|done].
  rewrite cons_middle, app_assoc. apply IH.
Qed.

Lemma attach_files_yields o d prompt :
  yields (fun pa => exists after, files_after (hjId o) d after /\ pa.1 = prompt +:+ after) (attach_files o d prompt).
Proof.
  assert (forall b : bool, exists after, files_after (hjId o) d after /\ (prompt, b).1 = prompt +:+ after) as Hnone.
  { intros b. exists "". split; [by left|]. by rewrite string_app_nil. }
  unfold attach_files. destruct (jd_Attachments d) as [|f files] eqn:Hf; [apply Hnone|]. cbn [is_empty_list].
  apply yields_bind, yields_any. intros [[]|e]; [|apply (Hnone false)].
  pose proof (write_files_yields (attachments_dir (hjId o)) (f :: files) []) as Hy. revert Hy.
  generalize (write_files (attachments_dir (hjId o)) (f :: files) []). intros m Hy.
  induction m as [r|X g k IH]; [|intros x; apply IH, Hy].
  destruct r as [names|e]; [|apply (Hnone false)]. eexists. split; [right; rewrite Hf; split; [done|reflexivity]|].
  by rewrite (Hy names eq_refl).
Qed.

Lemma with_history_before d resume : with_history d resume = thread_before d resume +:+ jd_Prompt d.
Proof.
  unfold with_history, thread_before. destruct (jd_History d) as [|h hs]; cbn [is_empty_list negb]; [by rewrite andb_false_r|].
  rewrite andb_true_r. destruct (String.eqb_spec resume ""); [rewrite bool_decide_true by done|by rewrite bool_decide_false by done].
  by rewrite <- !string_app_assoc.
Qed.

Lemma rg_work j o d start mcp tool w0 :
  authorised (hjId o) d (hjDir o) (hjAgent o) (hw_trace w0) ->
  (agent_approvals (hjAgent o) = true -> tool = FullName /\ mcp = mcp_path (hjId o)) ->
  thread (work cfg j o d start mcp tool) (fun _ _ => True) w0.
Proof.
  intros Ha Hask. apply rg_skip; [apply safe_sessions_Get|]. intros session w1 H1.
  apply rg_bind. eapply rg_mono; [|apply rg_within; [apply _ | apply rg_yields; [apply safe_attach_files | apply attach_files_yields]]].
  intros [prompt attached] w2 [H2 (after & Haf & Hpr)]. cbn [fst] in Hpr.
  apply rg_bind. eapply rg_mono; [|apply (rg_run_agent j o d)].
  - intros res w3 _. apply rg_safe. apply guards_bind; [apply safe_save_session|]. intros _.
    apply guards_bind; [apply safe_finish|]. intros _. apply guards_when. intros _.
    apply safe_change. intros w. by apply ordinary_silent.
  - cbn [options_for opDir]. eapply authorised_mono; [|exact Ha]. trans (hw_trace w1); [apply H1 | apply H2].
  - exists after. split; [done|]. cbn. by rewrite Hpr, with_history_before, string_app_assoc.
  - done.
Qed.

Lemma rg_run_job j o d start w0 :
  authorised (hjId o) d (hjDir o) (hjAgent o) (hw_trace w0) ->
  thread (run_job cfg registry j o d start) (fun _ _ => True) w0.
Proof.
  intros Ha. unfold run_job. destruct (get_agent _ _); [|apply rg_safe, safe_finish].
  destruct (agent_approvals _) eqn:Eap; [|by apply rg_work; [done|rewrite Eap]].
  apply rg_skip; [apply safe_write|]. intros [[]|e] w1 H1; [|apply rg_safe, safe_finish].
  apply rg_bind. eapply rg_mono; [|apply rg_work; [eapply authorised_mono; [apply H1|done]|done]].
  intros _ w2 _. apply rg_safe, safe_change. intros w. by apply ordinary_silent.
Qed.

Lemma remove_job_safe id w : safe w (set_hjobs (delete id (hw_jobs w)) w).
Proof.
  intros [I1 I2 I3 I4 I5 Io I6 I7]. split; [|by split]. split; try done; cbn.
  - intros i j Hj. apply lookup_delete_Some in Hj as [_ Hj]. by apply I4.
  - rewrite map_size_delete. destruct (hw_jobs w !! id); unfold Datatypes.id; lia.
Qed.

Lemma rg_run j d w0 :
  go_ok (hw_trace w0) (hw_objs w0) (GoRun j d) -> thread (run cfg registry j d) (fun _ _ => True) w0.
Proof.
  intros Hgo. apply rg_bind, rg_look. intros w Hl Hi. destruct (job_at j w) as [o|] eqn:Ho; [|done].
  assert (authorised (hjId o) d (hjDir o) (hjAgent o) (hw_trace w)) as Ha.
  { destruct (go_ok_mono _ _ _ _ (GoRun j d) (proj1 Hl) (proj2 Hl) Hgo) as (o' & Ho' & Hau & _).
    unfold job_at in Ho. by simplify_eq. }
  apply rg_skip; [apply safe_consult|]. intros start w1 H1.
  apply rg_bind. eapply rg_mono; [|apply rg_run_job; eapply authorised_mono; [apply H1|done]].
  intros _ w2 _. apply rg_safe, guards_bind; [apply safe_change; intros; apply remove_job_safe|].
  intros _. apply safe_cancel.
Qed.

(** ** The client, against any handler that keeps the invariant *)

Class HandlerSafe (H : MessageHandler) : Prop := {
  hs_hello : guards safe HelloMessage;
  hs_welcome w : guards safe (OnWelcome w);
  hs_dispatch jobID d w : received TypeJobDispatch jobID d (hw_trace w) -> thread (OnDispatch jobID d) (fun _ _ => True) w;
  hs_cancel jobID c : guards safe (OnCancel jobID c);
  hs_response jobID r w : received TypeApprovalResponse jobID r (hw_trace w) -> thread (OnApprovalResponse jobID r) (fun _ _ => True) w
}.

#[export] Instance daemon_handler_safe : HandlerSafe (daemon_handler cfg registry).
Proof.
  split; [apply safe_hello | apply safe_OnWelcome | apply rg_OnDispatch | apply safe_OnCancel | apply rg_OnApprovalResponse].
Qed.

Context {H : MessageHandler} `{!HandlerSafe H}.

Lemma safe_report c e : guards safe (report c e).
Proof. apply safe_change. intros w. by apply ordinary_silent. Qed.

Lemma safe_go g : (forall tr objs, go_ok tr objs g) -> guards safe (change (go g)).
Proof. intros Hg. apply safe_change. intros w Hi. by apply go_inv. Qed.

Lemma safe_answer_ack c env ack : guards safe (answer_ack c env ack).
Proof.
  apply guards_bind; [apply safe_make_reply|]. intros reply.
  apply guards_bind; [apply safe_frame_send | intros _; apply guards_ret].
Qed.

(** A payload that decoded goes to its handler, whose answer is the ack. *)
Lemma rg_handled {A} (P : prog HWorld A) (g : A -> prog HWorld unit) w :
  thread P (fun _ _ => True) w -> (forall a, guards safe (g a)) -> thread (bind P g) (fun _ _ => True) w.
Proof. intros HP Hg. apply rg_bind. eapply rg_mono; [|exact HP]. intros a w' _. apply rg_safe, Hg. Qed.

Lemma rg_client_handle c env w0 :
  HvRecv c env ∈ hw_trace w0 -> thread (client_handle c env) (fun _ _ => True) w0.
Proof.
  intros Hr. unfold client_handle.
  destruct (String.eqb_spec (en_Type env) TypePong).
  { apply rg_safe, safe_change. intros w. unfold put_pong. case_bool_decide; by apply ordinary_silent. }
  destruct (String.eqb_spec (en_Type env) TypeAck).
  { apply rg_safe, guards_bind; [apply safe_Outbox_Ack | intros _; apply guards_ret]. }
  destruct (String.eqb_spec (en_Type env) TypeError); [by apply rg_ret|].
  destruct (String.eqb_spec (en_Type env) TypeJobDispatch).
  { apply rg_handled; [|intros ack; apply safe_answer_ack].
    destruct (Decode env) as [d []] eqn:Hd; [|by apply rg_ret]. apply hs_dispatch. by exists c, env. }
  destruct (String.eqb_spec (en_Type env) TypeJobCancel).
  { apply rg_handled; [|intros ack; apply safe_answer_ack].
    destruct (Decode env) as [d []] eqn:Hd; [|by apply rg_ret]. apply rg_safe, hs_cancel. }
  destruct (String.eqb_spec (en_Type env) TypeApprovalResponse).
  { apply rg_handled; [|intros ack; apply safe_answer_ack].
    destruct (Decode env) as [d []] eqn:Hd; [|by apply rg_ret]. apply hs_response. by exists c, env. }
  apply rg_safe, guards_bind; [apply safe_make_reply|]. intros reply.
  apply guards_bind; [apply safe_frame_send | intros _; apply guards_ret].
Qed.

(** A frame is on record before it is handled. *)
Lemma rg_Recv c (w0 : HWorld) :
  thread (Recv c) (fun r w => forall env, r = Ok env -> HvRecv c env ∈ hw_trace w) w0.
Proof.
  apply rg_live. intros w x w' Hl Hi Hf. case_bool_decide; [simplify_eq; split; [by apply ordinary_silent|done]|].
  destruct (frame_read _ c) as [[env|e]|]; simplify_eq.
  - destruct (record_inv (HvRecv c env) w Hi I I) as [Hi1 Hl1].
    destruct (ordinary_silent (hrecord [HvRecv c env] w) (htick (hrecord [HvRecv c env] w))) as [Hi2 Hl2]; [done..|].
    split; [split; [exact Hi2 | by etrans]|]. intros env'. unfold recv_envelope. destruct (_ || _); [done|].
    intros [= <-]. cbn. apply elem_of_app. right. by left.
  - split; [by apply ordinary_silent | done].
Qed.

Lemma safe_Recv c : guards safe (Recv c).
Proof.
  apply safe_live. intros w x w' Hf. case_bool_decide; [simplify_eq; by apply ordinary_silent|].
  destruct (frame_read _ c) as [[env|e]|]; simplify_eq; [|by apply ordinary_silent].
  apply ordinary_quiet with [HvRecv c env]; try done. by repeat constructor.
Qed.

Lemma rg_readLoop c w0 : thread (readLoop c) (fun _ _ => True) w0.
Proof.
  apply rg_bind. eapply rg_mono; [|apply rg_Recv]. intros [env|e] w Hr; [|apply rg_safe, safe_report].
  apply rg_handled; [by apply rg_client_handle, Hr | intros _; by apply safe_go].
Qed.

(** The cases of the client's [select]s. *)
Definition case_safe {X} (c : HWorld -> option (X * HWorld)) : Prop :=
  forall w x w', c w = Some (x, w') -> safe w w'.

Lemma case_stopped {X} c (x : X) : case_safe (when_stopped c x).
Proof. intros w y w'. unfold when_stopped. case_bool_decide; [|done]. intros [= _ <-]. apply safe_refl. Qed.
Lemma case_pong {X} c (x : X) : case_safe (take_pong c x).
Proof. intros w y w'. unfold take_pong. case_bool_decide; [|done]. intros [= _ <-]. by apply ordinary_silent. Qed.
Lemma case_time {X} due (x : X) : case_safe (at_time due x).
Proof. intros w y w'. unfold at_time. destruct (_ <=? _); [|done]. intros [= _ <-]. apply safe_refl. Qed.

Ltac cases_safe :=
  repeat first [ apply Forall_nil_2 | apply Forall_cons_2 ]; [apply case_stopped || apply case_pong || apply case_time..].

Lemma safe_heartbeat c interval : guards safe (heartbeatLoop c interval).
Proof.
  apply guards_bind; [apply safe_consult|]. intros due. apply guards_bind.
  { apply safe_choose. cases_safe. }
  intros []; [apply safe_report| |apply safe_report].
  apply guards_bind; [apply hs_hello|]. intros h. apply guards_bind; [apply safe_make_envelope|]. intros ping.
  apply guards_bind; [apply safe_frame_send|]. intros [[]|e]; [|apply safe_report].
  apply guards_bind; [apply safe_consult|]. intros t. apply guards_bind.
  { apply safe_choose. cases_safe. }
  intros []; [apply safe_report|by apply safe_go|apply safe_report].
Qed.

Lemma safe_send_pending c pending : guards safe (send_pending c pending).
Proof.
  induction pending as [|env rest IH]; simpl; [apply guards_ret|].
  apply guards_bind; [apply safe_frame_send|]. intros [[]|e]; [exact IH | apply guards_ret].
Qed.

Lemma safe_set f : (forall w, hw_jobs (f w) = hw_jobs w /\ hw_objs (f w) = hw_objs w /\ hw_chans (f w) = hw_chans w
    /\ hw_go (f w) = hw_go w /\ hw_trace (f w) = hw_trace w) -> guards safe (change f).
Proof. intros Hf. apply safe_change. intros w. destruct (Hf w) as (?&?&?&?&?). by apply ordinary_silent. Qed.

Lemma safe_session_connected c welcome : guards safe (session_connected c welcome).
Proof.
  apply guards_bind; [by apply safe_set|]. intros _. apply guards_bind; [apply hs_welcome|]. intros _.
  apply guards_bind; [apply safe_Outbox_Pending|]. intros pending.
  apply guards_bind; [apply safe_send_pending|]. intros r. apply guards_bind.
  - destruct r as [[]|e]; [|apply guards_ret].
    apply guards_bind; [by apply safe_go|]. intros _. apply guards_bind; [by apply safe_go|]. intros _.
    apply guards_bind; [|intros e; apply guards_bind; [by apply safe_set | intros _; apply guards_ret]].
    apply safe_live. intros w x w' Hf. destruct (List.find _ _); [|done]. simplify_eq. apply safe_refl.
  - intros e. apply guards_bind; [by apply safe_set | intros _; apply guards_ret].
Qed.

Lemma safe_session : guards safe session.
Proof.
  apply guards_bind; [apply safe_consult|]. intros [[]|e]; [|apply guards_ret].
  apply guards_bind; [apply safe_act; intros w; by apply ordinary_silent|]. intros c.
  apply guards_bind; [|intros e; apply guards_bind; [by apply safe_set | intros _; apply guards_ret]].
  apply guards_bind; [apply hs_hello|]. intros h. apply guards_bind; [apply safe_make_envelope|]. intros hello.
  apply guards_bind; [apply safe_frame_send|]. intros [[]|e]; [|apply guards_ret].
  apply guards_bind; [apply safe_Recv|]. intros r. destruct (expect_welcome r); [apply safe_session_connected | apply guards_ret].
Qed.

Lemma retry_delay_bounds b started ended : second <= b <= MaxBackoff -> second <= retry_delay b started ended <= MaxBackoff.
Proof. unfold retry_delay, MaxBackoff. destruct (_ <? _); [done | lia]. Qed.

Lemma next_backoff_bounds b : second <= b <= MaxBackoff -> second <= next_backoff b <= MaxBackoff.
Proof. unfold next_backoff, MaxBackoff, second. lia. Qed.

Lemma rg_Run b w0 : second <= b <= MaxBackoff -> thread (Run b) (fun _ _ => True) w0.
Proof.
  intros Hb. apply rg_skip; [apply safe_consult|]. intros started w1 _.
  apply rg_skip; [apply safe_session|]. intros e w2 _. destruct (permanent e); [done|].
  apply rg_skip; [apply safe_consult|]. intros ended w3 _. pose proof (retry_delay_bounds b started ended Hb) as Hd.
  apply rg_bind, rg_act. intros w4 _ Hi4. split; [by apply ordinary_silent|]. cbn [fst].
  apply rg_skip; [apply safe_consult|]. intros t w5 _. apply rg_safe, safe_go. intros tr objs. cbn.
  split; [by apply next_backoff_bounds|]. eexists _, _. split; [exact Hd|]. rewrite Z.add_simpl_l. reflexivity.
Qed.
End Safety.
