(* ===== verification/DaemonSystem.v ===== *)
(** * The daemon as a whole

    All goroutines of the daemon in one pool: whatever the broker, the CLI,
    the agents, the disk and the scheduler do, these hold in every state the
    process can reach. *)

From S2P Require Import Prelude Resume GoText Codec Json Protocol Rely HarnessText HarnessWorld StateFiles HarnessClient Daemon DaemonSafety.

Open Scope Z_scope.
Open Scope prog_scope.

Section System.
Context {E : HEnv} (cfg : HarnessConfig) (registry : list string).

(** A state the daemon can be in, started on some state files. *)
Definition daemon_reaches (w : HWorld) : Prop :=
  exists files outbox sessions ps,
    reach (daemon_entry cfg registry) ([], daemon_start files outbox sessions) (ps, w).

Lemma take_goroutine_inv n w g w' :
  daemon_inv cfg registry w -> take_goroutine n w = Some (g, w') ->
  (daemon_inv cfg registry w' /\ later w w') /\ go_ok cfg registry (hw_trace w') (hw_objs w') g.
Proof.
  intros [I1 I2 I3 I4 I5 Io I6 I7] Hg. unfold take_goroutine in Hg.
  destruct (hw_go w !! n) as [g'|] eqn:Hn; [|done]. destruct (awake g' w); [|done]. simplify_eq.
  split; [|by eapply (proj1 (Forall_lookup _ _) I7)]. split; [|by split]. split; try done. cbn.
  apply Forall_app. split; [by apply Forall_take | by apply Forall_drop].
Qed.

Lemma goroutine_ok g w :
  go_ok cfg registry (hw_trace w) (hw_objs w) g -> thread_ok (daemon_inv cfg registry) later w (goroutine cfg registry g).
Proof.
  intros Hg. destruct g as [j d|sleep b|c i|c].
  - by apply rg_run.
  - apply rg_Run; [apply _ | apply Hg].
  - apply rg_safe, safe_heartbeat; apply _.
  - apply rg_readLoop; apply _.
Qed.

Lemma entry_ok p w : daemon_entry cfg registry p -> thread_ok (daemon_inv cfg registry) later w p.
Proof.
  intros [n| |].
  - apply rg_bind, rg_live. intros w1 g w' _ Hi Hg. destruct (take_goroutine_inv n w1 g w' Hi Hg) as [Hs Hok].
    split; [exact Hs | by apply goroutine_ok].
  - apply rg_permission.
  - apply rg_safe, safe_change. intros w1. by apply ordinary_silent.
Qed.

Lemma start_inv files outbox sessions : daemon_inv cfg registry (daemon_start files outbox sessions).
Proof.
  split; cbn.
  - constructor.
  - intros ch id id' q q' H. by apply elem_of_nil in H.
  - constructor.
  - intros id j Hj. by rewrite lookup_empty in Hj.
  - split; [intros ch id q H; by apply elem_of_nil in H | done].
  - split; [intros j id ch (o & Ho & _) | intros j id j' id' ch (o & Ho & _)]; done.
  - rewrite map_size_empty. lia.
  - by repeat constructor.
Qed.

Lemma reachable_inv w : daemon_reaches w -> daemon_inv cfg registry w.
Proof.
  intros (files & outbox & sessions & ps & Hr).
  apply (pool_rg (daemon_inv cfg registry) later (daemon_entry cfg registry)) in Hr as [Hi _];
    [exact Hi | intros p w1; apply entry_ok | apply start_inv | constructor].
Qed.

(** Where an answer "allow" comes from. *)
Lemma allowed_call_source w req dec :
  daemon_reaches w -> HvAnswer req dec ∈ hw_trace w -> cdBehavior dec = "allow" ->
  exists ch r conn env,
    HvAsked ch (ap_ApprovalID r) req ∈ hw_trace w
    /\ HvDelivered (rqJobID req) ch r ∈ hw_trace w
    /\ HvRecv conn env ∈ hw_trace w
    /\ en_Type env = TypeApprovalResponse /\ en_JobID env = rqJobID req /\ Decode env = (r, true)
    /\ ap_Decision r = "allow"
    /\ cdUpdatedInput dec = rqInput req.
Proof.
  intros Hr Hin Hb. apply reachable_inv in Hr as Hi.
  destruct (proj1 (Forall_forall _ _) (inv_trace _ _ w Hi) _ Hin Hb) as (ch & r & Ha & Hd & Hdec & Hinput).
  destruct (proj1 (Forall_forall _ _) (inv_trace _ _ w Hi) _ Hd) as [(conn & env & ? & ? & ? & ?) _].
  by exists ch, r, conn, env.
Qed.

(** Where a run of an agent comes from. *)
Lemma agent_run_source w jobID agent opt :
  daemon_reaches w -> HvAgent jobID agent opt ∈ hw_trace w ->
  exists conn env d, HvRecv conn env ∈ hw_trace w
    /\ en_Type env = TypeJobDispatch /\ en_JobID env = jobID /\ Decode env = (d, true)
    /\ rq_MMUserID (jd_Requester d) = cfOwnerMMUserID cfg
    /\ configured_dir cfg (opDir opt) /\ agent ∈ registry
    /\ (jd_Workspace d <> "" -> cfWorkspaces cfg !! jd_Workspace d = Some (opDir opt))
    /\ (jd_Agent d <> "" -> agent = jd_Agent d)
    /\ prompted jobID d opt.
Proof.
  intros Hr Hin. apply reachable_inv in Hr as Hi.
  destruct (proj1 (Forall_forall _ _) (inv_trace _ _ w Hi) _ Hin) as [(d & [[_ [Ho (conn & env & Hrecv & ? & ? & ?)]] Hdir Hag Hws Hnm] & Hpr) _].
  by exists conn, env, d.
Qed.

(** A tool call is allowed only if the owner allowed it.  Whatever
    happens around it, when the CLI is told "allow" for a request, the daemon
    had asked the broker about this very request under some approval id, and a
    frame had arrived on its connection to the broker: an approval.response
    for the same job and the same approval id whose decision is "allow".  The
    tool runs on the input that was asked about, unchanged. *)
Theorem tool_calls_need_approval w req dec :
  daemon_reaches w ->
  HvAnswer req dec ∈ hw_trace w -> cdBehavior dec = "allow" ->
  exists ch r conn env,
    HvAsked ch (ap_ApprovalID r) req ∈ hw_trace w
    /\ HvDelivered (rqJobID req) ch r ∈ hw_trace w
    /\ HvRecv conn env ∈ hw_trace w
    /\ en_Type env = TypeApprovalResponse /\ en_JobID env = rqJobID req /\ Decode env = (r, true)
    /\ ap_Decision r = "allow"
    /\ cdUpdatedInput dec = rqInput req.
Proof. apply allowed_call_source. Qed.

(** C12. An agent is started only for the owner: for a job the broker
    dispatched in a frame the daemon received, whose requester is the owner
    this machine is paired with; in the default workspace or one the owner
    configured; and it is one of the agents found on this machine. *)
Theorem agents_run_for_owner w jobID agent opt :
  daemon_reaches w ->
  HvAgent jobID agent opt ∈ hw_trace w ->
  (exists conn env d, HvRecv conn env ∈ hw_trace w
     /\ en_Type env = TypeJobDispatch /\ en_JobID env = jobID /\ Decode env = (d, true)
     /\ rq_MMUserID (jd_Requester d) = cfOwnerMMUserID cfg)
  /\ (opDir opt = cfDefaultWorkspace cfg \/ exists name, cfWorkspaces cfg !! name = Some (opDir opt))
  /\ agent ∈ registry.
Proof.
  intros Hr Hin. destruct (agent_run_source w jobID agent opt Hr Hin) as (conn & env & d & ? & ? & ? & ? & ? & Hdir & Hag & _).
  split; [by exists conn, env, d | done].
Qed.


(** Closing the channels of a job that ends never panics. *)
Lemma only_panic w what :
  daemon_reaches w -> HvPanic what ∈ hw_trace w -> what = "send on closed channel".
Proof.
  intros Hr Hin. apply reachable_inv in Hr as Hi.
  exact (proj1 (Forall_forall _ _) (inv_trace _ _ w Hi) _ Hin).
Qed.
End System.
