(* ===== verification/AgentFacts.v ===== *)
(** * What the coding agents promise

    The stream of a CLI's lines is what a declarative reading of it says; the
    status of a run is decided by the context, the CLI's own result and its
    exit, in that order; a CLI that can ask is started with the bridge that
    asks; signals come in order.  And a codex run that succeeded is reported
    as failed when its standard error crosses the limit within one read. *)

From S2P Require Import Prelude Resume GoText Codec Json Protocol Rely HarnessText HarnessWorld StateFiles HarnessClient Daemon DaemonSafety DaemonSystem AgentCli.

Open Scope Z_scope.

(** ** Standard error *)

(** One read begins before the limit and ends beyond it. *)
Definition straddles (n : Z) (reads : list (list Z)) : Prop :=
  exists k p, reads !! k = Some p
    /\ Z.of_nat (length (concat (take k reads))) < n < Z.of_nat (length (concat (take k reads)) + length p).

Lemma straddles_cons n p reads :
  straddles n (p :: reads) <-> 0 < n < Z.of_nat (length p) \/ straddles (n - Z.of_nat (length p)) reads.
Proof.
  split.
  - intros ([|k] & q & Hq & Hn); cbn in Hq, Hn.
    + injection Hq as ->. left. lia.
    + right. exists k, q. rewrite length_app in Hn. split; [done|lia].
  - intros [H|(k & q & Hq & Hn)].
    + exists 0%nat, p. cbn. split; [done|lia].
    + exists (S k), q. cbn. rewrite length_app. split; [done|lia].
Qed.

Lemma straddles_nil n : ~ straddles n [].
Proof. intros (k & p & H & _). by rewrite lookup_nil in H. Qed.

Lemma straddles_over n reads : n <= 0 -> ~ straddles n reads.
Proof. intros Hn (k & p & _ & H). lia. Qed.

(** The buffer holds the beginning of what was written, and the copying fails
    exactly when a read straddles the limit. *)
Lemma io_Copy_spec n reads :
  (io_Copy n reads).1 = take (Z.to_nat n) (concat reads)
  /\ ((io_Copy n reads).2 = None <-> ~ straddles n reads).
Proof.
  revert n. induction reads as [|p reads IH]; intros n; cbn [io_Copy concat].
  { rewrite take_nil. split; [done|]. split; [intros _; apply straddles_nil | done]. }
  unfold lw_write. destruct (n <=? 0) eqn:En.
  - apply Z.leb_le in En. rewrite Nat.eqb_refl. cbn [negb]. destruct (IH n) as [Hb He]. destruct (io_Copy n reads) as [buf e].
    cbn in *. rewrite Hb. replace (Z.to_nat n) with 0%nat by lia. split; [done|].
    rewrite He. split; intros _; by apply straddles_over.
  - apply Z.leb_gt in En. destruct (n <? Z.of_nat (length p)) eqn:Elt.
    + apply Z.ltb_lt in Elt. rewrite length_take, (proj2 (Nat.eqb_neq _ _)) by lia. cbn. split.
      * rewrite take_app_le by lia. done.
      * split; [done|]. intros H. destruct H. apply straddles_cons. lia.
    + apply Z.ltb_ge in Elt. rewrite Nat.eqb_refl. cbn [negb]. destruct (IH (n - Z.of_nat (length p))) as [Hb He].
      destruct (io_Copy _ reads) as [buf e]. cbn in *. rewrite Hb, He, straddles_cons. split.
      * rewrite take_app_ge by lia. do 2 f_equal. lia.
      * split; intros H; [intros [|]; [lia|done] | tauto].
Qed.

Lemma wait_err_none p : wait_err p = None <-> prExit p = None /\ ~ straddles stderr_limit (prReads p).
Proof.
  unfold wait_err. destruct (prExit p); [naive_solver|]. rewrite (proj2 (io_Copy_spec _ _)). naive_solver.
Qed.

(** ** Status *)

(** A codex run is reported as succeeded exactly when its context has
    not ended, no turn failed, a turn completed, it exited with status 0, and no read
    of its standard error straddled the 64 KiB that are kept. *)
Theorem codex_succeeds_iff s p :
  rsStatus (Codex.outcome s p) = StatusSucceeded <->
  prCtxErr p = None /\ Codex.ssFailed s = "" /\ Codex.ssCompleted s = true
  /\ prExit p = None /\ ~ straddles stderr_limit (prReads p).
Proof.
  rewrite <- wait_err_none. unfold Codex.outcome. destruct (prCtxErr p); [split; [done|intros [? _]; done]|].
  destruct (String.eqb_spec (Codex.ssFailed s) ""); cbn [negb]; [|split; [done|intros (_ & ? & _); done]].
  destruct (Codex.ssCompleted s); cbn [andb]; [|split; [done|intros (_ & _ & ? & _); done]].
  case_bool_decide; [naive_solver|]. split; [done|]. naive_solver.
Qed.

(** A turn that completed, status 0, and 64 KiB and a byte of warnings. *)
Example codex_noise :
  let byte := 120 in
  let p := MkProcess None None
    [MkInputLine 44 (Some (JObj [("type", JStr "thread.started"); ("thread_id", JStr "t1")]));
     MkInputLine 25 (Some (JObj [("type", JStr "turn.completed")]))]
    [repeat byte 32768; repeat byte 32767; [byte; byte]] None None 10 in
  (fun r => match r with Ok r => rsErrCode r | Err _ => "" end) (Codex.Run "codex" p).2 = "codex_exit".
Proof. vm_compute. reflexivity. Qed.

(** ** Streams *)

Section Parse.
Context {S L : Type} (zero : L) (fs : fields L) (step : S -> L -> S * list AgentEvent).

Definition take_line (acc : S * list AgentEvent) (l : L) : S * list AgentEvent :=
  let '(s, evs) := step acc.1 l in (s, acc.2 ++ evs).

Lemma take_line_fst acc l : (take_line acc l).1 = (step acc.1 l).1.
Proof. unfold take_line. by destruct (step acc.1 l). Qed.

(** Lines that do not decode do not matter, nor do those after one that is too long. *)
Lemma parse_lines init lines read :
  scan_lines stdout_limit lines = map inDoc read ->
  parse zero fs step init lines = foldl take_line (init, []) (omap (decode_line zero fs) (map inDoc read)).
Proof.
  unfold parse. intros ->. generalize (map inDoc read) as docs, (init, @nil AgentEvent). clear read lines. intros docs. induction docs as [|doc docs IH]; intros acc; [done|].
  cbn [foldl omap list_omap]. rewrite IH. destruct (decode_line zero fs doc); [|done]. cbn [foldl]. done.
Qed.
End Parse.

Module ClaudeFacts.
Import Claude.

(** What the lines say, read as a whole. *)
Definition is_type (typ : string) (l : line) : bool := String.eqb (lnType l) typ.
Definition text_of (c : Content) : list string :=
  if String.eqb (cnType c) "text" && negb (blank (cnText c)) then [cnText c] else [].
Definition use_of (c : Content) : list string := if String.eqb (cnType c) "tool_use" then [cnName c] else [].
(** What the assistant says in a line, and the tools it uses. *)
Definition said (l : line) : list string := if is_type "assistant" l then concat (map text_of (lnContent l)) else [].
Definition used (l : line) : list string := if is_type "assistant" l then concat (map use_of (lnContent l)) else [].
Definition shown (l : line) : bool := is_type "assistant" l || (is_type "system" l && String.eqb (lnSubtype l) "init").

Definition texts (ls : list line) : list string := concat (map said ls).
Definition session (ls : list line) : string :=
  default "" (last (List.filter (fun s => negb (String.eqb s "")) (map lnSession ls))).
Definition result (ls : list line) : option line := last (List.filter (is_type "result") ls).
(** The last tool of the assistant's last message. *)
Definition tool (ls : list line) : string :=
  default "" (l ← last (List.filter (is_type "assistant") ls); last (used l)).

(** The turns are those of the last result that tells them, and the uses of tools
    since, or from the start. *)
Definition counts (l : line) : bool := is_type "result" l && (0 <? lnNumTurns l).
Definition told_turns (ls : list line) : Z := default 0 (lnNumTurns <$> last (List.filter counts ls)).
Fixpoint since_told (ls : list line) : list line :=
  match ls with
  | [] => []
  | _ :: rest => if existsb counts ls then since_told rest else ls
  end.
Definition add_uses (n uses : Z) : Z := if uses =? 0 then n else wrap64 (n + uses).
Definition turns (ls : list line) : Z :=
  add_uses (told_turns ls) (Z.of_nat (length (concat (map used (since_told ls))))).

Record reads_as (ls : list line) (s : streamState) : Prop := {
  ra_session : ssSessionID s = session ls;
  ra_texts : ssTexts s = texts ls;
  ra_tool : ssTool s = tool ls;
  ra_turns : ssTurns s = turns ls;
  ra_result : match result ls with
    | None => ssSawResult s = false
    | Some l => ssSawResult s = true /\ ssIsError s = lnIsError l /\ ssSubtype s = lnSubtype l
        /\ ssResultText s = lnResult l /\ ssCost s = lnCostUSD l /\ ssDurationMS s = lnDurationMS l
    end
}.

(** The event that shows what the lines said so far. *)
Definition event_of (ls : list line) : AgentEvent :=
  MkAgentEvent (session ls) (TrimSpace (Join (texts ls) (nl +:+ nl))) (tool ls) (turns ls).

Lemma reads_emit ls s : reads_as ls s -> emit s = event_of ls.
Proof. intros [H1 H2 H3 H4 _]. unfold emit, event_of, snapshot. by rewrite H1, H2, H3, H4. Qed.

(** *** One more line *)

Lemma texts_snoc ls l : texts (ls ++ [l]) = texts ls ++ said l.
Proof. unfold texts. rewrite List.map_app, concat_app. cbn. by rewrite app_nil_r. Qed.
Lemma session_snoc ls l : session (ls ++ [l]) = if String.eqb (lnSession l) "" then session ls else lnSession l.
Proof.
  unfold session. rewrite List.map_app, List.filter_app. cbn. destruct (String.eqb (lnSession l) ""); cbn.
  - by rewrite app_nil_r.
  - by rewrite last_snoc.
Qed.
Lemma result_snoc ls l : result (ls ++ [l]) = if is_type "result" l then Some l else result ls.
Proof.
  unfold result. rewrite List.filter_app. cbn. destruct (is_type "result" l); [by rewrite last_snoc | by rewrite app_nil_r].
Qed.
Lemma tool_snoc ls l : tool (ls ++ [l]) = if is_type "assistant" l then default "" (last (used l)) else tool ls.
Proof.
  unfold tool. rewrite List.filter_app. cbn. destruct (is_type "assistant" l); [by rewrite last_snoc | by rewrite app_nil_r].
Qed.

Lemma since_told_snoc ls l : since_told (ls ++ [l]) = if counts l then [] else since_told ls ++ [l].
Proof.
  induction ls as [|x ls IH]; [cbn; destruct (counts l); done|]. cbn [app since_told].
  change (x :: ls ++ [l]) with ((x :: ls) ++ [l]). rewrite existsb_app. cbn [existsb].
  destruct (counts l) eqn:E; [by rewrite orb_true_r, IH|]. rewrite !orb_false_r.
  change (existsb counts (x :: ls)) with (counts x || existsb counts ls).
  destruct (counts x || existsb counts ls); [exact IH|done].
Qed.

Lemma add_uses_add b n k : 0 <= n -> 0 <= k -> add_uses (add_uses b n) k = add_uses b (n + k).
Proof.
  intros Hn Hk. unfold add_uses. destruct (Z.eqb_spec n 0) as [->|]; [done|].
  rewrite (proj2 (Z.eqb_neq (n + k) 0)) by lia. destruct (Z.eqb_spec k 0) as [->|]; [by rewrite Z.add_0_r|].
  unfold wrap64. f_equal.
  replace ((b + n + 2 ^ 63) mod 2 ^ 64 - 2 ^ 63 + k + 2 ^ 63) with ((b + n + 2 ^ 63) mod 2 ^ 64 + k) by lia.
  rewrite Zplus_mod_idemp_l. f_equal. lia.
Qed.

Lemma turns_snoc ls l :
  turns (ls ++ [l]) = if counts l then lnNumTurns l else add_uses (turns ls) (Z.of_nat (length (used l))).
Proof.
  unfold turns, told_turns. rewrite since_told_snoc, List.filter_app. cbn [List.filter].
  destruct (counts l); [by rewrite last_snoc|].
  rewrite app_nil_r, List.map_app, concat_app, length_app, Nat2Z.inj_add, add_uses_add by lia. cbn. by rewrite app_nil_r.
Qed.

(** What a line's content does not touch. *)
Definition same_result (s s' : streamState) : Prop :=
  ssSessionID s' = ssSessionID s /\ ssSawResult s' = ssSawResult s /\ ssIsError s' = ssIsError s
  /\ ssSubtype s' = ssSubtype s /\ ssResultText s' = ssResultText s /\ ssCost s' = ssCost s
  /\ ssDurationMS s' = ssDurationMS s.

Lemma last_default_app {A} (d : A) l k : default d (last (l ++ k)) = default (default d (last l)) (last k).
Proof. rewrite last_app. by destruct (last k). Qed.

Lemma contents_step s cs :
  let s' := foldl content_step s cs in
  ssTexts s' = ssTexts s ++ concat (map text_of cs)
  /\ ssTool s' = default (ssTool s) (last (concat (map use_of cs)))
  /\ ssTurns s' = add_uses (ssTurns s) (Z.of_nat (length (concat (map use_of cs))))
  /\ same_result s s'.
Proof.
  revert s. induction cs as [|c cs IH]; intros s; cbn [foldl map concat]; [by rewrite app_nil_r|].
  destruct (IH (content_step s c)) as (-> & -> & -> & Hs).
  assert (ssTexts (content_step s c) = ssTexts s ++ text_of c
    /\ ssTool (content_step s c) = default (ssTool s) (last (use_of c))
    /\ ssTurns (content_step s c) = add_uses (ssTurns s) (Z.of_nat (length (use_of c)))
    /\ same_result s (content_step s c)) as (-> & -> & -> & Hc).
  { unfold content_step, text_of, use_of. destruct (String.eqb_spec (cnType c) "text") as [->|]; cbn [andb].
    - destruct (blank (cnText c)); cbn; by rewrite ?app_nil_r.
    - destruct (String.eqb (cnType c) "tool_use"); cbn; by rewrite app_nil_r. }
  split; [by rewrite <- app_assoc|]. split; [by rewrite last_default_app|].
  split; [rewrite length_app, Nat2Z.inj_add; apply add_uses_add; lia|].
  unfold same_result in *. destruct_and!. repeat split; congruence.
Qed.

Lemma step_reads ls s l :
  reads_as ls s -> reads_as (ls ++ [l]) (step s l).1
    /\ ((step s l).2 = if shown l then [emit (step s l).1] else []).
Proof.
  intros [Hs Ht Htl Htn Hr]. unfold step.
  set (s1 := if String.eqb (lnSession l) "" then s else set_session (lnSession l) s).
  assert (H1 : ssSessionID s1 = session (ls ++ [l]) /\ ssTexts s1 = texts ls /\ ssTool s1 = tool ls /\ ssTurns s1 = turns ls
    /\ match result ls with
       | None => ssSawResult s1 = false
       | Some l => ssSawResult s1 = true /\ ssIsError s1 = lnIsError l /\ ssSubtype s1 = lnSubtype l
           /\ ssResultText s1 = lnResult l /\ ssCost s1 = lnCostUSD l /\ ssDurationMS s1 = lnDurationMS l
       end).
  { rewrite session_snoc. unfold s1. by destruct (String.eqb (lnSession l) ""). }
  destruct H1 as (Hs1 & Ht1 & Htl1 & Htn1 & Hr1). clearbody s1.
  assert (Hother : is_type "assistant" l = false -> is_type "result" l = false -> reads_as (ls ++ [l]) s1).
  { intros Ha Hre. split; rewrite ?texts_snoc, ?tool_snoc, ?turns_snoc, ?result_snoc; unfold said, used, counts;
      rewrite ?Ha, ?Hre; cbn; by rewrite ?app_nil_r. }
  unfold shown. destruct (String.eqb_spec (lnType l) "system") as [E|E].
  { split; [|unfold is_type; rewrite E; cbn; by destruct (String.eqb (lnSubtype l) "init")].
    apply Hother; unfold is_type; by rewrite E. }
  destruct (String.eqb_spec (lnType l) "assistant") as [E2|E2].
  { assert (Ea : is_type "assistant" l = true) by (unfold is_type; by rewrite E2).
    assert (Er : is_type "result" l = false) by (unfold is_type; by rewrite E2).
    rewrite Ea. cbn [orb]. split; [|done]. cbn [fst]. set (s2 := set_output (ssTexts s1) "" (ssTurns s1) s1).
    destruct (contents_step s2 (lnContent l)) as (Htx & Hto & Htu & Q1 & Q2 & Q3 & Q4 & Q5 & Q6 & Q7).
    split; rewrite ?texts_snoc, ?tool_snoc, ?turns_snoc, ?result_snoc; unfold said, used, counts; rewrite ?Ea, ?Er; cbn [andb].
    - by rewrite Q1.
    - by rewrite Htx, <- Ht1.
    - by rewrite Hto.
    - by rewrite Htu, <- Htn1.
    - destruct (result ls); [rewrite Q2, Q3, Q4, Q5, Q6, Q7|rewrite Q2]; exact Hr1. }
  assert (Ea : is_type "assistant" l = false) by (unfold is_type; by apply String.eqb_neq).
  assert (Es : is_type "system" l = false) by (unfold is_type; by apply String.eqb_neq).
  rewrite Ea, Es. cbn [orb andb].
  destruct (String.eqb_spec (lnType l) "result") as [E3|E3]; (split; [|done]); cbn [fst];
    [|apply Hother; [done|unfold is_type; by apply String.eqb_neq]].
  assert (Er : is_type "result" l = true) by (unfold is_type; by rewrite E3).
  split; rewrite ?texts_snoc, ?tool_snoc, ?turns_snoc, ?result_snoc; unfold said, used, counts; rewrite ?Ea, ?Er; cbn; rewrite ?app_nil_r; try done.
  destruct (0 <? lnNumTurns l); [done|exact Htn1].
Qed.

Definition state_of (ls : list line) : streamState := (foldl (take_line step) (zero_stream, []) ls).1.

(** What has been read when an event is shown. *)
Definition shown_after (ls : list line) : list (list line) :=
  omap (fun k => l ← ls !! k; if shown l then Some (take (S k) ls) else None) (seq 0 (length ls)).

Lemma shown_after_snoc ls l : shown_after (ls ++ [l]) = shown_after ls ++ (if shown l then [ls ++ [l]] else []).
Proof.
  unfold shown_after. rewrite length_app, Nat.add_1_r, seq_S, omap_app. cbn [Nat.add omap list_omap]. f_equal.
  - apply list_omap_ext, Forall_Forall2_diag, Forall_forall. intros k Hk%elem_of_seq.
    by rewrite lookup_app_l, take_app_le by lia.
  - rewrite lookup_app_r, Nat.sub_diag by lia. cbn. rewrite take_ge by (rewrite length_app; simpl; lia).
    by destruct (shown l).
Qed.

Lemma lines_read ls :
  reads_as ls (state_of ls)
  /\ (foldl (take_line step) (zero_stream, []) ls).2 = map event_of (shown_after ls).
Proof.
  induction ls as [|l ls [IHr IHe]] using rev_ind; [split; [by split|done]|].
  unfold state_of. rewrite foldl_snoc. unfold take_line at 1 3. fold (state_of ls).
  destruct (step_reads ls (state_of ls) l IHr) as [Hr He].
  destruct (step (state_of ls) l) as [s' evs] eqn:Es. cbn [fst snd] in *. split; [done|].
  rewrite IHe, shown_after_snoc, List.map_app, He. f_equal. destruct (shown l); [|done]. cbn. by rewrite (reads_emit _ _ Hr).
Qed.

(** C36. What claude's stream is read as.  Lines are read up to the first that
    has 32 MiB or more, and those that do not decode are skipped.  The session
    is the last one named; the texts are those of the assistant's messages that
    are not blank, in order; the tool is the last one used in the assistant's
    last message; the turns are those the last result that tells them tells,
    and the uses of tools since then, or all of them (as 64-bit numbers);
    the result is that of the last result line.  The initial message
    and each message of the assistant yield one event, in order, and it shows
    the session, the texts, the tool and the turns of the lines so far. *)
Theorem claude_stream_spec lines :
  exists read rest, lines = read ++ rest
    /\ Forall (fun l => inLength l < 33554432) read
    /\ (rest = [] \/ exists l rest', rest = l :: rest' /\ 33554432 <= inLength l)
    /\ let ls := omap (decode_line zero_line line_fields) (map inDoc read) in
       reads_as ls (stream lines).1
       /\ (stream lines).2
          = map (fun sofar => MkAgentEvent (session sofar) (TrimSpace (Join (texts sofar) (nl +:+ nl))) (tool sofar) (turns sofar))
              (omap (fun k => l ← ls !! k; if shown l then Some (take (S k) ls) else None) (seq 0 (length ls))).
Proof.
  destruct (scan_spec stdout_limit lines) as (read & rest & [Hl Hr Hs] & Hsc). exists read, rest.
  split; [done|]. split; [done|]. split; [done|]. cbv zeta. unfold stream. rewrite (parse_lines _ _ _ _ lines read Hsc).
  apply lines_read.
Qed.

(** A session with a tool, a text and a result, and a line that is no JSON. *)
Example claude_session :
  let said c := JObj [("type", JStr "assistant"); ("message", JObj [("content", JArr c)])] in
  let docs := [Some (JObj [("type", JStr "system"); ("subtype", JStr "init"); ("session_id", JStr "s1")]);
    Some (said [JObj [("type", JStr "tool_use"); ("name", JStr "Read")]; JObj [("type", JStr "tool_use"); ("name", JStr "Bash")]]);
    None;
    Some (said [JObj [("type", JStr "text"); ("text", JStr "done ")]]);
    Some (JObj [("type", JStr "result"); ("result", JStr "all done"); ("num_turns", JInt 5); ("duration_ms", JInt 700)])] in
  stream (map (MkInputLine 80) docs)
  = (MkStream "s1" ["done "] "" 5 true false "" "all done" 0%Q 700,
     [MkAgentEvent "s1" "" "" 0; MkAgentEvent "s1" "" "Bash" 2; MkAgentEvent "s1" "done" "" 2]).
Proof. vm_compute. reflexivity. Qed.

(** How a claude run is reported: cancelled when the job's context has
    ended, whatever the CLI said; else by its own last result, failed with its
    subtype and text or succeeded with its text; else failed, with the standard
    error, the exit or a fixed text as the reason, which is never empty. *)
Theorem claude_outcome_spec lines p :
  let s := (stream lines).1 in
  let r := outcome s p in
  match prCtxErr p, result (omap (decode_line zero_line line_fields) (scan_lines stdout_limit lines)) with
  | Some e, _ => rsStatus r = StatusCancelled /\ rsErrCode r = "cancelled" /\ rsErrMessage r = e
  | None, Some l =>
      if lnIsError l then rsStatus r = StatusFailed /\ rsErrCode r = lnSubtype l /\ rsErrMessage r = lnResult l
      else rsStatus r = StatusSucceeded /\ (lnResult l <> "" -> rsText r = lnResult l)
  | None, None =>
      rsStatus r = StatusFailed /\ rsErrCode r = "claude_exit" /\ rsErrMessage r <> ""
      /\ (TrimSpace (stderr_text p) <> "" -> rsErrMessage r = TrimSpace (stderr_text p))
  end.
Proof.
  cbv zeta. assert (H : reads_as (omap (decode_line zero_line line_fields) (scan_lines stdout_limit lines)) (stream lines).1).
  { destruct (scan_spec stdout_limit lines) as (read & rest & _ & Hs). rewrite Hs. unfold stream.
    rewrite (parse_lines _ _ _ _ lines read Hs). apply lines_read. }
  destruct H as [_ _ _ _ Hr]. unfold outcome. destruct (prCtxErr p); [done|].
  destruct (result _) as [l|].
  - destruct Hr as (H1 & H2 & H3 & H4 & _). rewrite H1, H2. destruct (lnIsError l) eqn:Ee; [by rewrite H3, H4|].
    cbn. split; [done|]. intros Hne%String.eqb_neq. unfold finalText. by rewrite H1, H2, H4, Hne.
  - rewrite Hr. generalize (TrimSpace (stderr_text p)) (wait_err p). intros t we. cbn.
    split; [done|]. split; [done|]. destruct (String.eqb_spec t "") as [->|E].
    + split; [|done]. by destruct (String.eqb_spec (default "" we) "").
    + by rewrite (proj2 (String.eqb_neq _ _) E).
Qed.
End ClaudeFacts.

(** ** The bridge *)

Section Bridge.
Context {E : HEnv} (cfg : HarnessConfig) (registry : list string).

Lemma agent_run_restrained w jobID agent opt :
  daemon_reaches cfg registry w -> HvAgent jobID agent opt ∈ hw_trace w -> restrained cfg jobID agent opt.
Proof.
  intros Hr Hin. apply reachable_inv in Hr as Hi.
  exact (proj2 (proj1 (Forall_forall _ _) (inv_trace _ _ w Hi) _ Hin)).
Qed.

(** C8. Claude never runs without the bridge.  Whenever a daemon starts the
    claude CLI for a job, these are its arguments, all of them and in this
    order: the prompt on the command line, the stream of JSON lines, the
    default permission mode with prompts for the host; a limit of turns and the
    session to continue, if there are; the MCP configuration written for this job,
    and no other; the tool of that server that asks the owner; as tools that are
    allowed or forbidden without asking those the configuration of the machine
    lists; the instructions and the model, if there are. *)
Theorem claude_asks_before_tools w jobID opt :
  daemon_reaches cfg registry w -> agent_approvals Claude.Name = Claude.Approvals -> state_dir <> "" ->
  HvAgent jobID Claude.Name opt ∈ hw_trace w ->
  Claude.args opt =
    ["-p"; opPrompt opt; "--output-format"; "stream-json"; "--verbose"; "--permission-mode"; "default";
     "--permission-prompts"; "host"]
    ++ (if 0 <? opMaxTurns opt then ["--max-turns"; Itoa (opMaxTurns opt)] else [])
    ++ (if bool_decide (opResumeID opt = "") then [] else ["--resume"; opResumeID opt])
    ++ ["--mcp-config"; state_dir +:+ "/jobs/" +:+ jobID +:+ ".mcp.json"; "--strict-mcp-config";
        "--permission-prompt-tool"; "mcp__harness__approve"]
    ++ match cfAllowedTools cfg with [] => [] | l => ["--allowedTools"; Join l ","] end
    ++ match cfDisallowedTools cfg with [] => [] | l => ["--disallowedTools"; Join l ","] end
    ++ (if bool_decide (opSystemPrompt opt = "") then [] else ["--append-system-prompt"; opSystemPrompt opt])
    ++ (if bool_decide (opModel opt = "") then [] else ["--model"; opModel opt]).
Proof.
  intros Hr Hap Hdir Hin. destruct (agent_run_restrained w jobID Claude.Name opt Hr Hin) as (Hask & Hal & Hdis).
  destruct (Hask Hap) as [Htool Hpath].
  assert (Hopt : forall flag v, opt_arg flag v = if bool_decide (v = "") then [] else [flag; v]).
  { intros flag v. unfold opt_arg. destruct (String.eqb_spec v ""); by case_bool_decide. }
  assert (Hmcp : String.eqb (mcp_path jobID) "" = false)
    by (apply String.eqb_neq; unfold mcp_path, jobs_dir; by destruct state_dir).
  assert (Hfile : mcp_path jobID = state_dir +:+ "/jobs/" +:+ jobID +:+ ".mcp.json")
    by (unfold mcp_path, jobs_dir; by rewrite <- !string_app_assoc).
  unfold Claude.args, Claude.base_args, Claude.bridge_args, Claude.tool_args.
  rewrite Htool, Hpath, Hmcp, Hfile, Hal, Hdis, !Hopt, <- !app_assoc. cbn [app].
  by destruct (cfAllowedTools cfg), (cfDisallowedTools cfg).
Qed.
End Bridge.

(** ** Signals *)

Section Signals.
Context (KillGrace : Z).

(** What the watcher has done, by where it is. *)
Definition stop_ok (s : Stop) : Prop :=
  (stSignals s <> [] -> stCancelled s = true)
  /\ Forall (fun sg => sg.2 <= stNow s) (stSignals s)
  /\ match stWatcher s with
     | Waiting => stSignals s = []
     | Interrupted deadline => exists t, stSignals s = [(SIGINT, t)] /\ deadline = t + grace_period KillGrace
     | Gone => stSignals s = [] \/ (exists t, stSignals s = [(SIGINT, t)])
         \/ exists t t', stSignals s = [(SIGINT, t); (SIGKILL, t')] /\ t + grace_period KillGrace <= t'
     end.

Lemma stop_step_ok s s' : stop_step KillGrace s s' -> stop_ok s -> stop_ok s'.
Proof.
  intros Hs (Hc & Ht & Hw). destruct Hs; unfold stop_ok; cbn in *.
  - split; [done|]. split; [|done]. eapply Forall_impl; [exact Ht|]. intros [] ?; cbn in *; lia.
  - done.
  - done.
  - done.
  - rewrite H in Hw. rewrite Hw. cbn. split; [done|]. split; [by repeat constructor|]. by eexists.
  - split; [done|]. split; [done|]. destruct (stWatcher s); [by left| |done].
    destruct Hw as (t & -> & _). right. left. by eexists.
  - rewrite H in Hw. destruct Hw as (t & Hsig & ->). rewrite Hsig in *. cbn. split; [by intros _; apply Hc|].
    split; [apply Forall_cons in Ht as [Ht _]; by repeat constructor|]. right. right. exists t, (stNow s). done.
Qed.

Lemma stop_reachable now s : rtc (stop_step KillGrace) (running now) s -> stop_ok s.
Proof.
  intros H. remember (running now) as s0 eqn:E. assert (H0 : stop_ok s0) by (subst; split; [done|]; split; [constructor|done]).
  clear E. induction H as [s|s1 s2 s3 H12 _ IH]; [done|]. by apply IH, (stop_step_ok s1).
Qed.

(** C27. How a CLI is stopped.  No signal is sent while the job's context has
    not ended; the first is SIGINT, at most one SIGKILL follows, no earlier than
    the grace period after it; nothing else is sent.  And the watcher never
    stays behind: once the process is gone and [killed] is closed it can leave, and
    when the context has ended it gets, by itself, to the SIGKILL or is told that
    there is no need. *)
Theorem cli_is_stopped now s :
  rtc (stop_step KillGrace) (running now) s ->
  (stCancelled s = false -> stSignals s = [])
  /\ (stSignals s = [] \/ (exists t, stSignals s = [(SIGINT, t)])
      \/ exists t t', stSignals s = [(SIGINT, t); (SIGKILL, t')] /\ t + grace_period KillGrace <= t')
  /\ (stWatcher s <> Gone -> stKilled s = true -> exists s', stop_step KillGrace s s' /\ stWatcher s' = Gone /\ stSignals s' = stSignals s)
  /\ (stWatcher s <> Gone -> stCancelled s = true -> exists s' t t', rtc (stop_step KillGrace) s s'
        /\ stWatcher s' = Gone /\ stSignals s' = [(SIGINT, t); (SIGKILL, t')]).
Proof.
  intros Hr. destruct (stop_reachable now s Hr) as (Hc & _ & Hw). split; [|split; [|split]].
  - intros Hf. destruct (stSignals s); [done|]. rewrite Hc in Hf; done.
  - destruct (stWatcher s); [by left| |exact Hw]. destruct Hw as (t & Ht & _). right. left. by exists t.
  - intros Hn Hk. exists (with_watcher Gone s). split; [by constructor|]. done.
  - assert (Hint : forall s1 t, stWatcher s1 = Interrupted (t + grace_period KillGrace) -> stSignals s1 = [(SIGINT, t)] ->
      exists s' t t', rtc (stop_step KillGrace) s1 s' /\ stWatcher s' = Gone /\ stSignals s' = [(SIGINT, t); (SIGKILL, t')]).
    { intros s1 t Hw1 Hs1. set (t' := Z.max (stNow s1) (t + grace_period KillGrace)).
      eexists _, t, t'. split; [|split].
      - eapply rtc_l; [apply (time_passes _ s1 t'); unfold t'; lia|]. apply rtc_once.
        eapply grace_ends; cbn; [exact Hw1|unfold t'; lia].
      - done.
      - cbn. by rewrite Hs1. }
    intros Hn Hca. destruct (stWatcher s) as [|deadline|] eqn:Ew; [| |done].
    + destruct (Hint (send SIGINT (with_watcher (Interrupted (stNow s + grace_period KillGrace)) s)) (stNow s))
        as (s' & t & t' & Hs' & ? & ?); [done|cbn; by rewrite Hw|].
      exists s', t, t'. split; [|done]. eapply rtc_l; [by apply sees_context|done].
    + destruct Hw as (t & Ht & ->). by apply (Hint s t).
Qed.

(** A signal can be sent after the process is gone: [cmd.Wait] has
    returned, so that the process group's id may belong to another group by
    then, and the watcher, for which the end of the context is ready, or which
    takes the end of the grace over [killed], still signals that id. *)
Theorem signal_after_reap now :
  exists s s', rtc (stop_step KillGrace) (running now) s /\ stReaped s = true /\ stKilled s = true
    /\ stop_step KillGrace s s' /\ stSignals s' = stSignals s ++ [(SIGINT, stNow s)].
Proof.
  exists (MkStop now true true true Waiting []). eexists. split; [|split; [done|split; [done|split]]].
  - eapply rtc_l; [apply context_ends|]. eapply rtc_l; [apply wait_returns|]. eapply rtc_l; [by apply close_killed|]. apply rtc_refl.
  - by apply sees_context.
  - done.
Qed.
End Signals.
