(* ===== verification/Mcp.v ===== *)
(** * The MCP server beside the CLI ([internal/mcp/stdio.go], [permission.ServeStdio])

    Per job the CLI starts [mhb harness mcp-permissions], which answers
    JSON-RPC requests on its standard input and forwards each call of the
    permission tool to the daemon's socket, with the job it was started for.

    Requests are answered by goroutines of their own: [serve_step] interleaves
    reading a line with answering any request that waits. *)

From S2P Require Import Prelude GoText Json Protocol HarnessText HarnessWorld Daemon.

Open Scope Z_scope.

(** ** JSON-RPC *)

Definition protocolVersion : string := "2024-11-05".

Record Tool : Type := MkTool { tlName : string; tlDescription : string; tlInputSchema : json }.

(** What a handler returns at a moment: the text for the CLI and whether it is
    an error of the tool, or an error of its own. *)
Definition ToolHandler : Type := nat -> option json -> res (string * bool).

Record McpServer : Type := MkMcpServer {
  svName : string;
  svVersion : string;
  svTools : list Tool;
  svHandlers : gmap string ToolHandler
}.

Record request : Type := MkRPCRequest {
  rpID : option json;
  rpMethod : string;
  rpParams : option json
}.
Definition request_fields : fields request := [
  ("jsonrpc", fun x j => (x, (dec_string "" j).2));
  ("id", field rpID (fun v x => MkRPCRequest v (rpMethod x) (rpParams x)) dec_raw);
  ("method", field rpMethod (fun v x => MkRPCRequest (rpID x) v (rpParams x)) dec_string);
  ("params", field rpParams (fun v x => MkRPCRequest (rpID x) (rpMethod x) v) dec_raw)
].

Record rpcError : Type := MkRPCError { reCode : Z; reMessage : string }.

Inductive rpc_reply : Type :=
| RpcResult (r : json)
| RpcFailed (e : rpcError).

Record response : Type := MkResponse { rsID : json; rsReply : rpc_reply }.
Definition response_json (r : response) : json :=
  enc_struct [member "jsonrpc" (JStr "2.0"); member "id" (rsID r);
    match rsReply r with
    | RpcResult j => member "result" j
    | RpcFailed e => member "error" (enc_struct [member "code" (JInt (reCode e)); member "message" (enc_string (reMessage e))])
    end].

Definition Tool_json (t : Tool) : json :=
  enc_struct [member "name" (enc_string (tlName t)); member "description" (enc_string (tlDescription t));
              member "inputSchema" (tlInputSchema t)].

(** *** [dispatch] *)

Record CallParams : Type := MkCallParams { cpName : string; cpArguments : option json }.
Definition CallParams_fields : fields CallParams := [
  ("name", field cpName (fun v x => MkCallParams v (cpArguments x)) dec_string);
  ("arguments", field cpArguments (fun v x => MkCallParams (cpName x) v) dec_raw)
].

Definition text_result (text : string) (isError : bool) : json :=
  JObj [("content", JArr [JObj [("text", enc_string text); ("type", JStr "text")]]); ("isError", JBool isError)].

(** [json.Unmarshal] of bytes that may be absent. *)
Definition unmarshal {T} (fs : fields T) (zero : T) (doc : option json) : option T :=
  j ← doc;
  match dec_struct fs zero j with (x, true) => Some x | (_, false) => None end.

Section Server.
Context (s : McpServer).

Definition call_tool (t : nat) (params : option json) : rpc_reply :=
  match unmarshal CallParams_fields (MkCallParams "" None) params with
  | None => RpcFailed (MkRPCError (-32602) "invalid params")
  | Some p =>
      match svHandlers s !! cpName p with
      | None => RpcFailed (MkRPCError (-32602) ("unknown tool " +:+ quoted (cpName p)))
      | Some h =>
          match h t (cpArguments p) with
          | Err e => RpcFailed (MkRPCError (-32000) (error_text e))
          | Ok (text, isError) => RpcResult (text_result text isError)
          end
      end
  end.

Definition dispatch (t : nat) (r : request) : rpc_reply :=
  if String.eqb (rpMethod r) "initialize" then
    RpcResult (JObj [("capabilities", JObj [("tools", JObj [])]); ("protocolVersion", JStr protocolVersion);
                  ("serverInfo", JObj [("name", enc_string (svName s)); ("version", enc_string (svVersion s))])])
  else if String.eqb (rpMethod r) "ping" then RpcResult (JObj [])
  else if String.eqb (rpMethod r) "tools/list" then RpcResult (JObj [("tools", JArr (map Tool_json (svTools s)))])
  else if String.eqb (rpMethod r) "tools/call" then call_tool t (rpParams r)
  else RpcFailed (MkRPCError (-32601) ("method not found: " +:+ rpMethod r)).

(** *** [Serve] *)

(** The request of a line that wants an answer; a notification has no id. *)
Definition answerable (line : option json) : option request :=
  r ← unmarshal request_fields (MkRPCRequest None "" None) line;
  match rpID r with
  | None | Some JNull => None
  | Some _ => Some r
  end.

Definition respond (t : nat) (r : request) : response := MkResponse (default JNull (rpID r)) (dispatch t r).

(** The buffer of the scanner, 16 MiB. *)
Definition line_limit : Z := 16 * 1024 * 1024.
Definition ErrTooLong : error := ErrOther "bufio.Scanner: token too long".

Record Serving : Type := MkServing {
  sgInput : list InputLine;       (** lines not read yet *)
  sgErr : option error;           (** what ended the reading early *)
  sgCalls : list request;         (** goroutines that have not written their response *)
  sgOutput : list response;
  sgTick : nat
}.
Definition serving (lines : list InputLine) : Serving := MkServing lines None [] [] 0.

(** Each response is marshalled first and written in one locked section; a
    line that does not fit into the buffer ends the reading. *)
Inductive serve_step : Serving -> Serving -> Prop :=
| serve_reads line rest calls out t :
    fits line_limit line = true ->
    serve_step (MkServing (line :: rest) None calls out t)
      (MkServing rest None (calls ++ option_list (answerable (inDoc line))) out t)
| serve_stops line rest calls out t :
    fits line_limit line = false ->
    serve_step (MkServing (line :: rest) None calls out t) (MkServing (line :: rest) (Some ErrTooLong) calls out t)
| serve_answers input err calls out t k r t' :
    calls !! k = Some r -> (t <= t')%nat ->
    serve_step (MkServing input err calls out t) (MkServing input err (delete k calls) (out ++ [respond t' r]) t').

(** [Serve] returns: the reading is over and [wg.Wait] has let it through. *)
Definition served (st : Serving) : Prop := (sgInput st = [] \/ is_Some (sgErr st)) /\ sgCalls st = [].
End Server.

(** ** The permission tool *)

(** Outside: one exchange on the daemon's socket within the timeout, the
    texts [encoding/json] writes, and its messages. *)
Class BridgeEnv : Type := {
  socket_call : nat -> json -> res json;
  json_text : json -> string;
  unmarshal_error : option json -> string
}.

Definition ServerName : string := "harness".
Definition ToolName : string := "approve".

Section Bridge.
Context {B : BridgeEnv}.

Definition raw_of (j : option json) : Raw := match j with None => MkRaw "" None | Some j => MkRaw (json_text j) (Some j) end.
Definition dec_raw_text : decoder Raw := fun _ j => (raw_of (Some j), true).

Definition Request_fields : fields Request := [
  ("job_id", field rqJobID (fun v x => MkRequest v (rqToolName x) (rqInput x) (rqToolUseID x)) dec_string);
  ("tool_name", field rqToolName (fun v x => MkRequest (rqJobID x) v (rqInput x) (rqToolUseID x)) dec_string);
  ("input", field rqInput (fun v x => MkRequest (rqJobID x) (rqToolName x) v (rqToolUseID x)) dec_raw_text);
  ("tool_use_id", field rqToolUseID (fun v x => MkRequest (rqJobID x) (rqToolName x) (rqInput x) v) dec_string)
].
Definition zero_request : Request := MkRequest "" "" (raw_of None) "".
Definition Request_json (r : Request) : json := enc_struct [
  member "job_id" (enc_string (rqJobID r)); member "tool_name" (enc_string (rqToolName r));
  member "input" (default JNull (rwDoc (rqInput r))); member "tool_use_id" (enc_string (rqToolUseID r))].

Definition Decision_fields : fields CallDecision := [
  ("behavior", field cdBehavior (fun v x => MkCallDecision v (cdUpdatedInput x) (cdMessage x)) dec_string);
  ("updatedInput", field cdUpdatedInput (fun v x => MkCallDecision (cdBehavior x) v (cdMessage x)) dec_raw_text);
  ("message", field cdMessage (fun v x => MkCallDecision (cdBehavior x) (cdUpdatedInput x) v) dec_string)
].
Definition zero_decision : CallDecision := MkCallDecision "" (raw_of None) "".
Definition Decision_json (d : CallDecision) : json := enc_struct [
  member "behavior" (enc_string (cdBehavior d));
  omitempty (negb (bool_decide (is_Some (rwDoc (cdUpdatedInput d))))) "updatedInput" (default JNull (rwDoc (cdUpdatedInput d)));
  omitempty (is_empty_string (cdMessage d)) "message" (enc_string (cdMessage d))].

(** What [Ask] reads off the connection. *)
Definition read_decision (r : res json) : res CallDecision :=
  match r with
  | Err e => Err e
  | Ok doc =>
      match unmarshal Decision_fields zero_decision (Some doc) with
      | Some d => Ok d
      | None => Err (ErrOther ("permission: read decision: " +:+ unmarshal_error (Some doc)))
      end
  end.

(** The handler of [ServeStdio]: the job is that of the flag, whatever the
    CLI says. *)
Definition approve (jobID : string) : ToolHandler := fun t args =>
  match unmarshal Request_fields zero_request args with
  | None => Err (ErrOther ("bad arguments: " +:+ unmarshal_error args))
  | Some req =>
      let req := MkRequest jobID (rqToolName req) (rqInput req) (rqToolUseID req) in
      Ok (json_text (Decision_json (told_cli (read_decision (socket_call t (Request_json req))))), false)
  end.

Definition approve_schema : json := JObj [
  ("type", JStr "object");
  ("properties", JObj [("tool_name", JObj [("type", JStr "string")]); ("input", JObj [("type", JStr "object")]);
                       ("tool_use_id", JObj [("type", JStr "string")])]);
  ("required", JArr [JStr "tool_name"; JStr "input"])].

Definition ServeStdio (jobID : string) : McpServer :=
  MkMcpServer ServerName "1"
    [MkTool ToolName "Asks the harness owner whether a tool call may run." approve_schema]
    {[ ToolName := approve jobID ]}.
End Bridge.
