(* ===== verification/McpFacts.v ===== *)
(** * What the MCP server beside the CLI promises

    Every request that is read is answered once, whatever else waits; and what the CLI is
    told about a tool call is the daemon's decision on this call of this job,
    or a refusal. *)

From stdpp Require Import well_founded.
From S2P Require Import Prelude GoText Json Protocol HarnessText HarnessWorld Daemon Mcp.

Open Scope Z_scope.

(** ** Requests and responses *)

Section Serve.
Context (s : McpServer).

(** What a line asks: it is a JSON object with an id that is not null. *)
Definition wants (l : InputLine) (r : request) : Prop :=
  exists j id, inDoc l = Some j /\ dec_struct request_fields (MkRPCRequest None "" None) j = (r, true)
    /\ rpID r = Some id /\ id <> JNull.

(** The requests of some lines, in order. *)
Inductive requests_of : list InputLine -> list request -> Prop :=
| no_lines : requests_of [] []
| asking l ls r rs : wants l r -> requests_of ls rs -> requests_of (l :: ls) (r :: rs)
| not_asking l ls rs : (forall r, ~ wants l r) -> requests_of ls rs -> requests_of (l :: ls) rs.

(** The answer to a request, by its method: its id, and a result or an error. *)
Definition is_error (code : Z) (msg : string) (reply : rpc_reply) : Prop := reply = RpcFailed (MkRPCError code msg).
Definition answers (r : request) (resp : response) : Prop :=
  rpID r = Some (rsID resp)
  /\ let method m := rpMethod r = m in
     (method "initialize" -> rsReply resp = RpcResult (JObj
        [("capabilities", JObj [("tools", JObj [])]); ("protocolVersion", JStr "2024-11-05");
         ("serverInfo", JObj [("name", enc_string (svName s)); ("version", enc_string (svVersion s))])]))
  /\ (method "ping" -> rsReply resp = RpcResult (JObj []))
  /\ (method "tools/list" -> rsReply resp = RpcResult (JObj [("tools", JArr (map Tool_json (svTools s)))]))
  /\ (method "tools/call" ->
        match unmarshal CallParams_fields (MkCallParams "" None) (rpParams r) with
        | None => is_error (-32602) "invalid params" (rsReply resp)
        | Some p =>
            match svHandlers s !! cpName p with
            | None => is_error (-32602) ("unknown tool " +:+ quoted (cpName p)) (rsReply resp)
            | Some h => exists t,
                match h t (cpArguments p) with
                | Err e => is_error (-32000) (error_text e) (rsReply resp)
                | Ok (text, isError) => rsReply resp = RpcResult (JObj
                    [("content", JArr [JObj [("text", enc_string text); ("type", JStr "text")]]); ("isError", JBool isError)])
                end
            end
        end)
  /\ (~ method "initialize" -> ~ method "ping" -> ~ method "tools/list" -> ~ method "tools/call" ->
        is_error (-32601) ("method not found: " +:+ rpMethod r) (rsReply resp)).

Lemma answerable_wants l r : answerable (inDoc l) = Some r <-> wants l r.
Proof.
  unfold answerable, wants, unmarshal. destruct (inDoc l) as [j|]; [|split; [done|naive_solver]]. cbn.
  destruct (dec_struct request_fields (MkRPCRequest None "" None) j) as [x ok] eqn:Hd. split.
  - intros H. destruct ok; [|done]. cbn in H. destruct (rpID x) as [id|] eqn:Hid; [|done].
    assert (x = r /\ id <> JNull) as [<- Hn] by (destruct id; by simplify_eq).
    exists j, id. done.
  - intros (j' & id & [= <-] & Hd' & Hid & Hn). rewrite Hd in Hd'. injection Hd' as -> ->. cbn. rewrite Hid. by destruct id.
Qed.

Lemma answerable_requests ls : requests_of ls (omap answerable (map inDoc ls)).
Proof.
  induction ls as [|l ls IH]; [constructor|]. cbn. destruct (answerable (inDoc l)) as [r|] eqn:Hr.
  - apply asking; [by apply answerable_wants | done].
  - apply not_asking; [|done]. intros r Hw%answerable_wants. congruence.
Qed.

Lemma respond_answers t r : is_Some (rpID r) -> answers r (respond s t r).
Proof.
  intros [id Hid]. unfold answers, respond. rewrite Hid. cbn [default rsID rsReply]. split; [done|]. unfold dispatch, is_error.
  split; [by intros ->|]. split; [by intros ->|]. split; [by intros ->|]. split.
  - intros ->. cbn [String.eqb Ascii.eqb Bool.eqb]. unfold call_tool. destruct (unmarshal _ _ _) as [p|]; [|done].
    destruct (svHandlers s !! cpName p) as [h|]; [|done]. exists t. by destruct (h t (cpArguments p)) as [[text e]|e].
  - intros H1%String.eqb_neq H2%String.eqb_neq H3%String.eqb_neq H4%String.eqb_neq. by rewrite H1, H2, H3, H4.
Qed.

(** What has been read is answered or waits. *)
Definition serving_ok (lines : list InputLine) (st : Serving) : Prop :=
  exists read (answered : list (request * nat)),
    lines = read ++ sgInput st
    /\ Forall (fun l => inLength l < line_limit) read
    /\ omap answerable (map inDoc read) ≡ₚ answered.*1 ++ sgCalls st
    /\ sgOutput st = map (fun rt => respond s rt.2 rt.1) answered
    /\ match sgErr st with
       | None => True
       | Some e => e = ErrTooLong /\ exists l rest, sgInput st = l :: rest /\ line_limit <= inLength l
       end.

Lemma serve_step_ok lines st st' : serve_step s st st' -> serving_ok lines st -> serving_ok lines st'.
Proof.
  intros Hs (read & answered & Hl & Hf & Hp & Ho & He).
  destruct Hs as [line rest calls out t Hfit|line rest calls out t Hfit|input err calls out t k r t' Hk Ht]; cbn in *.
  - exists (read ++ [line]), answered. split; [by rewrite <- app_assoc|]. split.
    { apply Forall_app. split; [done|]. repeat constructor. by apply Z.ltb_lt. }
    split; [|done]. rewrite List.map_app, omap_app, Hp, <- app_assoc. do 2 apply Permutation_app_head. cbn.
    by destruct (answerable (inDoc line)).
  - exists read, answered. do 4 (split; [done|]). split; [done|]. exists line, rest. split; [done|]. by apply Z.ltb_ge.
  - exists read, (answered ++ [(r, t')]). split; [done|]. split; [done|]. split; [|split; [by rewrite map_app, <- Ho|done]].
    rewrite Hp, fmap_app, <- app_assoc. apply Permutation_app_head. cbn. by apply delete_Permutation.
Qed.

Lemma serving_reachable lines st : rtc (serve_step s) (serving lines) st -> serving_ok lines st.
Proof.
  intros H. remember (serving lines) as st0 eqn:E. assert (H0 : serving_ok lines st0).
  { subst. exists [], []. repeat split; constructor. }
  clear E. induction H as [|x y z Hxy _ IH]; [done|]. by apply IH, (serve_step_ok _ x).
Qed.

(** Requests that wait have an id. *)
Lemma waiting_id lines st r : serving_ok lines st -> r ∈ sgCalls st -> is_Some (rpID r).
Proof.
  intros (read & answered & _ & _ & Hp & _) Hr.
  assert (r ∈ omap answerable (map inDoc read)) as (doc & Hdoc & Ha)%list_elem_of_omap
    by (rewrite Hp; apply elem_of_app; by right).
  apply list_elem_of_In, in_map_iff in Hdoc as (l & <- & _).
  apply answerable_wants in Ha as (j & id & _ & _ & Hid & _). by rewrite Hid.
Qed.

(** Each step reads a line, stops reading or answers a request. *)
Definition serve_measure (st : Serving) : nat :=
  2 * length (sgInput st) + (if sgErr st then 0 else 1) + length (sgCalls st).

Lemma serve_step_measure st st' : serve_step s st st' -> (serve_measure st' < serve_measure st)%nat.
Proof.
  unfold serve_measure. intros [line rest calls out t _|line rest calls out t _|input err calls out t k r t' Hk _]; cbn.
  - rewrite length_app. destruct (answerable (inDoc line)); cbn; lia.
  - lia.
  - rewrite length_delete by done. apply lookup_lt_Some in Hk. destruct err; lia.
Qed.

Lemma serve_sn st : sn (serve_step s) st.
Proof.
  induction st as [st IH] using (induction_ltof1 _ serve_measure). constructor. intros st' H. by apply IH, serve_step_measure.
Qed.

Lemma serve_answers_next st r :
  r ∈ sgCalls st -> exists st', serve_step s st st' /\ sgOutput st' = sgOutput st ++ [respond s (sgTick st) r].
Proof.
  destruct st as [input err calls out t]. intros [k Hk]%list_elem_of_lookup. eexists.
  split; [by apply (serve_answers _ _ _ _ _ _ k r t)|done].
Qed.

Lemma serve_nf st : nf (serve_step s) st -> served st.
Proof.
  intros Hnf. destruct st as [input err calls out t]. destruct calls as [|r calls].
  2: { destruct Hnf. eexists. by apply (serve_answers _ _ _ _ _ _ 0%nat r t). }
  split; [|done]. destruct err as [e|]; [by right|]. destruct input as [|line rest]; [by left|]. destruct Hnf.
  destruct (fits line_limit line) eqn:Hfit; eexists; [by apply serve_reads | by apply serve_stops].
Qed.

(** C19. Every request that is read is answered exactly once, with its id and
    the answer its method calls for, and nothing else is written.  Read are the
    lines up to the first of 16 MiB or more, where the server stops with an
    error; without such a line all of them.  Whatever the order in which
    goroutines get to run, the server comes to its end, and only with everything
    answered; and a request that waits can be the next to be answered whatever
    others wait for, so that a slow approval does not hold up a ping. *)
Theorem requests_answered_once lines :
  sn (serve_step s) (serving lines)
  /\ forall st, rtc (serve_step s) (serving lines) st ->
     (nf (serve_step s) st -> served st)
     /\ (forall r, r ∈ sgCalls st ->
           exists st' resp, serve_step s st st' /\ sgOutput st' = sgOutput st ++ [resp] /\ answers r resp)
     /\ (served st -> exists read rest requests (answered : list (request * response)),
           lines = read ++ rest
           /\ Forall (fun l => inLength l < 16777216) read
           /\ (rest = [] /\ sgErr st = None
               \/ exists l rest', rest = l :: rest' /\ 16777216 <= inLength l /\ sgErr st = Some ErrTooLong)
           /\ requests_of read requests
           /\ answered.*1 ≡ₚ requests /\ sgOutput st = answered.*2
           /\ Forall (fun a => answers a.1 a.2) answered).
Proof.
  split; [apply serve_sn|]. intros st Hr. pose proof (serving_reachable _ _ Hr) as Hok. split; [apply serve_nf|]. split.
  { intros r Hin. destruct (serve_answers_next st r Hin) as (st' & Hs & Ho). exists st', (respond s (sgTick st) r).
    split; [done|]. split; [done|]. eapply respond_answers, waiting_id; done. }
  intros [Hend Hc]. destruct Hok as (read & answered & Hl & Hf & Hp & Ho & He). rewrite Hc, app_nil_r in Hp.
  exists read, (sgInput st), (omap answerable (map inDoc read)), (map (fun rt => (rt.1, respond s rt.2 rt.1)) answered).
  split; [done|]. split; [done|]. split; [|split; [apply answerable_requests|]].
  - destruct (sgErr st) as [e|]; [|destruct Hend as [->|[? [=]]]; by left].
    right. destruct He as (-> & l & rest & Hi & Hlen). by exists l, rest.
  - split; [|split].
    + rewrite Hp. rewrite <- list_fmap_compose. done.
    + rewrite Ho, <- list_fmap_compose. done.
    + apply Forall_forall. intros a (rt & <- & Hin)%list_elem_of_In%in_map_iff. cbn. apply respond_answers.
      assert (rt.1 ∈ omap answerable (map inDoc read)) as (doc & Hdoc & Ha)%list_elem_of_omap.
      { rewrite Hp. apply list_elem_of_fmap. exists rt. split; [done|]. by apply list_elem_of_In. }
      apply list_elem_of_In, in_map_iff in Hdoc as (l & <- & _).
      apply answerable_wants in Ha as (j & id & _ & _ & Hid & _). by rewrite Hid.
Qed.

Lemma output_source lines st resp :
  rtc (serve_step s) (serving lines) st -> resp ∈ sgOutput st ->
  exists r t, r ∈ omap answerable (map inDoc lines) /\ resp = respond s t r.
Proof.
  intros Hr Hin. destruct (serving_reachable _ _ Hr) as (read & answered & -> & _ & Hp & Ho & _).
  rewrite Ho in Hin. apply list_elem_of_In, in_map_iff in Hin as ([r t] & <- & Hin%list_elem_of_In). exists r, t.
  split; [|done]. rewrite List.map_app, omap_app. apply elem_of_app. left. rewrite Hp. apply elem_of_app. left.
  apply list_elem_of_fmap. by exists (r, t).
Qed.
End Serve.

(** ** What crosses the socket *)

Section Bridge.
Context {B : BridgeEnv}.

(** What the daemon reads of a request: its texts as UTF-8. *)
Definition sent_request (r : Request) : Request :=
  MkRequest (to_valid (rqJobID r)) (to_valid (rqToolName r)) (raw_of (Some (default JNull (rwDoc (rqInput r))))) (to_valid (rqToolUseID r)).
Definition sent_decision (d : CallDecision) : CallDecision :=
  MkCallDecision (to_valid (cdBehavior d)) (raw_of (rwDoc (cdUpdatedInput d))) (to_valid (cdMessage d)).

Lemma request_sent r : unmarshal Request_fields zero_request (Some (Request_json r)) = Some (sent_request r).
Proof. done. Qed.

Lemma decision_sent d : unmarshal Decision_fields zero_decision (Some (Decision_json d)) = Some (sent_decision d).
Proof.
  destruct d as [b [text [doc|]] m]; unfold sent_decision, Decision_json, omitempty; cbn;
    (unfold is_empty_string; destruct (String.eqb_spec m "") as [->|]; cbn; done).
Qed.

(** A request as the CLI makes it of the permission tool. *)
Definition asks (r : request) (req : Request) : Prop :=
  rpMethod r = "tools/call"
  /\ exists p, unmarshal CallParams_fields (MkCallParams "" None) (rpParams r) = Some p
     /\ cpName p = ToolName /\ unmarshal Request_fields zero_request (cpArguments p) = Some req.

Definition for_job (jobID : string) (req : Request) : Request :=
  MkRequest jobID (rqToolName req) (rqInput req) (rqToolUseID req).

(** A call of a tool is answered with a decision on it or with an error. *)
Lemma call_tool_spec jobID t params :
  (exists e, call_tool (ServeStdio jobID) t params = RpcFailed e)
  \/ exists p req, unmarshal CallParams_fields (MkCallParams "" None) params = Some p
      /\ cpName p = ToolName /\ unmarshal Request_fields zero_request (cpArguments p) = Some req
      /\ call_tool (ServeStdio jobID) t params
         = RpcResult (text_result (json_text (Decision_json (told_cli (read_decision
             (socket_call t (Request_json (for_job jobID req))))))) false).
Proof.
  unfold call_tool. destruct (unmarshal CallParams_fields _ params) as [p|]; [|left; by eexists].
  cbn [svHandlers ServeStdio]. destruct (decide (cpName p = ToolName)) as [En|En].
  - rewrite En, lookup_singleton_eq. unfold approve.
    destruct (unmarshal Request_fields _ (cpArguments p)) as [req|] eqn:Er; [|left; by eexists].
    right. exists p, req. done.
  - rewrite lookup_singleton_ne by done. left. by eexists.
Qed.

(** Only a decision that came over the socket allows. *)
Lemma told_allow r : cdBehavior (told_cli r) = "allow" -> r = Ok (told_cli r).
Proof.
  unfold told_cli, Ask. destruct r as [d|e]; [|done]. by destruct (negb _ && negb _).
Qed.

Lemma told_behavior r : cdBehavior (told_cli r) = "allow" \/ cdBehavior (told_cli r) = "deny".
Proof.
  unfold told_cli, Ask. destruct r as [d|e]; [|by right].
  destruct (String.eqb_spec (cdBehavior d) "allow"), (String.eqb_spec (cdBehavior d) "deny"); cbn; auto.
Qed.
End Bridge.
