(* ===== verification/Setup.v ===== *)
(** * Setting up a harness ([internal/harness/config.go], [initflow.go], [pair.go])

    The configuration file of a machine: its document, what is loaded, what is
    saved, what [Validate] asks of it; and the exchanges with the broker that
    pair the machine.  The file is part of the state of [HarnessWorld]; HTTP,
    the environment and the directories of the machine are [SetupEnv]. *)

From S2P Require Import Prelude Resume GoText Json Protocol HarnessText HarnessWorld StateFiles Daemon.

Open Scope Z_scope.
Open Scope prog_scope.

(** ** [path/filepath], on Unix *)

(** The components so far, innermost first. *)
Definition clean_step (rooted : bool) (acc : list string) (c : string) : list string :=
  if String.eqb c "" || String.eqb c "." then acc
  else if String.eqb c ".." then
    match acc with
    | [] => if rooted then [] else [".."]
    | x :: rest => if String.eqb x ".." then ".." :: acc else rest
    end
  else c :: acc.
Definition Clean (path : string) : string :=
  let rooted := HasPrefix path "/" in
  let body := Join (rev (foldl (clean_step rooted) [] (split_at (ascii_of 47) path))) "/" in
  if rooted then "/" +:+ body else if String.eqb body "" then "." else body.
Definition IsAbs (path : string) : bool := HasPrefix path "/".
Definition path_Join (a b : string) : string :=
  if String.eqb a "" then (if String.eqb b "" then "" else Clean b) else Clean (a +:+ "/" +:+ b).

Example clean_ex : Clean "/home/alice/../bob//x/./y/" = "/home/bob/x/y" /\ path_Join "a" "../../b" = "../b".
Proof. vm_compute. split; reflexivity. Qed.

(** ** Documents *)

Definition slice_json (l : option (list string)) : json :=
  match l with None => JNull | Some l => JArr (map enc_string l) end.

(** Unmarshal into a map adds to what it holds; [None] is a nil map. *)
Definition dec_map {T} (zero : T) (d : decoder T) : decoder (option (gmap string T)) := fun cur j =>
  match j with
  | JObj ms => let '(m, ok) := map_members zero d (default ∅ cur) ms in (Some m, ok)
  | JNull => (None, true)
  | _ => (cur, false)
  end.
Definition nilmap_json (m : option (gmap string string)) : json :=
  match m with None => JNull | Some m => map_json enc_string m end.

(** ** [Config] *)

Record FileConfig : Type := MkFileConfig {
  fcBrokerURL : string;
  fcHarnessID : string;
  fcToken : string;
  fcOwnerMMUserID : string;
  fcName : string;
  fcWorkspaces : option (gmap string string);
  fcDefaultWorkspace : string;
  fcAgent : string;
  fcCodexBin : string;
  fcCodexSandbox : string;
  fcAllowedTools : option (list string);
  fcDisallowedTools : option (list string);
  fcMaxJobs : Z;
  fcDefaultMaxTurns : Z;
  fcApprovalTimeoutMin : Z;
  fcClaudeBin : string;
  fcModel : string
}.

Definition set_fcBrokerURL (v : string) (c : FileConfig) : FileConfig :=
  MkFileConfig v (fcHarnessID c) (fcToken c) (fcOwnerMMUserID c) (fcName c) (fcWorkspaces c) (fcDefaultWorkspace c) (fcAgent c) (fcCodexBin c) (fcCodexSandbox c) (fcAllowedTools c) (fcDisallowedTools c) (fcMaxJobs c) (fcDefaultMaxTurns c) (fcApprovalTimeoutMin c) (fcClaudeBin c) (fcModel c).
Definition set_fcHarnessID (v : string) (c : FileConfig) : FileConfig :=
  MkFileConfig (fcBrokerURL c) v (fcToken c) (fcOwnerMMUserID c) (fcName c) (fcWorkspaces c) (fcDefaultWorkspace c) (fcAgent c) (fcCodexBin c) (fcCodexSandbox c) (fcAllowedTools c) (fcDisallowedTools c) (fcMaxJobs c) (fcDefaultMaxTurns c) (fcApprovalTimeoutMin c) (fcClaudeBin c) (fcModel c).
Definition set_fcToken (v : string) (c : FileConfig) : FileConfig :=
  MkFileConfig (fcBrokerURL c) (fcHarnessID c) v (fcOwnerMMUserID c) (fcName c) (fcWorkspaces c) (fcDefaultWorkspace c) (fcAgent c) (fcCodexBin c) (fcCodexSandbox c) (fcAllowedTools c) (fcDisallowedTools c) (fcMaxJobs c) (fcDefaultMaxTurns c) (fcApprovalTimeoutMin c) (fcClaudeBin c) (fcModel c).
Definition set_fcOwnerMMUserID (v : string) (c : FileConfig) : FileConfig :=
  MkFileConfig (fcBrokerURL c) (fcHarnessID c) (fcToken c) v (fcName c) (fcWorkspaces c) (fcDefaultWorkspace c) (fcAgent c) (fcCodexBin c) (fcCodexSandbox c) (fcAllowedTools c) (fcDisallowedTools c) (fcMaxJobs c) (fcDefaultMaxTurns c) (fcApprovalTimeoutMin c) (fcClaudeBin c) (fcModel c).
Definition set_fcName (v : string) (c : FileConfig) : FileConfig :=
  MkFileConfig (fcBrokerURL c) (fcHarnessID c) (fcToken c) (fcOwnerMMUserID c) v (fcWorkspaces c) (fcDefaultWorkspace c) (fcAgent c) (fcCodexBin c) (fcCodexSandbox c) (fcAllowedTools c) (fcDisallowedTools c) (fcMaxJobs c) (fcDefaultMaxTurns c) (fcApprovalTimeoutMin c) (fcClaudeBin c) (fcModel c).
Definition set_fcWorkspaces (v : option (gmap string string)) (c : FileConfig) : FileConfig :=
  MkFileConfig (fcBrokerURL c) (fcHarnessID c) (fcToken c) (fcOwnerMMUserID c) (fcName c) v (fcDefaultWorkspace c) (fcAgent c) (fcCodexBin c) (fcCodexSandbox c) (fcAllowedTools c) (fcDisallowedTools c) (fcMaxJobs c) (fcDefaultMaxTurns c) (fcApprovalTimeoutMin c) (fcClaudeBin c) (fcModel c).
Definition set_fcDefaultWorkspace (v : string) (c : FileConfig) : FileConfig :=
  MkFileConfig (fcBrokerURL c) (fcHarnessID c) (fcToken c) (fcOwnerMMUserID c) (fcName c) (fcWorkspaces c) v (fcAgent c) (fcCodexBin c) (fcCodexSandbox c) (fcAllowedTools c) (fcDisallowedTools c) (fcMaxJobs c) (fcDefaultMaxTurns c) (fcApprovalTimeoutMin c) (fcClaudeBin c) (fcModel c).
Definition set_fcAgent (v : string) (c : FileConfig) : FileConfig :=
  MkFileConfig (fcBrokerURL c) (fcHarnessID c) (fcToken c) (fcOwnerMMUserID c) (fcName c) (fcWorkspaces c) (fcDefaultWorkspace c) v (fcCodexBin c) (fcCodexSandbox c) (fcAllowedTools c) (fcDisallowedTools c) (fcMaxJobs c) (fcDefaultMaxTurns c) (fcApprovalTimeoutMin c) (fcClaudeBin c) (fcModel c).
Definition set_fcCodexBin (v : string) (c : FileConfig) : FileConfig :=
  MkFileConfig (fcBrokerURL c) (fcHarnessID c) (fcToken c) (fcOwnerMMUserID c) (fcName c) (fcWorkspaces c) (fcDefaultWorkspace c) (fcAgent c) v (fcCodexSandbox c) (fcAllowedTools c) (fcDisallowedTools c) (fcMaxJobs c) (fcDefaultMaxTurns c) (fcApprovalTimeoutMin c) (fcClaudeBin c) (fcModel c).
Definition set_fcCodexSandbox (v : string) (c : FileConfig) : FileConfig :=
  MkFileConfig (fcBrokerURL c) (fcHarnessID c) (fcToken c) (fcOwnerMMUserID c) (fcName c) (fcWorkspaces c) (fcDefaultWorkspace c) (fcAgent c) (fcCodexBin c) v (fcAllowedTools c) (fcDisallowedTools c) (fcMaxJobs c) (fcDefaultMaxTurns c) (fcApprovalTimeoutMin c) (fcClaudeBin c) (fcModel c).
Definition set_fcAllowedTools (v : option (list string)) (c : FileConfig) : FileConfig :=
  MkFileConfig (fcBrokerURL c) (fcHarnessID c) (fcToken c) (fcOwnerMMUserID c) (fcName c) (fcWorkspaces c) (fcDefaultWorkspace c) (fcAgent c) (fcCodexBin c) (fcCodexSandbox c) v (fcDisallowedTools c) (fcMaxJobs c) (fcDefaultMaxTurns c) (fcApprovalTimeoutMin c) (fcClaudeBin c) (fcModel c).
Definition set_fcDisallowedTools (v : option (list string)) (c : FileConfig) : FileConfig :=
  MkFileConfig (fcBrokerURL c) (fcHarnessID c) (fcToken c) (fcOwnerMMUserID c) (fcName c) (fcWorkspaces c) (fcDefaultWorkspace c) (fcAgent c) (fcCodexBin c) (fcCodexSandbox c) (fcAllowedTools c) v (fcMaxJobs c) (fcDefaultMaxTurns c) (fcApprovalTimeoutMin c) (fcClaudeBin c) (fcModel c).
Definition set_fcMaxJobs (v : Z) (c : FileConfig) : FileConfig :=
  MkFileConfig (fcBrokerURL c) (fcHarnessID c) (fcToken c) (fcOwnerMMUserID c) (fcName c) (fcWorkspaces c) (fcDefaultWorkspace c) (fcAgent c) (fcCodexBin c) (fcCodexSandbox c) (fcAllowedTools c) (fcDisallowedTools c) v (fcDefaultMaxTurns c) (fcApprovalTimeoutMin c) (fcClaudeBin c) (fcModel c).
Definition set_fcDefaultMaxTurns (v : Z) (c : FileConfig) : FileConfig :=
  MkFileConfig (fcBrokerURL c) (fcHarnessID c) (fcToken c) (fcOwnerMMUserID c) (fcName c) (fcWorkspaces c) (fcDefaultWorkspace c) (fcAgent c) (fcCodexBin c) (fcCodexSandbox c) (fcAllowedTools c) (fcDisallowedTools c) (fcMaxJobs c) v (fcApprovalTimeoutMin c) (fcClaudeBin c) (fcModel c).
Definition set_fcApprovalTimeoutMin (v : Z) (c : FileConfig) : FileConfig :=
  MkFileConfig (fcBrokerURL c) (fcHarnessID c) (fcToken c) (fcOwnerMMUserID c) (fcName c) (fcWorkspaces c) (fcDefaultWorkspace c) (fcAgent c) (fcCodexBin c) (fcCodexSandbox c) (fcAllowedTools c) (fcDisallowedTools c) (fcMaxJobs c) (fcDefaultMaxTurns c) v (fcClaudeBin c) (fcModel c).
Definition set_fcClaudeBin (v : string) (c : FileConfig) : FileConfig :=
  MkFileConfig (fcBrokerURL c) (fcHarnessID c) (fcToken c) (fcOwnerMMUserID c) (fcName c) (fcWorkspaces c) (fcDefaultWorkspace c) (fcAgent c) (fcCodexBin c) (fcCodexSandbox c) (fcAllowedTools c) (fcDisallowedTools c) (fcMaxJobs c) (fcDefaultMaxTurns c) (fcApprovalTimeoutMin c) v (fcModel c).
Definition set_fcModel (v : string) (c : FileConfig) : FileConfig :=
  MkFileConfig (fcBrokerURL c) (fcHarnessID c) (fcToken c) (fcOwnerMMUserID c) (fcName c) (fcWorkspaces c) (fcDefaultWorkspace c) (fcAgent c) (fcCodexBin c) (fcCodexSandbox c) (fcAllowedTools c) (fcDisallowedTools c) (fcMaxJobs c) (fcDefaultMaxTurns c) (fcApprovalTimeoutMin c) (fcClaudeBin c) v.

Definition Config_fields : fields FileConfig := [
  ("broker_url", field fcBrokerURL set_fcBrokerURL dec_string);
  ("harness_id", field fcHarnessID set_fcHarnessID dec_string);
  ("token", field fcToken set_fcToken dec_string);
  ("owner_mm_user_id", field fcOwnerMMUserID set_fcOwnerMMUserID dec_string);
  ("name", field fcName set_fcName dec_string);
  ("workspaces", field fcWorkspaces set_fcWorkspaces (dec_map "" dec_string));
  ("default_workspace", field fcDefaultWorkspace set_fcDefaultWorkspace dec_string);
  ("agent", field fcAgent set_fcAgent dec_string);
  ("codex_bin", field fcCodexBin set_fcCodexBin dec_string);
  ("codex_sandbox", field fcCodexSandbox set_fcCodexSandbox dec_string);
  ("allowed_tools", field fcAllowedTools set_fcAllowedTools (dec_slice "" dec_string));
  ("disallowed_tools", field fcDisallowedTools set_fcDisallowedTools (dec_slice "" dec_string));
  ("max_jobs", field fcMaxJobs set_fcMaxJobs dec_int);
  ("default_max_turns", field fcDefaultMaxTurns set_fcDefaultMaxTurns dec_int);
  ("approval_timeout_min", field fcApprovalTimeoutMin set_fcApprovalTimeoutMin dec_int);
  ("claude_bin", field fcClaudeBin set_fcClaudeBin dec_string);
  ("model", field fcModel set_fcModel dec_string)
].
Definition Config_json (c : FileConfig) : json := enc_struct [
  member "broker_url" (enc_string (fcBrokerURL c));
  member "harness_id" (enc_string (fcHarnessID c));
  member "token" (enc_string (fcToken c));
  member "owner_mm_user_id" (enc_string (fcOwnerMMUserID c));
  member "name" (enc_string (fcName c));
  member "workspaces" (nilmap_json (fcWorkspaces c));
  member "default_workspace" (enc_string (fcDefaultWorkspace c));
  member "agent" (enc_string (fcAgent c));
  member "codex_bin" (enc_string (fcCodexBin c));
  member "codex_sandbox" (enc_string (fcCodexSandbox c));
  member "allowed_tools" (slice_json (fcAllowedTools c));
  member "disallowed_tools" (slice_json (fcDisallowedTools c));
  member "max_jobs" (JInt (fcMaxJobs c));
  member "default_max_turns" (JInt (fcDefaultMaxTurns c));
  member "approval_timeout_min" (JInt (fcApprovalTimeoutMin c));
  member "claude_bin" (enc_string (fcClaudeBin c));
  omitempty (is_empty_string (fcModel c)) "model" (enc_string (fcModel c))
].

(** What the daemon looks at. *)
Definition runtime_config (c : FileConfig) : HarnessConfig :=
  MkHarnessConfig (fcBrokerURL c) (fcOwnerMMUserID c) (default ∅ (fcWorkspaces c)) (fcDefaultWorkspace c) (fcAgent c)
    (default [] (fcAllowedTools c)) (default [] (fcDisallowedTools c)) (fcMaxJobs c) (fcDefaultMaxTurns c)
    (fcApprovalTimeoutMin c) (fcModel c).

(** ** The machine and the network *)

(** An answer of the broker: the status, its text, and the first 64 KiB of the
    body, as text and as the document it is. *)
Record HTTPAnswer : Type := MkHTTPAnswer {
  haStatus : Z;
  haStatusText : string;
  haBody : string;
  haDoc : option json
}.

Inductive HTTPCall : Type :=
| Post (url : string) (body : json)
| Get (url bearer : string).

Class SetupEnv : Type := {
  getenv : string -> string;
  UserHomeDir : option string;
  UserConfigDir : option string;
  Getwd : nat -> option string;
  is_dir : nat -> string -> res bool;              (** [os.Stat], [IsDir] *)
  LookPath : nat -> string -> option string;       (** [exec.LookPath]: an error *)
  read_fault : nat -> option string;
  http_do : nat -> HTTPCall -> res HTTPAnswer;     (** an URL that is none fails too *)
  parse_time : string -> option Time;              (** RFC 3339 *)
  parse_error : FileBody -> string
}.

Section Setup.
Context {E : HEnv} {S : SetupEnv}.

Definition homeDir : string := match UserHomeDir with Some h => h | None => getenv "HOME" end.
Definition ConfigDir : string :=
  let d := getenv "MM_HARNESS_CONFIG_DIR" in
  if negb (String.eqb d "") then d
  else path_Join (match UserConfigDir with Some b => b | None => path_Join (getenv "HOME") ".config" end) "mm-harness".
Definition ConfigPath : string := path_Join ConfigDir "config.json".
Definition StateDir : string :=
  let d := getenv "MM_HARNESS_STATE_DIR" in
  if negb (String.eqb d "") then d else path_Join ConfigDir "state".

Definition DefaultConfig : FileConfig :=
  MkFileConfig "" "" "" "" "" (Some ∅) (path_Join homeDir ".harness") "claude" "codex" "workspace-write"
    (Some ["Read"; "Grep"; "Glob"; "LS"; "WebSearch"; "WebFetch"]) (Some []) 1 40 30 "claude" "".

(** *** The file *)

(** [os.ReadFile]: [Ok None] is [os.ErrNotExist]. *)
Definition os_ReadFile (path : string) : prog HWorld (res (option FileBody)) :=
  act (fun w => (match read_fault (hw_tick w) with
                 | Some msg => Err (ErrOther msg)
                 | None => Ok (hw_files w !! path)
                 end, htick w)).

(** [json.Unmarshal] into a configuration; what is no JSON changes nothing, what
    does not fit is reported at the end. *)
Definition unmarshal_config (body : FileBody) (cur : FileConfig) : FileConfig * bool :=
  match body with
  | Doc j => dec_struct Config_fields cur j
  | Bytes _ | Garbled => (cur, false)
  end.

(** [Validate]: one directory after the other, in any order. *)
Fixpoint validate_workspaces (l : list (string * string)) : prog HWorld (res unit) :=
  match l with
  | [] => Ret (Ok tt)
  | (name, dir) :: l' =>
      if negb (IsAbs dir) then Ret (Err (ErrOther ("workspace " +:+ quoted name +:+ ": path must be absolute")))
      else
        st <- consult (fun t => is_dir t dir) ;;
        match st with
        | Ok true => validate_workspaces l'
        | _ => Ret (Err (ErrOther ("workspace " +:+ quoted name +:+ ": " +:+ dir +:+ " is not a directory")))
        end
  end.
Definition Validate (c : FileConfig) : prog HWorld (res unit) :=
  if String.eqb (fcBrokerURL c) "" || String.eqb (fcToken c) "" || String.eqb (fcOwnerMMUserID c) ""
     || String.eqb (fcHarnessID c) ""
  then Ret (Err (ErrOther ("config incomplete: broker_url, harness_id, token and owner_mm_user_id are required (run "
                           +:+ backtick +:+ "mhb harness pair" +:+ backtick +:+ ")")))
  else
    ok <- validate_workspaces (map_to_list (default ∅ (fcWorkspaces c))) ;;
    match ok with
    | Err e => Ret (Err e)
    | Ok _ =>
        if fcMaxJobs c <=? 0 then Ret (Err (ErrOther "max_jobs must be >= 1"))
        else if String.eqb (fcDefaultWorkspace c) "" || negb (IsAbs (fcDefaultWorkspace c))
        then Ret (Err (ErrOther "default_workspace must be an absolute path"))
        else if String.eqb (fcAgent c) "claude" || String.eqb (fcAgent c) "codex" then Ret (Ok tt)
        else Ret (Err (ErrOther ("agent must be " +:+ quoted "claude" +:+ " or " +:+ quoted "codex" +:+ ", got "
                                 +:+ quoted (fcAgent c))))
    end.

Definition LoadConfig : prog HWorld (res FileConfig) :=
  b <- os_ReadFile ConfigPath ;;
  match b with
  | Err e => Ret (Err e)
  | Ok None => Ret (Err (ErrOther ("no config at " +:+ ConfigPath +:+ "; run " +:+ backtick +:+ "mhb harness pair"
                                   +:+ backtick +:+ " first")))
  | Ok (Some body) =>
      match unmarshal_config body DefaultConfig with
      | (_, false) => Ret (Err (ErrOther ("parse " +:+ ConfigPath +:+ ": " +:+ parse_error body)))
      | (c, true) => v <- Validate c ;; Ret (res_map (fun _ => c) v)
      end
  end.

(** [SaveConfig]: written aside, then renamed. *)
Definition SaveConfig (c : FileConfig) : prog HWorld (res unit) :=
  flush_file ConfigPath (fun _ => Ok (Config_json c)).

(** [RedactConfig], of bytes that hold a document: of members with one name
    the last counts. *)
Definition redact_map (m : gmap string json) : gmap string json :=
  if bool_decide (is_Some (m !! "token")) then <["token" := JStr "redacted"]> m else m.
Definition RedactConfig (raw : FileBody) : res json :=
  match raw with
  | Doc (JObj ms) => Ok (map_json id (redact_map (list_to_map (rev ms))))
  | Doc JNull => Ok JNull
  | _ => Err (ErrOther ("parse " +:+ ConfigPath +:+ ": " +:+ parse_error raw))
  end.

(** ** Pairing *)

Record InitStart : Type := MkInitStart { isCode : string; isPollToken : string; isExpiresAt : Time; isCommand : string }.
Definition dec_time : decoder Time := fun cur j =>
  match j with
  | JStr s => match parse_time s with Some t => (t, true) | None => (cur, false) end
  | JNull => (cur, true)
  | _ => (cur, false)
  end.
Definition InitStart_fields : fields InitStart := [
  ("code", field isCode (fun v x => MkInitStart v (isPollToken x) (isExpiresAt x) (isCommand x)) dec_string);
  ("poll_token", field isPollToken (fun v x => MkInitStart (isCode x) v (isExpiresAt x) (isCommand x)) dec_string);
  ("expires_at", field isExpiresAt (fun v x => MkInitStart (isCode x) (isPollToken x) v (isCommand x)) dec_time);
  ("command", field isCommand (fun v x => MkInitStart (isCode x) (isPollToken x) (isExpiresAt x) v) dec_string)
].

Record InitResult : Type := MkInitResult {
  irHarnessID : string; irToken : string; irMMUserID : string; irUsername : string; irBotUsername : string
}.
Definition InitResult_fields : fields InitResult := [
  ("harness_id", field irHarnessID (fun v x => MkInitResult v (irToken x) (irMMUserID x) (irUsername x) (irBotUsername x)) dec_string);
  ("token", field irToken (fun v x => MkInitResult (irHarnessID x) v (irMMUserID x) (irUsername x) (irBotUsername x)) dec_string);
  ("mm_user_id", field irMMUserID (fun v x => MkInitResult (irHarnessID x) (irToken x) v (irUsername x) (irBotUsername x)) dec_string);
  ("username", field irUsername (fun v x => MkInitResult (irHarnessID x) (irToken x) (irMMUserID x) v (irBotUsername x)) dec_string);
  ("bot_username", field irBotUsername (fun v x => MkInitResult (irHarnessID x) (irToken x) (irMMUserID x) (irUsername x) v) dec_string)
].

Definition ErrInitExpired : error := ErrOther "the init code expired before it was claimed".
Definition ErrInitDisabled : error :=
  ErrOther "the broker has onboarding disabled; ask the admin to complete the OAuth installation".

(** The document of a body, decoded into a zero value. *)
Definition body_as {T} (fs : fields T) (zero : T) (what : string) (a : HTTPAnswer) : res T :=
  match haDoc a with
  | Some j => match dec_struct fs zero j with (x, true) => Ok x | (_, false) => Err (ErrOther (what +:+ ": bad response: " +:+ parse_error (Doc j))) end
  | None => Err (ErrOther (what +:+ ": bad response: " +:+ parse_error Garbled))
  end.
Definition failed (what : string) (a : HTTPAnswer) : error :=
  ErrOther (what +:+ ": " +:+ haStatusText a +:+ ": " +:+ TrimSpace (haBody a)).

Definition StartInit (brokerURL botName harnessName : string) : prog HWorld (res InitStart) :=
  res <- consult (fun t => http_do t (Post (TrimRight brokerURL "/" +:+ "/init")
           (JObj [("bot_name", enc_string botName); ("harness_name", enc_string harnessName)]))) ;;
  Ret (match res with
       | Err e => Err e
       | Ok a =>
           if haStatus a =? 200 then body_as InitStart_fields (MkInitStart "" "" zero_time "") "init" a
           else if haStatus a =? 501 then Err ErrInitDisabled
           else Err (failed "init failed" a)
       end).

(** What one poll says: the result, an error, or to go on. *)
Definition poll_answer (a : res HTTPAnswer) : option (res InitResult) :=
  match a with
  | Err e => Some (Err e)
  | Ok a =>
      if haStatus a =? 200 then Some (body_as InitResult_fields (MkInitResult "" "" "" "" "") "init" a)
      else if haStatus a =? 202 then None
      else if (haStatus a =? 404) || (haStatus a =? 410) then Some (Err ErrInitExpired)
      else Some (Err (failed "init poll failed" a))
  end.

(** [WaitInit], for at most so many polls ([None]: not done yet); [done] is the
    deadline of the context. *)
Fixpoint WaitInit (fuel : nat) (brokerURL code pollToken : string) (expiresAt : Time) (done : option Time)
    : prog HWorld (option (res InitResult)) :=
  match fuel with
  | O => Ret None
  | Datatypes.S fuel =>
      a <- consult (fun t => http_do t (Get (TrimRight brokerURL "/" +:+ "/init/" +:+ code) pollToken)) ;;
      match poll_answer a with
      | Some r => Ret (Some r)
      | None =>
          t <- now ;;
          if expiresAt <? t then Ret (Some (Err ErrInitExpired))
          else
            start <- now ;;
            ended <- choose [fun w => match done with Some d => at_time d true w | None => None end;
                             at_time (start + 2 * second) false] ;;
            if ended : bool then Ret (Some (Err (ErrOther "context deadline exceeded")))
            else WaitInit fuel brokerURL code pollToken expiresAt done
      end
  end.

(** What the file holds of an earlier configuration is kept, as far as it can
    be read. *)
Definition existing_config : prog HWorld FileConfig :=
  b <- os_ReadFile ConfigPath ;;
  Ret (match b with Ok (Some body) => (unmarshal_config body DefaultConfig).1 | _ => DefaultConfig end).

Definition paired (brokerURL harnessID token owner name : string) (c : FileConfig) : FileConfig :=
  set_fcName name (set_fcOwnerMMUserID owner (set_fcToken token (set_fcHarnessID harnessID (set_fcBrokerURL brokerURL c)))).

Definition ApplyInit (brokerURL : string) (r : InitResult) (harnessName : string) : prog HWorld (res FileConfig) :=
  c <- existing_config ;;
  let c := paired (TrimRight brokerURL "/") (irHarnessID r) (irToken r) (irMMUserID r) harnessName c in
  saved <- SaveConfig c ;;
  Ret (res_map (fun _ => c) saved).

(** [Pair], with a code the bot handed out. *)
Record PairResponse : Type := MkPairResponse { prHarnessID : string; prToken : string; prMMUserID : string; prUsername : string }.
Definition PairResponse_fields : fields PairResponse := [
  ("harness_id", field prHarnessID (fun v x => MkPairResponse v (prToken x) (prMMUserID x) (prUsername x)) dec_string);
  ("token", field prToken (fun v x => MkPairResponse (prHarnessID x) v (prMMUserID x) (prUsername x)) dec_string);
  ("mm_user_id", field prMMUserID (fun v x => MkPairResponse (prHarnessID x) (prToken x) v (prUsername x)) dec_string);
  ("username", field prUsername (fun v x => MkPairResponse (prHarnessID x) (prToken x) (prMMUserID x) v) dec_string)
].
Definition PairRequest_json (code name host : string) : json := enc_struct [
  member "code" (enc_string (TrimSpace code)); member "name" (enc_string name);
  member "hostname" (enc_string host); member "version" (enc_string harness_version)].

Definition Pair (brokerURL code name : string) : prog HWorld (res FileConfig) :=
  let url := TrimRight brokerURL "/" in
  host <- consult hostname ;;
  let name := if String.eqb name "" then host else name in
  res <- consult (fun t => http_do t (Post (url +:+ "/pair") (PairRequest_json code name host))) ;;
  match res with
  | Err e => Ret (Err e)
  | Ok a =>
      if negb (haStatus a =? 200) then Ret (Err (failed "pairing failed" a))
      else
        match body_as PairResponse_fields (MkPairResponse "" "" "" "") "pairing" a with
        | Err e => Ret (Err e)
        | Ok pr =>
            c <- existing_config ;;
            let c := paired url (prHarnessID pr) (prToken pr) (prMMUserID pr) name c in
            saved <- SaveConfig c ;;
            Ret (res_map (fun _ => c) saved)
        end
  end.

(** ** Commands ([internal/cli/harness.go], [init.go]) *)

Definition Abs (p : string) : prog HWorld (res string) :=
  if IsAbs p then Ret (Ok (Clean p))
  else
    wd <- consult Getwd ;;
    Ret (match wd with Some wd => Ok (path_Join wd p) | None => Err (ErrOther "getwd") end).

Definition absDir (p : string) : prog HWorld (res string) :=
  a <- Abs p ;;
  match a with
  | Err e => Ret (Err e)
  | Ok a =>
      st <- consult (fun t => is_dir t a) ;;
      Ret (match st with
           | Err e => Err e
           | Ok false => Err (ErrOther (a +:+ " is not a directory"))
           | Ok true => Ok a
           end)
  end.

(** Assigning to a nil map panics. *)
Definition put_workspace (name dir : string) (c : FileConfig) : res FileConfig :=
  match fcWorkspaces c with
  | None => Err (ErrOther "panic: assignment to entry in nil map")
  | Some m => Ok (set_fcWorkspaces (Some (<[name := dir]> m)) c)
  end.

(** [mhb harness workspace add], [rm] and [list] *)
Definition workspace_add (name dir : string) : prog HWorld (res unit) :=
  c <- LoadConfig ;;
  match c with
  | Err e => Ret (Err e)
  | Ok c =>
      d <- absDir dir ;;
      match d with
      | Err e => Ret (Err e)
      | Ok d =>
          match put_workspace name d c with
          | Err e => Ret (Err e)
          | Ok c =>
              v <- Validate c ;;
              match v with Err e => Ret (Err e) | Ok _ => SaveConfig c end
          end
      end
  end.

Definition workspace_rm (name : string) : prog HWorld (res unit) :=
  c <- LoadConfig ;;
  match c with
  | Err e => Ret (Err e)
  | Ok c =>
      match default ∅ (fcWorkspaces c) !! name with
      | None => Ret (Err (ErrOther ("no workspace " +:+ quoted name)))
      | Some _ => SaveConfig (set_fcWorkspaces (delete name <$> fcWorkspaces c) c)
      end
  end.

Definition workspace_list : prog HWorld (res (list (string * string))) :=
  c <- LoadConfig ;;
  Ret (res_map (fun c => map (fun n => (n, default "" (default ∅ (fcWorkspaces c) !! n)))
                           (sort_strings (WorkspaceNames (runtime_config c)))) c).

(** [mhb harness config]: what it prints after the path. *)
Definition show_config (showSecrets : bool) : prog HWorld (res FileBody) :=
  b <- os_ReadFile ConfigPath ;;
  Ret (match b with
       | Err e => Err e
       | Ok None => Err (ErrOther "no such file or directory")
       | Ok (Some body) => if showSecrets then Ok body else res_map Doc (RedactConfig body)
       end).

(** [mhb harness run], up to [New]: the flags over the file. *)
Definition run_config (defaultWorkspace agentName : string) : prog HWorld (res FileConfig) :=
  c <- LoadConfig ;;
  match c with
  | Err e => Ret (Err e)
  | Ok c =>
      dw <- (if String.eqb defaultWorkspace "" then Ret (Ok (fcDefaultWorkspace c)) else Abs defaultWorkspace) ;;
      match dw with
      | Err e => Ret (Err e)
      | Ok dw =>
          let c := set_fcDefaultWorkspace dw c in
          let c := if String.eqb agentName "" then c else set_fcAgent agentName c in
          v <- Validate c ;; Ret (res_map (fun _ => c) v)
      end
  end.

(** A question on standard input, of which the lines are left. *)
Definition ask_line (lines : list string) (def : string) : string * list string :=
  match lines with
  | [] => (def, [])
  | l :: rest => let l := TrimSpace l in ((if String.eqb l "" then def else l), rest)
  end.

Definition detectAgents (c : FileConfig) : prog HWorld (list string) :=
  claude <- consult (fun t => LookPath t (fcClaudeBin c)) ;;
  codex <- consult (fun t => LookPath t (fcCodexBin c)) ;;
  Ret (match claude with None => ["claude"] | Some _ => [] end ++ match codex with None => ["codex"] | Some _ => [] end).

(** [strings.Cut] at an equals sign. *)
Definition cut_equals (s : string) : option (string * string) :=
  match split_at (ascii_of 61) s with
  | n :: (_ :: _) as rest => Some (n, Join (tail rest) "=")
  | _ => None
  end.

(** [mhb harness init] *)
Record InitFlags : Type := MkInitFlags {
  ifBroker : string;
  ifBot : string;
  ifName : string;
  ifAgent : string;
  ifDefaultWorkspace : string;
  ifWorkspaces : list string;
  ifYes : bool
}.

(** The workspaces of the flags: the first that is wrong ends the command. *)
Fixpoint flag_workspaces (l : list string) (c : FileConfig) : prog HWorld (res FileConfig) :=
  match l with
  | [] => Ret (Ok c)
  | ws :: l' =>
      match cut_equals ws with
      | None => Ret (Err (ErrOther ("--workspace " +:+ quoted ws +:+ ": expected name=dir")))
      | Some (n, dir) =>
          d <- absDir dir ;;
          match d with
          | Err e => Ret (Err e)
          | Ok d => match put_workspace n d c with Err e => Ret (Err e) | Ok c => flag_workspaces l' c end
          end
      end
  end.

(** Those that are asked for, until the answer is empty; wrong ones are asked
    for again. *)
Fixpoint asked_workspaces (lines : list string) (c : FileConfig) : prog HWorld (res FileConfig) :=
  match lines with
  | [] => Ret (Ok c)
  | l :: rest =>
      let entry := TrimSpace l in
      if String.eqb entry "" then Ret (Ok c)
      else
        match cut_equals entry with
        | None => asked_workspaces rest c
        | Some (n, dir) =>
            d <- absDir (TrimSpace dir) ;;
            match d with
            | Err _ => asked_workspaces rest c
            | Ok d =>
                match put_workspace (TrimSpace n) d c with
                | Err e => Ret (Err e)
                | Ok c => asked_workspaces rest c
                end
            end
        end
  end.

Definition choose_agent (f : InitFlags) (available : list string) (lines : list string) (c : FileConfig) : FileConfig * list string :=
  let '(agent, lines) :=
    if String.eqb (ifAgent f) "" && negb (ifYes f) && (1 <? length available)%nat then ask_line lines (fcAgent c)
    else if String.eqb (ifAgent f) "" && (length available =? 1)%nat then (default "" (head available), lines)
    else (ifAgent f, lines) in
  ((if String.eqb agent "" then c else set_fcAgent agent c), lines).

(** From the saved pairing to the saved configuration. *)
Definition finish_init (f : InitFlags) (lines : list string) (c : FileConfig) : prog HWorld (res FileConfig) :=
  available <- detectAgents c ;;
  let '(c, lines) := choose_agent f available lines c in
  dw <- (if String.eqb (ifDefaultWorkspace f) "" then Ret (Ok (fcDefaultWorkspace c)) else Abs (ifDefaultWorkspace f)) ;;
  match dw with
  | Err e => Ret (Err e)
  | Ok dw =>
      c <- flag_workspaces (ifWorkspaces f) (set_fcDefaultWorkspace dw c) ;;
      match c with
      | Err e => Ret (Err e)
      | Ok c =>
          c <- (if ifYes f then Ret (Ok c) else asked_workspaces lines c) ;;
          match c with
          | Err e => Ret (Err e)
          | Ok c =>
              v <- Validate c ;;
              match v with
              | Err e => Ret (Err e)
              | Ok _ => saved <- SaveConfig c ;; Ret (res_map (fun _ => c) saved)
              end
          end
      end
  end.

Definition init_broker (f : InitFlags) (lines : list string) : string * list string :=
  if String.eqb (ifBroker f) "" then ask_line lines "" else (ifBroker f, lines).

(** [None]: the owner has not claimed the code within so many polls. *)
Definition harness_init (fuel : nat) (f : InitFlags) (lines : list string) : prog HWorld (option (res FileConfig)) :=
  let '(broker, lines) := init_broker f lines in
  if String.eqb broker "" then Ret (Some (Err (ErrOther "a broker URL is required")))
  else
    host <- consult hostname ;;
    let name := if String.eqb (ifName f) "" then host else ifName f in
    t <- now ;;
    start <- StartInit broker (ifBot f) name ;;
    match start with
    | Err e => Ret (Some (Err e))
    | Ok start =>
        r <- WaitInit fuel broker (isCode start) (isPollToken start) (isExpiresAt start) (Some (t + 15 * minute)) ;;
        match r with
        | None => Ret None
        | Some (Err e) => Ret (Some (Err e))
        | Some (Ok r) =>
            c <- ApplyInit broker r name ;;
            match c with
            | Err e => Ret (Some (Err e))
            | Ok c => done <- finish_init f lines c ;; Ret (Some done)
            end
        end
    end.
End Setup.
