(* ===== verification/SetupFacts.v ===== *)
(** * What setting up a harness promises

    The configuration file reads back as what was saved, a crash leaves the old
    one or the new one, and commands keep it valid; waiting for the owner's
    claim ends. *)

From S2P Require Import Prelude Resume GoText Json Protocol Rely HarnessText HarnessWorld StateFiles Daemon Setup.

Open Scope Z_scope.
Open Scope prog_scope.

(** ** Documents *)

Lemma dec_over_strings cur l :
  dec_over "" dec_string cur (map enc_string l) = (map to_valid l, true).
Proof. revert cur. induction l as [|s l IH]; intros cur; [done|]. cbn. by rewrite IH. Qed.

Lemma dec_slice_strings cur l : dec_slice "" dec_string cur (slice_json l) = (map to_valid <$> l, true).
Proof. destruct l as [l|]; [|done]. cbn -[dec_over]. by rewrite dec_over_strings. Qed.

(** Every value of a map that was written is read back, repaired; there are no
    others. *)
Lemma map_members_strings (P : string -> Prop) (l : list (string * string)) m :
  map_Forall (fun _ v => P v) m -> Forall (fun kv => P (to_valid kv.2)) l ->
  exists m', map_members "" dec_string m (map (fun kv => (to_valid kv.1, enc_string kv.2)) l) = (m', true)
    /\ map_Forall (fun _ v => P v) m'.
Proof.
  revert m. induction l as [|[k v] l IH]; intros m Hm Hl; [by exists m|]. apply Forall_cons in Hl as [Hv Hl]. cbn.
  destruct (IH (<[to_valid k := to_valid v]> m)) as (m' & -> & Hm'); [by apply map_Forall_insert_2|done|]. by exists m'.
Qed.

Lemma dec_map_strings cur m :
  map_Forall (fun k v => valid_utf8 k /\ valid_utf8 v) m -> dec_map "" dec_string (Some ∅) (nilmap_json (Some m)) = (Some m, true)
  /\ dec_map "" dec_string cur (nilmap_json None) = (None, true).
Proof.
  intros Hm. split; [|done]. cbn. pose proof (read_map_json (T := string) m Hm) as H. unfold read_map, map_json in H. cbn in H.
  destruct (map_members _ _ _ _) as [m' ok]. destruct ok; [|done]. by injection H as ->.
Qed.

(** *** The configuration *)

Definition text_ok (c : FileConfig) : Prop :=
  Forall valid_utf8 [fcBrokerURL c; fcHarnessID c; fcToken c; fcOwnerMMUserID c; fcName c; fcDefaultWorkspace c; fcAgent c;
    fcCodexBin c; fcCodexSandbox c; fcClaudeBin c; fcModel c]
  /\ map_Forall (fun k v => valid_utf8 k /\ valid_utf8 v) (default ∅ (fcWorkspaces c))
  /\ Forall valid_utf8 (default [] (fcAllowedTools c)) /\ Forall valid_utf8 (default [] (fcDisallowedTools c)).

Definition ints_ok (c : FileConfig) : Prop :=
  int64 (fcMaxJobs c) /\ int64 (fcDefaultMaxTurns c) /\ int64 (fcApprovalTimeoutMin c).

Section Files.
Context {E : HEnv} {S : SetupEnv}.

(** What the file that [SaveConfig] writes says. *)
Definition repaired (c : FileConfig) (ws : option (gmap string string)) : FileConfig :=
  MkFileConfig (to_valid (fcBrokerURL c)) (to_valid (fcHarnessID c)) (to_valid (fcToken c)) (to_valid (fcOwnerMMUserID c))
    (to_valid (fcName c)) ws (to_valid (fcDefaultWorkspace c)) (to_valid (fcAgent c)) (to_valid (fcCodexBin c))
    (to_valid (fcCodexSandbox c)) (map to_valid <$> fcAllowedTools c) (map to_valid <$> fcDisallowedTools c)
    (fcMaxJobs c) (fcDefaultMaxTurns c) (fcApprovalTimeoutMin c) (to_valid (fcClaudeBin c)) (to_valid (fcModel c)).

Lemma dec_string_repairs cur s : dec_string cur (enc_string s) = (to_valid s, true).
Proof. done. Qed.

Lemma config_decodes c ws :
  ints_ok c -> dec_map "" dec_string (Some ∅) (nilmap_json (fcWorkspaces c)) = (ws, true) ->
  dec_struct Config_fields DefaultConfig (Config_json c) = (repaired c ws, true).
Proof.
  intros (H1 & H2 & H3) Hws. unfold Config_json, enc_struct, dec_struct. cbn [concat app member].
  repeat (erewrite dec_member_step;
    [|reflexivity|eapply field_round;
       [first [apply dec_string_repairs | apply dec_int_round; assumption | apply dec_slice_strings | exact Hws] | reflexivity]]).
  unfold omitempty. destruct (is_empty_string (fcModel c)) eqn:Em; cbn [app].
  - apply is_empty_string_true in Em. unfold repaired. by rewrite Em.
  - by erewrite dec_member_step; [|reflexivity|eapply field_round; [apply dec_string_repairs|reflexivity]].
Qed.

(** ** What a configuration must be *)

(** What [Validate] asks for, apart from the directories being there. *)
Definition well_formed (c : FileConfig) : Prop :=
  fcBrokerURL c <> "" /\ fcToken c <> "" /\ fcOwnerMMUserID c <> "" /\ fcHarnessID c <> ""
  /\ map_Forall (fun _ dir => IsAbs dir = true) (default ∅ (fcWorkspaces c))
  /\ 0 < fcMaxJobs c /\ IsAbs (fcDefaultWorkspace c) = true /\ (fcAgent c = "claude" \/ fcAgent c = "codex").

(** The configuration a command finds, before it validates it. *)
Definition loads (w : HWorld) : option FileConfig :=
  body ← hw_files w !! ConfigPath;
  match unmarshal_config body DefaultConfig with (c, true) => Some c | (_, false) => None end.

Lemma IsAbs_valid s : IsAbs s = true -> IsAbs (to_valid s) = true.
Proof.
  unfold IsAbs, HasPrefix. destruct s as [|a s]; [done|]. cbn. case_match; [|done]. subst.
  intros _. rewrite to_valid_cons by reflexivity. by destruct (to_valid s).
Qed.

Lemma well_formed_repaired c ws :
  well_formed c -> map_Forall (fun _ dir => IsAbs dir = true) (default ∅ ws) -> well_formed (repaired c ws).
Proof.
  intros (? & ? & ? & ? & _ & ? & ? & Ha) Hws. unfold well_formed, repaired. cbn. rewrite !to_valid_empty.
  repeat (split; [done|]). split; [by apply IsAbs_valid|]. destruct Ha as [->| ->]; [by left|by right].
Qed.

Lemma map_valid l : Forall valid_utf8 (default [] l) -> map to_valid <$> l = l.
Proof. destruct l as [l|]; [|done]. cbn. intros H. f_equal. induction H as [|x l Hx _ IH]; [done|]. cbn. by rewrite Hx, IH. Qed.

(** What [SaveConfig] wrote. *)
Lemma loads_saved c w :
  ints_ok c -> hw_files w !! ConfigPath = Some (Doc (Config_json c)) ->
  (well_formed c -> exists c', loads w = Some c' /\ well_formed c') /\ (text_ok c -> loads w = Some c).
Proof.
  intros Hi Hf. unfold loads. rewrite Hf. cbn [mbind option_bind unmarshal_config]. split.
  - intros Hwf. destruct (fcWorkspaces c) as [m|] eqn:Ews.
    + destruct (map_members_strings (fun s => IsAbs s = true) (order_by_text fst (map_to_list m)) ∅) as (m' & Hm' & Hall).
      { apply map_Forall_empty. }
      { apply Forall_forall. intros [k v] Hin. apply IsAbs_valid. assert (order_by_text fst (map_to_list m) ≡ₚ map_to_list m) as Hp by apply merge_sort_Permutation. rewrite Hp in Hin.
        apply elem_of_map_to_list in Hin. destruct Hwf as (_ & _ & _ & _ & Hw & _). rewrite Ews in Hw. by apply (Hw k). }
      erewrite config_decodes; [|done|rewrite Ews; cbn; by rewrite Hm'].
      eexists. split; [done|]. by apply well_formed_repaired.
    + erewrite config_decodes; [|done|by rewrite Ews]. eexists. split; [done|]. apply well_formed_repaired; [done|]. apply map_Forall_empty.
  - intros (Ht & Hws & Ha & Hd). erewrite (config_decodes c (fcWorkspaces c)); [|done|].
    + unfold repaired. rewrite !map_valid by done. repeat (apply Forall_cons in Ht as [? Ht]). unfold valid_utf8 in *.
      destruct c; cbn in *. by repeat f_equal.
    + destruct (fcWorkspaces c) as [m|]; [|done]. exact (proj1 (dec_map_strings None m Hws)).
Qed.

(** *** Loaded numbers are Go's *)

Lemma lookup_field_elem {T} (eq : string -> string -> bool) (fs : fields T) k d :
  lookup_field eq fs k = Some d -> exists k', (k', d) ∈ fs.
Proof.
  induction fs as [|[k' d'] fs IH]; [done|]. cbn. destruct (eq k' k); [intros [= ->]; exists k'; by left|].
  intros H. destruct (IH H) as [k'' ?]. exists k''. by right.
Qed.

Lemma dec_members_inv {T} (P : T -> Prop) (fs : fields T) ms cur :
  Forall (fun kd => forall cur j, P cur -> P (kd.2 cur j).1) fs -> P cur -> P (dec_members fs cur ms).1.
Proof.
  intros Hfs. revert cur. induction ms as [|[k j] ms IH]; intros cur Hp; [done|]. cbn.
  destruct (find_field fs k) as [d|] eqn:Hf; [|by apply IH].
  assert (exists k', (k', d) ∈ fs) as [k' Hin].
  { unfold find_field in Hf. destruct (lookup_field String.eqb fs k) eqn:Hl; [injection Hf as ->|]; by eapply lookup_field_elem. }
  pose proof (proj1 (Forall_forall _ _) Hfs _ Hin cur j Hp) as Hc. cbn in Hc.
  destruct (d cur j) as [cur' ok]. pose proof (IH cur' Hc) as Hx. by destruct (dec_members fs cur' ms).
Qed.

Lemma dec_int_int64 cur j : int64 cur -> int64 (dec_int cur j).1.
Proof. destruct j; cbn; try done. intros Hc. destruct (int64b n) eqn:Hn; [|done]. by apply int64b_spec. Qed.

Lemma unmarshal_ints body cur : ints_ok cur -> ints_ok (unmarshal_config body cur).1.
Proof.
  intros Hc. destruct body as [j|s|]; [|done..]. cbn. destruct j; try done. cbn. apply dec_members_inv; [|done].
  apply Forall_forall. intros [k d] Hin c j (H1 & H2 & H3).
  repeat (apply elem_of_cons in Hin as [[= -> ->]|Hin]); [..|by apply elem_of_nil in Hin]; cbn [snd]; unfold field;
    match goal with |- context [let '(v, ok) := ?d ?x j in _] =>
      destruct (d x j) as [v ok] eqn:Ed end;
    unfold ints_ok; cbn; split_and!; try done;
    match goal with Ed : dec_int ?x j = (?v, ?ok) |- int64 ?v =>
      change v with (v, ok).1; rewrite <- Ed; by apply dec_int_int64 end.
Qed.
Lemma default_ints : ints_ok DefaultConfig.
Proof. by repeat split. Qed.

(** ** Commands *)

Lemma throughout_mono {A} (P P' : HWorld -> Prop) (m : prog HWorld A) (Q Q' : A -> HWorld -> Prop) w :
  (forall w', P w' -> P' w') -> (forall a w', P w' -> Q a w' -> Q' a w') -> throughout P m Q w -> throughout P' m Q' w.
Proof.
  intros HP HQ. revert w. unfold throughout. induction m as [a|X f k IH]; intros w; cbn; intros [H Hm]; (split; [by apply HP|]); [by apply HQ|].
  destruct (f w) as [[x w']|]; [by apply IH | done].
Qed.

Section Quiet.
Context (P : HWorld -> Prop) (HP : forall w w', hw_files w' = hw_files w -> P w -> P w').

(** What follows a part that leaves the files alone. *)
Definition after_quiet {X} (w : HWorld) (T : X -> Prop) (Q : X -> HWorld -> Prop) : Prop :=
  forall x w', hw_files w' = hw_files w -> P w' -> T x -> Q x w'.

Lemma quiet_act {X} (f : HWorld -> X * HWorld) (T : X -> Prop) Q w :
  (forall w, hw_files (f w).2 = hw_files w) -> P w -> T (f w).1 -> after_quiet w T Q -> throughout P (act f) Q w.
Proof. intros Hf Hp HT H. apply throughout_act; [done|by apply (HP w)|]. apply H; [done|by apply (HP w)|done]. Qed.

Lemma quiet_consult {X} (f : nat -> X) Q w : P w -> after_quiet w (fun _ => True) Q -> throughout P (consult f) Q w.
Proof. intros Hp H. by apply (quiet_act _ (fun _ => True)). Qed.

Lemma quiet_ReadFile path Q w :
  P w -> after_quiet w (fun r => forall b, r = Ok b -> b = hw_files w !! path) Q -> throughout P (os_ReadFile path) Q w.
Proof. intros Hp H. eapply quiet_act; [done|done| |exact H]. cbn. intros b. destruct (read_fault _); [done|]. by intros [= <-]. Qed.

Lemma quiet_workspaces l Q w :
  P w -> after_quiet w (fun r => r = Ok tt -> Forall (fun kv => IsAbs kv.2 = true) l) Q -> throughout P (validate_workspaces l) Q w.
Proof.
  revert w. induction l as [|[name dir] l IH]; intros w Hp H; cbn [validate_workspaces].
  { apply throughout_ret; [done|]. apply H; [done|done|]. by constructor. }
  destruct (IsAbs dir) eqn:Ea; cbn [negb]; [|apply throughout_ret; [done|]; by apply H].
  apply throughout_bind, quiet_consult; [done|]. intros st w1 F1 P1 _.
  destruct st as [[]|e]; [|apply throughout_ret; [done|]; by apply H..].
  apply IH; [done|]. intros r w2 F2 P2 Hr. apply H; [congruence|done|]. intros E'. constructor; auto.
Qed.

Lemma quiet_Validate c Q w :
  P w -> after_quiet w (fun r => r = Ok tt -> well_formed c) Q -> throughout P (Validate c) Q w.
Proof.
  intros Hp H. unfold Validate. assert (Hno : forall e w', hw_files w' = hw_files w -> P w' -> throughout P (Ret (Err e)) Q w').
  { intros e w' F' P'. apply throughout_ret; [done|]. by apply H. }
  destruct (_ || _) eqn:Emp; [by apply Hno|]. rewrite !orb_false_iff, !String.eqb_neq in Emp. destruct Emp as [[[? ?] ?] ?].
  apply throughout_bind, quiet_workspaces; [done|]. intros r w1 F1 P1 Hr. destruct r as [[]|e]; [|by apply Hno].
  destruct (Z.leb_spec (fcMaxJobs c) 0); [by apply Hno|]. destruct (String.eqb_spec (fcDefaultWorkspace c) ""); [by apply Hno|].
  cbn [orb]. destruct (IsAbs (fcDefaultWorkspace c)) eqn:Ed; cbn [negb]; [|by apply Hno].
  destruct (String.eqb (fcAgent c) "claude" || String.eqb (fcAgent c) "codex") eqn:Ea; [|by apply Hno].
  apply throughout_ret; [done|]. apply H; [done|done|]. intros _. unfold well_formed.
  rewrite orb_true_iff, !String.eqb_eq in Ea. repeat (split; [done|]). split; [|by repeat split].
  intros k dir Hk. specialize (Hr eq_refl). rewrite Forall_forall in Hr. apply (Hr (k, dir)). by apply elem_of_map_to_list.
Qed.

Lemma quiet_LoadConfig Q w :
  P w -> after_quiet w (fun r => forall c, r = Ok c -> loads w = Some c /\ well_formed c /\ ints_ok c) Q -> throughout P LoadConfig Q w.
Proof.
  intros Hp H. unfold LoadConfig. assert (Hno : forall e w', hw_files w' = hw_files w -> P w' -> throughout P (Ret (Err e)) Q w').
  { intros e w' F' P'. apply throughout_ret; [done|]. by apply H. }
  apply throughout_bind, quiet_ReadFile; [done|]. intros r w1 F1 P1 Hr. destruct r as [[body|]|e]; [|by apply Hno..].
  specialize (Hr _ eq_refl). pose proof (unmarshal_ints body DefaultConfig default_ints) as Hi.
  destruct (unmarshal_config body DefaultConfig) as [c []] eqn:Eu; [|by apply Hno].
  apply throughout_bind, quiet_Validate; [done|]. intros v w2 F2 P2 Hv. apply throughout_ret; [done|].
  apply H; [congruence|done|]. intros c' Hc'. destruct v as [[]|]; [|done]. injection Hc' as <-.
  split; [|split; [by apply Hv|done]]. unfold loads. rewrite <- Hr. cbn. by rewrite Eu.
Qed.

Lemma quiet_Abs p Q w : P w -> after_quiet w (fun _ => True) Q -> throughout P (Abs p) Q w.
Proof.
  intros Hp H. unfold Abs. destruct (IsAbs p); [by apply throughout_ret; [|apply H]|].
  apply throughout_bind, quiet_consult; [done|]. intros wd w1 F1 P1 _. by apply throughout_ret; [|apply H].
Qed.

Lemma quiet_absDir p Q w : P w -> after_quiet w (fun _ => True) Q -> throughout P (absDir p) Q w.
Proof.
  intros Hp H. unfold absDir. apply throughout_bind, quiet_Abs; [done|]. intros a w1 F1 P1 _.
  destruct a as [a|e]; [|by apply throughout_ret; [|apply H]].
  apply throughout_bind, quiet_consult; [done|]. intros st w2 F2 P2 _. apply throughout_ret; [done|]. apply H; [congruence|done|done].
Qed.

Lemma put_workspace_ints name dir c c' : put_workspace name dir c = Ok c' -> ints_ok c -> ints_ok c'.
Proof. unfold put_workspace. destruct (fcWorkspaces c); [|done]. by intros [= <-]. Qed.

(** The steps that fill in workspaces change nothing but the configuration in
    memory. *)
Definition ints_kept (r : res FileConfig) : Prop := forall c, r = Ok c -> ints_ok c.

Lemma quiet_flag_workspaces l c Q w :
  P w -> ints_ok c -> after_quiet w ints_kept Q -> throughout P (flag_workspaces l c) Q w.
Proof.
  revert c w. induction l as [|ws l IH]; intros c w Hp Hi H; cbn [flag_workspaces].
  { apply throughout_ret; [done|]. apply H; [done|done|]. by intros c' [= <-]. }
  destruct (cut_equals ws) as [[n dir]|]; [|by apply throughout_ret; [|apply H]].
  apply throughout_bind, quiet_absDir; [done|]. intros d w1 F1 P1 _. destruct d as [d|e]; [|by apply throughout_ret; [|apply H]].
  destruct (put_workspace n d c) as [c'|e] eqn:Ep; [|by apply throughout_ret; [|apply H]].
  apply IH; [done|by eapply put_workspace_ints|]. intros r w2 F2 P2 Hr. apply H; [congruence|done|done].
Qed.

Lemma quiet_asked_workspaces lines c Q w :
  P w -> ints_ok c -> after_quiet w ints_kept Q -> throughout P (asked_workspaces lines c) Q w.
Proof.
  revert c w. induction lines as [|l lines IH]; intros c w Hp Hi H; cbn [asked_workspaces].
  { apply throughout_ret; [done|]. apply H; [done|done|]. by intros c' [= <-]. }
  destruct (String.eqb _ _). { apply throughout_ret; [done|]. apply H; [done|done|]. by intros c' [= <-]. }
  destruct (cut_equals _) as [[n dir]|]; [|by apply IH].
  apply throughout_bind, quiet_absDir; [done|]. intros d w1 F1 P1 _.
  assert (H1 : after_quiet w1 ints_kept Q) by (intros r w2 F2 P2 Hr; apply H; [congruence|done|done]).
  destruct d as [d|e]; [|by apply IH]. destruct (put_workspace _ d c) as [c'|e] eqn:Ep; [|by apply throughout_ret; [|apply H]].
  apply IH; [done|by eapply put_workspace_ints|done].
Qed.

Lemma quiet_StartInit url bot name Q w :
  P w -> after_quiet w (fun _ => True) Q -> throughout P (StartInit url bot name) Q w.
Proof.
  intros Hp H. unfold StartInit. apply throughout_bind, quiet_consult; [done|]. intros res w1 F1 P1 _.
  apply throughout_ret; [done|]. by apply H.
Qed.

Lemma quiet_WaitInit fuel url code token expires done_ Q w :
  P w -> after_quiet w (fun _ => True) Q -> throughout P (WaitInit fuel url code token expires done_) Q w.
Proof.
  revert w. induction fuel as [|fuel IH]; intros w Hp H; cbn [WaitInit]; [apply throughout_ret; [done|]; by apply H|].
  assert (Hret : forall x w', hw_files w' = hw_files w -> P w' -> throughout P (Ret x) Q w')
    by (intros x w' F' P'; apply throughout_ret; [done|]; by apply H).
  apply throughout_bind, quiet_consult; [done|]. intros a w1 F1 P1 _. destruct (poll_answer a) as [r|]; [by apply Hret|].
  apply throughout_bind, quiet_consult; [done|]. intros t w2 F2 P2 _. destruct (_ <? _); [apply Hret; [congruence|done]|].
  apply throughout_bind, quiet_consult; [done|]. intros s w3 F3 P3 _. apply throughout_bind. unfold choose.
  assert (forall w', hw_files w' = hw_files w3 -> P w' ->
    forall ended : bool, throughout P (if ended then Ret (Some (Err (ErrOther "context deadline exceeded")))
                                       else WaitInit fuel url code token expires done_) Q w') as Hgo.
  { intros w' F' P' []; [apply Hret; [congruence|done]|]. apply IH; [done|].
    intros x w4 F4 P4 _. apply H; [congruence|done|done]. }
  apply throughout_live; [done|]. intros ended w4. cbv zeta. destruct (_ !! _) as [[e w5]|] eqn:Hready; [|done]. intros [= <- <-].
  apply list_elem_of_lookup_2, list_elem_of_omap in Hready as (c & Hc & Hcw).
  assert (w5 = w3) as ->.
  { assert (forall due b, at_time due b w3 = Some (e, w5) -> w5 = w3) as Hat.
    { intros due b. unfold at_time. destruct (_ <=? _); [by intros [= _ <-]|done]. }
    apply elem_of_cons in Hc as [->|Hc]; [destruct done_ as [d|]; [by eapply Hat|discriminate Hcw]|].
    apply list_elem_of_singleton in Hc as ->. by eapply Hat. }
  assert (P (htick w3)) as P4 by by apply (HP w3). split; [done|]. by apply Hgo.
Qed.
End Quiet.

(** *** Saving *)

Lemma save_throughout c w :
  throughout (old_or_new ConfigPath (hw_files w !! ConfigPath) (Config_json c)) (SaveConfig c)
    (flushed ConfigPath (Config_json c) w) w.
Proof. by apply flush_file_throughout. Qed.

(** C23. The configuration on disk is the one that was saved, at every moment:
    when a command dies after any number of steps of [SaveConfig], the next one
    loads the configuration from before or the new one, and once [SaveConfig] has
    reported success it loads the new one, every field of it. *)
Theorem config_round_trip c w :
  text_ok c -> ints_ok c ->
  (forall n, loads (cut n (SaveConfig c) w) = loads w \/ loads (cut n (SaveConfig c) w) = Some c)
  /\ (forall w', Resume.run (SaveConfig c) w = Some (Ok tt, w') -> loads w' = Some c).
Proof.
  intros Ht Hi. pose proof (save_throughout c w) as H. split.
  - intros n. destruct (throughout_cut _ _ _ _ n H) as [Ho|Hn].
    + left. unfold loads. by rewrite Ho.
    + right. by apply loads_saved.
  - intros w' Hr. destruct (throughout_run _ _ _ _ _ _ H Hr) as [_ Hf]. apply loads_saved; auto.
Qed.

(** The file is as it was, or a well-formed configuration that was saved. *)
Definition config_kept (old : option FileBody) (w : HWorld) : Prop :=
  hw_files w !! ConfigPath = old
  \/ exists c, ints_ok c /\ well_formed c /\ hw_files w !! ConfigPath = Some (Doc (Config_json c)).

Lemma kept_files old w w' : hw_files w' = hw_files w -> config_kept old w -> config_kept old w'.
Proof. unfold config_kept. by intros ->. Qed.

Lemma kept_save old c w (Q : res unit -> HWorld -> Prop) :
  config_kept old w -> ints_ok c -> well_formed c -> (forall r w', config_kept old w' -> Q r w') ->
  throughout (config_kept old) (SaveConfig c) Q w.
Proof.
  intros Hk Hi Hwf HQ.
  eapply throughout_mono; [| |apply (save_throughout c w)].
  - intros w' [Ho|Hn]; [|right; by exists c]. destruct Hk as [Hk|(c0 & ? & ? & Hc0)]; [left; by rewrite Ho|right; exists c0; by rewrite Ho].
  - intros r w' [Ho|Hn] _; apply HQ; [|right; by exists c].
    destruct Hk as [Hk|(c0 & ? & ? & Hc0)]; [left; by rewrite Ho|right; exists c0; by rewrite Ho].
Qed.

Section Kept.
Context (old : option FileBody).
Notation kept := (config_kept old).
Notation cmd := (fun m w => throughout kept m (fun _ w' => kept w') w).

Lemma kept_stops {X} (x : X) w : kept w -> cmd (Ret x) w.
Proof. intros H. by apply throughout_ret. Qed.

Lemma workspace_add_kept name dir w : kept w -> cmd (workspace_add name dir) w.
Proof.
  intros Hk. unfold workspace_add. apply throughout_bind, (quiet_LoadConfig _ (kept_files old)); [done|]. intros c w1 F1 K1 Hc.
  destruct c as [c|e]; [|by apply kept_stops]. destruct (Hc c eq_refl) as (_ & _ & Hi).
  apply throughout_bind, (quiet_absDir _ (kept_files old)); [done|]. intros d w2 F2 K2 _. destruct d as [d|e]; [|by apply kept_stops].
  destruct (put_workspace name d c) as [c'|e] eqn:Ep; [|by apply kept_stops].
  apply throughout_bind, (quiet_Validate _ (kept_files old)); [done|]. intros v w3 F3 K3 Hv. destruct v as [[]|e]; [|by apply kept_stops].
  apply kept_save; [done|by eapply put_workspace_ints|by apply Hv|done].
Qed.

Lemma workspace_rm_kept name w : kept w -> cmd (workspace_rm name) w.
Proof.
  intros Hk. unfold workspace_rm. apply throughout_bind, (quiet_LoadConfig _ (kept_files old)); [done|]. intros c w1 F1 K1 Hc.
  destruct c as [c|e]; [|by apply kept_stops]. destruct (Hc c eq_refl) as (_ & Hwf & Hi).
  destruct (_ !! name) as [d|]; [|by apply kept_stops].
  apply kept_save; [done|done| |done]. destruct Hwf as (? & ? & ? & ? & Hws & ? & ? & ?).
  unfold well_formed. cbn. repeat (split; [done|]). split; [|done].
  destruct (fcWorkspaces c) as [m|]; [|apply map_Forall_empty]. cbn in *. by apply map_Forall_delete.
Qed.

Lemma choose_agent_ints f available lines c : ints_ok c -> ints_ok (choose_agent f available lines c).1.
Proof. intros H. unfold choose_agent. by repeat case_match. Qed.

Lemma finish_init_kept f lines c w : ints_ok c -> kept w -> cmd (finish_init f lines c) w.
Proof.
  intros Hi Hk. unfold finish_init, detectAgents.
  apply throughout_bind, throughout_bind, (quiet_consult _ (kept_files old)); [done|]. intros claude w1 F1 K1 _.
  apply throughout_bind, (quiet_consult _ (kept_files old)); [done|]. intros codex w2 F2 K2 _. apply throughout_ret; [done|].
  pose proof (choose_agent_ints f (match claude with None => ["claude"] | Some _ => [] end
    ++ match codex with None => ["codex"] | Some _ => [] end) lines c Hi) as Hi'.
  destruct (choose_agent _ _ lines c) as [c1 lines1]. cbn in Hi'.
  apply throughout_bind. assert (Hdw : forall Q, after_quiet kept w2 (fun _ => True) Q ->
    throughout kept (if String.eqb (ifDefaultWorkspace f) "" then Ret (Ok (fcDefaultWorkspace c1)) else Abs (ifDefaultWorkspace f)) Q w2).
  { intros Q HQ. destruct (String.eqb _ _); [by apply throughout_ret; [|apply HQ]|by apply (quiet_Abs _ (kept_files old))]. }
  apply Hdw. intros dw w3 F3 K3 _. destruct dw as [dw|e]; [|by apply kept_stops].
  apply throughout_bind, (quiet_flag_workspaces _ (kept_files old)); [done|done|]. intros c2 w4 F4 K4 Hc2.
  destruct c2 as [c2|e]; [|by apply kept_stops]. specialize (Hc2 _ eq_refl).
  apply throughout_bind. assert (Hask : forall Q, after_quiet kept w4 ints_kept Q ->
    throughout kept (if ifYes f then Ret (Ok c2) else asked_workspaces lines1 c2) Q w4).
  { intros Q HQ. destruct (ifYes f); [apply throughout_ret; [done|]; apply HQ; [done|done|by intros c' [= <-]]|].
    by apply (quiet_asked_workspaces _ (kept_files old)). }
  apply Hask. intros c3 w5 F5 K5 Hc3. destruct c3 as [c3|e]; [|by apply kept_stops]. specialize (Hc3 _ eq_refl).
  apply throughout_bind, (quiet_Validate _ (kept_files old)); [done|]. intros v w6 F6 K6 Hv. destruct v as [[]|e]; [|by apply kept_stops].
  apply throughout_bind, kept_save; [done|done|by apply Hv|]. intros r w7 K7. by apply kept_stops.
Qed.

(** What [ApplyInit] and [Pair] write: the configuration they found, or the
    default one where there is none or it cannot be read, with the pairing put
    in. *)
Definition found_config (c0 : FileConfig) : Prop :=
  c0 = DefaultConfig \/ exists body, old = Some body /\ c0 = (unmarshal_config body DefaultConfig).1.
Definition pairing_written (w : HWorld) : Prop :=
  exists c0 url id token owner name, found_config c0
    /\ hw_files w !! ConfigPath = Some (Doc (Config_json (paired url id token owner name c0))).
Definition kept_or_paired (w : HWorld) : Prop := kept w \/ pairing_written w.

Lemma found_config_ints c0 : found_config c0 -> ints_ok c0.
Proof. intros [->|(body & _ & ->)]; [apply default_ints|]. apply unmarshal_ints, default_ints. Qed.

Lemma kept_or_paired_files w w' : hw_files w' = hw_files w -> kept_or_paired w -> kept_or_paired w'.
Proof. intros F [H|(c0 & url & id & token & owner & name & Hc & H)]; [left; by eapply kept_files|right].
  exists c0, url, id, token, owner, name. by rewrite F.
Qed.

(** The common part of [ApplyInit] and [Pair]; [k] is what comes after. *)
Lemma save_pairing {X} url id token owner name (k : FileConfig -> res unit -> prog HWorld X) (Q : X -> HWorld -> Prop) w :
  hw_files w !! ConfigPath = old ->
  (forall c r w', kept_or_paired w' -> (r = Ok tt -> ints_ok c /\ exists c0, found_config c0 /\ c = paired url id token owner name c0
       /\ hw_files w' !! ConfigPath = Some (Doc (Config_json c))) -> throughout kept_or_paired (k c r) Q w') ->
  throughout kept_or_paired
    (c <- existing_config ;; let c := paired url id token owner name c in saved <- SaveConfig c ;; k c saved) Q w.
Proof.
  intros Hold Hk. assert (kept_or_paired w) as H0 by (left; by left).
  unfold existing_config. apply throughout_bind, throughout_bind, (quiet_ReadFile _ kept_or_paired_files); [done|].
  intros b w1 F1 K1 Hb. apply throughout_ret; [done|]. cbv zeta. set (c0 := match b with Ok (Some body) => _ | _ => _ end).
  assert (found_config c0) as Hc0.
  { unfold c0, found_config. destruct b as [[body|]|e]; [|by left..]. right. exists body.
    rewrite <- Hold. by rewrite <- (Hb _ eq_refl). }
  set (c := paired url id token owner name c0). assert (ints_ok c) as Hi by exact (found_config_ints _ Hc0).
  assert (forall w', hw_files w' !! ConfigPath = Some (Doc (Config_json c)) -> kept_or_paired w') as Hnew.
  { intros w' Hw'. right. by exists c0, url, id, token, owner, name. }
  assert (forall w', hw_files w' !! ConfigPath = hw_files w1 !! ConfigPath -> kept_or_paired w') as Hsame.
  { intros w' Hw'. left. left. by rewrite Hw', F1. }
  apply throughout_bind. eapply throughout_mono; [| |apply (save_throughout c w1)].
  - intros w' [Ho|Hn]; [by apply Hsame | by apply Hnew].
  - intros r w' Hw' [_ Hok]. apply Hk; [destruct Hw'; [by apply Hsame | by apply Hnew]|].
    intros Hr. split; [exact Hi|]. exists c0. split; [done|]. split; [done|]. by apply Hok.
Qed.

Lemma ApplyInit_kept url r name (Q : res FileConfig -> HWorld -> Prop) w :
  hw_files w !! ConfigPath = old ->
  (forall x w', kept_or_paired w' -> (forall c, x = Ok c -> ints_ok c /\ exists c0, found_config c0
       /\ c = paired (TrimRight url "/") (irHarnessID r) (irToken r) (irMMUserID r) name c0
       /\ hw_files w' !! ConfigPath = Some (Doc (Config_json c))) -> Q x w') ->
  throughout kept_or_paired (ApplyInit url r name) Q w.
Proof.
  intros Hold HQ. unfold ApplyInit.
  apply (save_pairing (TrimRight url "/") (irHarnessID r) (irToken r) (irMMUserID r) name
           (fun c saved => Ret (res_map (fun _ => c) saved))); [done|]. intros c x w' Hw' Hx. apply throughout_ret; [done|]. apply HQ; [done|].
  intros c' Hc'. destruct x as [[]|]; [|done]. injection Hc' as <-. by apply Hx.
Qed.

Lemma Pair_kept url code name w :
  hw_files w !! ConfigPath = old ->
  throughout kept_or_paired (Pair url code name) (fun _ w' => kept_or_paired w') w.
Proof.
  intros Hold. assert (kept_or_paired w) as H0 by (left; by left).
  unfold Pair. apply throughout_bind, (quiet_consult _ kept_or_paired_files); [done|]. intros host w1 F1 K1 _. cbv zeta.
  apply throughout_bind, (quiet_consult _ kept_or_paired_files); [done|]. intros res w2 F2 K2 _.
  destruct res as [a|e]; [|by apply throughout_ret]. destruct (negb _); [by apply throughout_ret|].
  destruct (body_as _ _ _ _) as [pr|e]; [|by apply throughout_ret].
  apply (save_pairing (TrimRight url "/") (prHarnessID pr) (prToken pr) (prMMUserID pr)
           (if String.eqb name "" then host else name) (fun c saved => Ret (res_map (fun _ => c) saved))); [congruence|].
  intros c x w' Hw' _. by apply throughout_ret.
Qed.
End Kept.

(** The configuration is saved twice by [mhb harness init]: unchecked with the
    pairing, and checked at the end. *)
Lemma harness_init_kept old fuel f lines w :
  hw_files w !! ConfigPath = old ->
  throughout (kept_or_paired old) (harness_init fuel f lines) (fun _ w' => kept_or_paired old w') w.
Proof.
  intros Hold. assert (kept_or_paired old w) as H0 by (left; by left).
  pose proof (kept_or_paired_files old) as HF.
  assert (Hret : forall {X} (x : X) w', kept_or_paired old w' ->
    throughout (kept_or_paired old) (Ret x) (fun _ w' => kept_or_paired old w') w') by (intros; by apply throughout_ret).
  unfold harness_init. destruct (init_broker f lines) as [broker lines1]. destruct (String.eqb broker ""); [by apply Hret|].
  apply throughout_bind, (quiet_consult _ HF); [done|]. intros host w1 F1 K1 _. cbv zeta.
  apply throughout_bind, (quiet_consult _ HF); [done|]. intros t w2 F2 K2 _.
  apply throughout_bind, (quiet_StartInit _ HF); [done|]. intros s w3 F3 K3 _. destruct s as [s|e]; [|by apply Hret].
  apply throughout_bind, (quiet_WaitInit _ HF); [done|]. intros r w4 F4 K4 _. destruct r as [[r|e]|]; [|by apply Hret..].
  apply throughout_bind, ApplyInit_kept; [congruence|]. intros x w5 K5 Hx. destruct x as [c|e]; [|by apply Hret].
  destruct (Hx c eq_refl) as (Hi & c0 & Hc0 & Hc & Hfile). apply throughout_bind.
  assert (forall w', config_kept (Some (Doc (Config_json c))) w' -> kept_or_paired old w') as Hout.
  { intros w' [H|H]; [right|left; by right]. rewrite Hc in H. by eexists _, _, _, _, _, _. }
  eapply throughout_mono; [exact Hout| |apply (finish_init_kept (Some (Doc (Config_json c))) f lines1 c w5 Hi)]; [|by left].
  intros done_ w6 _ K6. apply Hret. by apply Hout.
Qed.

Lemma run_config_well_formed dw agent w w' c :
  Resume.run (run_config dw agent) w = Some (Ok c, w') -> well_formed c.
Proof.
  assert (HT : forall w0 w1 : HWorld, hw_files w1 = hw_files w0 -> True -> True) by done.
  assert (H : throughout (fun _ => True) (run_config dw agent) (fun r _ => forall c, r = Ok c -> well_formed c) w).
  { unfold run_config. apply throughout_bind, (quiet_LoadConfig _ HT); [done|]. intros r w1 _ _ _.
    destruct r as [c1|e]; [|by apply throughout_ret]. apply throughout_bind.
    assert (Hdw : forall Q, after_quiet (fun _ => True) w1 (fun _ => True) Q ->
      throughout (fun _ => True) (if String.eqb dw "" then Ret (Ok (fcDefaultWorkspace c1)) else Abs dw) Q w1).
    { intros Q HQ. destruct (String.eqb _ _); [by apply throughout_ret; [|apply HQ]|by apply (quiet_Abs _ HT)]. }
    apply Hdw. intros d w2 _ _ _. destruct d as [d|e]; [|by apply throughout_ret].
    apply throughout_bind, (quiet_Validate _ HT); [done|]. intros v w3 _ _ Hv. apply throughout_ret; [done|].
    intros c' Hc'. destruct v as [[]|]; [|done]. injection Hc' as <-. by apply Hv. }
  intros Hr. by apply (throughout_run _ _ _ _ _ _ H Hr).
Qed.

(** C22. The daemon only runs with a well-formed configuration: the broker, the
    identity and the token are there, every directory is absolute, at least one
    job may run, and the agent is one of the two.  Whenever a command that edits
    the workspaces stops, be it after any number of its steps, the file is
    untouched or loads as such a configuration.  Pairing a machine also saves the
    configuration it found, or the default one, with nothing but the pairing
    changed, and does not check it: whenever [mhb harness init] or [Pair] stops,
    the file is untouched, or holds that, which is well formed only if it was but
    for the pairing and the broker's answer was complete, or it loads as a
    well-formed configuration. *)
Theorem config_stays_valid w n :
  let kept w' := hw_files w' !! ConfigPath = hw_files w !! ConfigPath \/ (exists c, loads w' = Some c /\ well_formed c) in
  let unchecked w' := exists c0 url id token owner name,
    (c0 = DefaultConfig \/ exists body, hw_files w !! ConfigPath = Some body /\ c0 = (unmarshal_config body DefaultConfig).1)
    /\ let c := set_fcName name (set_fcOwnerMMUserID owner (set_fcToken token (set_fcHarnessID id (set_fcBrokerURL url c0)))) in
       hw_files w' !! ConfigPath = Some (Doc (Config_json c))
       /\ (text_ok c -> loads w' = Some c) /\ (well_formed c -> exists c', loads w' = Some c' /\ well_formed c') in
  (forall name dir, kept (cut n (workspace_add name dir) w))
  /\ (forall name, kept (cut n (workspace_rm name) w))
  /\ (forall fuel f lines, let w' := cut n (harness_init fuel f lines) w in kept w' \/ unchecked w')
  /\ (forall url code name, let w' := cut n (Pair url code name) w in kept w' \/ unchecked w')
  /\ (forall dw agent c w', Resume.run (run_config dw agent) w = Some (Ok c, w') -> well_formed c).
Proof.
  intros kept unchecked. set (old := hw_files w !! ConfigPath).
  assert (Hk : forall w', config_kept old w' -> kept w').
  { intros w' [H|(c & Hi & Hwf & H)]; [by left|]. right. by apply (loads_saved c w'). }
  assert (Hp : forall w', kept_or_paired old w' -> kept w' \/ unchecked w').
  { intros w' [H|(c0 & url & id & token & owner & name & Hc0 & H)]; [left; by apply Hk|right].
    exists c0, url, id, token, owner, name. split; [exact Hc0|]. cbv zeta. split; [exact H|].
    destruct (loads_saved (paired url id token owner name c0) w' (found_config_ints _ _ Hc0) H) as [Hwf Ht]. by split. }
  assert (H0 : config_kept old w) by by left. split_and!.
  - intros name dir. by eapply Hk, throughout_cut, workspace_add_kept.
  - intros name. by eapply Hk, throughout_cut, workspace_rm_kept.
  - intros fuel f lines. cbv zeta. by eapply Hp, throughout_cut, harness_init_kept.
  - intros url code name. cbv zeta. by eapply Hp, throughout_cut, Pair_kept.
  - intros dw agent c w'. apply run_config_well_formed.
Qed.
End Files.
