(* ===== verification/EndToEnd.v ===== *)
(** * The broker and a daemon together

    The two programs run on different machines.  What connects them is the
    network: a frame the daemon receives is one the broker sent to it.  With
    that, what the daemon knows of the broker's messages ([DaemonSystem]) and
    what the broker's messages stand for ([Provenance]) compose: a tool runs
    only after a click of the job's owner, an agent only for a job of the
    broker's database. *)

From S2P Require Import Prelude Resume GoText Codec Json Protocol Store Tables World Sqlite Integrity StoreFacts CoreText Sender Hub HubFacts Posts Core CoreGuards Onboarding OnboardingFacts System Rely Provenance HarnessText HarnessWorld StateFiles HarnessClient Daemon DaemonSafety DaemonSystem.

Open Scope Z_scope.

(** The connection is the broker's: TLS and the bearer token see to it that
    every frame the daemon reads was written by the broker. *)
Definition delivered (broker : World) (daemon : HWorld) : Prop :=
  forall c env, HvRecv c env ∈ hw_trace daemon -> exists c' ok, EvSend c' env ok ∈ w_trace broker.

(** The wire only repairs text that is not UTF-8. *)
Lemma decode_response env r r0 :
  en_Payload env = Some (wire_enc r0) -> Decode env = (r, true) ->
  ap_ApprovalID r = to_valid (ap_ApprovalID r0) /\ ap_Decision r = to_valid (ap_Decision r0).
Proof.
  intros Hp Hd. unfold Decode in Hd. rewrite Hp in Hd. cbn in Hd. unfold field, dec_int in Hd.
  cbn in Hd. repeat case_match; by simplify_eq.
Qed.

Lemma decode_dispatch env d x :
  en_Payload env = Some (wire_enc x) -> Decode env = (d, true) ->
  jd_Prompt d = to_valid (jd_Prompt x) /\ jd_Workspace d = to_valid (jd_Workspace x)
  /\ jd_BotUserID d = to_valid (jd_BotUserID x) /\ th_RootPostID (jd_Thread d) = to_valid (th_RootPostID (jd_Thread x)).
Proof.
  intros Hp Hd. unfold Decode in Hd. rewrite Hp in Hd. destruct x as [b w a p [t1 t2 t3] r files h l].
  cbn [wire_enc wire_dec wire_JobDispatch] in Hd. unfold JobDispatch_json, enc_struct, member, omitempty in Hd.
  cbn [jd_BotUserID jd_Workspace jd_Agent jd_Prompt jd_Thread jd_Requester jd_Attachments jd_History jd_Limits] in *.
  destruct (is_empty_string a), (is_empty_list files), (is_empty_list h);
    (cbn in Hd; unfold field in Hd; cbn in Hd; repeat case_match; by simplify_eq).
Qed.

Section Together.
Context {E : Env} {C : Config} {HE : HEnv} (hub : HubConfig) (cfg : HarnessConfig) (registry : list string).
Context (w0 : World) (ps : list (prog World unit)) (broker : World) (daemon : HWorld).
Hypothesis start_ok : authentic w0.
Hypothesis broker_reached : reach (broker_entry hub) ([], w0) (ps, broker).
Hypothesis daemon_reached : daemon_reaches cfg registry daemon.
Hypothesis network : delivered broker daemon.

Lemma allowed_by_owner req dec :
  HvAnswer req dec ∈ hw_trace daemon -> cdBehavior dec = "allow" ->
  exists ch id a j,
    HvAsked ch (to_valid id) req ∈ hw_trace daemon
    /\ t_approvals (w_db broker) !! id = Some a /\ aJobID (ar_approval a) = rqJobID req
    /\ t_jobs (w_db broker) !! rqJobID req = Some j
    /\ ar_decision a = Some DecisionAllow /\ ar_decided_by a = Some (jMMUserID j)
    /\ cdUpdatedInput dec = rqInput req.
Proof.
  intros Hin Hb.
  destruct (allowed_call_source cfg registry daemon req dec daemon_reached Hin Hb)
    as (ch & r & conn & env & Hasked & _ & Hrecv & Hty & Hjob & Hdec & Hal & Hinput).
  destruct (network conn env Hrecv) as (c' & ok & Hsent).
  destruct (reachable_authentic hub w0 ps broker start_ok broker_reached) as [_ _ Hauth].
  destruct (proj1 (Hauth c' env ok Hsent) Hty) as (r0 & Hp & Hv & Hr0).
  destruct (decode_response env r r0 Hp Hdec) as [Hid Hd].
  destruct Hv as [Ea|Ed]; [|rewrite Ed, Hal in Hd; vm_compute in Hd; discriminate Hd].
  destruct (Hr0 Ea) as (a & j & Ha & Haj & Had & Hj & Hby). rewrite Hjob in Haj, Hj.
  exists ch, (ap_ApprovalID r0), a, j. by rewrite <- Hid.
Qed.

(** C2. A tool runs only if the owner said so, from the click to the CLI.  When
    the daemon tells the CLI to allow a request, it had asked under an approval
    id (the broker knows it up to bytes that are not UTF-8), and the broker's
    database, at any later point too, holds that approval, of the request's
    job, decided "allow" by the user the job belongs to.  The tool runs on the
    input that was asked about. *)
Theorem tools_run_only_if_owner_allowed req dec :
  HvAnswer req dec ∈ hw_trace daemon -> cdBehavior dec = "allow" ->
  exists ch id a j,
    HvAsked ch (to_valid id) req ∈ hw_trace daemon
    /\ t_approvals (w_db broker) !! id = Some a /\ aJobID (ar_approval a) = rqJobID req
    /\ t_jobs (w_db broker) !! rqJobID req = Some j
    /\ ar_decision a = Some DecisionAllow /\ ar_decided_by a = Some (jMMUserID j)
    /\ cdUpdatedInput dec = rqInput req.
Proof. apply allowed_by_owner. Qed.

(** C13. An agent runs only what the broker has a job for.  When the daemon has
    started an agent for a job, the broker's database, at any later point too,
    has that job, and its dispatch reached the daemon with this machine's owner
    as its requester.  The agent was given the prompt of the job's row: before
    it comes nothing, or the thread's history as the dispatch has it when no
    session is continued; after it nothing, or the names of the dispatch's
    attachments.  It runs in the workspace the row names, if it names one and
    else in a configured one, and it is the agent the dispatch names, if it
    names one.  (The texts of the row are what JSON makes of them, up to bytes
    that are not UTF-8.) *)
Theorem agents_run_only_broker_jobs jobID agent opt :
  HvAgent jobID agent opt ∈ hw_trace daemon ->
  exists conn env d j before after,
    (HvRecv conn env ∈ hw_trace daemon /\ en_JobID env = jobID
     /\ Decode env = (d, true) /\ rq_MMUserID (jd_Requester d) = cfOwnerMMUserID cfg)
    /\ (t_jobs (w_db broker) !! jobID = Some j
        /\ jd_BotUserID d = to_valid (jBotUserID j) /\ th_RootPostID (jd_Thread d) = to_valid (jRootPostID j))
    /\ opPrompt opt = before +:+ to_valid (jPrompt j) +:+ after
    /\ (before = "" \/ (jd_History d <> [] /\ opResumeID opt = ""
          /\ before = renderHistory (jd_History d) MaxHistoryChars +:+ nl +:+ nl))
    /\ (after = "" \/ (jd_Attachments d <> [] /\ after = nl +:+ nl +:+ "Attached files from the chat message: "
          +:+ Join (map (fun f => state_dir +:+ "/jobs/" +:+ jobID +:+ ".attachments/" +:+ attachment_name f) (jd_Attachments d)) ", "))
    /\ (to_valid (jWorkspace j) <> "" -> cfWorkspaces cfg !! to_valid (jWorkspace j) = Some (opDir opt))
    /\ (opDir opt = cfDefaultWorkspace cfg \/ exists name, cfWorkspaces cfg !! name = Some (opDir opt))
    /\ agent ∈ registry /\ (jd_Agent d <> "" -> agent = jd_Agent d).
Proof.
  intros Hin.
  destruct (agent_run_source cfg registry daemon jobID agent opt daemon_reached Hin)
    as (conn & env & d & Hrecv & Hty & Hjob & Hdec & Hown & Hdir & Hag & Hws & Hnm & after & Haf & Hpr).
  destruct (network conn env Hrecv) as (c' & ok & Hsent).
  destruct (reachable_authentic hub w0 ps broker start_ok broker_reached) as [_ _ Hauth].
  destruct (proj2 (Hauth c' env ok Hsent) Hty) as (x & Hp & j & Hj & Hb & Hw & Hpj & Hroot). rewrite Hjob in Hj.
  destruct (decode_dispatch env d x Hp Hdec) as (E1 & E2 & E3 & E4).
  exists conn, env, d, j, (thread_before d (opResumeID opt)), after.
  rewrite Hb, Hw, Hpj, Hroot, <- E1, <- E2, <- E3, <- E4. do 3 (split; [done|]). split; [|split; [|done]].
  - unfold thread_before. destruct (jd_History d) as [|h hs]; [by left|]. case_bool_decide; [by right|by left].
  - destruct Haf as [->|[Hne ->]]; [by left|right]. split; [done|]. unfold attachments_dir, jobs_dir.
    do 4 f_equal. apply map_ext. intros f. by rewrite <- !string_app_assoc.
Qed.
End Together.
