(* ===== verification/Bridge.v ===== *)
(** * From the click to the CLI

    The MCP server beside the CLI joined to the broker and the daemon: what the
    CLI reads on the standard output of [mhb harness mcp-permissions] stands for
    a decision in the broker's database. *)

From S2P Require Import Prelude Resume GoText Codec Json Protocol Store Tables World Sqlite Integrity StoreFacts CoreText Sender Hub HubFacts Posts Core CoreGuards Onboarding OnboardingFacts System Rely Provenance HarnessText HarnessWorld StateFiles HarnessClient Daemon DaemonSafety DaemonSystem EndToEnd Mcp McpFacts.

Open Scope Z_scope.

(** The daemon is at the other end of the socket: what an exchange brings back
    is what it wrote in answer to what it read. *)
Definition socketed {B : BridgeEnv} (daemon : HWorld) : Prop :=
  forall t req doc, socket_call t (Request_json req) = Ok doc ->
    exists dec, HvAnswer (sent_request req) dec ∈ hw_trace daemon /\ doc = Decision_json dec.

Section Chain.
Context {E : Env} {C : Config} {HE : HEnv} {B : BridgeEnv} (hub : HubConfig) (cfg : HarnessConfig) (registry : list string).
Context (w0 : World) (ps : list (prog World unit)) (broker : World) (daemon : HWorld) (jobID : string).
Hypothesis start_ok : authentic w0.
Hypothesis broker_reached : reach (broker_entry hub) ([], w0) (ps, broker).
Hypothesis daemon_reached : daemon_reaches cfg registry daemon.
Hypothesis network : delivered broker daemon.
Hypothesis socket : socketed daemon.

(** The owner of the server's job allowed a call with this input. *)
Definition owner_allowed (input : option json) : Prop :=
  exists id a j, t_approvals (w_db broker) !! id = Some a /\ aJobID (ar_approval a) = to_valid jobID
    /\ t_jobs (w_db broker) !! to_valid jobID = Some j
    /\ ar_decision a = Some DecisionAllow /\ ar_decided_by a = Some (jMMUserID j)
    /\ exists ch req, HvAsked ch (to_valid id) req ∈ hw_trace daemon /\ rwDoc (rqInput req) = input.

Lemma exchange_allowed t req :
  let dec := told_cli (read_decision (socket_call t (Request_json (for_job jobID req)))) in
  cdBehavior dec = "allow" ->
  owner_allowed (rwDoc (cdUpdatedInput dec)) /\ rwDoc (cdUpdatedInput dec) = Some (default JNull (rwDoc (rqInput req))).
Proof.
  intros dec Ha. pose proof (told_allow _ Ha) as Hr. fold dec in Hr. unfold read_decision in Hr.
  destruct (socket_call t _) as [doc|e] eqn:Es; [|done].
  destruct (socket t (for_job jobID req) doc Es) as (d & Hans & ->). rewrite decision_sent in Hr. injection Hr as Hd.
  rewrite <- Hd in *. cbn in Ha |- *.
  assert (Hb : cdBehavior d = "allow") by (apply to_valid_ascii; [done|by repeat constructor]).
  destruct (allowed_by_owner hub cfg registry w0 ps broker daemon start_ok broker_reached daemon_reached network _ d Hans Hb)
    as (ch & id & a & j & Hask & Hap & Haj & Hj & Hda & Hby & Hin).
  rewrite Hin. cbn. split; [|done]. exists id, a, j. repeat (split; [done|]). by eexists _, _.
Qed.

(** C3. The CLI runs a tool only if the owner said so, from the click to the
    bytes the CLI reads.  Whatever lines the CLI writes and in whatever order
    they are answered, a response to a call of a tool is an error, a denial, or
    an allowance; and when it allows, the broker's database holds an approval
    of the job the server was started for (not of one the CLI may name),
    decided "allow" by the user the job belongs to, about the input which the
    response hands back and which is the one of the call. *)
Theorem cli_allowed_only_by_owner lines st resp :
  rtc (serve_step (ServeStdio jobID)) (serving lines) st -> resp ∈ sgOutput st ->
  exists r, r ∈ omap answerable (map inDoc lines) /\ rsID resp = default JNull (rpID r)
    /\ (rpMethod r = "tools/call" ->
        (exists e, rsReply resp = RpcFailed e)
        \/ exists req dec, asks r req /\ rsReply resp = RpcResult (text_result (json_text (Decision_json dec)) false)
           /\ (cdBehavior dec = "deny"
               \/ cdBehavior dec = "allow" /\ owner_allowed (rwDoc (cdUpdatedInput dec))
                  /\ rwDoc (cdUpdatedInput dec) = Some (default JNull (rwDoc (rqInput req))))).
Proof.
  intros Hr Hin. destruct (output_source _ _ _ _ Hr Hin) as (r & t & Hrl & ->). exists r. split; [done|]. split; [done|].
  intros Hm. unfold respond, dispatch. rewrite Hm. cbn.
  destruct (call_tool_spec jobID t (rpParams r)) as [[e ->]|(p & req & Hp & Hn & Hreq & ->)]; [left; by eexists|].
  right. exists req. eexists. split; [split; [done|by exists p]|]. split; [done|].
  destruct (told_behavior (read_decision (socket_call t (Request_json (for_job jobID req))))) as [Ha|Ha]; [|by left].
  right. split; [done|]. by apply exchange_allowed.
Qed.
End Chain.
