(* ===== verification/DaemonFacts.v ===== *)
(** * What the daemon's operations do

    Dispatch, sending through the outbox, acknowledgements, resending, the end
    of a job and the answers to tool calls, branch by branch, for a process
    that runs and whose files' mutexes are free. *)

From S2P Require Import Prelude Resume GoText Codec Json Protocol Rely HarnessText HarnessWorld StateFiles HarnessClient Daemon DaemonSafety DaemonSystem.

Open Scope Z_scope.
Open Scope prog_scope.

(** The process runs, and nobody is writing a state file. *)
Definition idle (w : HWorld) : Prop := hw_dead w = false /\ hw_locks w = [].

Section Facts.
Context {E : HEnv}.

Lemma idle_free w m : idle w -> held m w = false.
Proof. intros [_ H]. unfold held. by rewrite H. Qed.

(** ** The outbox *)

Lemma wp_flush_file path (doc : HWorld -> res json) j w :
  (forall t files w', doc (set_files files (set_htick t w')) = doc w') -> doc w = Ok j ->
  hw_dead w = false -> wp (flush_file path doc) (flushed path j w) w.
Proof.
  intros Hdoc Hj Hd. eapply wp_mono; [|eapply throughout_wp; [by apply flush_file_throughout|]].
  - intros r w' [_ H]. exact H.
  - instantiate (1 := fun _ _ => True). apply wp_bind, wp_consult; [done|].
    destruct (match mkdir_fault _ with Some _ => _ | None => _ end) as [[]|e]; [|done].
    apply wp_bind, wp_look; [done|]. destruct (doc (htick w)) as [j1|e]; [|done].
    apply wp_bind, wp_act; [done|]. destruct (write_fault _) as [[msg []]|]; [done..|].
    cbn [fst snd]. by apply wp_act.
Qed.

Lemma wp_Outbox_Add env w :
  idle w ->
  wp (Outbox_Add env) (fun r w' =>
    outbox_now (<[en_ID env := env]> (hw_outbox w)) r w'
    /\ apart_from_files w' = apart_from_files (set_houtbox (<[en_ID env := env]> (hw_outbox w)) w)) w.
Proof.
  intros Hi. destruct Hi as [Hd Hl]. apply wp_locking; [done|by apply idle_free|].
  set (w1 := set_houtbox _ (lock outboxMu w)). change (wp outbox_flush ?Q _) with (wp outbox_flush Q w1).
  eapply wp_mono; [|apply (wp_flush_file outbox_path _ (outbox_json (hw_outbox w1)) w1); [done..|exact Hd]].
  intros r w' [Ha Hf]. assert (hw_dead w' = false) as Hd' by (apply (f_equal hw_dead) in Ha; cbn in Ha; by rewrite Ha).
  split; [done|]. split.
  - split; [by apply (f_equal hw_outbox) in Ha | done].
  - assert (hw_locks w' = [outboxMu]) as Hlk by (apply (f_equal hw_locks) in Ha; cbn in Ha; by rewrite Ha, Hl).
    unfold unlock. rewrite Hlk. cbn. destruct w', w; unfold apart_from_files in *; cbn in *. by simplify_eq.
Qed.

(** The frames on the trace. *)
Definition frames (tr : list HEvent) : list (nat * Envelope * bool) :=
  omap (fun ev => match ev with HvSend c env ok => Some (c, env, ok) | _ => None end) tr.

(** A reliable message survives: [SendReliable] refuses a type that is
    not acknowledged; otherwise the message is in the outbox, and the call
    fails or the file on disk holds the outbox with it before any frame goes
    out.  Being disconnected is no failure, and then nothing is sent. *)
Theorem harness_SendReliable_durable env w :
  idle w ->
  wp (client_SendReliable env) (fun r w' =>
    if NeedsAck (en_Type env) then
      hw_outbox w' = <[en_ID env := env]> (hw_outbox w)
      /\ hw_jobs w' = hw_jobs w /\ hw_objs w' = hw_objs w
      /\ ((exists e, r = Err e /\ hw_trace w' = hw_trace w)
          \/ (hw_files w' !! outbox_path = Some (Doc (outbox_json (hw_outbox w')))
              /\ match hw_conn w with
                 | None => r = Ok tt /\ hw_trace w' = hw_trace w
                 | Some c => hw_trace w' = hw_trace w ++ [HvSend c env (is_ok r)]
                 end))
    else r <> Ok tt /\ w' = w) w.
Proof.
  intros Hi. unfold client_SendReliable. destruct (NeedsAck (en_Type env)); [|done]. cbn [negb].
  apply wp_bind. eapply wp_mono; [|by apply wp_Outbox_Add]. intros r w1 [[Ho Hf] Ha].
  assert (hw_trace w1 = hw_trace w) as Ht by (by apply (f_equal hw_trace) in Ha).
  assert (hw_jobs w1 = hw_jobs w) as Hj by (by apply (f_equal hw_jobs) in Ha).
  assert (hw_objs w1 = hw_objs w) as Hob by (by apply (f_equal hw_objs) in Ha).
  assert (hw_conn w1 = hw_conn w) as Hc by (by apply (f_equal hw_conn) in Ha).
  assert (hw_dead w1 = false) as Hd by (apply (f_equal hw_dead) in Ha; cbn in Ha; rewrite Ha; apply Hi).
  destruct r as [[]|e]; [|apply wp_ret; eauto 10].
  specialize (Hf eq_refl). rewrite <- Ho in Hf.
  apply wp_bind, wp_look; [done|]. rewrite Hc. destruct (hw_conn w) as [c|].
  - apply wp_frame_send; [done|]. cbn. rewrite Ht. eauto 10.
  - apply wp_ret. eauto 10.
Qed.

(** ** Resending *)

Lemma pending_of_spec m :
  StronglySorted (text_le en_ID) (pending_of m) /\ forall env, env ∈ pending_of m <-> exists id, m !! id = Some env.
Proof.
  unfold pending_of, order_by_text. split.
  - apply (StronglySorted_merge_sort _).
  - intros env. rewrite merge_sort_Permutation, list_elem_of_fmap. split.
    + intros ([id e] & -> & Hin). exists id. by apply elem_of_map_to_list.
    + intros [id Hid]. exists (id, env). split; [done|]. by apply elem_of_map_to_list.
Qed.

(** After a reconnect everything the broker has not acknowledged is sent
    again: the messages of the outbox, each once, in the order of their ids,
    that is of their making; the first failed write ends it. *)
Theorem resend_in_order c w :
  idle w ->
  wp (pending <- Outbox_Pending ;; send_pending c pending) (fun r w' =>
    exists sent rest,
      sent ++ rest = pending_of (hw_outbox w)
      /\ StronglySorted (fun x y => String.le (en_ID x) (en_ID y)) (sent ++ rest)
      /\ (forall env, env ∈ sent ++ rest <-> exists id, hw_outbox w !! id = Some env)
      /\ hw_outbox w' = hw_outbox w
      /\ match r with
         | Ok _ => rest = [] /\ hw_trace w' = hw_trace w ++ map (fun env => HvSend c env true) sent
         | Err _ => exists ok bad, sent = ok ++ [bad]
             /\ hw_trace w' = hw_trace w ++ map (fun env => HvSend c env true) ok ++ [HvSend c bad false]
         end) w.
Proof.
  intros Hi. apply wp_bind, wp_under; [apply Hi|by apply idle_free|]. cbn [fst snd].
  destruct (pending_of_spec (hw_outbox w)) as [Hs Hin].
  assert (forall l w1, hw_dead w1 = false ->
    wp (send_pending c l) (fun r w' => exists sent rest, sent ++ rest = l /\ hw_outbox w' = hw_outbox w1
      /\ match r with
         | Ok _ => rest = [] /\ hw_trace w' = hw_trace w1 ++ map (fun env => HvSend c env true) sent
         | Err _ => exists ok bad, sent = ok ++ [bad]
             /\ hw_trace w' = hw_trace w1 ++ map (fun env => HvSend c env true) ok ++ [HvSend c bad false]
         end) w1) as Hl.
  { induction l as [|env l IH]; intros w1 Hd; simpl.
    { apply wp_ret. exists [], []. do 3 (split; [done|]). cbn. by rewrite app_nil_r. }
    apply wp_bind, wp_frame_send; [done|]. destruct (frame_write _ c env) as [[]|e].
    - eapply wp_mono; [|by apply IH]. intros r w2 (sent & rest & <- & Ho & Hr).
      exists (env :: sent), rest. split; [done|]. split; [done|]. destruct r as [u|e].
      + destruct Hr as [-> ->]. split; [done|]. cbn. by rewrite <- app_assoc.
      + destruct Hr as (ok & bad & -> & ->). exists (env :: ok), bad. split; [done|]. cbn. by rewrite <- app_assoc.
    - apply wp_ret. exists [env], l. split; [done|]. split; [done|]. exists [], env. done. }
  eapply wp_mono; [|by apply Hl, Hi]. intros r w' (sent & rest & E1 & Ho & Hr). exists sent, rest.
  split; [done|]. rewrite E1. done.
Qed.

(** ** Dispatch *)

Context (cfg : HarnessConfig) (registry : list string).

(** The directory and the agent of a job that is started. *)
Definition chosen_dir (d : JobDispatch) (session : option Entry) (o : HJob) : Prop :=
  if String.eqb (jd_Workspace d) "" then
    (forall e dir, session = Some e -> seWorkspace e <> DefaultWorkspaceName ->
       cfWorkspaces cfg !! seWorkspace e = Some dir -> hjDir o = dir /\ hjWorkspace o = seWorkspace e)
    /\ ((forall e, session = Some e -> seWorkspace e = DefaultWorkspaceName \/ cfWorkspaces cfg !! seWorkspace e = None) ->
        hjDir o = cfDefaultWorkspace cfg /\ hjWorkspace o = DefaultWorkspaceName)
  else cfWorkspaces cfg !! jd_Workspace d = Some (hjDir o) /\ hjWorkspace o = jd_Workspace d.

Definition chosen_agent (d : JobDispatch) (session : option Entry) : string :=
  if negb (String.eqb (jd_Agent d) "") then jd_Agent d
  else match session with
       | Some e => if String.eqb (seAgent e) "" then cfAgent cfg else seAgent e
       | None => cfAgent cfg
       end.

Lemma resolve_chosen d session has name dir o :
  resolveWorkspace cfg d session has = (name, dir, true) -> hjWorkspace o = name -> hjDir o = dir ->
  chosen_dir d (if has : bool then Some session else None) o.
Proof.
  unfold resolveWorkspace, chosen_dir. intros H Hn Hd. destruct (String.eqb _ ""); cbn [negb] in H.
  - destruct has; [|split; [done | injection H as ??; split; congruence]].
    destruct (String.eqb_spec (seWorkspace session) DefaultWorkspaceName) as [He|He].
    + injection H as ??. split; [intros e dir' [= <-]; done | intros _; split; congruence].
    + destruct (cfWorkspaces cfg !! seWorkspace session) as [dir'|] eqn:Hw; injection H as ??.
      * split; [intros e dir0 [= <-] _ Hw'; split; congruence|]. intros Hno. destruct (Hno session eq_refl); congruence.
      * split; [intros e dir0 [= <-] _ Hw'; congruence | intros _; split; congruence].
  - destruct (cfWorkspaces cfg !! jd_Workspace d); [|done]. injection H as ??. split; congruence.
Qed.

Lemma resolve_unknown d session has name dir :
  resolveWorkspace cfg d session has = (name, dir, false) <->
  jd_Workspace d <> "" /\ cfWorkspaces cfg !! jd_Workspace d = None /\ name = jd_Workspace d /\ dir = "".
Proof.
  unfold resolveWorkspace. destruct (String.eqb_spec (jd_Workspace d) ""); cbn [negb].
  - split; [|naive_solver]. intros H. repeat case_match; simplify_eq.
  - destruct (cfWorkspaces cfg !! jd_Workspace d); naive_solver.
Qed.

(** C24. OnDispatch, on every branch.  A dispatch is refused, and nothing
    changes, when the requester is not the owner, a bot or thread is missing,
    it names a workspace that is not configured, the agent is not on this
    machine, or [max_jobs] jobs run; a job already in the table is
    acknowledged again without being started twice.  Otherwise exactly one
    new job is made, entered and started, in the workspace the message names,
    else the thread's, else the default one, on the agent chosen likewise. *)
Theorem OnDispatch_spec jobID d w :
  idle w ->
  let session := hw_sessions w !! session_key (jd_BotUserID d) (th_RootPostID (jd_Thread d)) in
  let agent := chosen_agent d session in
  wp (harness_OnDispatch cfg registry jobID d) (fun ack w' =>
    let refused code := ak_OK ack = false /\ ak_Code ack = code /\ w' = w in
    if bool_decide (rq_MMUserID (jd_Requester d) <> cfOwnerMMUserID cfg) then refused NackForbidden
    else if bool_decide (jd_BotUserID d = "" \/ th_RootPostID (jd_Thread d) = "") then refused NackBadPayload
    else if bool_decide (is_Some (hw_jobs w !! jobID)) then ack = MkAck true "" "" /\ w' = w
    else if bool_decide (jd_Workspace d <> "" /\ cfWorkspaces cfg !! jd_Workspace d = None) then refused NackWorkspaceUnknown
    else if bool_decide (agent ∉ registry) then refused NackAgentUnknown
    else if bool_decide (cfMaxJobs cfg <= Z.of_nat (size (hw_jobs w))) then refused NackBusy
    else ack = MkAck true "" "" /\ exists o,
      hw_objs w' = hw_objs w ++ [o]
      /\ hw_jobs w' = <[jobID := length (hw_objs w)]> (hw_jobs w)
      /\ hw_go w' = hw_go w ++ [GoRun (length (hw_objs w)) d]
      /\ hw_trace w' = hw_trace w ++ [HvAccepted jobID d]
      /\ hw_outbox w' = hw_outbox w /\ hw_sessions w' = hw_sessions w /\ hw_files w' = hw_files w /\ hw_chans w' = hw_chans w
      /\ hjId o = jobID /\ hjBotUserID o = jd_BotUserID d /\ hjRootPostID o = th_RootPostID (jd_Thread d)
      /\ hjCancelled o = false /\ hjSeq o = 0 /\ hjPhase o = PhaseStarting /\ hjApprovals o = ∅
      /\ hjAgent o = agent /\ chosen_dir d session o) w.
Proof.
  intros Hi session agent. unfold harness_OnDispatch.
  destruct (String.eqb_spec (rq_MMUserID (jd_Requester d)) (cfOwnerMMUserID cfg)) as [Ho|Ho]; cbn [negb];
    [rewrite (bool_decide_false (_ <> _)) by naive_solver | by rewrite bool_decide_true by done].
  destruct (String.eqb (jd_BotUserID d) "" || String.eqb (th_RootPostID (jd_Thread d)) "") eqn:Hb.
  { boolprop. by rewrite bool_decide_true by done. }
  rewrite (bool_decide_false (_ \/ _)) by (boolprop; naive_solver).
  unfold find_job. destruct (hw_jobs w !! jobID) as [j|] eqn:Hj.
  { eapply wp_live; [apply Hi | by rewrite Hj | done]. }
  rewrite (bool_decide_false (is_Some None)) by by intros [].
  eapply (wp_live _ _ _ (accept_dispatch cfg registry jobID d w).1 (accept_dispatch cfg registry jobID d w).2);
    [apply Hi | rewrite Hj, idle_free by done; by destruct (accept_dispatch _ _ _ _ _) |].
  unfold accept_dispatch, session_of. fold session.
  set (e := match session with Some e => (e, true) | None => (zero_entry, false) end).
  assert ((if e.2 then Some e.1 else None) = session /\ resolveAgent cfg d e.1 e.2 = agent) as [Hes Hag].
  { unfold e, agent, resolveAgent, chosen_agent. destruct session as [s|]; cbn; [|split; [done|by repeat case_match]].
    split; [done|]. destruct (String.eqb (jd_Agent d) ""), (String.eqb (seAgent s) ""); done. }
  destruct e as [s has]. cbn [fst snd] in *.
  destruct (resolveWorkspace cfg d s has) as [[name dir] ok] eqn:Hr. destruct ok; cbn [negb].
  2: { apply resolve_unknown in Hr as (? & ? & _). by rewrite bool_decide_true by done. }
  rewrite (bool_decide_false (_ <> "" /\ _)).
  2: { intros [Hne Hno]. unfold resolveWorkspace in Hr. destruct (String.eqb_spec (jd_Workspace d) ""); [done|].
       cbn in Hr. by rewrite Hno in Hr. }
  rewrite Hag. unfold get_agent. destruct (decide (agent ∈ registry)) as [Hin|Hin].
  2: { rewrite (bool_decide_true (agent ∉ registry)), (bool_decide_false (agent ∈ registry)) by done. done. }
  rewrite (bool_decide_false (agent ∉ registry)), (bool_decide_true (agent ∈ registry)) by naive_solver.
  destruct (Z.leb_spec (cfMaxJobs cfg) (Z.of_nat (size (hw_jobs w)))).
  { by rewrite bool_decide_true by done. }
  rewrite bool_decide_false by lia. split; [done|]. eexists. do 16 (split; [done|]). 
  rewrite <- Hes. by eapply resolve_chosen.
Qed.

(** ** Acknowledgements *)

(** Steps that send nothing and leave the process alive. *)
Definition mute (w w' : HWorld) : Prop :=
  hw_dead w' = hw_dead w /\ exists evs, hw_trace w' = hw_trace w ++ evs /\ frames evs = [].

Lemma mute_refl w : mute w w.
Proof. split; [done|]. exists []. by rewrite app_nil_r. Qed.

Lemma mute_silent w w' : hw_dead w' = hw_dead w -> hw_trace w' = hw_trace w -> mute w w'.
Proof. intros Hd Ht. split; [done|]. exists []. by rewrite app_nil_r. Qed.

Lemma dispatch_mute jobID d w : mute w (accept_dispatch cfg registry jobID d w).2.
Proof.
  unfold accept_dispatch. destruct (session_of _ _ _). destruct (resolveWorkspace _ _ _ _) as [[name dir] []]; [|apply mute_refl].
  cbn [negb]. destruct (get_agent _ _); [|apply mute_refl]. destruct (_ <=? _); [apply mute_refl|].
  split; [done|]. by exists [HvAccepted jobID d].
Qed.

Lemma wp_OnDispatch_mute jobID d w : idle w -> wp (harness_OnDispatch cfg registry jobID d) (fun _ w' => mute w w') w.
Proof.
  intros Hi. unfold harness_OnDispatch. destruct (negb _); [apply mute_refl|]. destruct (_ || _); [apply mute_refl|].
  destruct (find_job jobID w) as [j|] eqn:Hj.
  - eapply wp_live; [apply Hi | by rewrite Hj | apply mute_refl].
  - eapply (wp_live _ _ _ (accept_dispatch cfg registry jobID d w).1 (accept_dispatch cfg registry jobID d w).2);
      [apply Hi | rewrite Hj, idle_free by done; by destruct (accept_dispatch _ _ _ _ _) | apply dispatch_mute].
Qed.

Lemma wp_OnCancel_mute jobID x w : hw_dead w = false -> wp (harness_OnCancel jobID x) (fun _ w' => mute w w') w.
Proof.
  intros Hd. apply wp_bind, wp_look; [done|]. destruct (find_job jobID w); [|apply mute_refl].
  apply wp_bind, wp_change; [done|]. by apply mute_silent.
Qed.

(** The channel a response would go to is open. *)
Definition waiting_open (jobID approvalID : string) (w : HWorld) : Prop :=
  forall ch, approval_chan jobID approvalID w = Some ch -> exists c, hw_chans w !! ch = Some c /\ chClosed c = false.

Lemma reachable_waiting_open jobID approvalID w : daemon_reaches cfg registry w -> waiting_open jobID approvalID w.
Proof.
  intros Hr%reachable_inv ch Hch. unfold approval_chan in Hch. destruct (find_job jobID w) as [j|]; [|done]. cbn in Hch.
  destruct (job_at j w) as [o|] eqn:Ho; [|done]. cbn in Hch. apply (proj1 (inv_open _ _ w Hr) j approvalID). by exists o.
Qed.

Lemma wp_OnApprovalResponse_mute jobID r w :
  hw_dead w = false -> waiting_open jobID (ap_ApprovalID r) w ->
  wp (harness_OnApprovalResponse jobID r) (fun _ w' => mute w w') w.
Proof.
  intros Hd Ho. apply wp_bind, wp_look; [done|]. destruct (approval_chan _ _ w) as [ch|] eqn:Hch; [|apply mute_refl].
  apply wp_bind, wp_change; [done|]. destruct (Ho ch Hch) as (c & Hc & Hcl). unfold offer. rewrite Hc, Hcl.
  destruct (chBuf c); [apply mute_refl|]. split; [done|]. by exists [HvDelivered jobID ch r].
Qed.

(** What is sent in reply to a frame. *)
Definition replies (c : nat) (env : Envelope) (w w' : HWorld) (check : Envelope -> Prop) : Prop :=
  exists evs reply ok, hw_trace w' = hw_trace w ++ evs /\ frames evs = [(c, reply, ok)]
    /\ en_Ref reply = en_ID env /\ en_JobID reply = en_JobID env /\ check reply.

Lemma frames_app a b : frames (a ++ b) = frames a ++ frames b.
Proof. apply omap_app. Qed.

Lemma wp_answer_ack c env ack w w0 :
  hw_dead w0 = false -> mute w0 w ->
  wp (answer_ack c env ack) (fun _ w' =>
    replies c env w0 w' (fun reply => en_Type reply = TypeAck /\ en_Payload reply = Some (wire_enc ack))) w.
Proof.
  intros Hd [Hd' (evs & Ht & Hf)]. apply wp_bind, wp_make_reply; [congruence|].
  apply wp_bind, wp_frame_send; [cbn; congruence|]. apply wp_ret.
  eexists (evs ++ [_]), _, _. cbn. rewrite Ht. split; [by rewrite <- app_assoc|].
  rewrite frames_app, Hf. by split.
Qed.

Lemma wp_handled {A T} (h : prog HWorld A) (g : A -> prog HWorld T) (Q : T -> HWorld -> Prop) w :
  wp h (fun _ w' => mute w w') w -> (forall a w', mute w w' -> wp (g a) Q w') -> wp (bind h g) Q w.
Proof. intros Hh Hg. apply wp_bind. eapply wp_mono; [|exact Hh]. auto. Qed.

(** The payload is not of the type the message claims. *)
Definition undecodable (env : Envelope) : Prop :=
  (en_Type env = TypeJobDispatch /\ (Decode (T := JobDispatch) env).2 = false)
  \/ (en_Type env = TypeJobCancel /\ (Decode (T := JobCancel) env).2 = false)
  \/ (en_Type env = TypeApprovalResponse /\ (Decode (T := ApprovalResponse) env).2 = false).

(** The reply is an ack with this verdict. *)
Definition acked (env : Envelope) (reply : Envelope) : Prop :=
  en_Type reply = TypeAck /\ exists ack, en_Payload reply = Some (wire_enc ack)
    /\ (undecodable env -> ack = MkAck false NackBadPayload (decode_error env)).

Lemma wp_acked {A} (h : prog HWorld Ack) (x : A * bool) c env w :
  idle w -> (x.2 = true -> ~ undecodable env) ->
  (x.2 = true -> wp h (fun _ w' => mute w w') w) ->
  wp (ack <- (if x.2 then h else Ret (bad_payload_ack env)) ;; answer_ack c env ack)
    (fun _ w' => replies c env w w' (acked env)) w.
Proof.
  intros Hi Hu Hh. destruct x as [a []]; cbn [snd] in *.
  - eapply wp_handled; [by apply Hh|]. intros ack w' Hm. eapply wp_mono; [|apply wp_answer_ack; [apply Hi | exact Hm]].
    intros _ w2 (evs & reply & ok & ? & ? & ? & ? & Hty & Hp). exists evs, reply, ok. do 4 (split; [done|]).
    split; [done|]. exists ack. split; [done|]. intros Hun. by destruct (Hu eq_refl).
  - eapply wp_mono; [|apply (wp_answer_ack c env (bad_payload_ack env) w w); [apply Hi | apply mute_refl]].
    intros _ w2 (evs & reply & ok & ? & ? & ? & ? & Hty & Hp). exists evs, reply, ok. do 4 (split; [done|]).
    split; [done|]. by exists (bad_payload_ack env).
Qed.

Lemma wp_Outbox_Ack_mute id w :
  idle w -> wp (Outbox_Ack id) (fun _ w' => mute w w' /\ hw_outbox w' = delete id (hw_outbox w)) w.
Proof.
  intros [Hd Hl]. apply wp_locking; [done|by apply idle_free|]. cbn.
  destruct (hw_outbox w !! id) as [env|] eqn:Ho.
  - set (w1 := set_houtbox _ _). cbn [fst snd].
    eapply wp_mono; [|apply (wp_flush_file outbox_path _ (outbox_json (hw_outbox w1)) w1); [done..|exact Hd]].
    intros r w' [Ha _]. pose proof (f_equal hw_dead Ha) as Hd'. pose proof (f_equal hw_trace Ha) as Ht.
    cbn in Hd', Ht. split; [by rewrite Hd'|]. split; [|by apply (f_equal hw_outbox) in Ha].
    by apply mute_silent.
  - apply wp_ret. split; [done|]. split; [by apply mute_silent|]. cbn. by rewrite delete_id.
Qed.

Ltac not_undecodable Et Hdec :=
  intros _ [[Ex Hf]|[[Ex Hf]|[Ex Hf]]];
  first [ by rewrite Hdec in Hf | rewrite Et in Ex; discriminate Ex ].

(** C32. Every at-least-once message is acknowledged exactly once, on the
    connection it came on, with its id and its job, and negatively when its
    payload cannot be decoded; an unknown type is answered with an error;
    pongs, acks and errors are not answered.  An ack, positive or not, takes
    the message it names out of the outbox. *)
Theorem client_handle_acks c env w :
  daemon_reaches cfg registry w -> idle w ->
  wp (client_handle (H := daemon_handler cfg registry) c env) (fun _ w' =>
    let typ := en_Type env in
    if bool_decide (typ ∈ [TypeJobDispatch; TypeJobCancel; TypeApprovalResponse]) then
      replies c env w w' (acked env)
    else if bool_decide (typ ∈ [TypePong; TypeAck; TypeError]) then
      mute w w' /\ (typ = TypeAck -> hw_outbox w' = delete (en_Ref env) (hw_outbox w))
    else replies c env w w' (fun reply => en_Type reply = TypeError)) w.
Proof.
  intros Hw Hi. pose proof (proj1 Hi) as Hd. unfold client_handle.
  destruct (String.eqb_spec (en_Type env) TypePong) as [Et|E1].
  { rewrite Et. apply wp_change; [done|]. split; [|done]. unfold put_pong. case_bool_decide; by apply mute_silent. }
  destruct (String.eqb_spec (en_Type env) TypeAck) as [Et|E2].
  { rewrite Et. apply wp_bind. eapply wp_mono; [|by apply wp_Outbox_Ack_mute]. intros r w' [? ?]. by apply wp_ret. }
  destruct (String.eqb_spec (en_Type env) TypeError) as [Et|E3]; [rewrite Et; split; [apply mute_refl | done]|].
  destruct (String.eqb_spec (en_Type env) TypeJobDispatch) as [Et|E4].
  { rewrite (bool_decide_true (_ ∈ _)) by (rewrite Et; by left).
    pose proof (wp_acked (harness_OnDispatch cfg registry (en_JobID env) (Decode env).1) (Decode (T := JobDispatch) env) c env w Hi) as H.
    destruct (Decode (T := JobDispatch) env) as [d []] eqn:Hdec; apply H; try done; [not_undecodable Et Hdec|].
    intros _. by apply wp_OnDispatch_mute. }
  destruct (String.eqb_spec (en_Type env) TypeJobCancel) as [Et|E5].
  { rewrite (bool_decide_true (_ ∈ _)) by (rewrite Et; by right; left).
    pose proof (wp_acked (harness_OnCancel (en_JobID env) (Decode env).1) (Decode (T := JobCancel) env) c env w Hi) as H.
    destruct (Decode (T := JobCancel) env) as [d []] eqn:Hdec; apply H; try done; [not_undecodable Et Hdec|].
    intros _. by apply wp_OnCancel_mute. }
  destruct (String.eqb_spec (en_Type env) TypeApprovalResponse) as [Et|E6].
  { rewrite (bool_decide_true (_ ∈ _)) by (rewrite Et; by right; right; left).
    pose proof (wp_acked (harness_OnApprovalResponse (en_JobID env) (Decode env).1) (Decode (T := ApprovalResponse) env) c env w Hi) as H.
    destruct (Decode (T := ApprovalResponse) env) as [d []] eqn:Hdec; apply H; try done; [not_undecodable Et Hdec|].
    intros _. apply wp_OnApprovalResponse_mute; [done | by apply reachable_waiting_open]. }
  rewrite !bool_decide_false by (rewrite !elem_of_cons, elem_of_nil; tauto).
  apply wp_bind, wp_make_reply; [done|]. apply wp_bind, wp_frame_send; [done|]. apply wp_ret.
  eexists [_], _, _. cbn. done.
Qed.
End Facts.
