(* ===== verification/JobRunFacts.v ===== *)
(** * A job from start to end, and the answers to its tool calls

    A job whose agent returns, by itself or once its context has ended, ends
    with its result in the outbox, out of the table and with nobody left
    waiting; a tool call that waits is answered. *)

From S2P Require Import Prelude Resume GoText Codec Json Protocol Rely HarnessText HarnessWorld StateFiles HarnessClient Daemon DaemonSafety DaemonSystem DaemonFacts.

Open Scope Z_scope.
Open Scope prog_scope.

Section JobRun.
Context {E : HEnv} (cfg : HarnessConfig) (registry : list string).

(** ** Programs that leave the outbox, the table and the approvals alone *)

Definition approvals_view (w : HWorld) : list (string * gmap string nat) :=
  map (fun o => (hjId o, hjApprovals o)) (hw_objs w).
Definition contexts_view (w : HWorld) : list (bool * option Time) :=
  map (fun o => (hjCancelled o, hjDeadline o)) (hw_objs w).

Definition calm (w w' : HWorld) : Prop :=
  hw_dead w' = hw_dead w /\ hw_locks w' = hw_locks w /\ hw_outbox w' = hw_outbox w
  /\ hw_jobs w' = hw_jobs w /\ hw_chans w' = hw_chans w /\ approvals_view w' = approvals_view w
  /\ contexts_view w' = contexts_view w.

#[export] Instance calm_preorder : PreOrder calm.
Proof. split; [intros w; by repeat split | intros x y z; unfold calm; intros; destruct_and!; split_and!; congruence]. Qed.

Definition calmly {A} (m : prog HWorld A) : Prop := forall w, idle w -> wp m (fun _ w' => calm w w') w.

Lemma calm_idle w w' : calm w w' -> idle w -> idle w'.
Proof. intros (Hd & Hl & _) [? ?]. split; congruence. Qed.

Ltac calm_trans := cbv beta in *; etrans; eassumption.
Ltac still_idle := eapply calm_idle; [|eassumption]; eassumption.

Lemma calmly_ret {A} (a : A) : calmly (Ret a).
Proof. intros w _. apply wp_ret. reflexivity. Qed.

Lemma calmly_bind {A B} (m : prog HWorld A) (g : A -> prog HWorld B) :
  calmly m -> (forall a, calmly (g a)) -> calmly (bind m g).
Proof.
  intros Hm Hg w Hi. apply wp_bind. eapply wp_mono; [|by apply Hm]. intros a w1 H1.
  eapply wp_mono; [|apply Hg; still_idle]. intros b w2 H2. calm_trans.
Qed.

Lemma calmly_act {A} (f : HWorld -> A * HWorld) : (forall w, calm w (f w).2) -> calmly (act f).
Proof. intros Hf w [Hd _]. apply wp_act; [done | apply Hf]. Qed.

Lemma calmly_look {A} (f : HWorld -> A) : calmly (look f).
Proof. apply calmly_act. intros w. reflexivity. Qed.

Lemma calmly_change f : (forall w, calm w (f w)) -> calmly (change f).
Proof. intros Hf. by apply calmly_act. Qed.

Lemma calmly_consult {A} (f : nat -> A) : calmly (consult f).
Proof. by apply calmly_act. Qed.

Lemma calmly_for_fold {X S} (l : list X) (s : S) body : (forall s x, calmly (body s x)) -> calmly (for_fold l s body).
Proof. intros H. revert s. induction l as [|x l IH]; intros s; simpl; [apply calmly_ret|]. by apply calmly_bind. Qed.

Lemma calmly_when b m : calmly m -> calmly (when b m).
Proof. intros H. destruct b; [done | apply calmly_ret]. Qed.

Lemma calmly_write path body : calmly (os_WriteFile path body).
Proof. apply calmly_act. intros w. destruct (write_fault (hw_tick w)) as [[? []]|]; done. Qed.

Lemma wp_rename a b w : hw_dead w = false -> wp (os_Rename a b) (fun _ w' => calm w w') w.
Proof. intros Hd. apply wp_act; [done|]. destruct (rename_fault (hw_tick w)), (hw_files w !! a); done. Qed.

Lemma calmly_rename a b : calmly (os_Rename a b).
Proof. intros w [Hd _]. by apply wp_rename. Qed.

Lemma calmly_flush path doc : calmly (flush_file path doc).
Proof.
  apply calmly_bind; [apply calmly_consult|]. intros [[]|e]; [|apply calmly_ret].
  apply calmly_bind; [apply calmly_look|]. intros [j|e]; [|apply calmly_ret].
  apply calmly_bind; [apply calmly_write|]. intros [[]|e]; [apply calmly_rename | apply calmly_ret].
Qed.

Lemma with_job_calm j f w :
  (forall o, hjId (f o) = hjId o /\ hjApprovals (f o) = hjApprovals o
     /\ hjCancelled (f o) = hjCancelled o /\ hjDeadline (f o) = hjDeadline o) -> calm w (with_job j f w).
Proof.
  intros Hf. do 5 (split; [done|]). unfold approvals_view, contexts_view. cbn. split; apply list_eq; intros i;
    rewrite !list_lookup_fmap, list_lookup_alter; (case_decide; [subst|done]);
    (destruct (hw_objs w !! i) as [o|]; [|done]); cbn; destruct (Hf o) as (E1 & E2 & E3 & E4); congruence.
Qed.

Lemma calmly_make_envelope {T} `{!Wire T} typ jobID (x : T) : calmly (make_envelope typ jobID x).
Proof. apply calmly_bind; [apply calmly_consult|]. intros id. apply calmly_bind; [apply calmly_consult|intros t; apply calmly_ret]. Qed.

Lemma calmly_frame_send c env : calmly (frame_send c env).
Proof. by apply calmly_act. Qed.

Lemma calmly_sendProgress j text tool turns refresh : calmly (sendProgress j text tool turns refresh).
Proof.
  apply calmly_bind.
  - apply calmly_act. intros w. unfold next_progress. destruct (job_at j _); by apply with_job_calm.
  - intros [jobID p]. apply calmly_bind; [apply calmly_make_envelope|]. intros env. apply calmly_bind; [|intros; apply calmly_ret].
    apply calmly_bind; [apply calmly_look|]. intros [c|]; [apply calmly_frame_send | apply calmly_ret].
Qed.

Lemma calmly_sessions_Get b r : calmly (sessions_Get b r).
Proof. intros w Hi. apply wp_under; [apply Hi | by apply idle_free | reflexivity]. Qed.

Lemma calmly_sessions_Put b r s ws a : calmly (sessions_Put b r s ws a).
Proof.
  intros w [Hd Hl]. apply wp_locking; [done | by apply idle_free|]. cbn [fst snd].
  set (w1 := htick _). assert (hw_locks w1 = [sessionsMu]) as Hl1 by (cbn; by rewrite Hl).
  (* the body runs while its own mutex is held *)
  assert (forall w, hw_dead w = false -> wp sessions_flush (fun _ w' => calm w w') w) as Hf.
  { clear. intros w Hd. apply wp_bind, wp_consult; [done|].
    destruct (match mkdir_fault _ with Some _ => _ | None => _ end) as [[]|e]; [|done].
    apply wp_bind, wp_look; [done|]. destruct (sessions_json _) as [j1|e]; [|done].
    apply wp_bind, wp_act; [done|]. destruct (write_fault _) as [[msg []]|]; [done..|].
    cbn [fst snd]. by apply (wp_rename _ _ (htick (set_files _ (htick w)))). }
  eapply wp_mono; [|by apply Hf]. intros x w' (H1 & H2 & H3 & H4 & H5 & H6 & H7).
  split; [by rewrite H1|]. split; [by cbn; rewrite H1|]. split; [cbn; by rewrite H2, Hl1, Hl|]. done.
Qed.

Lemma calmly_write_files dir files names : calmly (write_files dir files names).
Proof.
  revert names. induction files as [|f files IH]; intros names; simpl; [apply calmly_ret|].
  destruct (base64_decode _); [|apply calmly_ret].
  apply calmly_bind; [apply calmly_write|]. intros [[]|e]; [apply IH | apply calmly_ret].
Qed.

Lemma calmly_attach_files o d prompt : calmly (attach_files o d prompt).
Proof.
  unfold attach_files. destruct (is_empty_list _); [apply calmly_ret|]. apply calmly_bind.
  - apply calmly_bind; [apply calmly_consult|]. intros [[]|e]; [apply calmly_write_files | apply calmly_ret].
  - intros [names|e]; apply calmly_ret.
Qed.

(** ** The end of a job *)

(** The channels of the job's approvals: all there, open, and distinct. *)
Definition closable (j : nat) (w : HWorld) : Prop :=
  match approvals_view w !! j with
  | Some (_, m) =>
      NoDup (map_to_list m).*2
      /\ Forall (fun ch => exists c, hw_chans w !! ch = Some c /\ chClosed c = false) (map_to_list m).*2
  | None => True
  end.

(** Nobody waits for an approval of the job any more. *)
Definition told_ended (m : gmap string nat) (w : HWorld) : Prop :=
  map_Forall (fun _ ch => exists c, hw_chans w !! ch = Some c /\ chClosed c = true) m.

Lemma close_approvals_spec j o w :
  job_at j w = Some o -> closable j w ->
  let w' := close_approvals j w in
  hw_dead w' = hw_dead w /\ hw_locks w' = hw_locks w /\ hw_outbox w' = hw_outbox w /\ hw_jobs w' = hw_jobs w
  /\ is_Some (job_at j w') /\ told_ended (hjApprovals o) w'.
Proof.
  intros Ho Hc. unfold closable, approvals_view in Hc. rewrite list_lookup_fmap in Hc. unfold job_at in Ho.
  rewrite Ho in Hc. cbn in Hc. destruct Hc as [Hnd Hop]. unfold close_approvals, job_at. rewrite Ho.
  destruct (close_chans_spec _ w Hnd Hop) as (Hw & Hcl & _ & _).
  assert (told_ended (hjApprovals o) (foldr close_chan w (map_to_list (hjApprovals o)).*2)) as Ht.
  { intros id ch Hid. apply (proj1 (Forall_forall _ _) Hcl). apply list_elem_of_fmap. exists (id, ch).
    split; [done|]. by apply elem_of_map_to_list. }
  set (w1 := foldr _ _ _) in *. cbn. do 4 (split; [by rewrite Hw|]). split; [|exact Ht].
  unfold job_at. cbn. rewrite list_lookup_alter, decide_True by done. rewrite Hw. cbn. rewrite Ho. by eexists.
Qed.

Lemma wp_SendReliable_stores env w :
  idle w -> NeedsAck (en_Type env) = true ->
  wp (client_SendReliable env) (fun _ w' =>
    hw_outbox w' = <[en_ID env := env]> (hw_outbox w) /\ hw_jobs w' = hw_jobs w /\ hw_objs w' = hw_objs w
    /\ hw_chans w' = hw_chans w /\ hw_dead w' = hw_dead w /\ hw_locks w' = hw_locks w) w.
Proof.
  intros Hi Ht. unfold client_SendReliable. rewrite Ht. cbn [negb].
  apply wp_bind. eapply wp_mono; [|by apply wp_Outbox_Add]. intros r w1 [[Ho _] Ha].
  assert (hw_jobs w1 = hw_jobs w /\ hw_objs w1 = hw_objs w /\ hw_chans w1 = hw_chans w
          /\ hw_dead w1 = hw_dead w /\ hw_locks w1 = hw_locks w) as (H1 & H2 & H3 & H4 & H5).
  { split_and!; [by apply (f_equal hw_jobs) in Ha | by apply (f_equal hw_objs) in Ha | by apply (f_equal hw_chans) in Ha
      | by apply (f_equal hw_dead) in Ha | by apply (f_equal hw_locks) in Ha]. }
  destruct r as [[]|e]; [|by apply wp_ret].
  apply wp_bind, wp_look; [rewrite H4; apply Hi|]. destruct (hw_conn w1); [|by apply wp_ret].
  apply wp_frame_send; [rewrite H4; apply Hi | done].
Qed.

(** The result as the broker will get it. *)
Definition result_stored (jobID : string) (res : Result) (before : gmap string Envelope) (w : HWorld) : Prop :=
  exists id ts duration,
    hw_outbox w = <[id := MkEnvelope id TypeJobResult jobID "" ts (Some (wire_enc (result_of res duration)))]> before
    /\ (rsDurationMS res <> 0 -> duration = rsDurationMS res).

Lemma wp_finish j o jobID res start w :
  idle w -> job_at j w = Some o -> closable j w ->
  wp (finish j jobID res start) (fun _ w' =>
    idle w' /\ hw_jobs w' = hw_jobs w /\ is_Some (job_at j w')
    /\ result_stored jobID res (hw_outbox w) w' /\ told_ended (hjApprovals o) w') w.
Proof.
  intros Hi Ho Hc. apply wp_bind, wp_change; [apply Hi|].
  destruct (close_approvals_spec j o w Ho Hc) as (Hd & Hl & Hout & Hj & Hs & Ht).
  set (w1 := close_approvals j w) in *. assert (idle w1) as Hi1 by (destruct Hi; split; congruence).
  apply wp_bind. assert (forall duration w2, idle w2 -> hw_outbox w2 = hw_outbox w -> hw_jobs w2 = hw_jobs w ->
    hw_chans w2 = hw_chans w1 -> hw_objs w2 = hw_objs w1 -> (rsDurationMS res <> 0 -> duration = rsDurationMS res) ->
    wp (env <- make_envelope TypeJobResult jobID (result_of res duration) ;; _ <- client_SendReliable env ;; Ret tt)
      (fun _ w' => idle w' /\ hw_jobs w' = hw_jobs w /\ is_Some (job_at j w') /\ result_stored jobID res (hw_outbox w) w' /\ told_ended (hjApprovals o) w') w2) as Hrest.
  { intros duration w2 Hi2 Ho2 Hj2 Hc2 Hob2 Hdur. apply wp_bind, wp_make_envelope; [apply Hi2|]. apply wp_bind.
    eapply wp_mono; [|apply wp_SendReliable_stores; [done | reflexivity]].
    intros r w3 (E1 & E2 & E3 & E4 & E5 & E6). apply wp_ret. cbn in E1. split; [destruct Hi2; split; by rewrite ?E5, ?E6|].
    split; [by rewrite E2|]. split; [unfold job_at; rewrite E3; cbn; by rewrite Hob2|]. split; [|unfold told_ended; by rewrite E4; cbn; rewrite Hc2].
    eexists _, _, duration. split; [|done]. rewrite E1, Ho2. reflexivity. }
  destruct (Z.eqb_spec (rsDurationMS res) 0) as [Hz|Hz].
  - apply wp_bind, wp_consult; [apply Hi1|]. apply wp_ret. by apply Hrest.
  - apply wp_ret. by apply Hrest.
Qed.

(** ** The whole job *)

Lemma calm_job j w w' o :
  calm w w' -> job_at j w = Some o -> exists o', job_at j w' = Some o' /\ hjApprovals o' = hjApprovals o.
Proof.
  intros (_ & _ & _ & _ & _ & Hv & _) Ho. unfold approvals_view in Hv. apply (f_equal (lookup j)) in Hv.
  rewrite !list_lookup_fmap in Hv. unfold job_at in *. rewrite Ho in Hv. destruct (hw_objs w' !! j) as [o'|]; [|done].
  cbn in Hv. exists o'. split; [done|]. by simplify_eq.
Qed.

Lemma calm_closable j w w' : calm w w' -> closable j w -> closable j w'.
Proof. intros (_ & _ & _ & _ & Hc & Hv & _). unfold closable. by rewrite Hc, Hv. Qed.

(** ** A program alone, while time passes

    The run of [m] on its own: a step that can be taken is taken, and where it
    has to wait the clock goes on. *)
Inductive alone {A} : prog HWorld A -> HWorld -> A -> HWorld -> Prop :=
| alone_ret a w : alone (Ret a) w a w
| alone_step X (f : HWorld -> option (X * HWorld)) k w x w1 a w' :
    f w = Some (x, w1) -> alone (k x) w1 a w' -> alone (Step f k) w a w'
| alone_waits X (f : HWorld -> option (X * HWorld)) k w a w' :
    f w = None -> hw_dead w = false -> alone (Step f k) (htick w) a w' -> alone (Step f k) w a w'.

Lemma alone_inv {A} (m : prog HWorld A) w a w' :
  alone m w a w' ->
  match m with
  | Ret b => a = b /\ w' = w
  | Step f k => match f w with Some (x, w1) => alone (k x) w1 a w' | None => alone m (htick w) a w' end
  end.
Proof. intros [| X f k w0 x w1 b w2 Hf Hk | X f k w0 b w2 Hf Hd Hk]; [done|by rewrite Hf|by rewrite Hf]. Qed.

(** There is one such run at most. *)
Lemma alone_functional {A} (m : prog HWorld A) w a1 w1 a2 w2 : alone m w a1 w1 -> alone m w a2 w2 -> a1 = a2 /\ w1 = w2.
Proof.
  intros H1. revert a2 w2. induction H1 as [a w|X f k w x w1 a w' Hf H1 IH|X f k w a w' Hf Hd H1 IH];
    intros a2 w2 H2%alone_inv; cbn in H2; rewrite ?Hf in H2; [naive_solver|by apply IH..].
Qed.

(** It ends, and then [Q] holds. *)
Definition finally {A} (m : prog HWorld A) (Q : A -> HWorld -> Prop) (w : HWorld) : Prop :=
  exists a w', alone m w a w' /\ Q a w'.

Lemma finally_ret {A} (a : A) (Q : A -> HWorld -> Prop) w : Q a w -> finally (Ret a) Q w.
Proof. intros H. exists a, w. split; [constructor|done]. Qed.

Lemma finally_mono {A} (m : prog HWorld A) (P Q : A -> HWorld -> Prop) w :
  (forall a w', P a w' -> Q a w') -> finally m P w -> finally m Q w.
Proof. intros H (a & w' & Hm & HP). exists a, w'. auto. Qed.

Lemma finally_bind {A B} (m : prog HWorld A) (g : A -> prog HWorld B) Q w :
  finally m (fun a => finally (g a) Q) w -> finally (bind m g) Q w.
Proof.
  intros (a & w1 & Hm & b & w' & Hg & HQ). exists b, w'. split; [|done].
  induction Hm as [a w|X f k w x w2 a w3 Hf _ IH|X f k w a w3 Hf Hd _ IH]; [done| |].
  - eapply alone_step; [exact Hf | by apply IH].
  - eapply alone_waits; [done..|by apply IH].
Qed.

Lemma finally_wp {A} (m : prog HWorld A) Q w : wp m Q w -> finally m Q w.
Proof.
  unfold wp. destruct (Resume.run m w) as [[a w']|] eqn:Hr; [|done]. intros HQ. exists a, w'. split; [|done].
  clear HQ. revert w Hr. induction m as [b|X f k IH]; intros w; simpl; intros Hr; [simplify_eq; constructor|].
  destruct (f w) as [[x w1]|] eqn:Hf; [|done]. by eapply alone_step, IH.
Qed.

(** The clock passes every moment for good. *)
Definition clock_advances : Prop := forall T, exists n, forall m, (n <= m)%nat -> T <= hclock m.

Lemma iter_htick n w : Nat.iter n htick w = set_htick (n + hw_tick w) w.
Proof. induction n as [|n IH]; simpl; [by destruct w|]. by rewrite IH. Qed.

(** A step that is enabled after some ticks is taken then, or before. *)
Lemma finally_step {X} (f : HWorld -> option (X * HWorld)) (Q : X -> HWorld -> Prop) n w :
  hw_dead w = false ->
  (forall k x w', f (Nat.iter k htick w) = Some (x, w') -> Q x w') -> is_Some (f (Nat.iter n htick w)) ->
  finally (live f) Q w.
Proof.
  revert w. induction n as [|n IH]; intros w Hd HQ [[x w1] Hn].
  - exists x, w1. split; [|by apply (HQ 0%nat)]. eapply alone_step; [by rewrite Hd|constructor].
  - destruct (f w) as [[y w2]|] eqn:Hf.
    { exists y, w2. split; [|by apply (HQ 0%nat)]. eapply alone_step; [by rewrite Hd|constructor]. }
    destruct (IH (htick w)) as (a & w' & Ha & HQa); [done| |by rewrite <- Nat.iter_succ_r|].
    + intros k y w2 Hk. apply (HQ (S k)). by rewrite Nat.iter_succ_r.
    + exists a, w'. split; [|done]. eapply alone_waits; [by rewrite Hd | done | exact Ha].
Qed.

(** ** The agent *)

(** What the agent is given and what it answered, or why it could not run. *)
Definition job_outcome (o : HJob) (res : Result) : Prop :=
  (exists opt t events, opDir opt = hjDir o /\ agent_run t (hjAgent o) opt = (events, Ok res))
  \/ (exists msg, res = MkResult StatusFailed "" "" 0 0%Q 0 "harness" msg).

(** Every call of the agent returns, by itself or once its context has ended. *)
Definition obeys_context (agent : string) : Prop := forall t opt, Hang ∉ (agent_run t agent opt).1.
(** It does not need the context for that. *)
Definition returns_alone (agent : string) : Prop := forall t opt, AwaitContext ∉ (agent_run t agent opt).1.

(** The job's context ends: it was cancelled, or there is a deadline. *)
Definition context_will_end (j : nat) (w : HWorld) : Prop :=
  exists b t, contexts_view w !! j = Some (b, t) /\ (b = true \/ is_Some t).

Lemma calm_context_will_end j w w' : calm w w' -> context_will_end j w -> context_will_end j w'.
Proof. intros (_ & _ & _ & _ & _ & _ & Hv). unfold context_will_end. by rewrite Hv. Qed.

Lemma finally_await j (latest : option AgentEvent) w :
  clock_advances -> idle w -> context_will_end j w ->
  finally (progress_step j latest AwaitContext) (fun _ w' => calm w w') w.
Proof.
  intros Hc [Hd _] (b & t & Hv & He). unfold contexts_view in Hv. rewrite list_lookup_fmap in Hv.
  destruct (hw_objs w !! j) as [o|] eqn:Ho; [|done]. cbn in Hv. simplify_eq.
  destruct (Hc (default 0 (hjDeadline o))) as [n Hn]. assert (Hnow := Hn (n + hw_tick w)%nat ltac:(lia)).
  replace (progress_step j latest AwaitContext) with (live (fun w => match job_at j w with
      | Some o => if ctx_ended o w then Some (latest, w) else None | None => Some (latest, w) end)) by by destruct latest.
  apply (finally_step _ _ n); [done| |].
  - intros k x w' Hf. rewrite iter_htick in Hf. cbn in Hf. unfold job_at in Hf. cbn in Hf. rewrite Ho in Hf.
    destruct (ctx_ended _ _); [|done]. simplify_eq. by repeat split.
  - rewrite iter_htick. unfold job_at. cbn. rewrite Ho. unfold ctx_ended. cbn.
    destruct He as [->|[t Ht]]; [by eexists|]. rewrite Ht in Hnow |- *. cbn in Hnow. rewrite (proj2 (Z.leb_le _ _) Hnow), orb_true_r. by eexists.
Qed.

Lemma finally_progress j events latest w :
  clock_advances -> idle w -> Hang ∉ events -> (AwaitContext ∈ events -> context_will_end j w) ->
  finally (for_fold events latest (progress_step j)) (fun _ w' => calm w w') w.
Proof.
  intros Hc. revert latest w. induction events as [|s events IH]; intros latest w Hi Hh Ha.
  { apply finally_ret. reflexivity. }
  apply not_elem_of_cons in Hh as [Hs Hh]. apply finally_bind.
  assert (finally (progress_step j latest s) (fun _ w' => calm w w') w) as Hstep.
  { destruct s; [| |apply finally_await; [done..|apply Ha; left]|done].
    - destruct latest; by apply finally_wp, wp_ret.
    - destruct latest as [e|]; [|by apply finally_wp, wp_ret]. apply finally_wp, calmly_bind; [|intros _|done].
      + apply calmly_change. intros w1. by apply with_job_calm.
      + apply calmly_bind; [apply calmly_sendProgress | intros _; apply calmly_ret]. }
  eapply finally_mono; [|exact Hstep]. intros l w1 H1. eapply finally_mono; [|apply IH].
  - intros a w2 H2. calm_trans.
  - still_idle.
  - done.
  - intros Hin. eapply calm_context_will_end; [exact H1|]. apply Ha. by right.
Qed.

Lemma finally_run_agent j o opt w :
  clock_advances -> idle w -> opDir opt = hjDir o -> obeys_context (hjAgent o) ->
  (returns_alone (hjAgent o) \/ context_will_end j w) ->
  finally (run_agent j o opt) (fun res w' => calm w w' /\ job_outcome o res) w.
Proof.
  intros Hc Hi Hd Hob Hctx. apply finally_bind, finally_wp, wp_act; [apply Hi|]. cbn [fst snd].
  pose proof (Hob (hw_tick w) opt) as Hh.
  assert (AwaitContext ∈ (agent_run (hw_tick w) (hjAgent o) opt).1 -> context_will_end j w) as Hin.
  { intros Hin. destruct Hctx as [Hr|Hr]; [by destruct (Hr (hw_tick w) opt) | done]. }
  destruct (agent_run (hw_tick w) (hjAgent o) opt) as [events r] eqn:Hr.
  set (w1 := htick _). apply finally_bind. eapply finally_mono; [|apply (finally_progress j events None w1); [done|exact Hi|done|exact Hin]].
  intros x w2 Hcalm. assert (calm w w2) by (cbv beta in Hcalm; by trans w1). destruct r as [res|e]; apply finally_ret; (split; [done|]).
  - left. by exists opt, (hw_tick w), events.
  - right. by eexists.
Qed.

Definition ended (j : nat) (o : HJob) (approvals : gmap string nat) (w w' : HWorld) : Prop :=
  idle w' /\ hw_jobs w' = hw_jobs w /\ is_Some (job_at j w') /\ told_ended approvals w'
  /\ exists res, job_outcome o res /\ result_stored (hjId o) res (hw_outbox w) w'.

(** After something calm, [finish] ends the job. *)
Lemma finally_finish_ended j o oh res start w w1 :
  idle w -> job_at j w = Some oh -> closable j w -> calm w w1 -> job_outcome o res ->
  finally (finish j (hjId o) res start) (fun _ w' => ended j o (hjApprovals oh) w w') w1.
Proof.
  intros Hi Ho Hc H1 Hres. destruct (calm_job j w w1 oh H1 Ho) as (o' & Ho' & Ha). apply finally_wp.
  eapply wp_mono; [|eapply (wp_finish j o'); [still_idle|done|by eapply calm_closable]].
  intros _ w2 (Hi2 & Hj2 & Hs2 & Hr2 & Ht2). destruct H1 as (_ & _ & Hout & Hj & _).
  split; [done|]. split; [congruence|]. split; [done|]. split; [by rewrite <- Ha|]. exists res. split; [done|]. by rewrite <- Hout.
Qed.

Section Ends.
Context (j : nat) (o : HJob) (w : HWorld).
Hypothesis advances : clock_advances.
Hypothesis is_idle : idle w.
Hypothesis at_j : job_at j w = Some o.
Hypothesis may_close : closable j w.
Hypothesis obeys : obeys_context (hjAgent o).
Hypothesis context : returns_alone (hjAgent o) \/ context_will_end j w.

Lemma finally_work d start mcp tool w0 :
  calm w w0 -> finally (work cfg j o d start mcp tool) (fun _ w' => ended j o (hjApprovals o) w w') w0.
Proof.
  intros H0. assert (Hctx : forall w1, calm w w1 -> returns_alone (hjAgent o) \/ context_will_end j w1).
  { intros w1 H1. destruct context; [by left|right; by eapply calm_context_will_end]. }
  apply finally_bind. eapply finally_mono; [|apply finally_wp, calmly_sessions_Get; still_idle]. intros session w1 H1.
  assert (calm w w1) as C1 by calm_trans.
  apply finally_bind. eapply finally_mono; [|apply finally_wp, calmly_attach_files; still_idle]. intros [prompt attached] w2 H2.
  assert (calm w w2) as C2 by calm_trans. apply finally_bind.
  eapply finally_mono; [|apply (finally_run_agent j o); [done|still_idle|reflexivity|done|by apply Hctx]]. intros res w3 [H3 Hres].
  assert (calm w w3) as C3 by calm_trans. apply finally_bind.
  eapply finally_mono; [|apply finally_wp, (calmly_when _ _); [apply calmly_bind; [apply calmly_sessions_Put | intros; apply calmly_ret] | still_idle]].
  intros x4 w4 H4. assert (calm w w4) as C4 by calm_trans. apply finally_bind.
  eapply finally_mono; [|by apply (finally_finish_ended j o o res start w w4)].
  intros x5 w5 He. apply finally_wp. destruct attached; [|by apply wp_ret]. apply wp_change; [apply He | exact He].
Qed.

Lemma finally_run_job d start w0 :
  calm w w0 -> finally (run_job cfg registry j o d start) (fun _ w' => ended j o (hjApprovals o) w w') w0.
Proof.
  intros H0. assert (forall msg, job_outcome o (harness_failure msg)) as Hfail by (intros msg; right; by eexists).
  unfold run_job. destruct (get_agent _ _) as [[]|e]; [|by apply finally_finish_ended].
  destruct (agent_approvals _); [|by apply finally_work].
  apply finally_bind. eapply finally_mono; [|apply finally_wp, calmly_write; still_idle]. intros [[]|e] w1 H1.
  - apply finally_bind. eapply finally_mono; [|apply finally_work; by trans w0].
    intros x2 w2 He. apply finally_wp, wp_change; [apply He | exact He].
  - apply finally_finish_ended; [done..|by trans w0|done].
Qed.
End Ends.

(** C17. A job ends with its result.  Take a daemon in any state it can reach,
    with a job whose goroutine was started on a dispatch, and an agent that
    keeps to its contract: it returns by itself, or once its context has ended.
    If the dispatch sets a time limit, or the job was cancelled, or the agent
    needs neither, the job's run ends as time passes, whatever the disk and
    the connection do: its result (the agent's, or why there is none) is in the
    outbox for the broker under the job's id, in addition to what was there;
    the job has left the table, so that another may start; its context is
    cancelled; and whoever waited for one of its approvals is told that the job
    ended.  Nothing is claimed of an agent that hangs with a context that does
    not end. *)
Theorem job_ends_with_result j d o w :
  daemon_reaches cfg registry w -> idle w -> GoRun j d ∈ hw_go w -> job_at j w = Some o ->
  clock_advances -> obeys_context (hjAgent o) ->
  (0 < li_TimeoutMS (jd_Limits d) \/ hjCancelled o = true \/ returns_alone (hjAgent o)) ->
  exists w', alone (run cfg registry j d) w tt w'
    /\ idle w'
    /\ hw_jobs w' = delete (hjId o) (hw_jobs w)
    /\ (exists o', hw_objs w' !! j = Some o' /\ hjCancelled o' = true)
    /\ told_ended (hjApprovals o) w'
    /\ exists res id ts duration,
         job_outcome o res
         /\ hw_outbox w' = <[id := MkEnvelope id TypeJobResult (hjId o) "" ts (Some (wire_enc (result_of res duration)))]> (hw_outbox w).
Proof.
  intros Hr Hi Hgo Ho Hadv Hob Hctx. pose proof (reachable_inv cfg registry w Hr) as Hinv. assert (closable j w) as Hc.
  { unfold closable, approvals_view. rewrite list_lookup_fmap. unfold job_at in Ho. rewrite Ho. cbn.
    eapply approvals_open; [exact Hinv | exact Ho]. }
  assert (returns_alone (hjAgent o) \/ context_will_end j w) as Hends.
  { unfold context_will_end, contexts_view. rewrite list_lookup_fmap. unfold job_at in Ho. rewrite Ho. cbn.
    destruct Hctx as [Hlim|[Hcan|Halone]]; [|right; exists true, (hjDeadline o); rewrite Hcan; auto|by left]. right.
    destruct (proj1 (Forall_forall _ _) (inv_go _ _ w Hinv) _ Hgo) as (o1 & Ho1 & _ & Hdl). simplify_eq.
    eexists _, _. split; [done|]. right. by apply Hdl. }
  assert (finally (run cfg registry j d) (fun _ w' => idle w'
    /\ hw_jobs w' = delete (hjId o) (hw_jobs w)
    /\ (exists o', hw_objs w' !! j = Some o' /\ hjCancelled o' = true)
    /\ told_ended (hjApprovals o) w'
    /\ exists res id ts duration, job_outcome o res
         /\ hw_outbox w' = <[id := MkEnvelope id TypeJobResult (hjId o) "" ts (Some (wire_enc (result_of res duration)))]> (hw_outbox w)) w)
    as ([] & w' & Hrun & Hpost); [|by exists w'].
  apply finally_bind, finally_wp, wp_look; [apply Hi|]. rewrite Ho.
  apply finally_bind, finally_wp, wp_consult; [apply Hi|]. apply finally_bind.
  eapply finally_mono; [|apply (finally_run_job j o w); [done..|by repeat split]].
  intros _ w1 (Hi1 & Hj1 & [o1 Ho1] & Ht1 & res & Hres & id & ts & duration & Hout & _). apply finally_wp.
  apply wp_bind, wp_change; [apply Hi1|]. apply wp_change; [apply Hi1|]. cbn.
  split; [done|]. split; [by rewrite Hj1|]. split; [|by eauto 10].
  exists (set_cancelled_job true o1). split; [|done]. unfold job_at in Ho1.
  by rewrite list_lookup_alter, decide_True, Ho1 by done.
Qed.

(** ** A tool call is answered *)

(** The program ends while nothing but time passes around it. *)
Inductive ends {A} : prog HWorld A -> HWorld -> A -> HWorld -> Prop :=
| ends_ret a w : ends (Ret a) w a w
| ends_step X (f : HWorld -> option (X * HWorld)) k w x w1 a w' :
    f w = Some (x, w1) -> ends (k x) w1 a w' -> ends (Step f k) w a w'
| ends_time m w a w' : hw_dead w = false -> ends m (htick w) a w' -> ends m w a w'.

Lemma ends_bind {A B} (m : prog HWorld A) (g : A -> prog HWorld B) w a w1 b w' :
  ends m w a w1 -> ends (g a) w1 b w' -> ends (bind m g) w b w'.
Proof.
  intros Hm Hg. induction Hm as [a w|X f k w x w2 a w3 Hf _ IH|m w a w2 Hd _ IH]; [done| |].
  - by eapply ends_step, IH.
  - by apply ends_time, IH.
Qed.

Lemma ends_wp {A} (m : prog HWorld A) Q w : wp m Q w -> exists a w', ends m w a w' /\ Q a w'.
Proof.
  unfold wp. destruct (Resume.run m w) as [[a w']|] eqn:Hr; [|done]. intros HQ. exists a, w'. split; [|done].
  clear HQ. revert w Hr. induction m as [b|X f k IH]; intros w; simpl; intros Hr; [simplify_eq; constructor|].
  destruct (f w) as [[x w1]|] eqn:Hf; [|done]. by eapply ends_step, IH.
Qed.

Lemma ends_ticks {A} n (m : prog HWorld A) w a w' :
  hw_dead w = false -> ends m (Nat.iter n htick w) a w' -> ends m w a w'.
Proof.
  revert w. induction n as [|n IH]; intros w Hd He; [done|]. apply ends_time; [done|].
  apply IH; [done|]. by rewrite <- Nat.iter_succ_r.
Qed.

(** In the pool, next to other threads that do not move. *)
Lemma ends_reach entry (p : prog HWorld unit) w a w' ps :
  entry (change htick) -> ends p w a w' -> exists ps', reach entry (p :: ps, w) (Ret tt :: ps', w').
Proof.
  intros He Hp. revert ps. induction Hp as [a w|X f k w x w1 a w' Hf _ IH|m w a w' Hd _ IH]; intros ps.
  - destruct a. by exists ps.
  - destruct (IH ps) as [ps' Hr]. exists ps'. eapply rtc_l; [|exact Hr]. exact (cs_step entry 0 (Step f k :: ps) w X f k x w1 eq_refl Hf).
  - destruct (IH (ps ++ [Ret tt])) as [ps' Hr]. exists ps'.
    eapply rtc_l; [by apply (cs_spawn entry)|]. eapply rtc_l; [|exact Hr].
    set (i := S (length ps)). replace (m :: ps ++ [Ret tt]) with (<[i := Ret (W := HWorld) tt]> ((m :: ps) ++ [change htick])).
    + eapply (cs_step entry i ((m :: ps) ++ [change htick]) w); [by apply list_lookup_middle|]. unfold i; cbv beta; by rewrite Hd.
    + unfold i. change (S (length ps)) with (length (m :: ps)). by rewrite insert_app_r_alt, Nat.sub_diag by lia.
Qed.

(** Waiting on a channel nobody writes to ends at the deadline. *)
Lemma ends_wait ch expires w :
  clock_advances -> hw_dead w = false -> hw_chans w !! ch = Some new_chan ->
  exists w', ends (choose [receive ch; at_time expires TimedOut]) w TimedOut w'
    /\ apart_from_files w' = apart_from_files w.
Proof.
  intros Hc Hd Hch. destruct (Hc expires) as [n Hn]. pose (w1 := Nat.iter n htick w).
  assert (w1 = set_htick (n + hw_tick w) w) as Hw1 by apply iter_htick.
  exists (htick w1). split; [|by rewrite Hw1].
  apply (ends_ticks n); [done|]. fold w1. eapply ends_step; [|apply ends_ret].
  rewrite Hw1. cbn -[Nat.modulo]. rewrite Hd. unfold receive, at_time. cbn -[Nat.modulo]. rewrite Hch. cbn -[Nat.modulo].
  rewrite (proj2 (Z.leb_le _ _)) by (apply Hn; lia). cbn -[Nat.modulo]. by rewrite Nat.mod_1_r.
Qed.

Definition is_deny (dec : CallDecision) : Prop := cdBehavior dec = "deny".

Lemma ends_ask_owner req j o id ch w :
  clock_advances -> idle w -> hw_chans w !! ch = Some new_chan ->
  exists dec w', ends (ask_owner cfg req j o id ch) w dec w' /\ is_deny dec /\ hw_dead w' = false.
Proof.
  intros Hc Hi Hch. set (expires := hclock (hw_tick w) + approval_timeout cfg).
  destruct (ends_wp now (fun t w1 => t = hclock (hw_tick w) /\ w1 = htick w) w) as (t & w1 & H1 & -> & ->).
  { by apply wp_consult; [apply Hi|]. }
  destruct (ends_wp (make_envelope TypeApprovalRequest (rqJobID req) (approval_request req o id expires))
    (fun env w2 => en_Type env = TypeApprovalRequest /\ calm w w2) (htick w)) as (env & w2 & H2 & Hty & C2).
  { apply wp_make_envelope; [apply Hi|]. split; [done|]. by repeat split. }
  pose proof (calm_idle _ _ C2 Hi) as Hi2.
  destruct (ends_wp _ _ w2 (wp_SendReliable_stores env w2 Hi2 ltac:(by rewrite Hty))) as (r & w3 & H3 & _ & _ & _ & Hc3 & Hd3 & Hl3).
  assert (idle w3) as Hi3 by (destruct Hi2; split; congruence).
  assert (hw_chans w3 !! ch = Some new_chan) as Hch3.
  { rewrite Hc3. destruct C2 as (_ & _ & _ & _ & -> & _). exact Hch. }
  unfold ask_owner. destruct r as [[]|e].
  2: { exists (DenyCall ("could not reach broker: " +:+ error_text e)), w3. split; [|by split; [|apply Hi3]].
       eapply ends_bind; [exact H1|]. eapply ends_bind; [exact H2|]. eapply ends_bind; [exact H3|]. constructor. }
  destruct (ends_wp _ _ w3 (calmly_sendProgress j "" (rqToolName req) 0 true w3 Hi3)) as (u & w4 & H4 & C4).
  destruct (ends_wait ch expires w4 Hc) as (w5 & H5 & Ha).
  { apply (calm_idle _ _ C4 Hi3). }
  { destruct C4 as (_ & _ & _ & _ & -> & _). exact Hch3. }
  exists (DenyCall "approval timed out"), w5. split; [|split; [done|]].
  - eapply ends_bind; [exact H1|]. eapply ends_bind; [exact H2|]. eapply ends_bind; [exact H3|].
    eapply ends_bind; [exact H4|]. eapply ends_bind; [exact H5|]. constructor.
  - apply (f_equal hw_dead) in Ha. cbn in Ha. rewrite Ha. apply (calm_idle _ _ C4 Hi3).
Qed.

Lemma ends_decide req w :
  clock_advances -> idle w ->
  exists dec w', ends (decide_call cfg req) w dec w' /\ is_deny dec /\ hw_dead w' = false.
Proof.
  intros Hc Hi. destruct (ends_wp (act (ask_section req)) (fun x w1 => (x, w1) = ask_section req w) w) as (x & w1 & H1 & Hx).
  { apply wp_act; [apply Hi | by destruct (ask_section req w)]. }
  unfold ask_section in Hx. destruct (find_job (rqJobID req) w) as [j|]; [destruct (job_at j w) as [o|]|].
  - set (id := NewID "apr" (hulid (hw_tick w))) in *. injection Hx as -> ->.
    set (w1 := hrecord _ _) in *.
    destruct (ends_ask_owner req j o id (length (hw_chans w)) w1 Hc) as (dec & w2 & H2 & Hdeny & Hd2).
    { exact Hi. } { cbn. apply list_lookup_middle. done. }
    exists dec, (with_job j (unask_job id) w2). split; [|done]. eapply ends_bind; [exact H1|].
    eapply ends_bind; [exact H2|].
    eapply ends_bind; [|constructor]. eapply ends_step; [by rewrite Hd2|]. constructor.
  - injection Hx as -> ->. exists (DenyCall "unknown job"), w. split; [|by split; [|apply Hi]].
    eapply ends_bind; [exact H1 | constructor].
  - injection Hx as -> ->. exists (DenyCall "unknown job"), w. split; [|by split; [|apply Hi]].
    eapply ends_bind; [exact H1 | constructor].
Qed.

(** C18. Nobody has to answer.  A tool call the owner never sees, because the
    broker is away or nobody clicks, is refused in the end: as time passes its
    handler reaches its end, whatever other threads are suspended where, and
    the CLI has been told "deny". *)
Theorem unanswered_call_is_denied req ps w :
  clock_advances -> idle w -> read_request (hw_tick w) = Some req ->
  exists ps' w' dec,
    reach (daemon_entry cfg registry) (permission_handle cfg :: ps, w) (Ret tt :: ps', w')
    /\ HvAnswer req dec ∈ hw_trace w' /\ cdBehavior dec = "deny".
Proof.
  intros Hc Hi Hreq. destruct (ends_decide req (htick w) Hc Hi) as (dec & w1 & H1 & Hdeny & Hd).
  destruct (ends_reach (daemon_entry cfg registry) (permission_handle cfg) w tt (hrecord [HvAnswer req dec] w1) ps) as [ps' Hr].
  - constructor.
  - eapply ends_bind; [eapply ends_step; [by rewrite (proj1 Hi)|constructor]|]. cbn beta. rewrite Hreq.
    eapply ends_bind; [exact H1|]. eapply ends_step; [by rewrite Hd | constructor].
  - exists ps', (hrecord [HvAnswer req dec] w1), dec. split; [exact Hr|]. split; [|exact Hdeny].
    cbn. apply elem_of_app. right. by left.
Qed.
End JobRun.
