(* ===== verification/Pairing.v ===== *)
(** * Waiting for the owner's claim ([internal/harness/initflow.go])

    A machine that asked for a code polls the broker until the owner typed it:
    every outcome has its cause, and the polling ends. *)

From S2P Require Import Prelude Resume GoText Json Protocol Rely HarnessText HarnessWorld StateFiles Daemon JobRunFacts Setup.

Open Scope Z_scope.
Open Scope prog_scope.

(** ** What a program that ended went through *)

Section Ends.
Context {E : HEnv}.

Lemma ends_inv {A} (m : prog HWorld A) w a w' :
  ends m w a w' ->
  exists n, match m with
  | Ret b => a = b /\ w' = Nat.iter n htick w
  | Step f k => exists x w1, f (Nat.iter n htick w) = Some (x, w1) /\ ends (k x) w1 a w'
  end.
Proof.
  induction 1 as [a w|X f k w x w1 a w' Hf Hk _|m w a w' Hd Hm [n IH]].
  - by exists 0%nat.
  - exists 0%nat, x, w1. by split.
  - exists (Datatypes.S n). rewrite Nat.iter_succ_r. exact IH.
Qed.

Lemma ends_bind_inv {A B} (m : prog HWorld A) (g : A -> prog HWorld B) w b w' :
  ends (bind m g) w b w' -> exists a w1, ends m w a w1 /\ ends (g a) w1 b w'.
Proof.
  intros H. remember (bind m g) as p eqn:Hp. revert m Hp.
  induction H as [b w|X f k w x w1 b w' Hf Hk IH|p w b w' Hd Hm IH]; intros m Hp.
  - destruct m as [a|]; [|done]. change (Ret b = g a) in Hp. exists a, w. split; [constructor|]. rewrite <- Hp. constructor.
  - destruct m as [a|Y f' k'].
    + exists a, w. split; [constructor|]. change (Step f k = g a) in Hp. rewrite <- Hp. by eapply ends_step.
    + assert (Hin : exists x' w1', f' w = Some (x', w1') /\ ends (bind (k' x') g) w1' b w'
        /\ (forall m, bind (k' x') g = bind m g -> exists a w2, ends m w1' a w2 /\ ends (g a) w2 b w')).
      { change (bind (Step f' k') g) with (Step f' (fun x => bind (k' x) g)) in Hp.
        refine (match Hp in _ = q return match q with Ret _ => True | Step f2 k2 => exists x' w1', f2 w = Some (x', w1')
          /\ ends (k2 x') w1' b w' /\ (forall m, k2 x' = bind m g -> exists a w2, ends m w1' a w2 /\ ends (g a) w2 b w') end
          with eq_refl => _ end). exists x, w1. by split. }
      destruct Hin as (x' & w1' & Hf' & _ & IH'). destruct (IH' _ eq_refl) as (a & w2 & H1 & H2).
      exists a, w2. split; [|done]. by eapply ends_step.
  - destruct (IH m Hp) as (a & w1 & H1 & H2). exists a, w1. split; [|done]. by apply ends_time.
Qed.

Lemma ends_ret_inv {A} (b a : A) w w' : ends (Ret b) w a w' -> a = b /\ (hw_tick w <= hw_tick w')%nat.
Proof. intros H. destruct (ends_inv _ _ _ _ H) as (n & -> & ->). rewrite iter_htick. cbn. split; [done|lia]. Qed.

(** A moment between two states. *)
Definition at_moment (w w' : HWorld) (t : nat) : Prop := (hw_tick w <= t < hw_tick w')%nat.

Lemma ends_consult_inv {X} (f : nat -> X) w x w' :
  ends (consult f) w x w' -> exists t, at_moment w w' t /\ x = f t.
Proof.
  intros H. destruct (ends_inv _ _ _ _ H) as (n & y & w1 & Hf & Hk). rewrite iter_htick in Hf. cbn in Hf.
  destruct (hw_dead w); [done|]. injection Hf as <- <-. destruct (ends_inv _ _ _ _ Hk) as (m & -> & ->).
  rewrite iter_htick. exists (n + hw_tick w)%nat. split; [|done]. unfold at_moment. cbn. lia.
Qed.

Lemma ends_choose_inv {X} (c1 c2 : HWorld -> option (X * HWorld)) w x w' :
  ends (choose [c1; c2]) w x w' ->
  exists w1 w2 c, (c = c1 \/ c = c2) /\ (hw_tick w <= hw_tick w1)%nat /\ (hw_tick w2 < hw_tick w')%nat /\ c w1 = Some (x, w2).
Proof.
  intros H. destruct (ends_inv _ _ _ _ H) as (n & y & w1 & Hf & Hk). cbn [live] in Hf.
  destruct (hw_dead _); [done|]. set (w0 := Nat.iter n htick w) in *.
  destruct (_ !! _) as [[y' w2]|] eqn:Hl; [|done]. injection Hf as -> <-.
  destruct (ends_inv _ _ _ _ Hk) as (m & -> & ->). exists w0, w2.
  pose proof (list_elem_of_lookup_2 _ _ _ Hl) as Hin.
  apply list_elem_of_omap in Hin as (c & Hc & Hcw). exists c.
  split; [by repeat (apply elem_of_cons in Hc as [->|Hc]; [auto|]); apply not_elem_of_nil in Hc|].
  unfold w0 in *. rewrite !iter_htick in *. cbn. split; [lia|]. split; [lia|done].
Qed.
End Ends.

(** ** [WaitInit] *)

Section Wait.
Context {E : HEnv} {S : SetupEnv}.
Context (brokerURL code pollToken : string) (expiresAt : Time) (done : option Time).
Notation call := (Get (TrimRight brokerURL "/" +:+ "/init/" +:+ code) pollToken).
Notation waiting fuel := (WaitInit fuel brokerURL code pollToken expiresAt done).

Definition clock_monotone : Prop := forall m n, (m <= n)%nat -> hclock m <= hclock n.

(** Why the polling ended with this, at a moment. *)
Definition init_ended (r : res InitResult) (t : nat) : Prop :=
  poll_answer (http_do t call) = Some r
  \/ r = Err ErrInitExpired /\ expiresAt < hclock t
  \/ r = Err (ErrOther "context deadline exceeded") /\ exists d, done = Some d /\ d <= hclock t.

Lemma init_ended_ok x t :
  init_ended (Ok x) t ->
  exists a, http_do t call = Ok a /\ haStatus a = 200
    /\ body_as InitResult_fields (MkInitResult "" "" "" "" "") "init" a = Ok x.
Proof.
  intros [H|[[H _]|[H _]]]; [|done..]. unfold poll_answer in H. destruct (http_do t call) as [a|e]; [|done].
  exists a. destruct (Z.eqb_spec (haStatus a) 200); [|by repeat case_match]. by injection H.
Qed.

(** One turn: it ended, or the code was still valid and at least two seconds
    have passed. *)
Lemma wait_turn fuel w r w' :
  ends (waiting (Datatypes.S fuel)) w r w' ->
  (exists x t, r = Some x /\ at_moment w w' t /\ init_ended x t)
  \/ exists w1 t t1 t2, at_moment w w1 t /\ hclock t <= expiresAt
      /\ (hw_tick w <= t1)%nat /\ (t2 <= hw_tick w1)%nat /\ hclock t1 + 2 * second <= hclock t2
      /\ ends (waiting fuel) w1 r w'.
Proof.
  cbn [WaitInit]. intros H. apply ends_bind_inv in H as (a & w1 & H1 & H). apply ends_consult_inv in H1 as (t & Ht & ->).
  destruct (poll_answer _) as [x|] eqn:Ea.
  { apply ends_ret_inv in H as [-> Hle]. left. exists x, t. split; [done|]. split; [unfold at_moment in *; lia|by left]. }
  apply ends_bind_inv in H as (t0 & w2 & H2 & H). apply ends_consult_inv in H2 as (u & Hu & ->).
  destruct (Z.ltb_spec expiresAt (hclock u)) as [Hx|Hx].
  { apply ends_ret_inv in H as [-> Hle]. left. exists (Err ErrInitExpired), u. split; [done|].
    split; [unfold at_moment in *; lia|right; left; by split]. }
  apply ends_bind_inv in H as (t1 & w3 & H3 & H). apply ends_consult_inv in H3 as (v & Hv & ->).
  apply ends_bind_inv in H as (b & w4 & H4 & H). apply ends_choose_inv in H4 as (w5 & w6 & c & Hc & Hle1 & Hle2 & Hcw).
  unfold at_moment in *. destruct Hc as [->| ->].
  - destruct done as [d|] eqn:Ed; [|by discriminate]. unfold at_time in Hcw. destruct (Z.leb_spec d (hclock (hw_tick w5))); [|done].
    injection Hcw as <- <-. apply ends_ret_inv in H as [-> Hle]. left. eexists _, (hw_tick w5). split; [done|]. split; [lia|].
    right. right. split; [done|]. by exists d.
  - unfold at_time in Hcw. destruct (Z.leb_spec (hclock v + 2 * second) (hclock (hw_tick w5))); [|done].
    injection Hcw as <- <-. right. exists w4, u, v, (hw_tick w5). repeat (split; [first [done|lia]|]). done.
Qed.

(** Polling that goes on sees the clock below the expiry all the time. *)
Lemma wait_bound fuel w w' :
  clock_monotone -> ends (waiting (Datatypes.S fuel)) w None w' -> hclock (hw_tick w) + Z.of_nat fuel * (2 * second) <= expiresAt.
Proof.
  intros Hm. revert w. induction fuel as [|fuel IH]; intros w H;
    destruct (wait_turn _ _ _ _ H) as [(x & t & Hx & _)|(w1 & t & t1 & t2 & Ht & Hx & H1 & H2 & H3 & H')]; try done;
    unfold at_moment in Ht.
  - pose proof (Hm (hw_tick w) t). lia.
  - apply IH in H'. pose proof (Hm (hw_tick w) t1). pose proof (Hm t2 (hw_tick w1)). lia.
Qed.

(** Whatever the polling came to has its cause. *)
Lemma wait_cause fuel w r w' :
  ends (waiting fuel) w r w' -> r = None \/ exists x t, r = Some x /\ at_moment w w' t /\ init_ended x t.
Proof.
  revert w. induction fuel as [|fuel IH]; intros w H.
  - left. cbn [WaitInit] in H. by apply ends_ret_inv in H as [-> _].
  - destruct (wait_turn _ _ _ _ H) as [Hx|(w1 & t & t1 & t2 & Ht & _ & _ & _ & _ & H')]; [by right|].
    destruct (IH _ H') as [->|(x & u & -> & Hu & Hx)]; [by left|]. right. exists x, u.
    split; [done|]. split; [unfold at_moment in *; lia|done].
Qed.

Lemma ends_sleep (c : HWorld -> option (bool * HWorld)) due w :
  clock_advances -> hw_dead w = false -> (forall w x w1, c w = Some (x, w1) -> w1 = w) ->
  exists b w', ends (choose [c; at_time due false]) w b w' /\ hw_dead w' = false.
Proof.
  intros Hc Hd Hcw. destruct (Hc due) as [n Hn]. pose (w1 := Nat.iter n htick w).
  assert (w1 = set_htick (n + hw_tick w) w) as Hw1 by apply iter_htick.
  assert (hw_dead w1 = false) as Hd1 by by rewrite Hw1.
  assert (at_time due false w1 = Some (false, w1)) as Ht.
  { unfold at_time. rewrite (proj2 (Z.leb_le _ _)); [done|]. apply Hn. rewrite Hw1. cbn. lia. }
  destruct (c w1) as [[b w2]|] eqn:Ec.
  - pose proof (Hcw _ _ _ Ec) as ->. pose (i := (pick_case (hw_tick w1) mod 2)%nat).
    assert (i = 0 \/ i = 1)%nat as Hi by (pose proof (Nat.mod_upper_bound (pick_case (hw_tick w1)) 2); lia).
    exists (if decide (i = 0%nat) then b else false), (htick w1). split; [|done].
    apply (ends_ticks n); [done|]. fold w1. eapply ends_step; [|apply ends_ret].
    cbn beta. rewrite Hd1. cbn [omap list_omap]. rewrite Ec, Ht. cbn [length]. fold i. by destruct Hi as [-> | ->].
  - exists false, (htick w1). split; [|done]. apply (ends_ticks n); [done|]. fold w1. eapply ends_step; [|apply ends_ret].
    cbn beta. rewrite Hd1. cbn [omap list_omap]. rewrite Ec, Ht. cbn [length]. by rewrite Nat.mod_1_r.
Qed.

Lemma wait_ends fuel w : clock_advances -> hw_dead w = false -> exists r w', ends (waiting fuel) w r w'.
Proof.
  intros Hc. revert w. induction fuel as [|fuel IH]; intros w Hd; cbn [WaitInit]; [eexists _, _; constructor|].
  assert (Hcon : forall X (f : nat -> X) w, hw_dead w = false -> ends (consult f) w (f (hw_tick w)) (htick w)).
  { intros X f w0 H0. eapply ends_step; [cbn; by rewrite H0|constructor]. }
  destruct (poll_answer (http_do (hw_tick w) call)) as [x|] eqn:Ea.
  { eexists _, _. eapply ends_bind; [by apply Hcon|]. cbn beta. rewrite Ea. constructor. }
  destruct (expiresAt <? hclock (hw_tick (htick w))) eqn:Ex.
  { eexists _, _. eapply ends_bind; [by apply Hcon|]. cbn beta. rewrite Ea. eapply ends_bind; [by apply Hcon|]. cbn beta.
    rewrite Ex. constructor. }
  destruct (ends_sleep (fun w => match done with Some d => at_time d true w | None => None end)
    (hclock (hw_tick (htick (htick w))) + 2 * second) (htick (htick (htick w)))) as (b & w' & Hw' & Hd'); [done|done| |].
  { intros w0 x w1. unfold at_time. destruct done; [case_match|]; [by intros [= _ <-]|done..]. }
  destruct (IH w' Hd') as (r & w2 & Hr).
  exists (if b then Some (Err (ErrOther "context deadline exceeded")) else r), (if b then w' else w2).
  eapply ends_bind; [by apply Hcon|]. cbn beta. rewrite Ea. eapply ends_bind; [by apply Hcon|]. cbn beta. rewrite Ex.
  eapply ends_bind; [by apply Hcon|]. eapply ends_bind; [exact Hw'|]. destruct b; [constructor|exact Hr].
Qed.

End Wait.
