(* ===== verification/Paired.v ===== *)
(** * From the slash command to the first connection

    The broker that hands out a token and the machine that asked for it: what
    the machine writes into its configuration gets it in. *)

From S2P Require Import Prelude Resume GoText Codec Json Protocol Store Tables World Sqlite Integrity StoreFacts CoreText Sender Hub HubFacts Posts Core CoreGuards Onboarding OnboardingFacts System Tokens.
From S2P Require Import Rely HarnessText HarnessWorld StateFiles Daemon JobRunFacts Setup SetupFacts Pairing.

Open Scope Z_scope.
Open Scope prog_scope.

(** The body of [GET /init/{code}]. *)
Definition InitResult_json (x : Onboarding.InitResult) : json := enc_struct [
  member "harness_id" (enc_string (ir_HarnessID x)); member "token" (enc_string (ir_Token x));
  member "mm_user_id" (enc_string (ir_MMUserID x)); member "username" (enc_string (ir_Username x));
  member "bot_username" (enc_string (ir_BotUsername x))].

Section Paired.
Context {E : Env} `{!NoFaults E} {C : Config} (hub : HubConfig) {HE : HEnv} {S : SetupEnv}.

Definition result_text_ok (x : Onboarding.InitResult) : Prop :=
  valid_utf8 (ir_HarnessID x) /\ valid_utf8 (ir_Token x) /\ valid_utf8 (ir_MMUserID x).

(** The machine reads what the broker wrote. *)
Lemma init_result_read x a r :
  result_text_ok x -> haStatus a = 200 -> haDoc a = Some (InitResult_json x) -> poll_answer (Ok a) = Some (Ok r) ->
  irHarnessID r = ir_HarnessID x /\ irToken r = ir_Token x /\ irMMUserID r = ir_MMUserID x.
Proof.
  intros (H1 & H2 & H3) Hs Hd. unfold poll_answer. rewrite Hs. cbn [Z.eqb Pos.eqb]. unfold body_as. rewrite Hd.
  unfold InitResult_json, enc_struct, dec_struct. cbn [concat app member].
  repeat (erewrite dec_member_step; [|reflexivity|eapply field_round; [apply dec_string_repairs|reflexivity]]).
  cbn. intros [= <-]. cbn. by rewrite H1, H2, H3.
Qed.

(** [ApplyInit] saves the identity it was given. *)
Lemma applied url r name m c m' :
  Resume.run (ApplyInit url r name) m = Some (Ok c, m') ->
  fcHarnessID c = irHarnessID r /\ fcToken c = irToken r /\ fcOwnerMMUserID c = irMMUserID r
  /\ hw_files m' !! ConfigPath = Some (Doc (Config_json c)).
Proof.
  intros Hr. assert (throughout (fun _ => True) (ApplyInit url r name) (fun res m' => forall c, res = Ok c ->
    fcHarnessID c = irHarnessID r /\ fcToken c = irToken r /\ fcOwnerMMUserID c = irMMUserID r
    /\ hw_files m' !! ConfigPath = Some (Doc (Config_json c))) m) as H.
  { assert (HT : forall w0 w1 : HWorld, hw_files w1 = hw_files w0 -> True -> True) by done.
    unfold ApplyInit, existing_config. apply throughout_bind, throughout_bind, (quiet_ReadFile _ HT); [done|].
    intros b w1 _ _ _. apply throughout_ret; [done|]. cbv zeta. apply throughout_bind.
    eapply throughout_mono; [| |apply save_throughout]; [done|]. unfold flushed. intros res w2 _ [_ Hf].
    apply throughout_ret; [done|]. intros c' Hc'. destruct res as [[]|]; [|done]. injection Hc' as <-. cbn.
    repeat (split; [done|]). by apply Hf. }
  by apply (throughout_run _ _ _ _ _ _ H Hr).
Qed.

(** C11. A paired machine gets in.  Take any state that any interleaving of the
    broker's handlers can reach, and let a poll with the machine's secret hand out
    a result there.  When the machine reads that answer and [ApplyInit] reports
    success, its configuration file holds a configuration whose token
    authenticates, in every later state of the broker, whatever ran in between, as
    the harness and for the owner that the configuration names. *)
Theorem paired_machine_gets_in w0 ps w code pollToken x w1 a r url name m c m' :
  db_wf (w_db w0) -> tokens_backed (w_db w0) -> reach (broker_entry hub) ([], w0) (ps, w) ->
  Resume.run (PollInit code pollToken) w = Some (Ok x, w1) ->
  result_text_ok x -> haStatus a = 200 -> haDoc a = Some (InitResult_json x) -> poll_answer (Ok a) = Some (Ok r) ->
  Resume.run (ApplyInit url r name) m = Some (Ok c, m') ->
  hw_files m' !! ConfigPath = Some (Doc (Config_json c))
  /\ forall c2, reach (broker_entry hub) (ps, w1) c2 ->
       wp (authenticate ("Bearer " +:+ fcToken c)) (fun a _ => exists h, a = Ok h
         /\ hID h = fcHarnessID c /\ hMMUserID h = fcOwnerMMUserID c) c2.2.
Proof.
  intros Hwf Hb Hreach Hpoll Htext Hs Hd Hread Happly.
  destruct (init_result_read x a r Htext Hs Hd Hread) as (E1 & E2 & E3).
  destruct (applied url r name m c m' Happly) as (-> & -> & -> & Hf). split; [done|]. intros c2 H2.
  pose proof (paired_machine_authenticates hub w0 ps w code pollToken Hwf Hb Hreach) as H.
  rewrite E1, E2, E3. by apply (wp_run _ _ _ _ _ H Hpoll x c2).
Qed.
End Paired.
