(* ===== verification/HarnessDemo.v ===== *)
(** * A daemon at work

    A concrete machine with one job, used to show that the theorems' hypotheses
    can hold, and three runs of it: the owner allows a tool call; an approval
    that arrives while its job ends stops the whole daemon; a dispatch that is
    sent again after its job ended runs a second time. *)

From S2P Require Import Prelude Resume GoText Codec Json Protocol Rely HarnessText HarnessWorld StateFiles HarnessClient Daemon DaemonSafety DaemonSystem DaemonFacts JobRunFacts.

Open Scope Z_scope.
Open Scope prog_scope.

Definition harness_demo_config : HarnessConfig :=
  MkHarnessConfig "https://broker" "alice" {["infra" := "/src/infra"]} "/home/alice/.harness" "claude"
    ["Read"] [] 1 40 30 "".

Definition demo_dispatch : JobDispatch :=
  MkJobDispatch "bot1" "" "" "fix the build" (MkThread "ch1" "root1" "post1") (MkRequester "alice" "alice") [] []
    (MkLimits 0 0).
Definition demo_welcome : Envelope :=
  new_envelope "msg_w" 0 TypeWelcome "" (MkWelcome "h1" 15000 0 []).
Definition demo_dispatch_env : Envelope := new_envelope "msg_d" 0 TypeJobDispatch "job_1" demo_dispatch.
Definition demo_response (approvalID : string) : Envelope :=
  new_envelope "msg_r" 0 TypeApprovalResponse "job_1" (MkApprovalResponse approvalID "allow" "alice" 0).
Definition demo_request : Request := MkRequest "job_1" "Bash" (MkRaw "{}" (Some (JObj []))) "tool_1".

(** The first frame is the welcome, the second the dispatch; [third] comes
    after the moment [late]; [broker] tells whether it can be reached, [agent]
    what an agent does. *)
Definition harness_demo_machine (broker : res unit) (agent : list RunStep * res Result) (dispatch : Envelope) (late : nat) (third : Envelope)
    : HEnv := {|
  hclock t := Z.of_nat t * second;
  hulid t := Itoa (Z.of_nat t);
  pick_case _ := 0%nat;
  dial _ := broker;
  frame_write _ _ _ := Ok tt;
  frame_read t _ := Some (Ok (if (t <? 7)%nat then demo_welcome
                              else if (t <? late)%nat then dispatch else third));
  CloseStatus _ := -1;
  jitter_below _ _ := 0;
  mkdir_fault _ := None;
  write_fault _ := None;
  rename_fault _ := None;
  agent_approvals _ := true;
  agent_run _ _ _ := agent;
  decode_error _ := "bad";
  read_request _ := Some demo_request;
  hostname _ := "laptop";
  state_dir := "/state";
  self_path := "/bin/mhb";
  temp_dir := "/tmp";
  pid := 7;
  agent_check _ := None;
  next_tick t d := Z.of_nat t * second + d;
  harness_version := "1.0.0"
|}.

Definition harness_demo_env : nat -> Envelope -> HEnv :=
  harness_demo_machine (Ok tt) ([], Ok (MkResult StatusSucceeded "done" "s1" 3 0%Q 1200 "" "")) demo_dispatch_env.

(** An agent that stops only when its context ends, and a job of at most a
    minute. *)
Definition limited_dispatch : JobDispatch :=
  MkJobDispatch "bot1" "" "" "watch the build" (MkThread "ch1" "root1" "post1") (MkRequester "alice" "alice") [] []
    (MkLimits 0 60000).
Definition stubborn_agent : list RunStep * res Result :=
  ([Snapshot (MkAgentEvent "s1" "watching" "" 1); Tick; AwaitContext],
   Ok (MkResult StatusCancelled "watching" "s1" 1 0%Q 60000 "cancelled" "context deadline exceeded")).
Definition limited_env : HEnv :=
  harness_demo_machine (Ok tt) stubborn_agent (new_envelope "msg_d" 0 TypeJobDispatch "job_1" limited_dispatch) 1000 demo_welcome.

(** The broker is away. *)
Definition offline_env : HEnv :=
  harness_demo_machine (Err (ErrOther "connection refused")) stubborn_agent demo_dispatch_env 1000 demo_welcome.

Definition demo_start : HWorld := daemon_start ∅ ∅ ∅.
Definition demo_agents : list string := ["claude"].

(** The first five are in the order in which they can first run; the last two
    take what was started by then. *)
Definition demo_threads {E : HEnv} : list (prog HWorld unit) :=
  [schedule_goroutine harness_demo_config demo_agents 0;    (* the connection *)
   schedule_goroutine harness_demo_config demo_agents 1;    (* the first read *)
   schedule_goroutine harness_demo_config demo_agents 1;    (* the job *)
   permission_handle harness_demo_config;
   schedule_goroutine harness_demo_config demo_agents 1;    (* the next read *)
   schedule_goroutine harness_demo_config demo_agents 1].   (* a second job *)

Definition steps (i n : nat) : list nat := repeat i n.
Definition demo_run {E : HEnv} (schedule : list nat) : HWorld := (exec_schedule schedule demo_threads demo_start).2.

Section Runs.
Context {E : HEnv}.

Lemma spawn_all (entry : prog HWorld unit -> Prop) new ps w :
  Forall entry new -> reach entry (ps, w) (ps ++ new, w).
Proof.
  intros Hn. revert ps. induction Hn as [|p new Hp _ IH]; intros ps; [rewrite app_nil_r; apply rtc_refl|].
  eapply rtc_l; [by apply cs_spawn|]. change (p :: new) with ([p] ++ new). rewrite app_assoc. apply IH.
Qed.

Lemma demo_run_reached schedule : daemon_reaches harness_demo_config demo_agents (demo_run schedule).
Proof.
  exists ∅, ∅, ∅, (exec_schedule schedule demo_threads demo_start).1. etrans.
  - apply (spawn_all _ demo_threads []). repeat constructor.
  - rewrite app_nil_l. unfold demo_run. rewrite <- surjective_pairing. apply exec_schedule_reach.
Qed.
End Runs.

(** Connect, read the dispatch, and start the job; its agent has not run yet. *)
Definition job_accepted : list nat := steps 0 30 ++ steps 1 30.
Definition job_running : list nat := job_accepted ++ steps 2 6.

(** A tool call is made before the job's goroutine begins to run. *)
Definition call_before_run : list nat := job_accepted ++ steps 3 30.

(** A tool call of the job waits for the owner. *)
Definition job_waits : list nat := job_running ++ steps 3 30.

(** The third frame is the owner's answer to the approval that the request
    leads to. *)
Definition approving_env : HEnv := harness_demo_env 20 (demo_response "apr_15").
(** The third frame is the dispatch again. *)
Definition resending_env : HEnv := harness_demo_env 1000 demo_dispatch_env.

Definition allow_schedule : list nat := job_waits ++ steps 4 30 ++ steps 3 10.
(** The response is looked up, then the job ends, then the response is sent. *)
Definition panic_schedule : list nat := job_waits ++ steps 4 3 ++ steps 2 30 ++ steps 4 30.
(** The job ends, then the frame is read. *)
Definition twice_schedule : list nat := job_accepted ++ steps 2 60 ++ steps 4 40 ++ steps 5 60.

Definition agent_runs (tr : list HEvent) : list (string * string) :=
  omap (fun ev => match ev with HvAgent jobID _ opt => Some (jobID, opPrompt opt) | _ => None end) tr.
Definition acceptances (tr : list HEvent) : list bool :=
  omap (fun ev => match ev with
                  | HvSend _ env true => if String.eqb (en_Type env) TypeAck then Some (ak_OK (Decode env).1) else None
                  | _ => None end) tr.
Definition panics (tr : list HEvent) : list string :=
  omap (fun ev => match ev with HvPanic what => Some what | _ => None end) tr.

Example allowed : omap (fun ev => match ev with HvAnswer _ dec => Some (cdBehavior dec) | _ => None end)
    (hw_trace (demo_run (E := approving_env) allow_schedule)) = ["allow"].
Proof. vm_compute. reflexivity. Qed.


(** A dispatch that is sent again, as an unacknowledged message is, is
    only recognised while its job runs: when the job ended in between, the
    same dispatch is accepted again and the agent runs a second time on the
    same prompt. *)
Theorem dispatch_runs_twice :
  let w := demo_run (E := resending_env) twice_schedule in
  daemon_reaches (E := resending_env) harness_demo_config demo_agents w
  /\ agent_runs (hw_trace w) = [("job_1", "fix the build"); ("job_1", "fix the build")]
  /\ acceptances (hw_trace w) = [true; true].
Proof. split; [apply demo_run_reached | vm_compute; split; reflexivity]. Qed.
