(* ===== verification/SetupWitnesses.v ===== *)
(** * Setting up a harness, at concrete inputs

    A machine with a configuration directory and a broker that answers "not yet"
    twice; the theorems of [SetupFacts], [Pairing] and [Paired] at it. *)

From S2P Require Import Prelude Resume GoText Codec Json Protocol Store Tables World Sqlite CoreText Sender Hub Core Onboarding System Tokens Demo Witnesses.
From S2P Require Import Rely HarnessText HarnessWorld StateFiles Daemon JobRunFacts Setup SetupFacts Pairing Paired HarnessDemo.

Open Scope Z_scope.
Open Scope prog_scope.

(** Claimed at the moment 8. *)
Definition demo_poll (t : nat) : HTTPAnswer :=
  if (t <? 8)%nat then MkHTTPAnswer 202 "202 Accepted" "" None
  else MkHTTPAnswer 200 "200 OK" "" (Some (JObj [("harness_id", JStr "hrn_1"); ("token", JStr "hrt_secret"); ("mm_user_id", JStr "alice")])).

#[local] Instance demo_setup : SetupEnv := {|
  getenv name := if String.eqb name "MM_HARNESS_CONFIG_DIR" then "/etc/mhb" else "";
  UserHomeDir := Some "/home/alice";
  UserConfigDir := Some "/home/alice/.config";
  Getwd _ := Some "/home/alice";
  is_dir _ d := if String.eqb d "/home/alice/code" then Ok true else Err (ErrOther "no such file or directory");
  LookPath _ _ := None;
  read_fault _ := None;
  http_do t _ := Ok (demo_poll t);
  parse_time _ := None;
  parse_error _ := "bad"
|}.
#[local] Existing Instance approving_env.

Definition demo_file_config : FileConfig :=
  set_fcWorkspaces (Some {["code" := "/home/alice/code"]})
    (set_fcModel "opus" (paired "https://broker" "hrn_1" "hrt_secret" "alice" "laptop" DefaultConfig)).

Lemma demo_file_ints : ints_ok demo_file_config.
Proof. vm_compute. repeat split; discriminate. Qed.

Lemma config_round_trip_witness :
  loads (cut 1 (SaveConfig demo_file_config) demo_start) = None
  /\ exists w', Resume.run (SaveConfig demo_file_config) demo_start = Some (Ok tt, w') /\ loads w' = Some demo_file_config.
Proof.
  assert (text_ok demo_file_config) as Ht.
  { split; [repeat constructor|]. split; [|split; repeat constructor].
    unfold demo_file_config. cbn -[valid_utf8]. apply map_Forall_singleton. by split; vm_compute. }
  destruct (config_round_trip demo_file_config demo_start Ht demo_file_ints) as [_ H].
  split; [vm_compute; reflexivity|].
  assert (match Resume.run (SaveConfig demo_file_config) demo_start with Some (Ok _, _) => true | _ => false end = true) as Hr
    by (vm_compute; reflexivity).
  destruct (Resume.run (SaveConfig demo_file_config) demo_start) as [[[[]|e] w']|]; [|done..].
  exists w'. split; [done|]. by apply H.
Defined.

Definition configured : HWorld :=
  match Resume.run (SaveConfig demo_file_config) demo_start with Some (_, w) => w | None => demo_start end.

(** Adding a directory that is there changes the file; [workspace_add] of one
    that is not leaves it. *)
Lemma config_stays_valid_witness :
  let w' := cut 30 (workspace_add "here" "code") configured in
  hw_files w' !! ConfigPath <> hw_files configured !! ConfigPath
  /\ (hw_files w' !! ConfigPath = hw_files configured !! ConfigPath \/ exists c, loads w' = Some c /\ well_formed c).
Proof.
  split; [vm_compute; discriminate|]. exact (proj1 (config_stays_valid configured 30) "here" "code").
Defined.


(** ** The broker of [Demo] and this machine *)

Definition demo_result : Onboarding.InitResult :=
  match Resume.run (PollInit "DONECODE" "poll") Demo.demo_world with
  | Some (Ok x, _) => x
  | _ => Onboarding.MkInitResult "" "" "" "" ""
  end.
Definition demo_answer : HTTPAnswer := MkHTTPAnswer 200 "200 OK" "" (Some (InitResult_json demo_result)).
Definition demo_read : InitResult := MkInitResult "hrn_1" "secret" "alice" (ir_Username demo_result) "alice-bot".

Lemma paired_machine_gets_in_witness :
  exists w1 c m', Resume.run (PollInit "DONECODE" "poll") Demo.demo_world = Some (Ok demo_result, w1)
    /\ Resume.run (ApplyInit "https://broker/" demo_read "laptop") demo_start = Some (Ok c, m')
    /\ hw_files m' !! ConfigPath = Some (Doc (Config_json c))
    /\ wp (authenticate ("Bearer " +:+ fcToken c)) (fun a _ => exists h, a = Ok h
         /\ hID h = fcHarnessID c /\ hMMUserID h = fcOwnerMMUserID c) w1.
Proof.
  assert (match Resume.run (PollInit "DONECODE" "poll") Demo.demo_world with Some (Ok _, _) => true | _ => false end = true) as Hok
    by (vm_compute; reflexivity).
  assert (match Resume.run (ApplyInit "https://broker/" demo_read "laptop") demo_start with Some (Ok _, _) => true | _ => false end = true)
    as Hok' by (vm_compute; reflexivity).
  assert (forall w1 c m', Resume.run (PollInit "DONECODE" "poll") Demo.demo_world = Some (Ok demo_result, w1) ->
    Resume.run (ApplyInit "https://broker/" demo_read "laptop") demo_start = Some (Ok c, m') ->
    hw_files m' !! ConfigPath = Some (Doc (Config_json c))
    /\ forall c2, reach (broker_entry demo_hub) ([], w1) c2 ->
         wp (authenticate ("Bearer " +:+ fcToken c)) (fun a _ => exists h, a = Ok h
           /\ hID h = fcHarnessID c /\ hMMUserID h = fcOwnerMMUserID c) c2.2) as H.
  { intros w1 c m' H1 H2. refine (paired_machine_gets_in demo_hub Demo.demo_world [] Demo.demo_world "DONECODE" "poll" demo_result w1
      demo_answer demo_read "https://broker/" "laptop" demo_start c m' demo_db_wf Witnesses.demo_tokens_backed _ H1 _ _ _ _ H2).
    - constructor.
    - repeat split; vm_compute; reflexivity.
    - reflexivity.
    - reflexivity.
    - vm_compute. reflexivity. }
  destruct (Resume.run (PollInit _ _) _) as [[[x|e] w1]|] eqn:E1; [|discriminate..].
  destruct (Resume.run (ApplyInit _ _ _) _) as [[[c|e] m']|] eqn:E2; [|discriminate..].
  assert (x = demo_result) as -> by (unfold demo_result; rewrite E1; reflexivity).
  exists w1, c, m'. destruct (H w1 c m' eq_refl eq_refl) as [Hf Ha]. repeat (split; [done|]). apply (Ha ([], w1)). constructor.
Defined.
