(* ===== verification/EndToEndWitnesses.v ===== *)
(** * A click in Mattermost, followed to the tool

    The broker of [Demo.v] with one running job and one open approval, and the
    daemon of [HarnessDemo.v] that runs the job.  Alice clicks "allow"; the
    answer the broker sends is the third frame the daemon reads. *)

From S2P Require Import Prelude Resume GoText Codec Json Protocol Store Tables World Sqlite Integrity StoreFacts CoreText Sender Hub HubFacts Posts Core CoreGuards CoreFacts Onboarding OnboardingFacts System Demo Rely Provenance HarnessText HarnessWorld StateFiles HarnessClient Daemon DaemonSafety DaemonSystem EndToEnd Mcp McpFacts Bridge DaemonFacts JobRunFacts HarnessDemo.

Open Scope Z_scope.

Definition shared_job : Job :=
  MkJob "job_1" "hrn_1" "alice" "ch1" "root1" "post1" "status1" "bot1" "" "fix the build" JobAwaitingApproval 3
    "" "" epoch epoch None None.
Definition shared_approval : Approval :=
  MkApproval "apr_15" "job_1" "Bash" "{}" None "nonce" epoch (epoch + 30 * minute) "" "" None.
Definition shared_db : DB :=
  MkDB {[ "hrn_1" := demo_harness ]} {[ "bot1" := bot_row demo_bot ]} ∅ ∅ ∅
    {[ "job_1" := shared_job ]} {[ "apr_15" := approval_row shared_approval ]} ∅ [].

(** What the daemon has been sent so far. *)
Definition shared_world : World :=
  record [EvSend 7%nat demo_welcome true; EvSend 7%nat demo_dispatch_env true]
    (set_conns {[ "hrn_1" := 7%nat ]} (set_db shared_db empty_world)).

Definition alice_allows : CallbackRequest :=
  MkCallbackRequest "alice" "name-alice" "post" [("approval_id", JStr "apr_15"); ("decision", JStr Allow);
    ("sig", JStr (sign "apr_15" Allow "nonce"))].
Definition clicked : list (prog World unit) * World :=
  exec_schedule (repeat 0%nat 30) [forget (HandleCallback alice_allows)] shared_world.
Definition answers (tr : list Event) : list Envelope :=
  omap (fun ev => match ev with EvSend _ env true => if String.eqb (en_Type env) TypeApprovalResponse then Some env else None
                  | _ => None end) tr.
Ltac in_trace n := apply (list_elem_of_lookup_2 _ n); vm_compute; reflexivity.

Definition the_answer : Envelope := default demo_welcome (head (answers (w_trace clicked.2))).

(** The broker before the click vouches for what it has sent. *)
Lemma shared_db_wf : db_wf shared_db.
Proof.
  split.
  1-6: lazymatch goal with |- keyed ?id ?t => change (map_Forall (fun k x => id x = k) t) end; by_rows.
  1-3: apply unique_by_pairs; by_rows.
  all: apply references_by_rows; by_rows.
Qed.

Lemma shared_authentic : authentic shared_world.
Proof.
  split; [exact shared_db_wf | apply map_Forall_empty |].
  intros c env ok Hin. cbn in Hin. apply elem_of_cons in Hin as [[= -> -> ->]|Hin].
  - apply stands_other. by_rows.
  - apply list_elem_of_singleton in Hin as [= -> -> ->]. split; [intros H; vm_compute in H; discriminate H|].
    intros _. exists HarnessDemo.demo_dispatch. split; [reflexivity|]. exists shared_job.
    split; [vm_compute; reflexivity|]. repeat split.
Qed.

Lemma click_reached : reach (broker_entry demo_hub) ([], shared_world) (clicked.1, clicked.2).
Proof.
  rewrite <- surjective_pairing.
  etrans; [apply rtc_once; apply (cs_spawn _ [] shared_world); apply (entry_callback demo_hub alice_allows)|].
  apply exec_schedule_reach.
Qed.

(** The daemon reads the welcome, the dispatch and the answer. *)
Definition answered_env : HEnv := harness_demo_env 20 the_answer.
Definition answered : HWorld := demo_run (E := answered_env) allow_schedule.

Definition received (tr : list HEvent) : list Envelope :=
  omap (fun ev => match ev with HvRecv _ env => Some env | _ => None end) tr.

Lemma answered_delivered : delivered clicked.2 answered.
Proof.
  intros c env Hin.
  assert (env ∈ received (hw_trace answered)) as Hr by (apply list_elem_of_omap; by eexists).
  replace (received (hw_trace answered)) with [demo_welcome; demo_dispatch_env; the_answer] in Hr
    by (vm_compute; reflexivity).
  repeat (apply elem_of_cons in Hr as [->|Hr]); [..|by apply not_elem_of_nil in Hr]; exists 7%nat, true.
  - in_trace 0%nat.
  - in_trace 1%nat.
  - in_trace 2%nat.
Qed.


(** The tool ran, since Alice clicked. *)
Lemma tools_run_only_if_owner_allowed_witness : exists dec, HvAnswer demo_request dec ∈ hw_trace answered
  /\ exists id a j, t_approvals (w_db clicked.2) !! id = Some a /\ t_jobs (w_db clicked.2) !! "job_1" = Some j
       /\ ar_decision a = Some DecisionAllow /\ ar_decided_by a = Some (jMMUserID j).
Proof.
  set (dec := MkCallDecision "allow" (rqInput demo_request) ""). exists dec.
  assert (H : HvAnswer demo_request dec ∈ hw_trace answered) by in_trace 12%nat.
  split; [exact H|].
  destruct (tools_run_only_if_owner_allowed (HE := answered_env) demo_hub harness_demo_config demo_agents shared_world
    clicked.1 clicked.2 answered shared_authentic click_reached (demo_run_reached _)
    answered_delivered demo_request _ H eq_refl) as (_ & id & a & j & _ & Ha & _ & Hj & Hd & Hby & _).
  exact (ex_intro _ id (ex_intro _ a (ex_intro _ j (conj Ha (conj Hj (conj Hd Hby)))))).
Defined.

Lemma agents_run_only_broker_jobs_witness : exists opt j before after,
  HvAgent "job_1" "claude" opt ∈ hw_trace answered
  /\ t_jobs (w_db clicked.2) !! "job_1" = Some j /\ jPrompt j = "fix the build" /\ jMMUserID j = "alice"
  /\ opPrompt opt = before +:+ "fix the build" +:+ after.
Proof.
  assert (H : exists opt, HvAgent "job_1" "claude" opt ∈ hw_trace answered) by (eexists; in_trace 5%nat).
  destruct H as (opt & Hin).
  destruct (agents_run_only_broker_jobs (HE := answered_env) demo_hub harness_demo_config demo_agents shared_world
    clicked.1 clicked.2 answered shared_authentic click_reached (demo_run_reached _)
    answered_delivered "job_1" "claude" opt Hin) as (conn & env & d & j & before & after & _ & (Hj & _ & _) & Hp & _).
  assert (E : jPrompt j = "fix the build" /\ jMMUserID j = "alice" /\ to_valid (jPrompt j) = "fix the build").
  { vm_compute in Hj. injection Hj as <-. split; [reflexivity|]. split; [reflexivity|]. vm_compute. reflexivity. }
  destruct E as (E1 & E2 & E3). rewrite E3 in Hp.
  exact (ex_intro _ opt (ex_intro _ j (ex_intro _ before (ex_intro _ after (conj Hin (conj Hj (conj E1 (conj E2 Hp)))))))).
Defined.

(** ** To the CLI's standard input

    The CLI asks the permission tool about the same call, and pings while it
    waits; whatever job it names, the server's is asked about. *)

Definition demo_json_text (j : json) : string := match j with JObj [] => "{}" | _ => "text" end.
Definition no_socket : BridgeEnv := {|
  socket_call _ _ := Err (ErrOther "permission: dial"); json_text := demo_json_text; unmarshal_error _ := "bad" |}.
Definition the_decision : CallDecision := AllowCall (rqInput demo_request).

(** The daemon answers the call it was asked about. *)
#[local] Instance bridge_env : BridgeEnv := {|
  socket_call _ doc :=
    match unmarshal (@Request_fields no_socket) (@zero_request no_socket) (Some doc) with
    | Some (MkRequest job tool (MkRaw _ (Some (JObj []))) use) =>
        if String.eqb job "job_1" && String.eqb tool "Bash" && String.eqb use "tool_1"
        then Ok (Decision_json the_decision) else Err (ErrOther "permission: EOF")
    | _ => Err (ErrOther "permission: EOF")
    end;
  json_text := demo_json_text; unmarshal_error _ := "bad" |}.

Definition call_line : json := JObj [("jsonrpc", JStr "2.0"); ("id", JInt 2); ("method", JStr "tools/call");
  ("params", JObj [("name", JStr "approve"); ("arguments", JObj [("job_id", JStr "job_9"); ("tool_name", JStr "Bash");
     ("input", JObj []); ("tool_use_id", JStr "tool_1")])])].
Definition ping_line : json := JObj [("jsonrpc", JStr "2.0"); ("id", JStr "p"); ("method", JStr "ping")].
Definition cli_lines : list InputLine := map (MkInputLine 100)
  [Some (JObj [("jsonrpc", JStr "2.0"); ("method", JStr "notifications/initialized")]); Some call_line; Some ping_line].
Definition call_request : request := default (MkRPCRequest None "" None) (answerable (Some call_line)).
Definition ping_request : request := default (MkRPCRequest None "" None) (answerable (Some ping_line)).

(** The ping is answered first. *)
Definition cli_served : Serving :=
  MkServing [] None [] [respond (ServeStdio "job_1") 1 ping_request; respond (ServeStdio "job_1") 20 call_request] 20.

Lemma cli_run : rtc (serve_step (ServeStdio "job_1")) (serving cli_lines) cli_served.
Proof.
  etrans; [do 3 (eapply rtc_l; [by apply serve_reads|]); apply rtc_refl|].
  change (rtc (serve_step (ServeStdio "job_1")) (MkServing [] None [call_request; ping_request] [] 0) cli_served).
  eapply rtc_l; [|apply rtc_once].
  - exact (serve_answers _ [] None [call_request; ping_request] [] 0 1 ping_request 1 eq_refl (Nat.le_succ_diag_r 0)).
  - exact (serve_answers _ [] None [call_request] [respond (ServeStdio "job_1") 1 ping_request] 1 0 call_request 20 eq_refl
             ltac:(lia)).
Qed.

Lemma answered_socketed : socketed answered.
Proof.
  intros t req doc H. exists the_decision. cbn [socket_call bridge_env] in H.
  rewrite (@request_sent no_socket) in H. unfold sent_request in *. cbn [rwDoc raw_of] in H |- *.
  set (input := default JNull (rwDoc (rqInput req))) in *. destruct input as [| | | | | |[|]]; try done.
  destruct (String.eqb_spec (to_valid (rqJobID req)) "job_1") as [->|]; [|done].
  destruct (String.eqb_spec (to_valid (rqToolName req)) "Bash") as [->|]; [|done].
  destruct (String.eqb_spec (to_valid (rqToolUseID req)) "tool_1") as [->|]; [|done].
  cbn in H. injection H as <-. split; [in_trace 12%nat|done].
Qed.

Lemma cli_allowed_only_by_owner_witness :
  let resp := respond (ServeStdio "job_1") 20 call_request in
  resp ∈ sgOutput cli_served /\ rsID resp = JInt 2
  /\ exists r, r ∈ omap answerable (map inDoc cli_lines) /\ rpMethod r = "tools/call"
     /\ exists req dec, asks r req /\ rsReply resp = RpcResult (text_result (json_text (Decision_json dec)) false).
Proof.
  intros resp. assert (Hin : resp ∈ sgOutput cli_served) by (apply (list_elem_of_lookup_2 _ 1%nat); reflexivity).
  split; [exact Hin|]. split; [reflexivity|].
  destruct (cli_allowed_only_by_owner (HE := answered_env) demo_hub harness_demo_config demo_agents shared_world
    clicked.1 clicked.2 answered "job_1" shared_authentic click_reached (demo_run_reached _)
    answered_delivered answered_socketed cli_lines cli_served resp cli_run Hin) as (r & Hr & Hid & H).
  assert (Hm : rpMethod r = "tools/call").
  { replace (omap answerable (map inDoc cli_lines)) with [call_request; ping_request] in Hr by (vm_compute; reflexivity).
    apply elem_of_cons in Hr as [->|Hr]; [reflexivity|]. apply list_elem_of_singleton in Hr as ->. discriminate Hid. }
  exists r. split; [exact Hr|]. split; [exact Hm|]. destruct (H Hm) as [[e He]|(req & dec & Ha & Hd & _)].
  - vm_compute in He. discriminate He.
  - exact (ex_intro _ req (ex_intro _ dec (conj Ha Hd))).
Defined.
